(** * Storage: bitmap run-length encoder, session file access and floor
      mapping store of the floor-directory display firmware

    A shallow embedding of [Storage.cpp] / [Storage.h].  The member functions
    of the [Storage] singleton become functions in a state-and-error monad
    over a record holding the members [file], [bitmap] and [mappinglist]
    together with a model of the SD volume the [SdFat] library gives access
    to.  Fixed-width integers are [Z] with the wrap-around written out; an
    access outside an array, or a read of a cell nobody wrote, is undefined
    behaviour in C++ and is an explicit [Undefined] outcome here. *)

From Stdlib Require Import ZArith List String Ascii Bool Lia DecimalString.
From stdpp Require Import base option gmap strings.
Import ListNotations.

Local Open Scope Z_scope.

(** ** Fixed-width integers *)

Definition u8 (z : Z) : Z := z mod 256.
Definition u16 (z : Z) : Z := z mod 65536.
Definition u32 (z : Z) : Z := z mod 4294967296.
Definition i16 (z : Z) : Z := (z + 32768) mod 65536 - 32768.
Definition i32 (z : Z) : Z := (z + 2147483648) mod 4294967296 - 2147483648.

(** ** Outcomes

    [Done] is a normal return.  [Undefined] is a run that leaves the C++
    abstract machine: the fault records the first offending access.
    [OutOfFuel] only says that the loop bound handed to the model was too
    small. *)

Inductive fault : Type :=
| ReadPastEnd (byte_index : Z)        (* data[i] with i beyond the array *)
| ReadIndeterminate (byte_index : Z)  (* data[i] inside a new[] array, never written *)
| WritePastEnd (byte_index : Z)       (* data[i] = .. with i beyond the array *)
| NoTerminator                        (* a char array read as a string without NUL *)
| NoReturnValue.                      (* the end of a non-void function is reached *)

Inductive outcome (A : Type) : Type :=
| Done (a : A)
| Undefined (f : fault)
| OutOfFuel.
Arguments Done {A} a.
Arguments Undefined {A} f.
Arguments OutOfFuel {A}.

Definition obind {A B} (o : outcome A) (k : A -> outcome B) : outcome B :=
  match o with
  | Done a => k a
  | Undefined f => Undefined f
  | OutOfFuel => OutOfFuel
  end.

(** ** Heap arrays of bytes

    [new uint8_t[n]] gives [n] cells of indeterminate content. *)

Definition heap_array : Type := list (option Z).

Definition new_array (n : Z) : heap_array := repeat None (Z.to_nat n).

Definition array_get (data : heap_array) (i : Z) : outcome Z :=
  if i <? 0 then Undefined (ReadPastEnd i) else
  match nth_error data (Z.to_nat i) with
  | Some (Some b) => Done b
  | Some None => Undefined (ReadIndeterminate i)
  | None => Undefined (ReadPastEnd i)
  end.

Fixpoint list_set {A} (l : list A) (n : nat) (x : A) : list A :=
  match l, n with
  | [], _ => []
  | _ :: t, O => x :: t
  | h :: t, S n' => h :: list_set t n' x
  end.

Definition array_set (data : heap_array) (i : Z) (b : Z) : outcome heap_array :=
  if (0 <=? i) && (i <? Z.of_nat (length data))
  then Done (list_set data (Z.to_nat i) (Some b))
  else Undefined (WritePastEnd i).

(** ** Bit addressing *)

(** [static inline int16_t _translate(uint32_t x)]: the arithmetic is done
    in [uint32_t] and the result converted to [int16_t]. *)
Definition _translate (x : Z) : Z :=
  i16 (u32 (((x / 8) * 2 + 1) * 8 - 1 - x)).

(** [static inline bool _bitset(uint8_t const * const data, uint16_t index)] *)
Definition _bitset (data : heap_array) (index : Z) : outcome bool :=
  obind (array_get data (index / 8)) (fun b =>
  Done (negb (Z.land b (Z.shiftl 1 (index mod 8)) =? 0))).

(** The loop of [Storage::findPixel]: [index] is an [int16_t]; it is
    converted to [uint32_t] for [_translate], whose [int16_t] result is
    converted to the [uint16_t] parameter of [_bitset]. *)
Fixpoint findPixel_loop (fuel : nat) (data : heap_array) (pixel_state : bool)
    (index : Z) : outcome Z :=
  match fuel with
  | O => OutOfFuel
  | S fuel' =>
      obind (_bitset data (u16 (_translate (u32 index)))) (fun b =>
      if negb (Bool.eqb b pixel_state)
      then findPixel_loop fuel' data pixel_state (i16 (index + 1))
      else Done index)
  end.

(** ** The SD volume as [SdFat] presents it

    [SdFat] is a library the firmware links against, not part of it.  The
    model keeps what [Storage.cpp] relies on: a tree of files and
    directories addressed by '/'-separated paths (a leading '/' is
    optional, empty components are skipped), one [File] object with a
    cursor, and these open modes:
    - [SD.open(path)] is [O_READ]: the entry must exist, the cursor is 0;
    - [SD.open(path, FILE_WRITE)] is [O_RDWR | O_CREAT | O_AT_END]: a
      missing file is created empty, an existing one keeps its content,
      and the cursor is placed at the end of the file.
    Names are compared as written (FAT's case folding and 8.3 limits are
    left out).  The bytes of a directory are not modelled: a handle on a
    directory has nothing to read. *)

Inductive entry : Type :=
| EFile (content : list Z)
| EDir.

Fixpoint path_split (cur : string) (p : string) : list string :=
  match p with
  | EmptyString => match cur with EmptyString => [] | _ => [cur] end
  | String c p' =>
      if Ascii.eqb c "/"
      then match cur with
           | EmptyString => path_split EmptyString p'
           | _ => cur :: path_split EmptyString p'
           end
      else path_split (cur ++ String c EmptyString) p'
  end.

Definition path_components (p : string) : list string := path_split EmptyString p.

Definition join_path (cs : list string) : string := String.concat "/" cs.

(** The key of a path in the volume: its components joined by '/'. *)
Definition canon (p : string) : string := join_path (path_components p).

Definition parent_components (p : string) : list string :=
  removelast (path_components p).

Definition base_name (p : string) : string :=
  List.last (path_components p) "/"%string.

(** What happened on the volume, newest first. *)
Inductive sd_event : Type :=
| EvOpen (path : string)
| EvCreate (path : string)
| EvClose (path : string)
| EvRemove (path : string)
| EvMkdir (path : string)
| EvWrite (path : string) (position : Z) (bytes : list Z).

(** An open [File]: the file it is on, [curPosition()], and whether it was
    opened with [FILE_WRITE]. *)
Record handle : Type := {
  h_path : string;
  h_pos : Z;
  h_write : bool
}.

Definition vol_exists (v : gmap string entry) (p : string) : bool :=
  match path_components p with
  | [] => true
  | _ => match v !! canon p with Some _ => true | None => false end
  end.

Definition parent_is_dir (v : gmap string entry) (p : string) : bool :=
  match parent_components p with
  | [] => true
  | cs => match v !! join_path cs with Some EDir => true | _ => false end
  end.

(** ** The members of [Storage] *)

Inductive BitmapType : Type :=
| file_error | error | monochrome | monochrome_compressed | rgb888
| rgb888_compressed.

Record Bitmap : Type := {
  width : Z;           (* int32_t *)
  height : Z;          (* int32_t *)
  type : BitmapType;
  data : heap_array
}.

(** [char floorNo[3]; char bitmapName[20]; char bitmapName2[20]]: each
    field is kept as the C string it holds, the characters before the
    terminating NUL; [strcpy] into it checks the capacity. *)
Record Mapping : Type := {
  floorNo : string;
  bitmapName : string;
  bitmapName2 : string
}.

Record MappingList : Type := {
  n_mapped_floors : Z;        (* int32_t *)
  map_list : list Mapping     (* Mapping map_list[32] *)
}.

Record Storage : Type := {
  sd : gmap string entry;
  sd_log : list sd_event;
  file : option handle;
  bitmap : Bitmap;
  mappinglist : MappingList
}.

Definition set_sd (v : gmap string entry) (s : Storage) : Storage :=
  {| sd := v; sd_log := sd_log s; file := file s; bitmap := bitmap s;
     mappinglist := mappinglist s |}.
Definition log_event (e : sd_event) (s : Storage) : Storage :=
  {| sd := sd s; sd_log := e :: sd_log s; file := file s; bitmap := bitmap s;
     mappinglist := mappinglist s |}.
Definition set_file (f : option handle) (s : Storage) : Storage :=
  {| sd := sd s; sd_log := sd_log s; file := f; bitmap := bitmap s;
     mappinglist := mappinglist s |}.
Definition set_bitmap (b : Bitmap) (s : Storage) : Storage :=
  {| sd := sd s; sd_log := sd_log s; file := file s; bitmap := b;
     mappinglist := mappinglist s |}.
Definition set_mappinglist (m : MappingList) (s : Storage) : Storage :=
  {| sd := sd s; sd_log := sd_log s; file := file s; bitmap := bitmap s;
     mappinglist := m |}.

(** ** The monad of member functions *)

Definition M (A : Type) : Type := Storage -> outcome (A * Storage).

Definition ret {A} (a : A) : M A := fun s => Done (a, s).

Definition bind {A B} (m : M A) (k : A -> M B) : M B :=
  fun s => match m s with
           | Done (a, s') => k a s'
           | Undefined f => Undefined f
           | OutOfFuel => OutOfFuel
           end.

Definition lift {A} (o : outcome A) : M A :=
  fun s => match o with
           | Done a => Done (a, s)
           | Undefined f => Undefined f
           | OutOfFuel => OutOfFuel
           end.

Definition get : M Storage := fun s => Done (s, s).
Definition modify (f : Storage -> Storage) : M unit := fun s => Done (tt, f s).

Declare Scope storage_scope.
Delimit Scope storage_scope with storage.
Notation "x <- m ;; k" := (bind m (fun x => k))
  (at level 100, m at next level, right associativity) : storage_scope.
Notation "m ;;; k" := (bind m (fun _ => k))
  (at level 100, right associativity) : storage_scope.
Local Open Scope storage_scope.

(** ** [SdFat] calls *)

Definition SD_exists (p : string) : M bool :=
  s <- get ;; ret (vol_exists (sd s) p).

Definition SD_remove (p : string) : M bool :=
  s <- get ;;
  match sd s !! canon p with
  | Some (EFile _) =>
      modify (fun s => log_event (EvRemove (canon p)) (set_sd (delete (canon p) (sd s)) s)) ;;;
      ret true
  | _ => ret false
  end.

Definition SD_mkdir (p : string) : M bool :=
  s <- get ;;
  if vol_exists (sd s) p then ret false
  else if parent_is_dir (sd s) p then
    modify (fun s => log_event (EvMkdir (canon p)) (set_sd (<[canon p := EDir]> (sd s)) s)) ;;;
    ret true
  else ret false.

(** [SD.open(path)]: the returned [File] is closed ([None]) on failure. *)
Definition SD_open (p : string) : M (option handle) :=
  s <- get ;;
  if vol_exists (sd s) p then
    modify (log_event (EvOpen (canon p))) ;;;
    ret (Some {| h_path := canon p; h_pos := 0; h_write := false |})
  else ret None.

(** [SD.open(path, FILE_WRITE)] *)
Definition SD_open_write (p : string) : M (option handle) :=
  s <- get ;;
  match path_components p with
  | [] => ret None
  | _ =>
    match sd s !! canon p with
    | Some (EFile c) =>
        modify (log_event (EvOpen (canon p))) ;;;
        ret (Some {| h_path := canon p; h_pos := Z.of_nat (length c); h_write := true |})
    | Some EDir => ret None
    | None =>
        if parent_is_dir (sd s) p then
          modify (fun s => log_event (EvOpen (canon p)) (log_event (EvCreate (canon p))
                             (set_sd (<[canon p := EFile []]> (sd s)) s))) ;;;
          ret (Some {| h_path := canon p; h_pos := 0; h_write := true |})
        else ret None
    end
  end.

(** The content the open handle is on; a directory or a vanished file has
    none. *)
Definition handle_content (s : Storage) : option (list Z) :=
  match file s with
  | Some h => match sd s !! h_path h with
              | Some (EFile c) => Some c
              | _ => None
              end
  | None => None
  end.

(** [!file] is [negb (file_isOpen ..)] *)
Definition file_isOpen : M bool :=
  s <- get ;; ret (match file s with Some _ => true | None => false end).

Definition file_close : M unit :=
  s <- get ;;
  match file s with
  | Some h => modify (fun s => log_event (EvClose (h_path h)) (set_file None s))
  | None => ret tt
  end.

(** [file = SD.open(..)] *)
Definition file_assign (f : option handle) : M unit := modify (set_file f).

(** [file.size()] *)
Definition file_size : M Z :=
  s <- get ;;
  ret (match handle_content s with Some c => Z.of_nat (length c) | None => 0 end).

(** [file.position()] *)
Definition file_position : M Z :=
  s <- get ;; ret (match file s with Some h => h_pos h | None => 0 end).

(** [file.available()] *)
Definition file_available : M Z :=
  s <- get ;;
  ret (match file s, handle_content s with
       | Some h, Some c => Z.of_nat (length c) - h_pos h
       | _, _ => 0
       end).

(** [file.seek(pos)], [pos] a [uint32_t]: refused beyond the end of the
    file, the cursor then stays where it was. *)
Definition file_seek (pos : Z) : M bool :=
  s <- get ;;
  match file s with
  | Some h =>
      let size := match handle_content s with
                  | Some c => Z.of_nat (length c) | None => 0 end in
      if (pos =? 0) || (pos <=? size) then
        modify (set_file (Some {| h_path := h_path h; h_pos := pos; h_write := h_write h |})) ;;;
        ret true
      else ret false
  | None => ret false
  end.

(** [file.read()]: the next byte, or -1 at the end of the file. *)
Definition file_read : M Z :=
  s <- get ;;
  match file s, handle_content s with
  | Some h, Some c =>
      match nth_error c (Z.to_nat (h_pos h)) with
      | Some b =>
          modify (set_file (Some {| h_path := h_path h; h_pos := h_pos h + 1;
                                    h_write := h_write h |})) ;;;
          ret b
      | None => ret (-1)
      end
  | _, _ => ret (-1)
  end.

(** [file.write(data, amount)]: the bytes go in at the cursor, which moves
    past them; -1 when the handle cannot be written. *)
Definition file_write (bytes : list Z) : M Z :=
  s <- get ;;
  match file s, handle_content s with
  | Some h, Some c =>
      if h_write h then
        let n := Z.to_nat (h_pos h) in
        let c' := firstn n c ++ bytes ++ skipn (n + length bytes) c in
        modify (fun s =>
          log_event (EvWrite (h_path h) (h_pos h) bytes)
            (set_file (Some {| h_path := h_path h;
                               h_pos := h_pos h + Z.of_nat (length bytes);
                               h_write := true |})
               (set_sd (<[h_path h := EFile c']> (sd s)) s))) ;;;
        ret (Z.of_nat (length bytes))
      else ret (-1)
  | _, _ => ret (-1)
  end.

Definition byte_of_ascii (c : ascii) : Z := Z.of_N (N_of_ascii c).
Definition ascii_of_byte (b : Z) : ascii := ascii_of_N (Z.to_N (u8 b)).

Definition bytes_of_string (str : string) : list Z :=
  map byte_of_ascii (list_ascii_of_string str).

(** [file.print(str)] and [file.println(str)] of Arduino's [Print]:
    [println] sends the text followed by carriage return and line feed. *)
Definition file_print (str : string) : M Z := file_write (bytes_of_string str).

Definition file_println (str : string) : M Z :=
  n <- file_print str ;;
  m <- file_write [13; 10] ;;
  ret (n + m).

(** [file.getName(name, size)]: the last component of the path the file
    was opened on, cut to [size - 1] characters; the empty string when the
    file is not open. *)
Definition file_getName (size : nat) : M string :=
  s <- get ;;
  ret (match file s with
       | Some h => String.substring 0 (size - 1) (base_name (h_path h))
       | None => EmptyString
       end).

(** ** C strings and character arrays

    A [char] array is a list of characters of the declared length; the C
    string in it is what comes before the first NUL. *)

Definition NUL : ascii := Ascii.zero.

Fixpoint c_str (a : list ascii) : outcome string :=
  match a with
  | [] => Undefined NoTerminator
  | c :: a' =>
      if Ascii.eqb c NUL then Done EmptyString
      else obind (c_str a') (fun r => Done (String c r))
  end.

(** [char name[n] = "lit"]: the literal, then NULs up to [n]. *)
Definition char_array (n : nat) (lit : string) : list ascii :=
  list_ascii_of_string lit ++ repeat NUL (n - String.length lit).

(** [a[i] = c] *)
Definition char_set (a : list ascii) (i : Z) (c : ascii) : outcome (list ascii) :=
  if (0 <=? i) && (i <? Z.of_nat (length a))
  then Done (list_set a (Z.to_nat i) c)
  else Undefined (WritePastEnd i).

(** [strcmp], of which the code only asks whether it is zero. *)
Definition strcmp (a b : string) : Z := if String.eqb a b then 0 else 1.

(** [strcpy] into a [char] field of [cap] bytes: the string and its
    terminator must fit. *)
Definition strcpy_into (cap : nat) (src : string) : outcome string :=
  if (String.length src <? cap)%nat then Done src
  else Undefined (WritePastEnd (Z.of_nat cap)).

(** [strtok(buf, ".")] used for its effect on [buf]: leading dots are
    skipped, and the first dot after the token is overwritten with NUL.
    Without a token the array is left as it is. *)
Fixpoint cut_at_dot (s : string) : string :=
  match s with
  | EmptyString => EmptyString
  | String c s' => if Ascii.eqb c "." then EmptyString else String c (cut_at_dot s')
  end.

Fixpoint strtok_dot (s : string) : string :=
  match s with
  | EmptyString => EmptyString
  | String c s' =>
      if Ascii.eqb c "." then String c (strtok_dot s') else cut_at_dot s
  end.

(** [String(n)] of an unsigned number: its decimal digits. *)
Definition String_of (n : Z) : string :=
  NilZero.string_of_uint (Nat.to_uint (Z.to_nat n)).

(** ** Header reader

    The [static] helpers take [File &file]; every call passes
    [this->file].  The [file.read()] calls inside one expression are taken
    in the order they are written. *)

Definition _readDIB : M Z :=
  file_seek 14 ;;;
  b0 <- file_read ;;
  b1 <- file_read ;;
  ret (u16 (Z.shiftl (u16 b0) 0 + Z.shiftl (u16 b1) 8)).

Definition _readOffset : M Z :=
  file_seek 10 ;;;
  b0 <- file_read ;;
  b1 <- file_read ;;
  b2 <- file_read ;;
  b3 <- file_read ;;
  ret (u32 (u32 b0 + u32 (Z.shiftl (u32 b1) 8) + u32 (Z.shiftl (u32 b2) 16)
            + u32 (Z.shiftl (u32 b3) 24))).

(** The four-read expression
    [(int32_t)file.read() + ((int32_t)file.read() << 8) + ... << 24]
    that [_readWidth] and [_readHeight] both spell out after their seek. *)
Definition read_int32_le : M Z :=
  b0 <- file_read ;;
  b1 <- file_read ;;
  b2 <- file_read ;;
  b3 <- file_read ;;
  ret (i32 (b0 + i32 (Z.shiftl b1 8) + i32 (Z.shiftl b2 16) + i32 (Z.shiftl b3 24))).

Definition _readWidth : M Z :=
  dib <- _readDIB ;;
  if dib =? 40 then
    file_seek 18 ;;;
    read_int32_le
  else ret (-1).

Definition _readHeight : M Z :=
  dib <- _readDIB ;;
  if dib =? 40 then
    file_seek 22 ;;;
    h <- read_int32_le ;;
    ret (if h <? 0 then i32 (- h) else h)
  else ret (-1).

(** Without the info header the two functions below reach their closing
    brace without a [return]. *)
Definition _readBitsPerPixel : M Z :=
  dib <- _readDIB ;;
  if dib =? 40 then
    file_seek 28 ;;;
    b <- file_read ;;
    ret (u8 b)
  else lift (Undefined NoReturnValue).

Definition _readCompressionMethod : M Z :=
  dib <- _readDIB ;;
  if dib =? 40 then
    file_seek 30 ;;;
    b <- file_read ;;
    ret (u8 b)
  else lift (Undefined NoReturnValue).

(** ** Session file access *)

(** [bool Storage::fileOpenToRead(char filepath[])] *)
Definition fileOpenToRead (filepath : string) : M bool :=
  filepath_open <- file_getName 20 ;;
  if strcmp filepath_open filepath =? 0 then
    file_seek 0 ;;;
    ret true
  else
    file_close ;;;
    f <- SD_open filepath ;;
    file_assign f ;;;
    is_open <- file_isOpen ;;
    if negb is_open then ret false
    else ret true.

(** [bool Storage::fileOpenToWrite(char filepath[], bool overwrite)] *)
Definition fileOpenToWrite (filepath : string) (overwrite : bool) : M bool :=
  ex <- SD_exists filepath ;;
  (if ex && overwrite then (SD_remove filepath ;;; ret tt) else ret tt) ;;;
  file_close ;;;
  f <- SD_open_write filepath ;;
  file_assign f ;;;
  is_open <- file_isOpen ;;
  if negb is_open then ret false
  else ret true.

(** [uint32_t Storage::fileSize()]: [return false] is 0. *)
Definition fileSize : M Z :=
  is_open <- file_isOpen ;;
  if negb is_open then ret 0
  else
    n <- file_size ;;
    ret (u32 n).

(** [int32_t Storage::fileWriteData(uint8_t data[], uint16_t amount)] *)
Definition fileWriteData (bytes : list Z) : M Z :=
  is_open <- file_isOpen ;;
  if negb is_open then ret (-1)
  else file_write bytes.

(** [bool Storage::fileClose()] *)
Definition fileClose : M bool :=
  is_open <- file_isOpen ;;
  if negb is_open then ret false
  else
    file_close ;;;
    ret true.

(** [void Storage::writeCompressedBlock(char filename[], uint16_t row,
    uint16_t start, uint16_t end)] *)
Definition writeCompressedBlock (filename : string) (row start end_ : Z) : M unit :=
  fileOpenToWrite filename false ;;;
  fileWriteData
    [ u8 row; u8 (Z.shiftr (Z.land row 65280) 8);
      u8 start; u8 (Z.shiftr (Z.land start 65280) 8);
      u8 end_; u8 (Z.shiftr (Z.land end_ 65280) 8);
      255; 255 ] ;;;
  ret tt.

(** ** Scanline run engine

    Every [while] and [for] whose bound is not a constant takes [fuel]. *)

Section WithFuel.

Variable fuel : nat.

(** [uint16_t Storage::findPixel(bool pixel_state, int16_t index)] *)
Definition findPixel (pixel_state : bool) (index : Z) : M Z :=
  s <- get ;;
  r <- lift (findPixel_loop fuel (data (bitmap s)) pixel_state index) ;;
  ret (u16 r).

Definition set_data (d : heap_array) (s : Storage) : Storage :=
  set_bitmap {| width := width (bitmap s); height := height (bitmap s);
                type := type (bitmap s); data := d |} s.

(** [this->bitmap.data[counter++] = this->file.read();], [counter] a
    [uint16_t] *)
Definition store_next_byte (counter : Z) : M Z :=
  b <- file_read ;;
  s <- get ;;
  d <- lift (array_set (data (bitmap s)) counter (u8 b)) ;;
  modify (set_data d) ;;;
  ret (u16 (counter + 1)).

(** [while (bytes_read < (width / 8)) { data[counter++] = file.read();
    bytes_read++; }] with [bytes_read] a [uint16_t] *)
Fixpoint read_whole_bytes (n : nat) (width counter bytes_read : Z) : M (Z * Z) :=
  match n with
  | O => lift OutOfFuel
  | S n' =>
      if bytes_read <? width / 8 then
        counter' <- store_next_byte counter ;;
        read_whole_bytes n' width counter' (u16 (bytes_read + 1))
      else ret (counter, bytes_read)
  end.

(** The outer loop of [readMono40]:
    [while (file.available() && counter < amount * width)] *)
Fixpoint readMono40_lines (n : nat) (width amount counter : Z) : M unit :=
  match n with
  | O => lift OutOfFuel
  | S n' =>
      avail <- file_available ;;
      if negb (avail =? 0) && (counter <? u32 (amount * width)) then
        cb <- (if width >=? 8 then read_whole_bytes fuel width counter 0
               else ret (counter, 0)) ;;
        let leftover := u8 (width mod 8) in
        cb' <- (if leftover >? 0 then
                  counter' <- store_next_byte (fst cb) ;;
                  ret (counter', u16 (snd cb + 1))
                else ret cb) ;;
        (if snd cb' mod 4 >? 0 then
           pos <- file_position ;;
           file_seek (u32 (pos + 4 - snd cb' mod 4)) ;;;
           ret tt
         else ret tt) ;;;
        readMono40_lines n' width amount (fst cb')
      else ret tt
  end.

(** [void Storage::readMono40(uint16_t row, uint16_t amount)] *)
Definition readMono40 (row amount : Z) : M unit :=
  w <- _readWidth ;;
  let width := u32 w in
  o <- _readOffset ;;
  let offset := u8 o in
  modify (set_data (new_array (u32 (width / 8 + 1)))) ;;;
  file_seek (u32 (offset + row * (4 * (1 + width / 32)))) ;;;
  readMono40_lines fuel width amount 0.

(** [void Storage::findScanline(int16_t row, int16_t &start, int16_t &end,
    int16_t index)]: the two references are the returned pair. *)
Definition findScanline (row index : Z) : M (Z * Z) :=
  readMono40 (u16 row) 1 ;;;
  start <- findPixel true index ;;
  let start := i16 start in
  end_ <- findPixel false (i16 (start + 1)) ;;
  ret (start, i16 end_).

(** The [while (start < bitmap.width)] of [encodeBitmap] for one row;
    [start], [end] and [offset] are [int16_t]. *)
Fixpoint encode_row (n : nat) (filename_original filename_encoded : string)
    (row start end_ offset : Z) : M unit :=
  match n with
  | O => lift OutOfFuel
  | S n' =>
      s <- get ;;
      if start <? width (bitmap s) then
        se <- findScanline (i16 row) offset ;;
        let start := fst se in
        let end_ := snd se in
        s <- get ;;
        (if (start <? end_) && (start <? width (bitmap s)) && (end_ <=? width (bitmap s))
         then
           writeCompressedBlock filename_encoded row (u16 start) (u16 end_) ;;;
           fileOpenToRead filename_original ;;;
           ret tt
         else ret tt) ;;;
        encode_row n' filename_original filename_encoded row start end_ (i16 (end_ + 1))
      else ret tt
  end.

(** [for (uint16_t row = 0; row < bitmap.height; ++row)] *)
Fixpoint encode_rows (n : nat) (filename_original filename_encoded : string)
    (row : Z) : M unit :=
  match n with
  | O => lift OutOfFuel
  | S n' =>
      s <- get ;;
      if row <? height (bitmap s) then
        encode_row fuel filename_original filename_encoded row 0 0 0 ;;;
        encode_rows n' filename_original filename_encoded (u16 (row + 1))
      else ret tt
  end.

(** [void Storage::encodeBitmap(char filename_original[],
    char filename_encoded[])] *)
Definition encodeBitmap (filename_original filename_encoded : string) : M unit :=
  encode_rows fuel filename_original filename_encoded 0.

(** ** Derived-artifact cache *)

Definition set_dimensions (w h : Z) (s : Storage) : Storage :=
  set_bitmap {| width := w; height := h; type := type (bitmap s);
                data := data (bitmap s) |} s.

(** [strcat(filename_encoded, extension)] into [char filename_encoded[30]] *)
Definition strcat_into (cap : nat) (dst src : string) : outcome string :=
  strcpy_into cap (dst ++ src).

(** [void Storage::readBitmap(uint16_t row, uint16_t amount)] *)
Definition readBitmap (row amount : Z) : M unit :=
  w <- _readWidth ;;
  let width := u32 w in
  h <- _readHeight ;;
  let height := u32 h in
  bits_per_pixel <- _readBitsPerPixel ;;
  compression_method <- _readCompressionMethod ;;
  _readOffset ;;;
  modify (set_dimensions (i32 width) (i32 height)) ;;;
  if (bits_per_pixel =? 1) && (compression_method =? 0) then
    filename_original <- file_getName 30 ;;
    filename_encoded <- lift (strcat_into 30 (strtok_dot filename_original) ".cbm") ;;
    filepath_encoded <- lift (strcat_into 50 "/enc/" filename_encoded) ;;
    ex <- SD_exists filepath_encoded ;;
    if ex then ret tt
    else
      enc <- SD_exists "/enc" ;;
      (if negb enc then (SD_mkdir "enc" ;;; ret tt) else ret tt) ;;;
      encodeBitmap filename_original filepath_encoded
  else ret tt.

Definition set_file_error (s : Storage) : Storage :=
  set_bitmap {| width := -1; height := -1; type := file_error;
                data := data (bitmap s) |} s.

(** [Bitmap const &Storage::getBitmap(char filepath[], uint16_t row,
    uint16_t amount)]: the reference returned is [this->bitmap]. *)
Definition getBitmap (filepath : string) (row amount : Z) : M Bitmap :=
  ok <- fileOpenToRead filepath ;;
  if negb ok then
    modify set_file_error ;;;
    s <- get ;; ret (bitmap s)
  else
    readBitmap row amount ;;;
    s <- get ;; ret (bitmap s).

(** ** Mapping store *)

Definition set_n_mapped_floors (n : Z) (s : Storage) : Storage :=
  set_mappinglist {| n_mapped_floors := n; map_list := map_list (mappinglist s) |} s.

(** [strcpy(this->mappinglist.map_list[i].<field>, src)]: [upd] puts the
    string into the field; [i] is a [uint32_t]. *)
Definition store_field (i : Z) (cap : nat) (upd : string -> Mapping -> Mapping)
    (src : string) : M unit :=
  s <- get ;;
  match nth_error (map_list (mappinglist s)) (Z.to_nat i) with
  | Some m =>
      v <- lift (strcpy_into cap src) ;;
      modify (set_mappinglist
                {| n_mapped_floors := n_mapped_floors (mappinglist s);
                   map_list := list_set (map_list (mappinglist s)) (Z.to_nat i) (upd v m) |})
  | None => lift (Undefined (WritePastEnd i))
  end.

Definition with_floorNo (v : string) (m : Mapping) : Mapping :=
  {| floorNo := v; bitmapName := bitmapName m; bitmapName2 := bitmapName2 m |}.
Definition with_bitmapName (v : string) (m : Mapping) : Mapping :=
  {| floorNo := floorNo m; bitmapName := v; bitmapName2 := bitmapName2 m |}.
Definition with_bitmapName2 (v : string) (m : Mapping) : Mapping :=
  {| floorNo := floorNo m; bitmapName := bitmapName m; bitmapName2 := v |}.

(** [this->mappinglist.map_list[i]] read *)
Definition load_entry (i : Z) : M Mapping :=
  s <- get ;;
  match nth_error (map_list (mappinglist s)) (Z.to_nat i) with
  | Some m => ret m
  | None => lift (Undefined (ReadPastEnd i))
  end.

(** The locals of [getMappingList]. *)
Record parse_locals : Type := {
  floor_no : list ascii;        (* char floor_no[3] *)
  bmp_name : list ascii;        (* char bmp_name[20] *)
  bmp_name2 : list ascii;       (* char bmp_name2[20] *)
  comma1_reached : bool;
  comma2_reached : bool;
  ctr : Z;                      (* uint32_t *)
  list_itr : Z;                 (* uint32_t *)
  mapped_floor_count : Z        (* uint32_t *)
}.

Definition parse_start : parse_locals :=
  {| floor_no := char_array 3 "$"; bmp_name := char_array 20 "$";
     bmp_name2 := char_array 20 "$";
     comma1_reached := false; comma2_reached := false;
     ctr := 0; list_itr := 0; mapped_floor_count := 0 |}.

(** The first [if] chain of the loop body: a separator closes a field. *)
Definition parse_separator (c : ascii) (l : parse_locals) : M parse_locals :=
  if Ascii.eqb c "," && negb (comma1_reached l) && negb (comma2_reached l) then
    a <- lift (char_set (floor_no l) (ctr l) NUL) ;;
    str <- lift (c_str a) ;;
    store_field (list_itr l) 3 with_floorNo str ;;;
    ret {| floor_no := a; bmp_name := bmp_name l; bmp_name2 := bmp_name2 l;
           comma1_reached := true; comma2_reached := comma2_reached l;
           ctr := 0; list_itr := list_itr l;
           mapped_floor_count := mapped_floor_count l |}
  else if Ascii.eqb c "," && comma1_reached l && negb (comma2_reached l) then
    a <- lift (char_set (bmp_name l) (ctr l) NUL) ;;
    str <- lift (c_str a) ;;
    store_field (list_itr l) 20 with_bitmapName str ;;;
    ret {| floor_no := floor_no l; bmp_name := a; bmp_name2 := bmp_name2 l;
           comma1_reached := comma1_reached l; comma2_reached := true;
           ctr := 0; list_itr := list_itr l;
           mapped_floor_count := mapped_floor_count l |}
  else if Ascii.eqb c "010" then
    a <- lift (char_set (bmp_name2 l) (ctr l) NUL) ;;
    str2 <- lift (c_str a) ;;
    store_field (list_itr l) 20 with_bitmapName2 str2 ;;;
    str1 <- lift (c_str (bmp_name l)) ;;
    let mapped := negb (strcmp str1 "" =? 0) || negb (strcmp str2 "" =? 0) in
    ret {| floor_no := floor_no l; bmp_name := bmp_name l; bmp_name2 := a;
           comma1_reached := false; comma2_reached := false;
           ctr := 0; list_itr := u32 (list_itr l + 1);
           mapped_floor_count :=
             if mapped then u32 (mapped_floor_count l + 1) else mapped_floor_count l |}
  else ret l.

(** The second [if] chain: the character goes into the field being read. *)
Definition parse_store (c : ascii) (l : parse_locals) : M parse_locals :=
  if negb (comma1_reached l) && negb (comma2_reached l) && negb (Ascii.eqb c "010") then
    a <- lift (char_set (floor_no l) (ctr l) c) ;;
    ret {| floor_no := a; bmp_name := bmp_name l; bmp_name2 := bmp_name2 l;
           comma1_reached := comma1_reached l; comma2_reached := comma2_reached l;
           ctr := u32 (ctr l + 1); list_itr := list_itr l;
           mapped_floor_count := mapped_floor_count l |}
  else if comma1_reached l && negb (comma2_reached l) && negb (Ascii.eqb c ",") then
    a <- lift (char_set (bmp_name l) (ctr l) c) ;;
    ret {| floor_no := floor_no l; bmp_name := a; bmp_name2 := bmp_name2 l;
           comma1_reached := comma1_reached l; comma2_reached := comma2_reached l;
           ctr := u32 (ctr l + 1); list_itr := list_itr l;
           mapped_floor_count := mapped_floor_count l |}
  else if comma1_reached l && comma2_reached l && negb (Ascii.eqb c ",") then
    a <- lift (char_set (bmp_name2 l) (ctr l) c) ;;
    ret {| floor_no := floor_no l; bmp_name := bmp_name l; bmp_name2 := a;
           comma1_reached := comma1_reached l; comma2_reached := comma2_reached l;
           ctr := u32 (ctr l + 1); list_itr := list_itr l;
           mapped_floor_count := mapped_floor_count l |}
  else ret l.

(** [do { c = file.read(); if (c == '$') break; ... } while (1);] *)
Fixpoint parse_loop (n : nat) (l : parse_locals) : M parse_locals :=
  match n with
  | O => lift OutOfFuel
  | S n' =>
      b <- file_read ;;
      let c := ascii_of_byte b in
      if Ascii.eqb c "$" then ret l
      else
        l1 <- parse_separator c l ;;
        l2 <- parse_store c l1 ;;
        parse_loop n' l2
  end.

(** [MappingList const& Storage::getMappingList(char mapFileName[])]: the
    reference returned is [this->mappinglist]. *)
Definition getMappingList (mapFileName : string) : M MappingList :=
  ok <- fileOpenToRead mapFileName ;;
  if negb ok then
    s <- get ;; ret (mappinglist s)
  else
    fileOpenToRead mapFileName ;;;
    l <- parse_loop fuel parse_start ;;
    modify (set_n_mapped_floors (i32 (mapped_floor_count l))) ;;;
    file_close ;;;
    s <- get ;; ret (mappinglist s).

End WithFuel.

(** A [for (ctr = 0; ctr <= 31; ctr++)] loop over the table: [body] runs
    for [ctr], [ctr + 1], ... as many times as [n] says. *)
Fixpoint for_ctr (n : nat) (ctr : Z) (body : Z -> M unit) : M unit :=
  match n with
  | O => ret tt
  | S n' => body ctr ;;; for_ctr n' (ctr + 1) body
  end.

(** [int Storage::commitMappingList(char mapFileName[])] *)
Definition commitMappingList (mapFileName : string) : M Z :=
  ok <- fileOpenToWrite mapFileName true ;;
  if negb ok then ret (-1)
  else
    for_ctr 32 0 (fun ctr =>
      m <- load_entry ctr ;;
      file_print (floorNo m ++ "," ++ bitmapName m ++ "," ++ bitmapName2 m
                  ++ String "010" EmptyString) ;;;
      ret tt) ;;;
    file_print (String "$" (String "010" EmptyString)) ;;;
    file_close ;;;
    ret 0.

(** [int Storage::initMappingList(char mapFileName[])] *)
Definition initMappingList (mapFileName : string) : M Z :=
  ok <- fileOpenToWrite mapFileName true ;;
  if negb ok then ret (-1)
  else
    for_ctr 32 0 (fun ctr =>
      file_println (String_of (ctr + 1) ++ "," ++ "" ++ "," ++ "") ;;;
      ret tt) ;;;
    file_println "$" ;;;
    file_close ;;;
    ret 0.

(** The loop of [findFromFloorNo]: the value [ctr] has when the loop is
    left, by [break] or because [ctr <= 31] fails. *)
Fixpoint findFromFloorNo_loop (n : nat) (ctr : Z) (floorNo_ : string) : M Z :=
  match n with
  | O => ret ctr
  | S n' =>
      m <- load_entry ctr ;;
      if strcmp (floorNo m) floorNo_ =? 0 then ret ctr
      else findFromFloorNo_loop n' (ctr + 1) floorNo_
  end.

(** [int Storage::findFromFloorNo(char floorNo[])] *)
Definition findFromFloorNo (floorNo_ : string) : M Z :=
  ctr <- findFromFloorNo_loop 32 0 floorNo_ ;;
  if ctr =? 32 then ret (-1) else ret ctr.

Fixpoint findFromBitmapName_loop (n : nat) (ctr : Z) (name name2 : string) : M Z :=
  match n with
  | O => ret ctr
  | S n' =>
      m <- load_entry ctr ;;
      if (strcmp (bitmapName m) name =? 0) && (strcmp (bitmapName2 m) name2 =? 0)
      then ret ctr
      else findFromBitmapName_loop n' (ctr + 1) name name2
  end.

(** [int Storage::findFromBitmapName(char bitmapName[], char bitmapName2[])] *)
Definition findFromBitmapName (name name2 : string) : M Z :=
  ctr <- findFromBitmapName_loop 32 0 name name2 ;;
  if ctr =? 32 then ret (-1) else ret ctr.

(** [int Storage::setFloorMapping(char floorNo[], char bitmapName[],
    char bitmapName2[])]: [uint32_t loc] is compared with [-1] converted
    to [uint32_t]. *)
Definition setFloorMapping (floorNo_ name name2 : string) : M Z :=
  r <- findFromFloorNo floorNo_ ;;
  let loc := u32 r in
  if loc =? u32 (-1) then ret (-1)
  else
    store_field loc 20 with_bitmapName name ;;;
    store_field loc 20 with_bitmapName2 name2 ;;;
    ret 0.

(** [int Storage::removeFloorMapping(char floorNo[])] *)
Definition removeFloorMapping (floorNo_ : string) : M Z :=
  r <- findFromFloorNo floorNo_ ;;
  let loc := u32 r in
  if loc =? u32 (-1) then ret (-1)
  else
    store_field loc 20 with_bitmapName "" ;;;
    store_field loc 20 with_bitmapName2 "" ;;;
    ret 0.

(** [int Storage::getFloorMapping(char floorNo[], char bitmapName[],
    char bitmapName2[])]: the two output arrays are returned next to the
    status; on failure they are not written. *)
Definition getFloorMapping (floorNo_ : string) : M (Z * option (string * string)) :=
  r <- findFromFloorNo floorNo_ ;;
  let loc := u32 r in
  if loc =? u32 (-1) then ret (-1, None)
  else
    m <- load_entry loc ;;
    ret (0, Some (bitmapName m, bitmapName2 m)).

(** ** The members as the constructor leaves them

    [Storage] is a function-local static: its members are zeroed before
    the default member initialisers run, so every table string is empty. *)

Definition blank_mapping : Mapping :=
  {| floorNo := ""; bitmapName := ""; bitmapName2 := "" |}.

Definition fresh_mappinglist : MappingList :=
  {| n_mapped_floors := -1; map_list := repeat blank_mapping 32 |}.

Definition fresh_bitmap : Bitmap :=
  {| width := -1; height := -1; type := file_error; data := new_array 1 |}.

Definition fresh_store (v : gmap string entry) : Storage :=
  {| sd := v; sd_log := []; file := None; bitmap := fresh_bitmap;
     mappinglist := fresh_mappinglist |}.

(** ** Test volumes

    A 1-bit BMP file with the 40-byte info header: 14 bytes of file
    header, the info header, two palette entries, then the pixel rows as
    given (each already padded to a multiple of four bytes). *)

Definition le32 (n : Z) : list Z :=
  [u8 n; u8 (Z.shiftr n 8); u8 (Z.shiftr n 16); u8 (Z.shiftr n 24)].

Definition bmp_mono (w h : Z) (rows : list Z) : list Z :=
  [66; 77] ++ le32 (62 + Z.of_nat (length rows)) ++ [0; 0; 0; 0] ++ le32 62
  ++ le32 40 ++ le32 w ++ le32 h ++ [1; 0] ++ [1; 0] ++ le32 0
  ++ le32 (Z.of_nat (length rows)) ++ le32 2835 ++ le32 2835 ++ le32 2 ++ le32 2
  ++ [0; 0; 0; 0; 255; 255; 255; 0]
  ++ rows.

(** A path that is one file name in the root, short enough for the
    [char filepath_open[20]] of [fileOpenToRead]: not empty, no '/', at
    most 19 characters. *)
Definition bare_name (p : string) : bool :=
  negb (String.eqb p "")
  && forallb (fun c => negb (Ascii.eqb c "/")) (list_ascii_of_string p)
  && (String.length p <? 20)%nat.

(** The events that change what is stored on the volume. *)
Definition is_write_event (e : sd_event) : bool :=
  match e with
  | EvCreate _ | EvRemove _ | EvMkdir _ | EvWrite _ _ _ => true
  | EvOpen _ | EvClose _ => false
  end.

Definition writes_of (log : list sd_event) : list sd_event :=
  filter (fun e => is_write_event e = true) log.

(** The carriage return [println] sends before the line feed. *)
Definition CR : string := String "013" EmptyString.

(** ** Predicates of the statements *)

(** [p] can be created on the volume [V]: it names something below the
    root, nothing is there yet, and its directory exists. *)
Definition creatable (V : gmap string entry) (p : string) : Prop :=
  path_components p <> [] /\ V !! canon p = None /\ parent_is_dir V p = true.

(** The handle is open for writing on [q], the file holds [c] and the
    cursor is at its end; [V] is the rest of the volume. *)
Definition writing (q : string) (V : gmap string entry) (c : list Z) (s : Storage) : Prop :=
  file s = Some {| h_path := q; h_pos := Z.of_nat (length c); h_write := true |} /\
  sd s = <[q := EFile c]> V.

(** The parser of the mapping file sees of a state the table, the bytes
    under the handle and the cursor.  [same_view V s t]: [s], whose
    volume is [V], and [t] look the same to it. *)
Definition same_view (V : gmap string entry) (s t : Storage) : Prop :=
  sd s = V /\
  mappinglist s = mappinglist t /\
  handle_content s = handle_content t /\
  option_map h_pos (file s) = option_map h_pos (file t).

Definition outcome_sim {A} (V : gmap string entry) (o1 o2 : outcome (A * Storage)) : Prop :=
  match o1, o2 with
  | Done (a, s), Done (b, t) => a = b /\ same_view V s t
  | Undefined f, Undefined g => f = g
  | OutOfFuel, OutOfFuel => True
  | _, _ => False
  end.

(** A state that holds nothing but a file [c] open for reading at its
    start and the table [ml]. *)
Definition reader_state (c : list Z) (ml : MappingList) : Storage :=
  {| sd := {[ "f"%string := EFile c ]}; sd_log := [];
     file := Some {| h_path := "f"; h_pos := 0; h_write := false |};
     bitmap := fresh_bitmap; mappinglist := ml |}.

(** The lines a [for_ctr] loop sends when its body sends [line ctr]. *)
Fixpoint lines_from (line : Z -> list Z) (n : nat) (ctr : Z) : list Z :=
  match n with
  | O => []
  | S n' => line ctr ++ lines_from line n' (ctr + 1)
  end.

Definition init_line (ctr : Z) : list Z :=
  bytes_of_string (String_of (ctr + 1) ++ "," ++ "" ++ "," ++ "") ++ [13; 10].

Definition init_file : list Z :=
  lines_from init_line 32 0 ++ bytes_of_string "$" ++ [13; 10].

Definition commit_line (ml : MappingList) (ctr : Z) : list Z :=
  let m := nth (Z.to_nat ctr) (map_list ml) blank_mapping in
  bytes_of_string (floorNo m ++ "," ++ bitmapName m ++ "," ++ bitmapName2 m
                   ++ String "010" EmptyString).

Definition commit_file (ml : MappingList) : list Z :=
  lines_from (commit_line ml) 32 0 ++ bytes_of_string (String "$" (String "010" EmptyString)).

(** The handle [h] is open on a file that holds [c]. *)
Definition open_on (h : handle) (c : list Z) (s : Storage) : Prop :=
  file s = Some h /\ sd s !! h_path h = Some (EFile c).

(** [s] with the cursor of its handle [h] moved to [k]. *)
Definition at_pos (h : handle) (k : Z) (s : Storage) : Storage :=
  set_file (Some {| h_path := h_path h; h_pos := k; h_write := h_write h |}) s.

(** The byte at offset [k] of a file that is long enough. *)
Definition byte_at (c : list Z) (k : Z) : Z := nth (Z.to_nat k) c 0.

(** The table [getMappingList] builds from the file [initMappingList]
    writes: the floors "1" to "32", each with an empty first slot and the
    carriage return in the second, all 32 counted as mapped. *)
Definition table_after_init : MappingList :=
  {| n_mapped_floors := 32;
     map_list := map (fun n => {| floorNo := String_of (Z.of_nat n);
                                  bitmapName := EmptyString;
                                  bitmapName2 := CR |})
                     (seq 1 32) |}.

(** [m] keeps [P]: when [P] holds before a run of [m] that returns, it
    holds after. *)
Definition preserves {A} (P : Storage -> Prop) (m : M A) : Prop :=
  forall s a s', P s -> m s = Done (a, s') -> P s'.

(** Every file the log says bytes were written to is on the volume. *)
Definition written_files_exist (s : Storage) : Prop :=
  forall q pos bytes,
    In (EvWrite q pos bytes) (sd_log s) -> exists c, sd s !! q = Some (EFile c).

(** ** The remaining functions of [Storage.cpp]

    [int] is taken 16 bits wide, as on the ATmega boards the firmware is
    built for; where a 32-bit [int] would give another value the
    definition says so, and the theorems keep to files of fewer than
    32768 bytes, for which [file.available()] is the exact count on
    either. *)

(** [static bool _isBitmap(File &file)], run on the handle [file] holds:
    'B' is 66 and 'M' is 77; [&&] reads the second byte only when the
    first one was 'B'. *)
Definition _isBitmap : M bool :=
  file_seek 0 ;;;
  b0 <- file_read ;;
  if b0 =? 66 then
    b1 <- file_read ;;
    ret (b1 =? 77)
  else ret false.

(** [static uint16_t _RGB888ToRGB565(uint8_t red, uint8_t green,
    uint8_t blue)]: [>>] binds tighter than [|], so the blue term alone is
    shifted right; the value is converted to [uint16_t] on return. *)
Definition _RGB888ToRGB565 (red green blue : Z) : Z :=
  u16 (Z.lor (Z.lor (Z.shiftl (Z.land red 248) 8) (Z.shiftl (Z.land green 252) 3))
             (Z.shiftr (Z.land blue 248) 3)).

(** *** Buffers handed to [read] and [write] *)

(** What [file.read(buf, n)] does to [buf] when it has got [bytes]: they
    go into [buf[0]], [buf[1]], ... *)
Definition array_fill (buf : heap_array) (bytes : list Z) : outcome heap_array :=
  if (length bytes <=? length buf)%nat
  then Done (map Some bytes ++ skipn (length bytes) buf)
  else Undefined (WritePastEnd (Z.of_nat (length buf))).

(** What [file.write(buf, n)] reads of [buf]: the cells [buf[i]] to
    [buf[i + n - 1]]. *)
Fixpoint array_take_from (buf : heap_array) (i : Z) (n : nat) : outcome (list Z) :=
  match n with
  | O => Done []
  | S n' =>
      obind (array_get buf i) (fun b =>
      obind (array_take_from buf (i + 1) n') (fun r => Done (b :: r)))
  end.

Definition array_take (buf : heap_array) (n : Z) : outcome (list Z) :=
  array_take_from buf 0 (Z.to_nat n).

(** [file.read(buf, nbyte)]: at most [nbyte] bytes, and no more than the
    file has left after the cursor, are stored into [buf]; the cursor
    moves past them and their number is returned, -1 when the handle has
    nothing to read from. *)
Definition file_read_buf (buf : heap_array) (nbyte : Z) : M (Z * heap_array) :=
  s <- get ;;
  match file s, handle_content s with
  | Some h, Some c =>
      let got := firstn (Z.to_nat nbyte) (skipn (Z.to_nat (h_pos h)) c) in
      buf' <- lift (array_fill buf got) ;;
      modify (set_file (Some {| h_path := h_path h;
                                h_pos := h_pos h + Z.of_nat (length got);
                                h_write := h_write h |})) ;;;
      ret (Z.of_nat (length got), buf')
  | _, _ => ret (-1, buf)
  end.

(** [int32_t Storage::fileReadData(uint8_t data[], uint16_t amount)]: the
    array comes back next to the count.  [available] is a [uint32_t]. *)
Definition fileReadData (data : heap_array) (amount : Z) : M (Z * heap_array) :=
  is_open <- file_isOpen ;;
  if negb is_open then ret (-1, data)
  else
    a <- file_available ;;
    let available := u32 a in
    if amount >? available then
      r <- file_read_buf data available ;;
      ret (i32 available, snd r)
    else
      r <- file_read_buf data amount ;;
      ret (amount, snd r).

(** [fileWriteData(buffer, amount)] with the bytes still in the caller's
    array: [file.write] is reached, and the cells are read, only when a
    handle is open. *)
Definition fileWriteData_array (data : heap_array) (amount : Z) : M Z :=
  is_open <- file_isOpen ;;
  bytes <- (if is_open then lift (array_take data amount) else ret []) ;;
  fileWriteData bytes.

(** *** The display colour kept in the file "monocolor" *)

(** [&mono_color] cast to a byte pointer: the two bytes of a [uint16_t],
    the low one first. *)
Definition bytes_of_u16 (v : Z) : list Z := [u8 v; u8 (Z.shiftr v 8)].

Definition u16_of_array (a : heap_array) : outcome Z :=
  obind (array_get a 0) (fun lo =>
  obind (array_get a 1) (fun hi => Done (lo + 256 * hi))).

(** [uint16_t Storage::fileGetMonoColor()]: 0xF800 is 63488. *)
Definition fileGetMonoColor : M Z :=
  ok <- fileOpenToRead "monocolor" ;;
  if ok then
    r <- fileReadData (map Some (bytes_of_u16 63488)) 2 ;;
    fileClose ;;;
    lift (u16_of_array (snd r))
  else ret 63488.

(** [void Storage::fileSaveMonoColor(uint16_t mono_color)] *)
Definition fileSaveMonoColor (mono_color : Z) : M unit :=
  ok <- fileOpenToWrite "monocolor" true ;;
  if ok then
    n <- fileWriteData (bytes_of_u16 mono_color) ;;
    if n =? 2 then
      fileClose ;;;
      ret tt
    else ret tt
  else ret tt.

(** *** Copying a file *)

Section CopyWithFuel.

Variable fuel : nat.

(** [for (int16_t i = 0; i * buffer_len < file_size; ++i)] with
    [uint16_t buffer_len = 64] and [int16_t file_size]: the product and the
    comparison are done in [unsigned int] (a 32-bit [int] would compare
    [i * 64] with [file_size] as they are).  [buffer] is the 64-byte array
    the iterations share. *)
Fixpoint fileCopy_loop (n : nat) (source dest : string) (file_size : Z)
    (buffer : heap_array) (i : Z) : M unit :=
  match n with
  | O => lift OutOfFuel
  | S n' =>
      if u16 (i * 64) <? u16 file_size then
        fileOpenToRead source ;;;
        file_seek (u16 (i * 64)) ;;;
        r <- fileReadData buffer 64 ;;
        let read_amount := u16 (fst r) in
        fileOpenToWrite dest false ;;;
        fileWriteData_array (snd r) read_amount ;;;
        fileCopy_loop n' source dest file_size (snd r) (i16 (i + 1))
      else ret tt
  end.

(** The statements of [fileCopy] from the opening of the source on.
    [Some b] is a [return b]; [None] says that the closing brace was
    reached, which the function does after the copy loop without a
    [return]. *)
Definition fileCopy_from_source (source dest : string) : M (option bool) :=
  ok <- fileOpenToRead source ;;
  if negb ok then ret (Some false)
  else
    a <- file_available ;;
    let file_size := i16 a in
    fileCopy_loop fuel source dest file_size (new_array 64) 0 ;;;
    fileClose ;;;
    ret None.

Definition fileCopy_statements (source dest : string) (overwrite : bool)
    : M (option bool) :=
  ex <- SD_exists dest ;;
  if ex then
    if overwrite then
      SD_remove dest ;;;
      fileCopy_from_source source dest
    else ret (Some false)
  else fileCopy_from_source source dest.

(** [bool Storage::fileCopy(char source[], char dest[], bool overwrite)] *)
Definition fileCopy (source dest : string) (overwrite : bool) : M bool :=
  r <- fileCopy_statements source dest overwrite ;;
  match r with
  | Some b => ret b
  | None => lift (Undefined NoReturnValue)
  end.

End CopyWithFuel.

(** ** Predicates of the further statements *)

(** The name [file.getName(name, 20)] reports for the handle of [s]: the
    empty string when no file is open. *)
Definition open_name (s : Storage) : string :=
  match file s with
  | Some h => String.substring 0 19 (base_name (h_path h))
  | None => EmptyString
  end.


(** A character that can stand inside a field of the mapping file: not
    the separator, not the end of a line, not the terminator, not NUL. *)
Definition field_char (ch : ascii) : bool :=
  negb (Ascii.eqb ch ",") && negb (Ascii.eqb ch "010") && negb (Ascii.eqb ch "$")
  && negb (Ascii.eqb ch NUL).

(** A string that fits a [char] array of [cap] bytes and is made of
    field characters. *)
Definition field_text (cap : nat) (str : string) : Prop :=
  (String.length str < cap)%nat /\
  forallb field_char (list_ascii_of_string str) = true.

(** An entry of the table that the mapping file can hold. *)
Definition storable (m : Mapping) : Prop :=
  field_text 3 (floorNo m) /\ field_text 20 (bitmapName m) /\
  field_text 20 (bitmapName2 m).

(** An entry counts as mapped when one of its names is not empty. *)
Definition is_mapped (m : Mapping) : bool :=
  negb (String.eqb (bitmapName m) "") || negb (String.eqb (bitmapName2 m) "").

Definition count_mapped (tbl : list Mapping) : Z :=
  Z.of_nat (length (List.filter is_mapped tbl)).

(** The state the parser runs in when the simulation has moved it onto a
    file of its own: [reader_state] with the cursor at [j]. *)
Definition reader_at (c : list Z) (ml : MappingList) (j : Z) : Storage :=
  {| sd := {[ "f"%string := EFile c ]}; sd_log := [];
     file := Some {| h_path := "f"; h_pos := j; h_write := false |};
     bitmap := fresh_bitmap; mappinglist := ml |}.

(** *** The pixel rows of a 1-bit bitmap *)

(** The value of the four bytes at offset [k], the low byte first. *)
Definition le_value (c : list Z) (k : Z) : Z :=
  byte_at c k + 256 * byte_at c (k + 1) + 65536 * byte_at c (k + 2)
  + 16777216 * byte_at c (k + 3).

(** A file of bytes, of a size a [uint32_t] holds, that starts with a file
    header and the 40-byte info header, and whose width field holds [W]. *)
Definition mono_header (c : list Z) (W : Z) : Prop :=
  Forall (fun b => 0 <= b < 256) c /\
  30 < Z.of_nat (length c) < 4294967296 /\
  byte_at c 14 = 40 /\ byte_at c 15 = 0 /\
  le_value c 18 = W.

(** The bytes a row of [W] pixels takes, and what it takes with the
    padding to a multiple of four. *)
Definition row_bytes (W : Z) : Z := (W + 7) / 8.
Definition row_padded (W : Z) : Z := 4 * ((row_bytes W + 3) / 4).

(** Where [readMono40] looks for the row [row]: its [offset] is a
    [uint8_t], the low byte of the offset field of the header. *)
Definition row_start (c : list Z) (W row : Z) : Z :=
  u8 (le_value c 10) + row * (4 * (1 + W / 32)).

(** The bytes of the row [readMono40] loads from [row_start], and pixel
    [j] of a row of bytes: the leftmost pixel of a byte is its highest
    bit. *)
Definition row_of (c : list Z) (W row : Z) : list Z :=
  firstn (Z.to_nat (row_bytes W)) (skipn (Z.to_nat (row_start c W row)) c).

Definition pixel (r : list Z) (j : Z) : bool :=
  Z.testbit (nth (Z.to_nat (j / 8)) r 0) (7 - j mod 8).

(** ** [Network.cpp]: receiving a file

    [Serial1] is the UART of the Bluetooth module.  What [available()]
    and [read()] return is decided by the far end and by time, not by
    the program: a run is described by the answers it got, [avail n] to
    the [n]-th call of [Serial1.available()] and [input n] to the [n]-th
    call of [Serial1.read()], an [int] that is a byte or -1 when nothing
    was there.  [Link] counts the calls made so far and keeps what was
    handed to [Serial1.write] and [Serial1.print].  The texts printed on
    [Serial], the debug port, are left out, as in [Storage.cpp]. *)

Record Link : Type := {
  polls : nat;
  reads : nat;
  sent : list Z
}.

(** [Serial1.write(b)] *)
Definition Serial1_write (b : Z) (k : Link) : Link :=
  {| polls := polls k; reads := reads k; sent := sent k ++ [u8 b] |}.

(** [Serial1.print(str)] *)
Definition Serial1_print (str : string) (k : Link) : Link :=
  {| polls := polls k; reads := reads k; sent := sent k ++ bytes_of_string str |}.

Section Download.

Variable fuel : nat.
Variables (avail input : nat -> Z).

(** [while (Serial1.available() <= 0) { 1; }] *)
Fixpoint Serial1_wait (n : nat) (k : Link) : outcome Link :=
  match n with
  | O => OutOfFuel
  | S n' =>
      let k' := {| polls := S (polls k); reads := reads k; sent := sent k |} in
      if avail (polls k) <=? 0 then Serial1_wait n' k' else Done k'
  end.

(** [Serial1.read()] *)
Definition Serial1_read (k : Link) : Z * Link :=
  (input (reads k), {| polls := polls k; reads := S (reads k); sent := sent k |}).

(** [for (int z = 0; z < 200; z++) { buffer[z] = Serial1.read(); }]: [n]
    is the number of turns left; the [int] read is converted to
    [uint8_t]. *)
Fixpoint read_block (n : nat) (z : Z) (buffer : heap_array) (k : Link)
    : outcome (heap_array * Link) :=
  match n with
  | O => Done (buffer, k)
  | S n' =>
      let rk := Serial1_read k in
      obind (array_set buffer z (u8 (fst rk))) (fun buffer' =>
      read_block n' (z + 1) buffer' (snd rk))
  end.

(** [for (uint32_t i = 0; i < size_of_file;) { ...; i += 200; }] *)
Fixpoint download_loop (n : nat) (size_of_file i : Z) (buffer : heap_array) (k : Link)
    : M Link :=
  match n with
  | O => lift OutOfFuel
  | S n' =>
      if i <? size_of_file then
        k2 <- lift (Serial1_wait fuel (Serial1_write 7 k)) ;;
        bk <- lift (read_block 200 0 buffer k2) ;;
        (if u32 (size_of_file - i) <? 200
         then fileWriteData_array (fst bk) (u16 (u32 (size_of_file - i)))
         else fileWriteData_array (fst bk) 200) ;;;
        download_loop n' size_of_file (u32 (i + 200)) (fst bk) (snd bk)
      else ret k
  end.

(** [void Network::downloadFile(char filepath[], bool push)]:
    [DOWNLOAD_FILE] is 2 and [READY] is 7; [uint8_t buffer[200]] is not
    initialised. *)
Definition downloadFile (filepath : string) (push : bool) (k : Link) : M Link :=
  let k0 := if negb push then Serial1_print filepath (Serial1_write 2 k) else k in
  k1 <- lift (Serial1_wait fuel (Serial1_write 7 k0)) ;;
  let rk := Serial1_read k1 in
  let size_of_file := u32 (fst rk) in
  ok <- fileOpenToWrite filepath true ;;
  if negb ok then ret (snd rk)
  else
    k2 <- download_loop fuel size_of_file 0 (new_array 200) (snd rk) ;;
    fileClose ;;;
    ret k2.

End Download.

(** The bytes the reads [from], [from + 1], ... brought, [n] of them. *)
Definition received (input : nat -> Z) (from n : nat) : list Z :=
  map (fun j => u8 (input (from + j)%nat)) (seq 0 n).
(** * Proofs *)

(** ** Proof tools *)

Ltac munfold_in H :=
  cbv beta iota delta
    [bind ret get modify lift fileOpenToWrite fileOpenToRead fileWriteData
     SD_exists SD_remove SD_open SD_open_write file_close file_assign
     file_isOpen file_write file_seek file_getName vol_exists handle_content] in H.

Ltac munfold :=
  cbv beta iota delta
    [bind ret get modify lift fileOpenToWrite fileOpenToRead fileWriteData
     SD_exists SD_remove SD_open SD_open_write file_close file_assign
     file_isOpen file_write file_seek file_getName vol_exists handle_content].

Ltac sproj_in H :=
  cbn [file sd sd_log bitmap mappinglist set_file set_sd log_event set_bitmap
       set_mappinglist negb andb orb h_path h_pos h_write] in H.

Ltac sproj :=
  cbn [file sd sd_log bitmap mappinglist set_file set_sd log_event set_bitmap
       set_mappinglist negb andb orb h_path h_pos h_write].

Lemma bind_done {A B} (m : M A) (k : A -> M B) (s s' : Storage) (a : A) :
  m s = Done (a, s') -> bind m k s = k a s'.
Proof. intros H. unfold bind. rewrite H. reflexivity. Qed.

Lemma strcmp_zero (a b : string) : (strcmp a b =? 0) = String.eqb a b.
Proof. unfold strcmp. destruct (String.eqb a b); reflexivity. Qed.

Lemma i16_small (x : Z) : 0 <= x < 32768 -> i16 x = x.
Proof. intros H. unfold i16. rewrite Z.mod_small by lia. lia. Qed.

Lemma u16_small (x : Z) : 0 <= x < 65536 -> u16 x = x.
Proof. intros H. unfold u16. apply Z.mod_small. lia. Qed.

Lemma u32_small (x : Z) : 0 <= x < 4294967296 -> u32 x = x.
Proof. intros H. unfold u32. apply Z.mod_small. lia. Qed.

Lemma i32_u32_i32 (x : Z) : i32 (u32 (i32 x)) = i32 x.
Proof.
  unfold i32, u32.
  pose proof (Z.mod_pos_bound (x + 2147483648) 4294967296 ltac:(lia)) as Hb.
  rewrite Zplus_mod_idemp_l.
  rewrite (Z.mod_small ((x + 2147483648) mod 4294967296 - 2147483648 + 2147483648)) by lia.
  lia.
Qed.

Lemma string_app_cons (a : ascii) (s t : string) :
  (String a s ++ t)%string = String a (s ++ t).
Proof. reflexivity. Qed.

Lemma string_app_nil_r (s : string) : (s ++ "")%string = s.
Proof.
  induction s as [|a s IH]; [reflexivity |].
  rewrite string_app_cons, IH. reflexivity.
Qed.

Lemma string_app_assoc (s t u : string) :
  ((s ++ t) ++ u)%string = (s ++ (t ++ u))%string.
Proof.
  induction s as [|a s IH]; [reflexivity |].
  rewrite !string_app_cons, IH. reflexivity.
Qed.

Lemma string_length_app (a b : string) :
  String.length (a ++ b) = (String.length a + String.length b)%nat.
Proof.
  induction a as [|ch a IH]; [reflexivity |].
  rewrite string_app_cons. cbn [String.length]. rewrite IH. reflexivity.
Qed.

Lemma substring_whole (s : string) (n : nat) :
  (String.length s <= n)%nat -> String.substring 0 n s = s.
Proof.
  revert n. induction s as [|c s IH]; intros n Hn.
  - destruct n; reflexivity.
  - destruct n as [|n]; cbn in Hn; [lia |].
    cbn. rewrite IH by lia. reflexivity.
Qed.

Lemma firstn_skipn_at_end {A} (c bytes : list A) :
  firstn (Z.to_nat (Z.of_nat (length c))) c ++ bytes
    ++ skipn (Z.to_nat (Z.of_nat (length c)) + length bytes) c = c ++ bytes.
Proof.
  rewrite Nat2Z.id, firstn_all, skipn_all2 by lia.
  now rewrite app_nil_r.
Qed.

(** ** Bit addressing is an involution on whole bytes *)

Lemma translate_small (x : Z) :
  0 <= x < 32768 -> _translate x = 8 * (x / 8) + 7 - x mod 8.
Proof.
  intros Hx. unfold _translate, i16, u32.
  pose proof (Z.div_mod x 8 ltac:(lia)) as Hdm.
  pose proof (Z.mod_pos_bound x 8 ltac:(lia)) as Hm.
  assert (Hq : 0 <= x / 8 < 4096).
  { split; [apply Z.div_pos; lia | apply Z.div_lt_upper_bound; lia]. }
  replace ((x / 8 * 2 + 1) * 8 - 1 - x) with (8 * (x / 8) + 7 - x mod 8) by lia.
  rewrite (Z.mod_small (8 * (x / 8) + 7 - x mod 8)) by lia.
  rewrite Z.mod_small by lia. lia.
Qed.

Lemma translate_same_byte (x : Z) :
  0 <= x < 32768 -> _translate x / 8 = x / 8 /\ _translate x mod 8 = 7 - x mod 8.
Proof.
  intros Hx. rewrite translate_small by assumption.
  pose proof (Z.mod_pos_bound x 8 ltac:(lia)) as Hm.
  assert (H : 8 * (x / 8) + 7 - x mod 8 = (7 - x mod 8) + (x / 8) * 8) by lia.
  rewrite H. split.
  - rewrite Z.div_add by lia. rewrite Z.div_small by lia. lia.
  - rewrite Z.mod_add by lia. apply Z.mod_small. lia.
Qed.

Lemma translate_involutive (x : Z) :
  0 <= x < 32768 -> _translate (_translate x) = x.
Proof.
  intros Hx.
  destruct (translate_same_byte x Hx) as [Hq Hr].
  pose proof (Z.mod_pos_bound x 8 ltac:(lia)) as Hm.
  pose proof (Z.div_mod x 8 ltac:(lia)) as Hdm.
  assert (Ht : 0 <= _translate x < 32768).
  { rewrite translate_small by assumption.
    assert (0 <= x / 8 < 4096).
    { split; [apply Z.div_pos; lia | apply Z.div_lt_upper_bound; lia]. }
    lia. }
  rewrite (translate_small (_translate x)) by assumption.
  rewrite Hq, Hr. lia.
Qed.

Lemma translate_in_range (w x : Z) :
  0 <= w <= 32768 -> w mod 8 = 0 -> 0 <= x < w -> 0 <= _translate x < w.
Proof.
  intros Hw Hw8 Hx.
  rewrite translate_small by lia.
  pose proof (Z.mod_pos_bound x 8 ltac:(lia)) as Hm.
  pose proof (Z.div_mod x 8 ltac:(lia)) as Hdm.
  pose proof (Z.div_mod w 8 ltac:(lia)) as Hwd.
  rewrite Hw8 in Hwd.
  assert (Hq : 0 <= x / 8) by (apply Z.div_pos; lia).
  assert (Hlt : x / 8 < w / 8).
  { apply Z.div_lt_upper_bound; lia. }
  lia.
Qed.

(** C5.  For every padded row width [w] that is a multiple of 8 and within
    the range of the [int16_t] result, [_translate] maps [0, w) into
    [0, w), is injective and surjective there, and is its own inverse, so
    addressing through it twice gives back the original bit order. *)
Theorem translate_bijection_on_padded_width (w : Z) :
  0 <= w <= 32768 -> w mod 8 = 0 ->
  (forall x, 0 <= x < w -> 0 <= _translate x < w) /\
  (forall x y, 0 <= x < w -> 0 <= y < w -> _translate x = _translate y -> x = y) /\
  (forall y, 0 <= y < w -> exists x, 0 <= x < w /\ _translate x = y) /\
  (forall x, 0 <= x < w -> _translate (_translate x) = x).
Proof.
  intros Hw Hw8. repeat split.
  - apply (translate_in_range w x); assumption.
  - apply (translate_in_range w x); assumption.
  - intros x y Hx Hy Heq.
    rewrite <- (translate_involutive x), <- (translate_involutive y) by lia.
    now rewrite Heq.
  - intros y Hy. exists (_translate y). split.
    + apply translate_in_range; assumption.
    + apply translate_involutive. lia.
  - intros x Hx. apply translate_involutive. lia.
Qed.

Lemma translate_bijection_on_padded_width_witness :
  0 <= 16 <= 32768 /\ 16 mod 8 = 0 /\
  (forall x, 0 <= x < 16 -> 0 <= _translate x < 16) /\
  (forall x y, 0 <= x < 16 -> 0 <= y < 16 -> _translate x = _translate y -> x = y) /\
  (forall y, 0 <= y < 16 -> exists x, 0 <= x < 16 /\ _translate x = y) /\
  (forall x, 0 <= x < 16 -> _translate (_translate x) = x).
Proof.
  split; [lia | split; [reflexivity |]].
  apply (translate_bijection_on_padded_width 16); [lia | reflexivity].
Defined.

(** ** What [findPixel] finds, and what it does when there is nothing to find *)

(** The pixel at logical index [i], as [findPixel] reads it. *)
Lemma findPixel_loop_finds_first (data : heap_array) (st : bool) :
  forall (k : nat) (fuel : nat) (i : Z),
    (k < fuel)%nat ->
    0 <= i -> i + Z.of_nat k < 32768 ->
    (forall m, 0 <= m < Z.of_nat k ->
               _bitset data (u16 (_translate (u32 (i + m)))) = Done (negb st)) ->
    _bitset data (u16 (_translate (u32 (i + Z.of_nat k)))) = Done st ->
    findPixel_loop fuel data st i = Done (i + Z.of_nat k).
Proof.
  induction k as [|k IH]; intros fuel i Hfuel Hi Hik Hbefore Hat.
  - destruct fuel as [|fuel]; [lia |].
    cbn [findPixel_loop]. rewrite Z.add_0_r in Hat |- *. rewrite Hat. cbn [obind].
    rewrite eqb_reflx. reflexivity.
  - destruct fuel as [|fuel]; [lia |].
    cbn [findPixel_loop].
    pose proof (Hbefore 0 ltac:(lia)) as H0. rewrite Z.add_0_r in H0. rewrite H0.
    cbn [obind]. destruct st; cbn [negb Bool.eqb].
    + rewrite i16_small by lia.
      rewrite (IH fuel (i + 1)); try lia.
      * f_equal. lia.
      * intros m Hm. replace (i + 1 + m) with (i + (m + 1)) by lia. apply Hbefore. lia.
      * replace (i + 1 + Z.of_nat k) with (i + Z.of_nat (S k)) by lia. exact Hat.
    + rewrite i16_small by lia.
      rewrite (IH fuel (i + 1)); try lia.
      * f_equal. lia.
      * intros m Hm. replace (i + 1 + m) with (i + (m + 1)) by lia. apply Hbefore. lia.
      * replace (i + 1 + Z.of_nat k) with (i + Z.of_nat (S k)) by lia. exact Hat.
Qed.

Lemma bitset_all_clear (n : nat) (i : Z) :
  0 <= i < 8 * Z.of_nat n -> Z.of_nat n < 4096 ->
  _bitset (repeat (Some 0) n) (u16 (_translate (u32 i))) = Done false.
Proof.
  intros Hi Hn.
  rewrite u32_small by lia.
  destruct (translate_same_byte i ltac:(lia)) as [Hq _].
  assert (Ht : 0 <= _translate i < 32768).
  { rewrite translate_small by lia.
    pose proof (Z.mod_pos_bound i 8 ltac:(lia)).
    pose proof (Z.div_mod i 8 ltac:(lia)).
    assert (0 <= i / 8 < 4096)
      by (split; [apply Z.div_pos; lia | apply Z.div_lt_upper_bound; lia]).
    lia. }
  rewrite u16_small by lia.
  unfold _bitset, array_get. rewrite Hq.
  assert (Hb : 0 <= i / 8 < Z.of_nat n).
  { split; [apply Z.div_pos; lia | apply Z.div_lt_upper_bound; lia]. }
  destruct (Z.ltb_spec (i / 8) 0); [lia |].
  rewrite nth_error_repeat by lia. cbn [obind].
  rewrite Z.land_0_l. reflexivity.
Qed.

Lemma bitset_past_all_clear (n : nat) :
  Z.of_nat n < 4096 ->
  _bitset (repeat (Some 0) n) (u16 (_translate (u32 (8 * Z.of_nat n))))
  = Undefined (ReadPastEnd (Z.of_nat n)).
Proof.
  intros Hn.
  rewrite u32_small by lia.
  destruct (translate_same_byte (8 * Z.of_nat n) ltac:(lia)) as [Hq _].
  assert (Hdiv : 8 * Z.of_nat n / 8 = Z.of_nat n).
  { rewrite Z.mul_comm. apply Z.div_mul. lia. }
  assert (Ht : 0 <= _translate (8 * Z.of_nat n) < 32768).
  { rewrite translate_small by lia. rewrite Hdiv.
    pose proof (Z.mod_pos_bound (8 * Z.of_nat n) 8 ltac:(lia)). lia. }
  rewrite u16_small by lia.
  unfold _bitset, array_get. rewrite Hq, Hdiv.
  destruct (Z.ltb_spec (Z.of_nat n) 0); [lia |].
  rewrite Nat2Z.id.
  assert (Hnone : nth_error (repeat (Some 0) n) n = None).
  { apply nth_error_None. rewrite repeat_length. lia. }
  rewrite Hnone. reflexivity.
Qed.

(** In a row buffer of [n] bytes that are all clear, the search for a set
    pixel from any index of the row has no "not found" result: it walks
    to the end of the buffer and reads the byte after it. *)
Lemma findPixel_loop_all_clear (n : nat) :
  Z.of_nat n < 4096 ->
  forall (k : nat) (fuel : nat) (i : Z),
    (k < fuel)%nat -> 0 <= i -> i + Z.of_nat k = 8 * Z.of_nat n ->
    findPixel_loop fuel (repeat (Some 0) n) true i = Undefined (ReadPastEnd (Z.of_nat n)).
Proof.
  intros Hn. induction k as [|k IH]; intros fuel i Hfuel Hi Hik.
  - destruct fuel as [|fuel]; [lia |].
    cbn [findPixel_loop]. replace i with (8 * Z.of_nat n) by lia.
    rewrite bitset_past_all_clear by assumption. reflexivity.
  - destruct fuel as [|fuel]; [lia |].
    cbn [findPixel_loop]. rewrite bitset_all_clear by lia. cbn [obind negb Bool.eqb].
    rewrite i16_small by lia. apply IH; lia.
Qed.

(** ** The encoder on concrete bitmaps *)

(** C2 (the code departs from it).  A 5-pixel row that is all clear is
    loaded into its one-byte buffer; the search for a set pixel from
    index 0 does not stop at the row width and asks the bit accessor for
    byte 1, which is outside the buffer. *)
Theorem findScanline_all_clear_row_leaves_buffer :
  exists s1,
    fileOpenToRead "a.bmp"
      (fresh_store {[ "a.bmp"%string := EFile (bmp_mono 5 1 [0; 0; 0; 0]) ]})
      = Done (true, s1) /\
    (exists s2, readMono40 16 0 1 s1 = Done (tt, s2) /\ data (bitmap s2) = [Some 0]) /\
    findPixel_loop 16 [Some 0] true 0 = Undefined (ReadPastEnd 1) /\
    findScanline 16 0 0 s1 = Undefined (ReadPastEnd 1).
Proof.
  eexists.
  split. { vm_compute. reflexivity. }
  split. { eexists. split; vm_compute; reflexivity. }
  split; vm_compute; reflexivity.
Qed.

(** C1 (the code departs from it).  A 4x1 bitmap whose row byte is
    1111 1010: the four pixels are set, the padding bits after them are
    1, 0, 1, 0.  The end of the run is looked for past the width and
    found at index 5, the record is refused by the [end <= width] test,
    and the row ends without any record: nothing is written to the
    companion, so the row cannot be rebuilt from it. *)
Theorem encodeBitmap_loses_all_set_row :
  exists b s,
    getBitmap 16 "a.bmp" 0 0
      (fresh_store {[ "a.bmp"%string := EFile (bmp_mono 4 1 [250; 0; 0; 0]) ]})
      = Done (b, s) /\
    width b = 4 /\ height b = 1 /\
    data b = [Some 250] /\
    map (fun i => _bitset (data b) (u16 (_translate (u32 i)))) [0; 1; 2; 3]
      = [Done true; Done true; Done true; Done true] /\
    writes_of (sd_log s) = [EvMkdir "enc"] /\
    sd s !! "enc/a.cbm"%string = None.
Proof.
  do 2 eexists.
  split. { vm_compute. reflexivity. }
  split. { vm_compute. reflexivity. }
  split. { vm_compute. reflexivity. }
  split. { vm_compute. reflexivity. }
  split. { vm_compute. reflexivity. }
  split. { vm_compute. reflexivity. }
  vm_compute. reflexivity.
Qed.

(** The same defect on an 8x1 bitmap with the usual zero padding: the row
    is all set, and the search for the end of the run reads [data[1]],
    the spare byte of the [new uint8_t[width / 8 + 1]] array that
    [readMono40] never wrote. *)
Lemma encodeBitmap_all_set_row_reads_unwritten_byte :
  getBitmap 16 "a.bmp" 0 0
    (fresh_store {[ "a.bmp"%string := EFile (bmp_mono 8 1 [255; 0; 0; 0]) ]})
  = Undefined (ReadIndeterminate 1).
Proof. vm_compute. reflexivity. Qed.

(** An 8x2 bitmap with zero padding: row 0 is all set and row 1 begins
    with a set pixel.  [readMono40] loads both rows for row 0, the end of
    the run is found at index 9 in the bits of row 1, and the loop over
    row 0 ends without a record. *)
Lemma encode_row_drops_run_touching_right_edge :
  exists s1 s2,
    fileOpenToRead "a.bmp"
      (fresh_store {[ "a.bmp"%string := EFile (bmp_mono 8 2 [255; 0; 0; 0; 130; 0; 0; 0]) ]})
      = Done (true, s1) /\
    encode_row 32 32 "a.bmp" "/enc/a.cbm" 0 0 0 0 (set_dimensions 8 2 s1) = Done (tt, s2) /\
    data (bitmap s2) = [Some 255; Some 130] /\
    writes_of (sd_log s2) = [].
Proof.
  do 2 eexists.
  split. { vm_compute. reflexivity. }
  split. { vm_compute. reflexivity. }
  split. { vm_compute. reflexivity. }
  vm_compute. reflexivity.
Qed.

(** With a second row in the file, [readMono40] goes on reading lines
    while [counter < amount * width] compares a byte count with a pixel
    count, and writes the second row of a 16x2 bitmap past the end of
    the three-byte array. *)
Lemma readMono40_second_row_overflows_array :
  getBitmap 16 "a.bmp" 0 0
    (fresh_store {[ "a.bmp"%string := EFile (bmp_mono 16 2 [255; 255; 0; 0; 0; 0; 0; 0]) ]})
  = Undefined (WritePastEnd 3).
Proof. vm_compute. reflexivity. Qed.

(** ** Session file access *)

(** C10.  With no handle open [fileSize] returns 0, and it returns the
    same 0 for a handle open on a file of size 0; neither call changes
    the state, so the result alone does not tell the two apart. *)
Theorem fileSize_closed_like_empty (s_closed s_empty : Storage) (h : handle) :
  file s_closed = None ->
  file s_empty = Some h ->
  sd s_empty !! h_path h = Some (EFile []) ->
  fileSize s_closed = Done (0, s_closed) /\
  fileSize s_empty = Done (0, s_empty).
Proof.
  intros Hc Ho Hcontent. split.
  - cbv beta iota delta [fileSize file_isOpen bind get ret].
    rewrite Hc. reflexivity.
  - cbv beta iota delta [fileSize file_isOpen file_size handle_content bind get ret].
    rewrite Ho. cbv beta iota delta [negb].
    rewrite Ho, Hcontent. reflexivity.
Qed.

Lemma fileSize_closed_like_empty_witness :
  let s_closed := fresh_store ∅ in
  let h := {| h_path := "empty.txt"; h_pos := 0; h_write := false |} in
  let s_empty := set_file (Some h) (fresh_store {[ "empty.txt"%string := EFile [] ]}) in
  file s_closed = None /\
  file s_empty = Some h /\
  sd s_empty !! h_path h = Some (EFile []) /\
  fileSize s_closed = Done (0, s_closed) /\
  fileSize s_empty = Done (0, s_empty).
Proof.
  intros s_closed h s_empty.
  split; [reflexivity | split; [reflexivity | split; [reflexivity |]]].
  apply (fileSize_closed_like_empty s_closed s_empty h); reflexivity.
Defined.

Lemma fileWriteData_at_end (s : Storage) (q : string) (c bytes : list Z) :
  file s = Some {| h_path := q; h_pos := Z.of_nat (length c); h_write := true |} ->
  sd s !! q = Some (EFile c) ->
  fileWriteData bytes s =
    Done (Z.of_nat (length bytes),
          log_event (EvWrite q (Z.of_nat (length c)) bytes)
            (set_file (Some {| h_path := q;
                               h_pos := Z.of_nat (length c) + Z.of_nat (length bytes);
                               h_write := true |})
               (set_sd (<[q := EFile (c ++ bytes)]> (sd s)) s))).
Proof.
  intros Hf Hl. munfold. rewrite Hf. sproj. rewrite Hf. sproj. rewrite Hl.
  sproj. rewrite firstn_skipn_at_end. reflexivity.
Qed.

(** C6 (amended).  A successful [fileOpenToWrite] leaves the handle on the
    file at that path, opened for writing and positioned at the end of
    what the file holds: nothing when [overwrite] is set (an existing
    file is removed first) or when no file was there (a new one is
    created), and the old content when [overwrite] is not set and the
    file exists, so that the bytes written next come after it. *)
Theorem fileOpenToWrite_positions_at_end
    (s s' : Storage) (p : string) (overwrite : bool) :
  fileOpenToWrite p overwrite s = Done (true, s') ->
  let kept := match sd s !! canon p with
              | Some (EFile c) => if overwrite then [] else c
              | _ => []
              end in
  file s' = Some {| h_path := canon p; h_pos := Z.of_nat (length kept); h_write := true |} /\
  sd s' !! canon p = Some (EFile kept) /\
  forall bytes, exists s'',
    fileWriteData bytes s' = Done (Z.of_nat (length bytes), s'') /\
    sd s'' !! canon p = Some (EFile (kept ++ bytes)).
Proof.
  intros H kept.
  assert (Hgoal : file s' = Some {| h_path := canon p; h_pos := Z.of_nat (length kept);
                                     h_write := true |} /\
                  sd s' !! canon p = Some (EFile kept)).
  { subst kept. munfold_in H.
    destruct (path_components p) as [|c0 cs] eqn:Hcs;
      destruct (sd s !! canon p) as [[c|]|] eqn:Hl;
      destruct overwrite; destruct (file s) as [h0|] eqn:Hf;
      sproj_in H;
      repeat first
        [ rewrite Hf in H | rewrite Hl in H | rewrite lookup_delete_eq in H
        | progress sproj_in H ];
      try discriminate;
      try (destruct (parent_is_dir _ p); sproj_in H; try discriminate);
      inversion H; subst s'; sproj;
      try rewrite lookup_insert_eq; auto. }
  destruct Hgoal as [Hfile Hsd]. split; [exact Hfile | split; [exact Hsd |]].
  intros bytes. eexists. split.
  - apply fileWriteData_at_end; eassumption.
  - sproj. apply lookup_insert_eq.
Qed.

Lemma fileOpenToWrite_positions_at_end_witness :
  let s := fresh_store {[ "log.txt"%string := EFile [1; 2; 3] ]} in
  let s' := log_event (EvOpen "log.txt")
              (set_file (Some {| h_path := "log.txt"; h_pos := 3; h_write := true |}) s) in
  fileOpenToWrite "log.txt" false s = Done (true, s') /\
  file s' = Some {| h_path := "log.txt"; h_pos := 3; h_write := true |} /\
  sd s' !! "log.txt"%string = Some (EFile [1; 2; 3]) /\
  forall bytes, exists s'',
    fileWriteData bytes s' = Done (Z.of_nat (length bytes), s'') /\
    sd s'' !! "log.txt"%string = Some (EFile ([1; 2; 3] ++ bytes)).
Proof.
  intros s s'.
  assert (H : fileOpenToWrite "log.txt" false s = Done (true, s')) by reflexivity.
  split; [exact H |].
  exact (fileOpenToWrite_positions_at_end s s' "log.txt" false H).
Defined.

(** C6 (as stated) fails: opened without [overwrite], an existing file
    keeps its three bytes, the handle stands at offset 3, and the byte
    written next is appended. *)
Lemma fileOpenToWrite_existing_file_is_appended_to :
  exists s' s'',
    fileOpenToWrite "log.txt" false (fresh_store {[ "log.txt"%string := EFile [1; 2; 3] ]})
      = Done (true, s') /\
    file s' = Some {| h_path := "log.txt"; h_pos := 3; h_write := true |} /\
    sd s' !! "log.txt"%string = Some (EFile [1; 2; 3]) /\
    fileWriteData [9] s' = Done (1, s'') /\
    sd s'' !! "log.txt"%string = Some (EFile [1; 2; 3; 9]).
Proof.
  do 2 eexists.
  split. { vm_compute. reflexivity. }
  split. { vm_compute. reflexivity. }
  split. { vm_compute. reflexivity. }
  split. { vm_compute. reflexivity. }
  vm_compute. reflexivity.
Qed.

Lemma path_split_no_slash (p : string) :
  forall cur,
    forallb (fun c => negb (Ascii.eqb c "/")) (list_ascii_of_string p) = true ->
    path_split cur p = match (cur ++ p)%string with
                       | EmptyString => []
                       | _ => [(cur ++ p)%string]
                       end.
Proof.
  induction p as [|c p IH]; intros cur Hp.
  - cbn [path_split]. rewrite string_app_nil_r. destruct cur; reflexivity.
  - cbn in Hp. apply andb_true_iff in Hp as [Hc Hp].
    cbn [path_split]. apply negb_true_iff in Hc. rewrite Hc.
    rewrite IH by assumption.
    rewrite string_app_assoc. reflexivity.
Qed.

Lemma bare_name_components (p : string) :
  bare_name p = true ->
  path_components p = [p] /\ (String.length p <= 19)%nat /\ p <> EmptyString.
Proof.
  unfold bare_name. intros H.
  apply andb_true_iff in H as [H Hlen]. apply andb_true_iff in H as [Hne Hsl].
  apply negb_true_iff in Hne. apply String.eqb_neq in Hne.
  apply Nat.ltb_lt in Hlen.
  repeat split; [| lia | assumption].
  unfold path_components. rewrite path_split_no_slash by assumption.
  cbn. destruct p; [contradiction | reflexivity].
Qed.

Lemma bare_name_canon (p : string) :
  bare_name p = true ->
  canon p = p /\ String.substring 0 (20 - 1) (base_name p) = p.
Proof.
  intros H. destruct (bare_name_components p H) as (Hc & Hlen & Hne).
  unfold canon, base_name. rewrite Hc. cbn [join_path String.concat List.last].
  split; [reflexivity |]. apply substring_whole. lia.
Qed.

(** Where the reuse works.  For a path that is a bare file name of at
    most 19 characters, the name [getName] reports for the handle a
    successful [fileOpenToRead] leaves is the path itself, and a second
    [fileOpenToRead] of it neither closes nor opens anything: the state
    it returns is the one it started from with the cursor of the same
    handle at 0, so the event log and the volume are as they were. *)
Theorem fileOpenToRead_again_reuses_handle (s s1 : Storage) (p : string) :
  bare_name p = true ->
  fileOpenToRead p s = Done (true, s1) ->
  exists h s2,
    file s1 = Some h /\
    fileOpenToRead p s1 = Done (true, s2) /\
    file s2 = Some {| h_path := h_path h; h_pos := 0; h_write := h_write h |} /\
    sd_log s2 = sd_log s1 /\
    sd s2 = sd s1 /\
    bitmap s2 = bitmap s1 /\
    mappinglist s2 = mappinglist s1.
Proof.
  intros Hp H.
  enough (Hex : exists h,
             file s1 = Some h /\
             fileOpenToRead p s1 =
               Done (true, set_file (Some {| h_path := h_path h; h_pos := 0;
                                             h_write := h_write h |}) s1)).
  { destruct Hex as (h & Hf & Hrun). exists h. eexists.
    split; [exact Hf | split; [exact Hrun | repeat split]]. }
  destruct (bare_name_canon p Hp) as [Hcanon Hname].
  destruct (bare_name_components p Hp) as (Hcomp & _ & Hne).
  assert (Hreopen : forall s0 h,
            file s0 = Some h ->
            String.substring 0 (20 - 1) (base_name (h_path h)) = p ->
            fileOpenToRead p s0 =
              Done (true, set_file (Some {| h_path := h_path h; h_pos := 0;
                                             h_write := h_write h |}) s0)).
  { intros s0 h Hf Hn. munfold. rewrite Hf. sproj. rewrite Hn.
    rewrite strcmp_zero, String.eqb_refl. rewrite Hf. reflexivity. }
  munfold_in H. rewrite Hcomp, Hcanon in H.
  destruct (file s) as [h0|] eqn:Hf.
  - rewrite strcmp_zero in H.
    destruct (String.eqb _ p) eqn:Hsame.
    + apply String.eqb_eq in Hsame.
      rewrite Hf in H. cbn [Z.eqb orb] in H. injection H as <-.
      eexists. split; [reflexivity |].
      apply Hreopen; [reflexivity | exact Hsame].
    + rewrite ?Hf in H. sproj_in H.
      destruct (sd s !! p) eqn:Hl; sproj_in H; [| discriminate].
      injection H as <-. eexists. split; [reflexivity |].
      apply Hreopen; [reflexivity | exact Hname].
  - rewrite strcmp_zero in H.
    destruct (String.eqb "" p) eqn:Hsame.
    + apply String.eqb_eq in Hsame. congruence.
    + rewrite ?Hf in H. sproj_in H.
      destruct (sd s !! p) eqn:Hl; sproj_in H; [| discriminate].
      injection H as <-. eexists. split; [reflexivity |].
      apply Hreopen; [reflexivity | exact Hname].
Qed.

Lemma fileOpenToRead_again_reuses_handle_witness :
  let s := fresh_store {[ "a.bmp"%string := EFile [66; 77] ]} in
  let s1 := set_file (Some {| h_path := "a.bmp"; h_pos := 0; h_write := false |})
              (log_event (EvOpen "a.bmp") s) in
  bare_name "a.bmp" = true /\
  fileOpenToRead "a.bmp" s = Done (true, s1) /\
  exists h s2,
    file s1 = Some h /\
    fileOpenToRead "a.bmp" s1 = Done (true, s2) /\
    file s2 = Some {| h_path := h_path h; h_pos := 0; h_write := h_write h |} /\
    sd_log s2 = sd_log s1 /\
    sd s2 = sd s1 /\
    bitmap s2 = bitmap s1 /\
    mappinglist s2 = mappinglist s1.
Proof.
  intros s s1.
  assert (Hp : bare_name "a.bmp" = true) by reflexivity.
  assert (H : fileOpenToRead "a.bmp" s = Done (true, s1)) by reflexivity.
  split; [exact Hp | split; [exact H |]].
  exact (fileOpenToRead_again_reuses_handle s s1 "a.bmp" Hp H).
Defined.

(** C7 (the code departs from it).  [fileOpenToRead] is documented as
    opening the file "if it hasn't yet been opened" and tells whether it
    has by comparing the path with what [getName] reports, the last
    component of the path.  For the file "a.bmp" of the root opened as
    "/a.bmp" the two differ: the second [fileOpenToRead "/a.bmp"] closes
    the handle that is open on that very file and opens a new one. *)
Lemma fileOpenToRead_again_reopens_slash_path :
  exists s1 s2,
    fileOpenToRead "/a.bmp" (fresh_store {[ "a.bmp"%string := EFile [66; 77] ]})
      = Done (true, s1) /\
    fileOpenToRead "/a.bmp" s1 = Done (true, s2) /\
    sd_log s2 = EvOpen "a.bmp" :: EvClose "a.bmp" :: sd_log s1.
Proof.
  do 2 eexists.
  split. { vm_compute. reflexivity. }
  split. { vm_compute. reflexivity. }
  vm_compute. reflexivity.
Qed.

(** The same on a path with a directory part: [getName] reports "a.bmp"
    for the file opened as "img/a.bmp". *)
Lemma fileOpenToRead_again_reopens_directory_path :
  exists s1 s2,
    fileOpenToRead "img/a.bmp"
      (fresh_store {[ "img"%string := EDir; "img/a.bmp"%string := EFile [66; 77] ]})
      = Done (true, s1) /\
    fileOpenToRead "img/a.bmp" s1 = Done (true, s2) /\
    sd_log s2 = EvOpen "img/a.bmp" :: EvClose "img/a.bmp" :: sd_log s1.
Proof.
  do 2 eexists.
  split. { vm_compute. reflexivity. }
  split. { vm_compute. reflexivity. }
  vm_compute. reflexivity.
Qed.

Lemma fileOpenToRead_no_write (s0 s : Storage) (p : string) (r : bool) :
  fileOpenToRead p s0 = Done (r, s) ->
  sd s = sd s0 /\ writes_of (sd_log s) = writes_of (sd_log s0) /\
  bitmap s = bitmap s0 /\ mappinglist s = mappinglist s0.
Proof.
  intros H. munfold_in H.
  destruct (file s0) as [h0|] eqn:Hf;
    destruct (strcmp _ p =? 0);
    rewrite ?Hf in H; sproj_in H; cbn [Z.eqb orb] in H;
    try (destruct (path_components p); sproj_in H);
    try (destruct (sd s0 !! canon p); sproj_in H);
    injection H as <- <-; repeat split.
Qed.

(** ** Reading the header through an open handle *)

Section HeaderReads.

Variables (h : handle) (c : list Z) (s : Storage).

Hypothesis Hopen : open_on h c s.

Lemma at_pos_current : s = at_pos h (h_pos h) s.
Proof.
  destruct Hopen as [Hf _]. destruct s, h. cbn in *. subst. reflexivity.
Qed.

Lemma file_seek_at (j k : Z) :
  0 <= k <= Z.of_nat (length c) ->
  file_seek k (at_pos h j s) = Done (true, at_pos h k s).
Proof.
  intros Hk. destruct Hopen as [Hf Hl].
  cbv beta iota delta [file_seek bind get ret modify handle_content at_pos].
  sproj. rewrite Hl.
  assert (Hle : (k <=? Z.of_nat (length c)) = true) by (apply Z.leb_le; lia).
  rewrite Hle, orb_true_r. reflexivity.
Qed.

Lemma file_read_at (j k : Z) :
  0 <= j < Z.of_nat (length c) ->
  k = j + 1 ->
  file_read (at_pos h j s) = Done (byte_at c j, at_pos h k s).
Proof.
  intros Hj ->. destruct Hopen as [Hf Hl].
  cbv beta iota delta [file_read bind get ret modify handle_content at_pos].
  sproj. rewrite Hl. unfold byte_at.
  destruct (nth_error c (Z.to_nat j)) as [b|] eqn:Hn.
  - erewrite nth_error_nth by eassumption. reflexivity.
  - apply nth_error_None in Hn. lia.
Qed.

Hypothesis Hlen : 30 < Z.of_nat (length c).

Ltac header_step :=
  erewrite bind_done
    by first [ apply file_seek_at; lia
             | apply file_read_at; [lia | vm_compute; reflexivity] ].

Lemma readDIB_at (j : Z) :
  _readDIB (at_pos h j s)
  = Done (u16 (Z.shiftl (u16 (byte_at c 14)) 0 + Z.shiftl (u16 (byte_at c 15)) 8),
          at_pos h 16 s).
Proof. unfold _readDIB. repeat header_step. reflexivity. Qed.

Lemma read_int32_le_at (k k' : Z) :
  0 <= k -> k + 3 < Z.of_nat (length c) -> k' = k + 4 ->
  exists v, read_int32_le (at_pos h k s) = Done (i32 v, at_pos h k' s).
Proof.
  intros H0 H3 ->. unfold read_int32_le.
  erewrite bind_done by (apply file_read_at; [lia | reflexivity]).
  erewrite bind_done by (apply file_read_at; [lia | reflexivity]).
  erewrite bind_done by (apply file_read_at; [lia | reflexivity]).
  erewrite bind_done by (apply file_read_at; [lia | reflexivity]).
  replace (k + 1 + 1 + 1 + 1) with (k + 4) by lia.
  eexists. reflexivity.
Qed.

Hypothesis Hdib0 : byte_at c 14 = 40.

Hypothesis Hdib1 : byte_at c 15 = 0.

Lemma readDIB_40 (j : Z) : _readDIB (at_pos h j s) = Done (40, at_pos h 16 s).
Proof. rewrite readDIB_at, Hdib0, Hdib1. reflexivity. Qed.

Lemma readWidth_at :
  exists w, forall j, _readWidth (at_pos h j s) = Done (i32 w, at_pos h 22 s).
Proof.
  destruct (read_int32_le_at 18 22 ltac:(lia) ltac:(lia) eq_refl) as [w Hw].
  exists w. intros j.
  unfold _readWidth. rewrite (bind_done _ _ _ _ _ (readDIB_40 j)). cbn [Z.eqb Pos.eqb].
  header_step. exact Hw.
Qed.

Lemma readHeight_at :
  exists ht, forall j, _readHeight (at_pos h j s) = Done (i32 ht, at_pos h 26 s).
Proof.
  destruct (read_int32_le_at 22 26 ltac:(lia) ltac:(lia) eq_refl) as [v Hv].
  exists (if i32 v <? 0 then - i32 v else v). intros j.
  unfold _readHeight. rewrite (bind_done _ _ _ _ _ (readDIB_40 j)). cbn [Z.eqb Pos.eqb].
  header_step.
  rewrite (bind_done _ _ _ _ _ Hv). unfold ret.
  destruct (i32 v <? 0); reflexivity.
Qed.

Lemma readBitsPerPixel_at (j : Z) :
  _readBitsPerPixel (at_pos h j s) = Done (u8 (byte_at c 28), at_pos h 29 s).
Proof.
  unfold _readBitsPerPixel. rewrite (bind_done _ _ _ _ _ (readDIB_40 j)). cbn [Z.eqb Pos.eqb].
  repeat header_step. reflexivity.
Qed.

Lemma readCompressionMethod_at (j : Z) :
  _readCompressionMethod (at_pos h j s) = Done (u8 (byte_at c 30), at_pos h 31 s).
Proof.
  unfold _readCompressionMethod. rewrite (bind_done _ _ _ _ _ (readDIB_40 j)).
  cbn [Z.eqb Pos.eqb]. repeat header_step. reflexivity.
Qed.

Lemma readOffset_at (j : Z) :
  exists o, _readOffset (at_pos h j s) = Done (o, at_pos h 14 s).
Proof.
  unfold _readOffset. repeat header_step. eexists. reflexivity.
Qed.

End HeaderReads.

(** ** The cache hit *)

Lemma nth_error_byte_at (c : list Z) (k : nat) (b : Z) :
  nth_error c k = Some b -> byte_at c (Z.of_nat k) = b /\ (k < length c)%nat.
Proof.
  intros H. split.
  - unfold byte_at. rewrite Nat2Z.id. apply nth_error_nth. exact H.
  - apply nth_error_Some. congruence.
Qed.

(** When the companion exists, [getBitmap] on a supported bitmap is a
    cache hit: header metadata only, nothing written, the encoder not
    run. *)
Lemma getBitmap_hit_when_companion_exists
    (fuel : nat) (s0 s : Storage) (p : string) (h : handle) (c : list Z)
    (row amount : Z) :
  fileOpenToRead p s0 = Done (true, s) ->
  open_on h c s ->
  nth_error c 14 = Some 40 -> nth_error c 15 = Some 0 ->
  nth_error c 28 = Some 1 -> nth_error c 30 = Some 0 ->
  (String.length (strtok_dot (String.substring 0 29 (base_name (h_path h)))) + 4 < 30)%nat ->
  vol_exists (sd s)
    ("/enc/" ++ strtok_dot (String.substring 0 29 (base_name (h_path h))) ++ ".cbm") = true ->
  exists s2 w ht sw sh,
    getBitmap fuel p row amount s0 = Done (bitmap s2, s2) /\
    _readWidth s = Done (w, sw) /\
    _readHeight s = Done (ht, sh) /\
    width (bitmap s2) = w /\ height (bitmap s2) = ht /\
    data (bitmap s2) = data (bitmap s0) /\
    sd s2 = sd s0 /\
    writes_of (sd_log s2) = writes_of (sd_log s0) /\
    mappinglist s2 = mappinglist s0.
Proof.
  intros Hopen Hon H14 H15 H28 H30 Hstem Hcomp.
  destruct (fileOpenToRead_no_write _ _ _ _ Hopen) as (Hsd & Hlog & Hbm & Hml).
  destruct (nth_error_byte_at _ _ _ H14) as [B14 _].
  destruct (nth_error_byte_at _ _ _ H15) as [B15 _].
  destruct (nth_error_byte_at _ _ _ H28) as [B28 _].
  destruct (nth_error_byte_at _ _ _ H30) as [B30 L30].
  assert (Hlen : 30 < Z.of_nat (length c)) by lia.
  change (Z.of_nat 14) with 14 in B14. change (Z.of_nat 15) with 15 in B15.
  change (Z.of_nat 28) with 28 in B28. change (Z.of_nat 30) with 30 in B30.
  destruct (readWidth_at h c s Hon Hlen B14 B15) as [w Hw].
  destruct (readHeight_at h c s Hon Hlen B14 B15) as [ht Hht].
  pose proof (readBitsPerPixel_at h c s Hon Hlen B14 B15 26) as Hbpp.
  pose proof (readCompressionMethod_at h c s Hon Hlen B14 B15 29) as Hcm.
  destruct (readOffset_at h c s Hon Hlen 31) as [o Ho].
  rewrite B28 in Hbpp. rewrite B30 in Hcm.
  pose proof (Hw (h_pos h)) as Hw0. pose proof (Hht (h_pos h)) as Hht0.
  rewrite <- (at_pos_current h c s Hon) in Hw0, Hht0.
  assert (Hcap1 : strcat_into 30 (strtok_dot (String.substring 0 29 (base_name (h_path h))))
                    ".cbm"
                  = Done (strtok_dot (String.substring 0 29 (base_name (h_path h))) ++ ".cbm")%string).
  { unfold strcat_into, strcpy_into. rewrite string_length_app. cbn [String.length].
    destruct (Nat.ltb_spec (String.length (strtok_dot (String.substring 0 29
                 (base_name (h_path h)))) + 4) 30); [reflexivity | lia]. }
  assert (Hcap2 : strcat_into 50 "/enc/"
                    (strtok_dot (String.substring 0 29 (base_name (h_path h))) ++ ".cbm")
                  = Done ("/enc/" ++ strtok_dot (String.substring 0 29 (base_name (h_path h)))
                          ++ ".cbm")%string).
  { unfold strcat_into, strcpy_into. rewrite !string_length_app. cbn [String.length].
    match goal with |- context [(?a <? 50)%nat] =>
      destruct (Nat.ltb_spec a 50); [reflexivity | lia] end. }
  assert (Hrb : readBitmap fuel row amount s
                = Done (tt, set_dimensions (i32 (u32 (i32 w))) (i32 (u32 (i32 ht)))
                              (at_pos h 14 s))).
  { unfold readBitmap.
    rewrite (bind_done _ _ _ _ _ Hw0), (bind_done _ _ _ _ _ (Hht 22)).
    rewrite (bind_done _ _ _ _ _ Hbpp), (bind_done _ _ _ _ _ Hcm).
    rewrite (bind_done _ _ _ _ _ Ho).
    change ((u8 1 =? 1) && (u8 0 =? 0)) with true. cbv iota.
    cbv beta iota delta [bind modify file_getName get ret SD_exists lift].
    unfold set_dimensions, at_pos. sproj. cbn [Nat.sub].
    rewrite Hcap1, Hcap2. sproj. rewrite Hcomp. reflexivity. }
  eexists. exists (i32 w), (i32 ht). do 2 eexists.
  split; [| split; [exact Hw0 | split; [exact Hht0 |]]].
  - unfold getBitmap. rewrite (bind_done _ _ _ _ _ Hopen). cbn [negb].
    rewrite (bind_done _ _ _ _ _ Hrb). reflexivity.
  - unfold set_dimensions, at_pos. sproj. cbn [width height data].
    rewrite !i32_u32_i32.
    repeat split; try congruence.
Qed.

(** ** A file that has been written to stays on the volume *)

Lemma preserves_ret {A} (P : Storage -> Prop) (a : A) : preserves P (ret a).
Proof. intros s b s' HP H. injection H as <- <-. exact HP. Qed.

Lemma preserves_lift {A} (P : Storage -> Prop) (o : outcome A) : preserves P (lift o).
Proof. intros s b s' HP H. destruct o; try discriminate. injection H as <- <-. exact HP. Qed.

Lemma preserves_modify (P : Storage -> Prop) (f : Storage -> Storage) :
  (forall s, P s -> P (f s)) -> preserves P (modify f).
Proof. intros Hf s b s' HP H. injection H as <- <-. apply Hf. exact HP. Qed.

Lemma preserves_bind {A B} (P : Storage -> Prop) (m : M A) (k : A -> M B) :
  preserves P m -> (forall a, preserves P (k a)) -> preserves P (bind m k).
Proof.
  intros Hm Hk s b s' HP H. unfold bind in H.
  destruct (m s) as [[a s1]| |] eqn:Hms; try discriminate.
  eapply Hk; [eapply Hm; eassumption | exact H].
Qed.

(** [get] followed by a continuation that may look at the state it got. *)
Lemma preserves_bind_get {B} (P : Storage -> Prop) (k : Storage -> M B) :
  (forall s0, P s0 -> preserves P (k s0)) -> preserves P (bind get k).
Proof.
  intros Hk s b s' HP H. unfold bind, get in H. eapply Hk; eassumption.
Qed.

Create HintDb wfe discriminated.

Section WrittenFilesExist.

Local Abbreviation P := written_files_exist.

Lemma wfe_log_other (e : sd_event) (s : Storage) :
  (forall q pos bytes, e <> EvWrite q pos bytes) -> P s -> P (log_event e s).
Proof.
  intros He H q pos bytes [Heq | Hin].
  - exfalso. exact (He q pos bytes Heq).
  - exact (H q pos bytes Hin).
Qed.

Lemma wfe_insert_file (k : string) (c : list Z) (s : Storage) :
  P s -> P (set_sd (<[k := EFile c]> (sd s)) s).
Proof.
  intros H q pos bytes Hin. cbn [sd set_sd].
  destruct (decide (k = q)) as [-> | Hne].
  - exists c. apply lookup_insert_eq.
  - rewrite lookup_insert_ne by exact Hne. exact (H q pos bytes Hin).
Qed.

Lemma wfe_insert_dir (k : string) (s : Storage) :
  sd s !! k = None -> P s -> P (set_sd (<[k := EDir]> (sd s)) s).
Proof.
  intros Hk H q pos bytes Hin. cbn [sd set_sd].
  destruct (H q pos bytes Hin) as [c Hc].
  destruct (decide (k = q)) as [-> | Hne]; [congruence |].
  rewrite lookup_insert_ne by exact Hne. exists c. exact Hc.
Qed.

Lemma wfe_log_write (k : string) (pos : Z) (bytes c : list Z) (s : Storage) :
  sd s !! k = Some (EFile c) -> P s -> P (log_event (EvWrite k pos bytes) s).
Proof.
  intros Hk H q pos' bytes' [Heq | Hin].
  - injection Heq as <- _ _. exists c. exact Hk.
  - exact (H q pos' bytes' Hin).
Qed.

(** A [modify] that touches neither the volume nor the log. *)
Lemma wfe_modify_frame (f : Storage -> Storage) :
  (forall s, sd (f s) = sd s) -> (forall s, sd_log (f s) = sd_log s) ->
  preserves P (modify f).
Proof.
  intros Hsd Hlog. apply preserves_modify. intros s Hs q pos bytes Hin.
  rewrite Hsd. rewrite Hlog in Hin. exact (Hs q pos bytes Hin).
Qed.

(** A [modify] that only adds an open or a close to the log. *)
Lemma wfe_modify_log (e : sd_event) (f : Storage -> Storage) :
  (forall q pos bytes, e <> EvWrite q pos bytes) ->
  (forall s, sd (f s) = sd s) -> (forall s, sd_log (f s) = e :: sd_log s) ->
  preserves P (modify f).
Proof.
  intros He Hsd Hlog. apply preserves_modify. intros s Hs q pos bytes Hin.
  rewrite Hsd. rewrite Hlog in Hin. destruct Hin as [Heq | Hin].
  - exfalso. exact (He q pos bytes Heq).
  - exact (Hs q pos bytes Hin).
Qed.

Ltac pres :=
  repeat first
    [ solve [auto 1 with wfe nocore]
    | apply preserves_ret | apply preserves_lift
    | match goal with
      | |- preserves _ (bind get _) => apply preserves_bind_get; intros ? _
      | |- preserves _ (bind _ _) => apply preserves_bind; [| intros ?]
      | |- preserves _ (modify _) =>
          first [ apply wfe_modify_frame; reflexivity
                | eapply wfe_modify_log; cycle 1;
                  [reflexivity | reflexivity | intros; discriminate] ]
      | |- preserves _ (if ?b then _ else _) => destruct b
      | |- preserves _ (match ?o with Some _ => _ | None => _ end) => destruct o
      end ].

Lemma wfe_file_isOpen : preserves P file_isOpen.
Proof. unfold file_isOpen. pres. Qed.
#[local] Hint Resolve wfe_file_isOpen : wfe.

Lemma wfe_file_close : preserves P file_close.
Proof. unfold file_close. pres. Qed.
#[local] Hint Resolve wfe_file_close : wfe.

Lemma wfe_file_assign (f : option handle) : preserves P (file_assign f).
Proof. unfold file_assign. pres. Qed.
#[local] Hint Resolve wfe_file_assign : wfe.

Lemma wfe_file_seek (pos : Z) : preserves P (file_seek pos).
Proof. unfold file_seek. pres. Qed.
#[local] Hint Resolve wfe_file_seek : wfe.

Lemma wfe_file_read : preserves P file_read.
Proof.
  unfold file_read. apply preserves_bind_get. intros s0 _.
  destruct (file s0); [| pres]. destruct (handle_content s0); pres.
Qed.
#[local] Hint Resolve wfe_file_read : wfe.

Lemma wfe_file_position : preserves P file_position.
Proof. unfold file_position. pres. Qed.
#[local] Hint Resolve wfe_file_position : wfe.

Lemma wfe_file_available : preserves P file_available.
Proof. unfold file_available. pres. Qed.
#[local] Hint Resolve wfe_file_available : wfe.

Lemma wfe_file_getName (n : nat) : preserves P (file_getName n).
Proof. unfold file_getName. pres. Qed.
#[local] Hint Resolve wfe_file_getName : wfe.

Lemma wfe_SD_exists (p : string) : preserves P (SD_exists p).
Proof. unfold SD_exists. pres. Qed.
#[local] Hint Resolve wfe_SD_exists : wfe.

Lemma wfe_SD_open (p : string) : preserves P (SD_open p).
Proof. unfold SD_open. pres. Qed.
#[local] Hint Resolve wfe_SD_open : wfe.

Lemma wfe_SD_mkdir (p : string) : preserves P (SD_mkdir p).
Proof.
  unfold SD_mkdir. intros s a s' HP H.
  cbv beta iota delta [bind get modify ret] in H. unfold vol_exists in H.
  destruct (path_components p) as [|c0 cs]; [injection H as <- <-; exact HP |].
  destruct (sd s !! canon p) eqn:Hl; [injection H as <- <-; exact HP |].
  destruct (parent_is_dir (sd s) p); injection H as <- <-; [| exact HP].
  apply wfe_log_other; [discriminate |]. apply wfe_insert_dir; assumption.
Qed.
#[local] Hint Resolve wfe_SD_mkdir : wfe.

Lemma wfe_SD_open_write (p : string) : preserves P (SD_open_write p).
Proof.
  unfold SD_open_write. intros s a s' HP H.
  cbv beta iota delta [bind get modify ret] in H.
  destruct (path_components p) as [|c0 cs]; [injection H as <- <-; exact HP |].
  destruct (sd s !! canon p) as [[c|]|] eqn:Hl.
  - injection H as <- <-. apply wfe_log_other; [discriminate | exact HP].
  - injection H as <- <-. exact HP.
  - destruct (parent_is_dir (sd s) p); injection H as <- <-; [| exact HP].
    apply wfe_log_other; [discriminate |]. apply wfe_log_other; [discriminate |].
    apply wfe_insert_file. exact HP.
Qed.
#[local] Hint Resolve wfe_SD_open_write : wfe.

Lemma wfe_file_write (bytes : list Z) : preserves P (file_write bytes).
Proof.
  unfold file_write. intros s a s' HP H.
  cbv beta iota delta [bind get modify ret] in H.
  destruct (file s) as [h|]; [| injection H as <- <-; exact HP].
  destruct (handle_content s) as [c|]; [| injection H as <- <-; exact HP].
  destruct (h_write h); injection H as <- <-; [| exact HP].
  eapply wfe_log_write.
  - cbn [sd set_file set_sd]. apply lookup_insert_eq.
  - apply (wfe_insert_file _ _ s). exact HP.
Qed.
#[local] Hint Resolve wfe_file_write : wfe.

Lemma wfe_fileOpenToRead (p : string) : preserves P (fileOpenToRead p).
Proof. unfold fileOpenToRead. pres. Qed.
#[local] Hint Resolve wfe_fileOpenToRead : wfe.

(** Opened without [overwrite], nothing is removed. *)
Lemma wfe_fileOpenToWrite_keep (p : string) : preserves P (fileOpenToWrite p false).
Proof.
  unfold fileOpenToWrite. apply preserves_bind; [apply wfe_SD_exists |]. intros ex.
  rewrite andb_false_r. pres.
Qed.
#[local] Hint Resolve wfe_fileOpenToWrite_keep : wfe.

Lemma wfe_fileWriteData (bytes : list Z) : preserves P (fileWriteData bytes).
Proof. unfold fileWriteData. pres. Qed.
#[local] Hint Resolve wfe_fileWriteData : wfe.

Lemma wfe_writeCompressedBlock (q : string) (row start end_ : Z) :
  preserves P (writeCompressedBlock q row start end_).
Proof. unfold writeCompressedBlock. pres. Qed.
#[local] Hint Resolve wfe_writeCompressedBlock : wfe.

Lemma wfe_readDIB : preserves P _readDIB.
Proof. unfold _readDIB. pres. Qed.
#[local] Hint Resolve wfe_readDIB : wfe.

Lemma wfe_read_int32_le : preserves P read_int32_le.
Proof. unfold read_int32_le. pres. Qed.
#[local] Hint Resolve wfe_read_int32_le : wfe.

Lemma wfe_readOffset : preserves P _readOffset.
Proof. unfold _readOffset. pres. Qed.
#[local] Hint Resolve wfe_readOffset : wfe.

Lemma wfe_readWidth : preserves P _readWidth.
Proof. unfold _readWidth. pres. Qed.
#[local] Hint Resolve wfe_readWidth : wfe.

Lemma wfe_readHeight : preserves P _readHeight.
Proof. unfold _readHeight. pres. Qed.
#[local] Hint Resolve wfe_readHeight : wfe.

Lemma wfe_readBitsPerPixel : preserves P _readBitsPerPixel.
Proof. unfold _readBitsPerPixel. pres. Qed.
#[local] Hint Resolve wfe_readBitsPerPixel : wfe.

Lemma wfe_readCompressionMethod : preserves P _readCompressionMethod.
Proof. unfold _readCompressionMethod. pres. Qed.
#[local] Hint Resolve wfe_readCompressionMethod : wfe.

Section Encoder.

Variable fuel : nat.

Lemma wfe_findPixel (st : bool) (i : Z) : preserves P (findPixel fuel st i).
Proof. unfold findPixel. pres. Qed.
#[local] Hint Resolve wfe_findPixel : wfe.

Lemma wfe_store_next_byte (counter : Z) : preserves P (store_next_byte counter).
Proof. unfold store_next_byte. pres. Qed.
#[local] Hint Resolve wfe_store_next_byte : wfe.

Lemma wfe_read_whole_bytes (n : nat) :
  forall width counter bytes_read,
    preserves P (read_whole_bytes n width counter bytes_read).
Proof.
  induction n as [|n IH]; intros width counter bytes_read; cbn [read_whole_bytes].
  - pres.
  - pres.
Qed.
#[local] Hint Resolve wfe_read_whole_bytes : wfe.

Lemma wfe_readMono40_lines (n : nat) :
  forall width amount counter,
    preserves P (readMono40_lines fuel n width amount counter).
Proof.
  induction n as [|n IH]; intros width amount counter; cbn [readMono40_lines].
  - pres.
  - pres.
Qed.
#[local] Hint Resolve wfe_readMono40_lines : wfe.

Lemma wfe_readMono40 (row amount : Z) : preserves P (readMono40 fuel row amount).
Proof. unfold readMono40. pres. Qed.
#[local] Hint Resolve wfe_readMono40 : wfe.

Lemma wfe_findScanline (row index : Z) : preserves P (findScanline fuel row index).
Proof. unfold findScanline. pres. Qed.
#[local] Hint Resolve wfe_findScanline : wfe.

Lemma wfe_encode_row (n : nat) (orig enc : string) :
  forall row start end_ offset,
    preserves P (encode_row fuel n orig enc row start end_ offset).
Proof.
  induction n as [|n IH]; intros row start end_ offset; cbn [encode_row].
  - pres.
  - pres.
Qed.
#[local] Hint Resolve wfe_encode_row : wfe.

Lemma wfe_encode_rows (n : nat) (orig enc : string) :
  forall row, preserves P (encode_rows fuel n orig enc row).
Proof.
  induction n as [|n IH]; intros row; cbn [encode_rows].
  - pres.
  - pres.
Qed.
#[local] Hint Resolve wfe_encode_rows : wfe.

Lemma wfe_readBitmap (row amount : Z) : preserves P (readBitmap fuel row amount).
Proof. unfold readBitmap, encodeBitmap. pres. Qed.
#[local] Hint Resolve wfe_readBitmap : wfe.

Lemma wfe_getBitmap (p : string) (row amount : Z) :
  preserves P (getBitmap fuel p row amount).
Proof. unfold getBitmap. pres. Qed.

End Encoder.

End WrittenFilesExist.

(** Where the cache works.  Two calls of [getBitmap] on the same path,
    the first from a state whose log is consistent with its volume.  If the first
    call returns and the companion "/enc/<stem>.cbm" is there afterwards,
    because it existed or because the first call has written a record to
    it, and the path opens on a bitmap of the supported monochrome format,
    then the second call is a cache hit: it returns the width and height
    of the header and the pixel buffer as it was, leaves the volume as it
    is and adds no create, write, remove or mkdir to the log. *)
Theorem getBitmap_second_call_is_cache_hit
    (fuel : nat) (s0 s1 s : Storage) (p : string) (h : handle) (c : list Z)
    (row amount : Z) (b1 : Bitmap) (companion : string) :
  written_files_exist s0 ->
  getBitmap fuel p row amount s0 = Done (b1, s1) ->
  fileOpenToRead p s1 = Done (true, s) ->
  open_on h c s ->
  nth_error c 14 = Some 40 -> nth_error c 15 = Some 0 ->
  nth_error c 28 = Some 1 -> nth_error c 30 = Some 0 ->
  companion
    = ("/enc/" ++ strtok_dot (String.substring 0 29 (base_name (h_path h))) ++ ".cbm")%string ->
  (String.length (strtok_dot (String.substring 0 29 (base_name (h_path h)))) + 4 < 30)%nat ->
  (vol_exists (sd s1) companion = true \/
   exists pos bytes, In (EvWrite (canon companion) pos bytes) (sd_log s1)) ->
  exists s2 w ht sw sh,
    getBitmap fuel p row amount s1 = Done (bitmap s2, s2) /\
    _readWidth s = Done (w, sw) /\
    _readHeight s = Done (ht, sh) /\
    width (bitmap s2) = w /\ height (bitmap s2) = ht /\
    data (bitmap s2) = data (bitmap s1) /\
    sd s2 = sd s1 /\
    writes_of (sd_log s2) = writes_of (sd_log s1) /\
    mappinglist s2 = mappinglist s1.
Proof.
  intros Hinv Hfirst Hopen Hon H14 H15 H28 H30 -> Hstem Hcomp.
  pose proof (wfe_getBitmap fuel p row amount _ _ _ Hinv Hfirst) as Hinv1.
  destruct (fileOpenToRead_no_write _ _ _ _ Hopen) as (Hsd & _).
  apply (getBitmap_hit_when_companion_exists fuel s1 s p h c row amount);
    try assumption.
  rewrite Hsd. destruct Hcomp as [Hex | (pos & bytes & Hin)]; [exact Hex |].
  destruct (Hinv1 _ _ _ Hin) as [c' Hc']. unfold vol_exists.
  destruct (path_components _); [reflexivity |]. rewrite Hc'. reflexivity.
Qed.

Lemma getBitmap_second_call_is_cache_hit_witness :
  let c := bmp_mono 5 1 [162; 0; 0; 0] in
  let s0 := fresh_store {[ "a.bmp"%string := EFile c ]} in
  let s1 := match getBitmap 16 "a.bmp" 0 0 s0 with
            | Done (_, s) => s
            | _ => s0
            end in
  let h := {| h_path := "a.bmp"; h_pos := 0; h_write := false |} in
  let s := at_pos h 0 s1 in
  written_files_exist s0 /\
  getBitmap 16 "a.bmp" 0 0 s0 = Done (bitmap s1, s1) /\
  fileOpenToRead "a.bmp" s1 = Done (true, s) /\
  open_on h c s /\
  nth_error c 14 = Some 40 /\ nth_error c 15 = Some 0 /\
  nth_error c 28 = Some 1 /\ nth_error c 30 = Some 0 /\
  "/enc/a.cbm"%string
    = ("/enc/" ++ strtok_dot (String.substring 0 29 (base_name (h_path h))) ++ ".cbm")%string /\
  (String.length (strtok_dot (String.substring 0 29 (base_name (h_path h)))) + 4 < 30)%nat /\
  (vol_exists (sd s1) "/enc/a.cbm" = true \/
   exists pos bytes, In (EvWrite (canon "/enc/a.cbm") pos bytes) (sd_log s1)) /\
  exists s2 w ht sw sh,
    getBitmap 16 "a.bmp" 0 0 s1 = Done (bitmap s2, s2) /\
    _readWidth s = Done (w, sw) /\
    _readHeight s = Done (ht, sh) /\
    width (bitmap s2) = w /\ height (bitmap s2) = ht /\
    data (bitmap s2) = data (bitmap s1) /\
    sd s2 = sd s1 /\
    writes_of (sd_log s2) = writes_of (sd_log s1) /\
    mappinglist s2 = mappinglist s1.
Proof.
  intros c s0 s1 h s.
  assert (Hinv : written_files_exist s0) by (intros q pos bytes []).
  assert (Hfirst : getBitmap 16 "a.bmp" 0 0 s0 = Done (bitmap s1, s1))
    by (vm_compute; reflexivity).
  assert (Hopen : fileOpenToRead "a.bmp" s1 = Done (true, s)) by (vm_compute; reflexivity).
  assert (Hon : open_on h c s) by (split; vm_compute; reflexivity).
  assert (H14 : nth_error c 14 = Some 40) by reflexivity.
  assert (H15 : nth_error c 15 = Some 0) by reflexivity.
  assert (H28 : nth_error c 28 = Some 1) by reflexivity.
  assert (H30 : nth_error c 30 = Some 0) by reflexivity.
  assert (Hname : "/enc/a.cbm"%string
            = ("/enc/" ++ strtok_dot (String.substring 0 29 (base_name (h_path h)))
               ++ ".cbm")%string) by reflexivity.
  assert (Hstem : (String.length (strtok_dot (String.substring 0 29 (base_name (h_path h))))
                   + 4 < 30)%nat) by (vm_compute; lia).
  assert (Hcomp : vol_exists (sd s1) "/enc/a.cbm" = true \/
                  exists pos bytes, In (EvWrite (canon "/enc/a.cbm") pos bytes) (sd_log s1)).
  { right. exists 8, [0; 0; 2; 0; 3; 0; 255; 255]. vm_compute. tauto. }
  split; [exact Hinv |]. split; [exact Hfirst |]. split; [exact Hopen |].
  split; [exact Hon |]. split; [exact H14 |]. split; [exact H15 |].
  split; [exact H28 |]. split; [exact H30 |]. split; [exact Hname |].
  split; [exact Hstem |]. split; [exact Hcomp |].
  exact (getBitmap_second_call_is_cache_hit 16 s0 s1 s "a.bmp" h c 0 0 (bitmap s1)
           "/enc/a.cbm" Hinv Hfirst Hopen Hon H14 H15 H28 H30 Hname Hstem Hcomp).
Defined.

(** A 5x1 bitmap whose five pixels are clear (padding bits 0, 1, 0) has
    no run; the first [getBitmap] writes no record, so no companion comes
    into being, and the second call does not find one either. *)
Lemma getBitmap_blank_bitmap_leaves_no_companion :
  exists b1 s1 b2 s2,
    getBitmap 16 "a.bmp" 0 0
      (fresh_store {[ "a.bmp"%string := EFile (bmp_mono 5 1 [2; 0; 0; 0]) ]})
      = Done (b1, s1) /\
    width b1 = 5 /\ height b1 = 1 /\
    sd s1 !! "enc/a.cbm"%string = None /\
    getBitmap 16 "a.bmp" 0 0 s1 = Done (b2, s2) /\
    sd s2 !! "enc/a.cbm"%string = None.
Proof.
  do 4 eexists.
  split. { vm_compute. reflexivity. }
  split. { vm_compute. reflexivity. }
  split. { vm_compute. reflexivity. }
  split. { vm_compute. reflexivity. }
  split. { vm_compute. reflexivity. }
  vm_compute. reflexivity.
Qed.

(** C8 (the code departs from it).  [readBitmap] checks "if encoded
    version already exists" and otherwise calls [encodeBitmap] to build
    the companion "/enc/<stem>.cbm", but on bitmaps whose rows are padded
    with zero bits, as bitmap files are, the first [getBitmap] does not
    return.  On an 8x1 bitmap with the row 0001 1000 the search for the
    next run goes past the width and reads [data[1]], which was never
    written; on a 5x1 bitmap with the row 1010 0000 it reads past the
    one-byte array; on a 32x1 bitmap with sixteen set pixels in the
    middle it reads the spare fifth byte; on a 16x2 bitmap [readMono40]
    writes the second row past the array.  No such call ends with the
    companion in place and a bitmap handed back. *)
Theorem getBitmap_first_call_has_no_result :
  getBitmap 64 "a.bmp" 0 0
    (fresh_store {[ "a.bmp"%string := EFile (bmp_mono 8 1 [24; 0; 0; 0]) ]})
  = Undefined (ReadIndeterminate 1) /\
  getBitmap 64 "a.bmp" 0 0
    (fresh_store {[ "a.bmp"%string := EFile (bmp_mono 5 1 [160; 0; 0; 0]) ]})
  = Undefined (ReadPastEnd 1) /\
  getBitmap 64 "a.bmp" 0 0
    (fresh_store {[ "a.bmp"%string := EFile (bmp_mono 32 1 [0; 255; 255; 0]) ]})
  = Undefined (ReadIndeterminate 4) /\
  getBitmap 64 "a.bmp" 0 0
    (fresh_store {[ "a.bmp"%string := EFile (bmp_mono 16 2 [24; 0; 0; 0; 24; 0; 0; 0]) ]})
  = Undefined (WritePastEnd 3).
Proof.
  split. { vm_compute. reflexivity. }
  split. { vm_compute. reflexivity. }
  split. { vm_compute. reflexivity. }
  vm_compute. reflexivity.
Qed.

(** ** Mapping store: lookups that miss *)

Lemma findFromFloorNo_loop_miss (code : string) (s : Storage) :
  forall (n : nat) (ctr : Z),
    0 <= ctr ->
    (Z.to_nat ctr + n <= length (map_list (mappinglist s)))%nat ->
    Forall (fun m => floorNo m <> code) (map_list (mappinglist s)) ->
    findFromFloorNo_loop n ctr code s = Done (ctr + Z.of_nat n, s).
Proof.
  induction n as [|n IH]; intros ctr Hctr Hlen Hall.
  - cbn. unfold ret. f_equal. f_equal. lia.
  - cbn [findFromFloorNo_loop]. unfold bind at 1. unfold load_entry.
    unfold bind at 1. unfold get.
    destruct (nth_error (map_list (mappinglist s)) (Z.to_nat ctr)) as [m|] eqn:Hnth.
    + unfold ret at 1. rewrite strcmp_zero.
      assert (Hne : floorNo m <> code).
      { rewrite Forall_forall in Hall. apply Hall.
        apply list_elem_of_In. eapply nth_error_In; eassumption. }
      apply String.eqb_neq in Hne. rewrite Hne.
      rewrite IH by (try lia; assumption).
      f_equal. f_equal. lia.
    + apply nth_error_None in Hnth. lia.
Qed.

Lemma findFromFloorNo_miss (code : string) (s : Storage) :
  length (map_list (mappinglist s)) = 32%nat ->
  Forall (fun m => floorNo m <> code) (map_list (mappinglist s)) ->
  findFromFloorNo code s = Done (-1, s).
Proof.
  intros Hlen Hall. unfold findFromFloorNo, bind.
  rewrite findFromFloorNo_loop_miss by (try lia; assumption).
  reflexivity.
Qed.

(** C9.  For every state whose table has its 32 entries and every floor
    code that equals no entry's [floorNo], [setFloorMapping] returns -1
    and the whole state, so every field of every entry and
    [n_mapped_floors], is what it was before the call. *)
Theorem setFloorMapping_unknown_floor
    (s : Storage) (code name name2 : string) :
  length (map_list (mappinglist s)) = 32%nat ->
  Forall (fun m => floorNo m <> code) (map_list (mappinglist s)) ->
  setFloorMapping code name name2 s = Done (-1, s).
Proof.
  intros Hlen Hall. unfold setFloorMapping, bind.
  rewrite findFromFloorNo_miss by assumption.
  reflexivity.
Qed.

Lemma setFloorMapping_unknown_floor_witness :
  let s := set_mappinglist
             {| n_mapped_floors := 0;
                map_list := map (fun n => {| floorNo := String_of (Z.of_nat n);
                                             bitmapName := ""; bitmapName2 := "" |})
                                (seq 1 32) |}
             (fresh_store ∅) in
  length (map_list (mappinglist s)) = 32%nat /\
  Forall (fun m => floorNo m <> "99"%string) (map_list (mappinglist s)) /\
  setFloorMapping "99" "icon_a" "icon_b" s = Done (-1, s).
Proof.
  intros s.
  assert (Hall : Forall (fun m => floorNo m <> "99"%string) (map_list (mappinglist s))).
  { apply Forall_forall. intros m Hin. apply list_elem_of_In in Hin.
    vm_compute in Hin.
    repeat (destruct Hin as [<- | Hin]; [discriminate |]). destruct Hin. }
  split; [reflexivity | split; [exact Hall |]].
  apply (setFloorMapping_unknown_floor s "99" "icon_a" "icon_b"); [reflexivity | exact Hall].
Defined.

(** ** Writing a file line by line *)

Lemma file_write_appends (q : string) (V : gmap string entry) (c bytes : list Z)
    (s : Storage) :
  writing q V c s ->
  exists s',
    file_write bytes s = Done (Z.of_nat (length bytes), s') /\
    writing q V (c ++ bytes) s' /\
    mappinglist s' = mappinglist s /\ bitmap s' = bitmap s.
Proof.
  intros [Hf Hsd]. eexists. split; [| split; [split |]].
  - munfold. rewrite Hf. sproj. rewrite Hsd, lookup_insert_eq.
    sproj. rewrite firstn_skipn_at_end. reflexivity.
  - sproj. rewrite length_app, Nat2Z.inj_add. reflexivity.
  - sproj. rewrite Hsd, insert_insert_eq. reflexivity.
  - split; reflexivity.
Qed.

Lemma file_println_appends (q : string) (V : gmap string entry) (c : list Z)
    (str : string) (s : Storage) :
  writing q V c s ->
  exists n s',
    file_println str s = Done (n, s') /\
    writing q V (c ++ bytes_of_string str ++ [13; 10]) s' /\
    mappinglist s' = mappinglist s /\ bitmap s' = bitmap s.
Proof.
  intros Hw.
  destruct (file_write_appends q V c (bytes_of_string str) s Hw)
    as (s1 & H1 & Hw1 & Hm1 & Hb1).
  destruct (file_write_appends q V _ [13; 10] s1 Hw1) as (s2 & H2 & Hw2 & Hm2 & Hb2).
  do 2 eexists. split; [| split; [| split]].
  - unfold file_println, file_print, bind. rewrite H1, H2. reflexivity.
  - rewrite app_assoc. exact Hw2.
  - congruence.
  - congruence.
Qed.

Lemma for_ctr_appends (q : string) (V : gmap string entry) (ml : MappingList)
    (body : Z -> M unit) (line : Z -> list Z) (lo hi : Z) :
  (forall ctr c s,
      lo <= ctr < hi -> writing q V c s -> mappinglist s = ml ->
      exists s', body ctr s = Done (tt, s') /\ writing q V (c ++ line ctr) s' /\
                 mappinglist s' = ml /\ bitmap s' = bitmap s) ->
  forall (n : nat) (ctr : Z) (c : list Z) (s : Storage),
    lo <= ctr -> ctr + Z.of_nat n <= hi ->
    writing q V c s -> mappinglist s = ml ->
    exists s', for_ctr n ctr body s = Done (tt, s') /\
               writing q V (c ++ lines_from line n ctr) s' /\
               mappinglist s' = ml /\ bitmap s' = bitmap s.
Proof.
  intros Hbody. induction n as [|n IH]; intros ctr c s Hlo Hhi Hw Hm.
  - exists s. cbn [for_ctr lines_from]. rewrite app_nil_r.
    split; [reflexivity | split; [exact Hw | split; [exact Hm | reflexivity]]].
  - destruct (Hbody ctr c s ltac:(lia) Hw Hm) as (s1 & H1 & Hw1 & Hm1 & Hb1).
    destruct (IH (ctr + 1) _ s1 ltac:(lia) ltac:(lia) Hw1 Hm1) as (s2 & H2 & Hw2 & Hm2 & Hb2).
    exists s2. split; [| split; [| split]].
    + cbn [for_ctr]. unfold bind. rewrite H1. exact H2.
    + cbn [lines_from]. rewrite app_assoc. exact Hw2.
    + exact Hm2.
    + congruence.
Qed.

Lemma file_close_after_writing (q : string) (V : gmap string entry) (c : list Z)
    (s : Storage) :
  writing q V c s ->
  file_close s = Done (tt, log_event (EvClose q) (set_file None s)).
Proof. intros [Hf _]. munfold. rewrite Hf. reflexivity. Qed.

(** ** Opening for writing with [overwrite] set *)

Lemma fileOpenToWrite_frame (s s' : Storage) (p : string) (overwrite r : bool) :
  fileOpenToWrite p overwrite s = Done (r, s') ->
  mappinglist s' = mappinglist s /\ bitmap s' = bitmap s.
Proof.
  intros H. munfold_in H.
  destruct (path_components p) as [|c0 cs];
    destruct (sd s !! canon p) as [[c|]|] eqn:Hl;
    destruct overwrite; destruct (file s) as [h0|] eqn:Hf;
    sproj_in H;
    repeat first
      [ rewrite Hf in H | rewrite Hl in H | rewrite lookup_delete_eq in H
      | progress sproj_in H ];
    try discriminate;
    try (destruct (parent_is_dir _ p); sproj_in H; try discriminate);
    injection H as <- <-; split; reflexivity.
Qed.

Lemma fileOpenToWrite_overwrite_creates (s s' : Storage) (p : string) :
  fileOpenToWrite p true s = Done (true, s') ->
  exists V, creatable V p /\ writing (canon p) V [] s'.
Proof.
  intros H. munfold_in H.
  destruct (path_components p) as [|c0 cs] eqn:Hcs;
    destruct (sd s !! canon p) as [[c|]|] eqn:Hl;
    destruct (file s) as [h0|] eqn:Hf;
    sproj_in H;
    repeat first
      [ rewrite Hf in H | rewrite Hl in H | rewrite lookup_delete_eq in H
      | progress sproj_in H ];
    try discriminate;
    (destruct (parent_is_dir _ p) eqn:Hpar; sproj_in H; try discriminate);
    injection H as <-;
    eexists; (split; [split; [rewrite Hcs; discriminate | split; [| exact Hpar]] |
                      split; [reflexivity | sproj; reflexivity]]);
    first [apply lookup_delete_eq | exact Hl].
Qed.

Lemma fileOpenToWrite_overwrite_again (s : Storage) (p : string)
    (V : gmap string entry) (c : list Z) :
  creatable V p ->
  sd s = <[canon p := EFile c]> V ->
  exists s', fileOpenToWrite p true s = Done (true, s') /\
             writing (canon p) V [] s' /\
             mappinglist s' = mappinglist s /\ bitmap s' = bitmap s.
Proof.
  intros (Hcs & Hnone & Hpar) Hsd.
  assert (Hdel : delete (canon p) (sd s) = V).
  { rewrite Hsd, delete_insert_eq. apply delete_id. exact Hnone. }
  munfold. destruct (path_components p) as [|c0 cs] eqn:Hcomp; [congruence |].
  rewrite Hsd, lookup_insert_eq. sproj. rewrite Hsd, lookup_insert_eq. sproj.
  destruct (file s) as [h0|] eqn:Hf; sproj; rewrite ?Hf; sproj;
    rewrite Hsd, delete_insert_eq, (delete_id V) by exact Hnone;
    rewrite Hnone, Hpar; sproj;
    (eexists; split; [reflexivity |]);
    (split; [split; [reflexivity | sproj; reflexivity] | split; reflexivity]).
Qed.

(** ** What [initMappingList] and [commitMappingList] leave in the file *)

Lemma initMappingList_writes (s s0 : Storage) (p : string) :
  initMappingList p s = Done (0, s0) ->
  exists V, creatable V p /\
            sd s0 = <[canon p := EFile init_file]> V /\
            file s0 = None /\
            mappinglist s0 = mappinglist s /\ bitmap s0 = bitmap s.
Proof.
  intros H. unfold initMappingList in H. unfold bind at 1 in H.
  destruct (fileOpenToWrite p true s) as [[r sa]| |] eqn:Hopen; try discriminate.
  destruct r; cbn [negb] in H; [| discriminate].
  destruct (fileOpenToWrite_overwrite_creates _ _ _ Hopen) as (V & Hcr & Hw).
  destruct (fileOpenToWrite_frame _ _ _ _ _ Hopen) as [Hm Hb].
  exists V. split; [exact Hcr |].
  destruct (for_ctr_appends (canon p) V (mappinglist sa)
              (fun ctr => bind (file_println (String_of (ctr + 1) ++ "," ++ "" ++ "," ++ ""))
                               (fun _ => ret tt))
              init_line 0 32) with (n := 32%nat) (ctr := 0) (c := @nil Z) (s := sa)
    as (sb & Hloop & Hwb & Hmb & Hbb); try lia; try assumption; try reflexivity.
  { intros ctr c s1 _ Hw1 Hm1.
    destruct (file_println_appends (canon p) V c
                (String_of (ctr + 1) ++ "," ++ "" ++ "," ++ "") s1 Hw1)
      as (n & s2 & H2 & Hw2 & Hm2 & Hb2).
    exists s2. unfold bind. rewrite H2. unfold ret.
    split; [reflexivity | split; [exact Hw2 | split; congruence]]. }
  destruct (file_println_appends (canon p) V _ "$" sb Hwb) as (n & sc & Hc & Hwc & Hmc & Hbc).
  rewrite (bind_done _ _ _ _ _ Hloop), (bind_done _ _ _ _ _ Hc) in H.
  rewrite (bind_done _ _ _ _ _ (file_close_after_writing _ _ _ _ Hwc)) in H.
  unfold ret in H. injection H as <-. sproj.
  destruct Hwc as [_ Hsd]. split; [| split; [reflexivity | split; congruence]].
  rewrite Hsd. reflexivity.
Qed.

Lemma load_entry_in_range (s : Storage) (ctr : Z) :
  0 <= ctr < Z.of_nat (length (map_list (mappinglist s))) ->
  load_entry ctr s = Done (nth (Z.to_nat ctr) (map_list (mappinglist s)) blank_mapping, s).
Proof.
  intros Hr. unfold load_entry, bind, get, ret.
  destruct (nth_error (map_list (mappinglist s)) (Z.to_nat ctr)) as [m|] eqn:Hn.
  - erewrite nth_error_nth by eassumption. reflexivity.
  - apply nth_error_None in Hn. lia.
Qed.

Lemma commitMappingList_writes (s : Storage) (p : string)
    (V : gmap string entry) (c : list Z) :
  creatable V p ->
  sd s = <[canon p := EFile c]> V ->
  length (map_list (mappinglist s)) = 32%nat ->
  exists s', commitMappingList p s = Done (0, s') /\
             sd s' = <[canon p := EFile (commit_file (mappinglist s))]> V /\
             file s' = None /\
             mappinglist s' = mappinglist s /\ bitmap s' = bitmap s.
Proof.
  intros Hcr Hsd Hlen.
  destruct (fileOpenToWrite_overwrite_again s p V c Hcr Hsd) as (sa & Hopen & Hw & Hm & Hb).
  destruct (for_ctr_appends (canon p) V (mappinglist s)
              (fun ctr => bind (load_entry ctr) (fun m =>
                          bind (file_print (floorNo m ++ "," ++ bitmapName m ++ ","
                                            ++ bitmapName2 m ++ String "010" EmptyString))
                               (fun _ => ret tt)))
              (commit_line (mappinglist s)) 0 32) with (n := 32%nat) (ctr := 0) (c := @nil Z) (s := sa)
    as (sb & Hloop & Hwb & Hmb & Hbb); try lia; try assumption.
  { intros ctr c1 s1 Hr Hw1 Hm1.
    unfold bind at 1. rewrite load_entry_in_range by (rewrite Hm1, Hlen; lia).
    rewrite Hm1.
    destruct (file_write_appends (canon p) V c1 (commit_line (mappinglist s) ctr) s1 Hw1)
      as (s2 & H2 & Hw2 & Hm2 & Hb2).
    exists s2. unfold file_print. unfold commit_line in H2 at 1.
    rewrite (bind_done _ _ _ _ _ H2).
    unfold ret. split; [reflexivity | split; [exact Hw2 | split; congruence]]. }
  destruct (file_write_appends (canon p) V _
              (bytes_of_string (String "$" (String "010" EmptyString))) sb Hwb)
    as (sc & Hc & Hwc & Hmc & Hbc).
  eexists. split; [| split; [| split; [| split]]].
  - unfold commitMappingList. rewrite (bind_done _ _ _ _ _ Hopen). cbn [negb].
    rewrite (bind_done _ _ _ _ _ Hloop). unfold file_print.
    rewrite (bind_done _ _ _ _ _ Hc).
    rewrite (bind_done _ _ _ _ _ (file_close_after_writing _ _ _ _ Hwc)). reflexivity.
  - sproj. destruct Hwc as [_ Hsdc]. rewrite Hsdc. reflexivity.
  - reflexivity.
  - sproj. congruence.
  - sproj. congruence.
Qed.

(** ** The parser depends on the bytes under the cursor and on the table *)

Section ParserView.

Variable V : gmap string entry.

Lemma ret_sim {A} (a : A) (s t : Storage) :
  same_view V s t -> outcome_sim V (ret a s) (ret a t).
Proof. intros H. split; [reflexivity | exact H]. Qed.

Lemma lift_sim {A} (o : outcome A) (s t : Storage) :
  same_view V s t -> outcome_sim V (lift o s) (lift o t).
Proof. intros H. destruct o; cbn; [split |..]; auto. Qed.

Lemma bind_sim {A B} (m : M A) (k : A -> M B) (s t : Storage) :
  outcome_sim V (m s) (m t) ->
  (forall a s' t', same_view V s' t' -> outcome_sim V (k a s') (k a t')) ->
  outcome_sim V (bind m k s) (bind m k t).
Proof.
  intros Hm Hk. unfold bind.
  destruct (m s) as [[a s']| |], (m t) as [[b t']| |]; cbn in Hm; try contradiction.
  - destruct Hm as [<- Hv]. apply Hk. exact Hv.
  - subst. reflexivity.
  - exact I.
Qed.

Lemma handle_content_set_pos (s : Storage) (h : handle) (k : Z) :
  file s = Some h ->
  handle_content (set_file (Some {| h_path := h_path h; h_pos := k;
                                    h_write := h_write h |}) s)
  = handle_content s.
Proof. unfold handle_content. intros ->. reflexivity. Qed.

Lemma file_read_sim (s t : Storage) :
  same_view V s t -> outcome_sim V (file_read s) (file_read t).
Proof.
  intros (Hsd & Hm & Hc & Hp).
  cbv beta iota delta [file_read bind get ret modify].
  destruct (file s) as [h|] eqn:Hfs, (file t) as [h'|] eqn:Hft; cbn in Hp; try discriminate.
  - injection Hp as Hp. rewrite Hc, Hp.
    destruct (handle_content t) as [c|] eqn:Hct.
    + destruct (nth_error c (Z.to_nat (h_pos h'))) as [b|].
      * split; [reflexivity |]. unfold same_view.
        rewrite !handle_content_set_pos by assumption. sproj. cbn [option_map h_pos].
        repeat split; congruence.
      * split; [reflexivity |]. unfold same_view. rewrite Hfs, Hft. cbn [option_map].
        repeat split; congruence.
    + split; [reflexivity |]. unfold same_view. rewrite Hfs, Hft. cbn [option_map].
      repeat split; congruence.
  - split; [reflexivity |]. unfold same_view. rewrite Hfs, Hft.
    repeat split; assumption.
Qed.

Lemma store_field_sim (i : Z) (cap : nat) (upd : string -> Mapping -> Mapping)
    (src : string) (s t : Storage) :
  same_view V s t ->
  outcome_sim V (store_field i cap upd src s) (store_field i cap upd src t).
Proof.
  intros (Hsd & Hm & Hc & Hp).
  cbv beta iota delta [store_field bind get ret modify lift].
  rewrite Hm.
  destruct (nth_error (map_list (mappinglist t)) (Z.to_nat i)) as [m|]; [| reflexivity].
  destruct (strcpy_into cap src) as [v| |]; [| reflexivity | exact I].
  split; [reflexivity |]. unfold same_view, handle_content. sproj.
  repeat split; assumption.
Qed.

Ltac sim_step :=
  first [ apply ret_sim | apply lift_sim | apply store_field_sim
        | apply file_read_sim
        | apply bind_sim; [| intros ? ? ? ?] ].

Lemma parse_separator_sim (c : ascii) (l : parse_locals) (s t : Storage) :
  same_view V s t ->
  outcome_sim V (parse_separator c l s) (parse_separator c l t).
Proof.
  intros H. unfold parse_separator.
  repeat match goal with
         | |- context [if ?b then _ else _] => destruct b
         end;
    repeat (sim_step; try assumption).
Qed.

Lemma parse_store_sim (c : ascii) (l : parse_locals) (s t : Storage) :
  same_view V s t ->
  outcome_sim V (parse_store c l s) (parse_store c l t).
Proof.
  intros H. unfold parse_store.
  repeat match goal with
         | |- context [if ?b then _ else _] => destruct b
         end;
    repeat (sim_step; try assumption).
Qed.

Lemma parse_loop_sim (n : nat) :
  forall (l : parse_locals) (s t : Storage),
    same_view V s t ->
    outcome_sim V (parse_loop n l s) (parse_loop n l t).
Proof.
  induction n as [|n IH]; intros l s t H.
  - exact I.
  - cbn [parse_loop]. apply bind_sim; [apply file_read_sim; exact H |].
    intros b s1 t1 H1.
    destruct (Ascii.eqb (ascii_of_byte b) "$"); [apply ret_sim; exact H1 |].
    apply bind_sim; [apply parse_separator_sim; exact H1 |].
    intros l1 s2 t2 H2.
    apply bind_sim; [apply parse_store_sim; exact H2 |].
    intros l2 s3 t3 H3. apply IH. exact H3.
Qed.

End ParserView.

(** ** Loading the mapping file *)

Lemma components_nonempty_path (p : string) :
  path_components p <> [] -> p <> EmptyString.
Proof. intros H ->. apply H. reflexivity. Qed.

Lemma fileOpenToRead_on_file (s : Storage) (p : string) (e : entry) (k : Z) :
  path_components p <> [] ->
  sd s !! canon p = Some e ->
  file s = None \/ file s = Some {| h_path := canon p; h_pos := k; h_write := false |} ->
  exists s',
    fileOpenToRead p s = Done (true, s') /\
    file s' = Some {| h_path := canon p; h_pos := 0; h_write := false |} /\
    sd s' = sd s /\ mappinglist s' = mappinglist s /\ bitmap s' = bitmap s.
Proof.
  intros Hcs Hl Hfile.
  pose proof (components_nonempty_path p Hcs) as Hne.
  munfold. destruct (path_components p) as [|c0 cs] eqn:Hcomp; [congruence |].
  destruct Hfile as [Hf | Hf]; rewrite Hf; sproj; rewrite strcmp_zero.
  - assert (Hq : String.eqb "" p = false) by (apply String.eqb_neq; congruence).
    rewrite Hq, Hf. sproj. rewrite Hl. sproj.
    eexists. split; [reflexivity |]. repeat split.
  - destruct (String.eqb _ p).
    + rewrite Hf. cbn [Z.eqb orb]. eexists. split; [reflexivity |]. repeat split.
    + rewrite Hf. sproj. rewrite Hl. sproj.
      eexists. split; [reflexivity |]. repeat split.
Qed.

Lemma file_close_closes (s : Storage) :
  exists s', file_close s = Done (tt, s') /\ file s' = None /\ sd s' = sd s /\
             mappinglist s' = mappinglist s /\ bitmap s' = bitmap s.
Proof.
  munfold. destruct (file s) eqn:Hf; eexists; (split; [reflexivity |]);
    repeat split; assumption.
Qed.

Lemma getMappingList_reads (fuel : nat) (s t : Storage) (p : string)
    (c : list Z) (l : parse_locals) :
  path_components p <> [] ->
  sd s !! canon p = Some (EFile c) ->
  file s = None ->
  parse_loop fuel parse_start (reader_state c (mappinglist s)) = Done (l, t) ->
  exists s',
    getMappingList fuel p s
      = Done ({| n_mapped_floors := i32 (mapped_floor_count l);
                 map_list := map_list (mappinglist t) |}, s') /\
    mappinglist s' = {| n_mapped_floors := i32 (mapped_floor_count l);
                        map_list := map_list (mappinglist t) |} /\
    file s' = None /\ sd s' = sd s.
Proof.
  intros Hcs Hl Hf Hparse.
  destruct (fileOpenToRead_on_file s p _ 0 Hcs Hl (or_introl Hf))
    as (s1 & H1 & Hf1 & Hsd1 & Hm1 & _).
  assert (Hl1 : sd s1 !! canon p = Some (EFile c)) by (rewrite Hsd1; exact Hl).
  destruct (fileOpenToRead_on_file s1 p _ 0 Hcs Hl1 (or_intror Hf1))
    as (s2 & H2 & Hf2 & Hsd2 & Hm2 & _).
  assert (Hview : same_view (sd s) s2 (reader_state c (mappinglist s))).
  { unfold same_view, handle_content, reader_state. rewrite Hf2. sproj.
    rewrite Hsd2, Hl1, lookup_singleton_eq.
    split; [congruence | split; [congruence | split; reflexivity]]. }
  pose proof (parse_loop_sim (sd s) fuel parse_start _ _ Hview) as Hsim.
  rewrite Hparse in Hsim.
  destruct (parse_loop fuel parse_start s2) as [[l' s3]| |] eqn:Hp3; try contradiction.
  destruct Hsim as [-> (Hsd3 & Hm3 & _)].
  destruct (file_close_closes (set_n_mapped_floors (i32 (mapped_floor_count l)) s3))
    as (s4 & H4 & Hf4 & Hsd4 & Hm4 & _).
  exists s4. split; [| split; [| split]].
  - unfold getMappingList. rewrite (bind_done _ _ _ _ _ H1). cbn [negb].
    rewrite (bind_done _ _ _ _ _ H2), (bind_done _ _ _ _ _ Hp3).
    unfold modify at 1. unfold bind at 1. rewrite (bind_done _ _ _ _ _ H4).
    unfold bind, get, ret. rewrite Hm4. unfold set_n_mapped_floors. sproj.
    rewrite Hm3. reflexivity.
  - rewrite Hm4. unfold set_n_mapped_floors. sproj. rewrite Hm3. reflexivity.
  - exact Hf4.
  - rewrite Hsd4. unfold set_n_mapped_floors. sproj. exact Hsd3.
Qed.

Lemma parse_loop_more_fuel (n : nat) :
  forall (l : parse_locals) (s : Storage) (r : parse_locals * Storage) (m : nat),
    parse_loop n l s = Done r -> (n <= m)%nat -> parse_loop m l s = Done r.
Proof.
  induction n as [|n IH]; intros l s r m H Hle; [discriminate |].
  destruct m as [|m]; [lia |].
  cbn [parse_loop] in H |- *. unfold bind at 1 in H. unfold bind at 1.
  destruct (file_read s) as [[b s1]| |]; try discriminate.
  destruct (Ascii.eqb (ascii_of_byte b) "$"); [exact H |].
  unfold bind at 1 in H. unfold bind at 1.
  destruct (parse_separator (ascii_of_byte b) l s1) as [[l1 s2]| |]; try discriminate.
  unfold bind at 1 in H. unfold bind at 1.
  destruct (parse_store (ascii_of_byte b) l1 s2) as [[l2 s3]| |]; try discriminate.
  apply IH; [exact H | lia].
Qed.

Lemma table_of_32 (ml : MappingList) :
  length (map_list ml) = 32%nat ->
  exists n m0 m1 m2 m3 m4 m5 m6 m7 m8 m9 m10 m11 m12 m13 m14 m15 m16 m17 m18
         m19 m20 m21 m22 m23 m24 m25 m26 m27 m28 m29 m30 m31,
    ml = {| n_mapped_floors := n;
            map_list := [m0; m1; m2; m3; m4; m5; m6; m7; m8; m9; m10; m11; m12;
                         m13; m14; m15; m16; m17; m18; m19; m20; m21; m22; m23;
                         m24; m25; m26; m27; m28; m29; m30; m31] |}.
Proof.
  destruct ml as [n l]. cbn. intros H.
  do 32 (destruct l as [|? l]; [discriminate |]).
  destruct l; [| discriminate].
  repeat eexists.
Qed.

(** C3 (the code departs from it).  [initMappingList] ends every line with
    [println], carriage return and line feed; [getMappingList] takes the
    carriage return for the second bitmap name.  After the two calls on
    an empty volume the 32 floors are numbered "1" to "32" and the first
    slots are empty, but every second slot holds the carriage return and
    [n_mapped_floors] is 32. *)
Theorem initialize_then_load_counts_every_floor :
  exists ml s,
    bind (initMappingList "mapping.ini") (fun _ => getMappingList 256 "mapping.ini")
      (fresh_store ∅) = Done (ml, s) /\
    map floorNo (map_list ml) = map (fun n => String_of (Z.of_nat n)) (seq 1 32) /\
    map bitmapName (map_list ml) = repeat EmptyString 32 /\
    map bitmapName2 (map_list ml) = repeat CR 32 /\
    n_mapped_floors ml = 32.
Proof.
  do 2 eexists.
  split. { vm_compute. reflexivity. }
  split. { vm_compute. reflexivity. }
  split. { vm_compute. reflexivity. }
  split. { vm_compute. reflexivity. }
  vm_compute. reflexivity.
Qed.

(** [initMappingList] followed by [getMappingList], for every file name and
    every state in which the first succeeds: the table comes out as
    [table_after_init], whatever it held before. *)
Lemma initialize_then_load (fuel : nat) (s s0 : Storage) (p : string) :
  (256 <= fuel)%nat ->
  length (map_list (mappinglist s)) = 32%nat ->
  initMappingList p s = Done (0, s0) ->
  exists V s1,
    creatable V p /\
    getMappingList fuel p s0 = Done (table_after_init, s1) /\
    mappinglist s1 = table_after_init /\
    file s1 = None /\
    sd s1 = <[canon p := EFile init_file]> V.
Proof.
  intros Hfuel Hlen Hinit.
  destruct (initMappingList_writes s s0 p Hinit) as (V & Hcr & Hsd0 & Hf0 & Hm0 & _).
  pose proof Hcr as (Hcs & _ & _).
  assert (Hl0 : sd s0 !! canon p = Some (EFile init_file))
    by (rewrite Hsd0; apply lookup_insert_eq).
  rewrite <- Hm0 in Hlen.
  destruct (table_of_32 _ Hlen) as
    (n & m0 & m1 & m2 & m3 & m4 & m5 & m6 & m7 & m8 & m9 & m10 & m11 & m12 & m13
       & m14 & m15 & m16 & m17 & m18 & m19 & m20 & m21 & m22 & m23 & m24 & m25
       & m26 & m27 & m28 & m29 & m30 & m31 & Htbl).
  eassert (Hparse : parse_loop 256 parse_start (reader_state init_file (mappinglist s0))
                    = Done (_, _)).
  { rewrite Htbl. vm_compute. reflexivity. }
  apply (parse_loop_more_fuel _ _ _ _ fuel) in Hparse; [| exact Hfuel].
  destruct (getMappingList_reads fuel s0 _ p init_file _ Hcs Hl0 Hf0 Hparse)
    as (s1 & Hload1 & Hm1 & Hf1 & Hsd1).
  exists V, s1.
  split; [exact Hcr |]. split; [exact Hload1 |]. split; [exact Hm1 |].
  split; [exact Hf1 |]. rewrite Hsd1. exact Hsd0.
Qed.

(** C4 (amended).  Starting from any state whose table has its 32
    entries, after [initMappingList] has succeeded and the file has been
    loaded, the sequence [setFloorMapping "5" "icon_a" "icon_b"],
    [commitMappingList], [getMappingList] runs to its end with every call
    succeeding, and [getFloorMapping "5"] then returns the pair
    ("icon_a", "icon_b").  The floors are written as "1" to "32": the
    code "05" equals none of them and [setFloorMapping "05"] returns -1
    without changing the state. *)
Theorem floor_5_mapping_survives_commit_and_load
    (fuel : nat) (s s0 : Storage) (p : string) :
  (256 <= fuel)%nat ->
  length (map_list (mappinglist s)) = 32%nat ->
  initMappingList p s = Done (0, s0) ->
  exists tbl s1 s2 s3 tbl' s4,
    getMappingList fuel p s0 = Done (tbl, s1) /\
    setFloorMapping "5" "icon_a" "icon_b" s1 = Done (0, s2) /\
    commitMappingList p s2 = Done (0, s3) /\
    getMappingList fuel p s3 = Done (tbl', s4) /\
    getFloorMapping "5" s4 = Done ((0, Some ("icon_a"%string, "icon_b"%string)), s4) /\
    setFloorMapping "05" "icon_a" "icon_b" s1 = Done (-1, s1).
Proof.
  intros Hfuel Hlen Hinit.
  destruct (initialize_then_load fuel s s0 p Hfuel Hlen Hinit)
    as (V & s1 & Hcr & Hload1 & Hm1 & Hf1 & Hsd1).
  pose proof Hcr as (Hcs & _ & _).
  destruct s1 as [sd1 log1 f1 b1 ml1]. cbn [mappinglist file sd] in Hm1, Hf1, Hsd1.
  subst ml1 f1 sd1.
  (* set *)
  match type of Hload1 with
  | _ = Done (_, ?st) =>
      eassert (Hset : setFloorMapping "5" "icon_a" "icon_b" st = Done (0, _))
        by (vm_compute; reflexivity)
  end.
  (* commit *)
  match type of Hset with
  | _ = Done (_, ?st) =>
      destruct (commitMappingList_writes st p V init_file Hcr eq_refl eq_refl)
        as (s3 & Hcommit & Hsd3 & Hf3 & Hm3 & _)
  end.
  cbn [mappinglist] in Hsd3, Hm3.
  pose proof (lookup_insert_eq V (canon p) (EFile (commit_file (mappinglist s3)))) as Hl3.
  rewrite Hm3 in Hl3 at 1. rewrite <- Hsd3 in Hl3.
  (* second load *)
  eassert (Hparse2 : parse_loop 256 parse_start
                       (reader_state (commit_file (mappinglist s3)) (mappinglist s3))
                     = Done (_, _)).
  { rewrite Hm3. vm_compute. reflexivity. }
  apply (parse_loop_more_fuel _ _ _ _ fuel) in Hparse2; [| exact Hfuel].
  destruct (getMappingList_reads fuel s3 _ p _ _ Hcs Hl3 Hf3 Hparse2)
    as (s4 & Hload2 & Hm4 & Hf4 & Hsd4).
  cbn [mapped_floor_count mappinglist map_list] in Hload2, Hm4.
  destruct s4 as [sd4 log4 f4 b4 ml4]. cbn [mappinglist] in Hm4. subst ml4.
  do 6 eexists.
  split; [exact Hload1 |].
  split; [exact Hset |].
  split; [exact Hcommit |].
  split; [exact Hload2 |].
  split; vm_compute; reflexivity.
Qed.

Lemma floor_5_mapping_survives_commit_and_load_witness :
  let s := fresh_store ∅ in
  let s0 := match initMappingList "mapping.ini" s with
            | Done (_, s0) => s0
            | _ => s
            end in
  (256 <= 256)%nat /\
  length (map_list (mappinglist s)) = 32%nat /\
  initMappingList "mapping.ini" s = Done (0, s0) /\
  exists tbl s1 s2 s3 tbl' s4,
    getMappingList 256 "mapping.ini" s0 = Done (tbl, s1) /\
    setFloorMapping "5" "icon_a" "icon_b" s1 = Done (0, s2) /\
    commitMappingList "mapping.ini" s2 = Done (0, s3) /\
    getMappingList 256 "mapping.ini" s3 = Done (tbl', s4) /\
    getFloorMapping "5" s4 = Done ((0, Some ("icon_a"%string, "icon_b"%string)), s4) /\
    setFloorMapping "05" "icon_a" "icon_b" s1 = Done (-1, s1).
Proof.
  intros s s0.
  assert (Hfuel : (256 <= 256)%nat) by lia.
  assert (Hlen : length (map_list (mappinglist s)) = 32%nat) by reflexivity.
  assert (Hinit : initMappingList "mapping.ini" s = Done (0, s0)) by (vm_compute; reflexivity).
  split; [exact Hfuel | split; [exact Hlen | split; [exact Hinit |]]].
  exact (floor_5_mapping_survives_commit_and_load 256 s s0 "mapping.ini" Hfuel Hlen Hinit).
Defined.

(** C4 (as stated) fails: on an empty volume, after [initMappingList] and
    [getMappingList], no entry holds the floor code "05";
    [setFloorMapping "05"] returns -1, and after [commitMappingList] and
    [getMappingList] so does [getFloorMapping "05"]. *)
Lemma floor_05_is_not_in_the_table :
  exists tbl s1 tbl' s2,
    bind (initMappingList "mapping.ini") (fun _ => getMappingList 256 "mapping.ini")
      (fresh_store ∅) = Done (tbl, s1) /\
    setFloorMapping "05" "icon_a" "icon_b" s1 = Done (-1, s1) /\
    bind (commitMappingList "mapping.ini") (fun _ => getMappingList 256 "mapping.ini") s1
      = Done (tbl', s2) /\
    getFloorMapping "05" s2 = Done ((-1, None), s2).
Proof.
  do 4 eexists.
  split. { vm_compute. reflexivity. }
  split. { vm_compute. reflexivity. }
  split. { vm_compute. reflexivity. }
  vm_compute. reflexivity.
Qed.

(** * Further properties of the code *)

(** ** The floor table: lookup, update, removal *)

Lemma list_set_length {A} (l : list A) (x : A) :
  forall n, length (list_set l n x) = length l.
Proof.
  induction l as [| a l IH]; intros [| n]; cbn; try reflexivity.
  rewrite IH. reflexivity.
Qed.

Lemma nth_error_list_set_eq {A} (l : list A) (x : A) :
  forall n, (n < length l)%nat -> nth_error (list_set l n x) n = Some x.
Proof.
  induction l as [| a l IH]; intros [| n] H; cbn in *; try lia; try reflexivity.
  apply IH. lia.
Qed.

Lemma nth_error_list_set_ne {A} (l : list A) (x : A) :
  forall n j, n <> j -> nth_error (list_set l n x) j = nth_error l j.
Proof.
  induction l as [| a l IH]; intros [| n] [| j] H; cbn; try reflexivity; try congruence.
  apply IH. congruence.
Qed.

Lemma load_entry_at (s : Storage) (i : Z) (m : Mapping) :
  nth_error (map_list (mappinglist s)) (Z.to_nat i) = Some m ->
  load_entry i s = Done (m, s).
Proof.
  intros H. unfold load_entry, bind, get. rewrite H. reflexivity.
Qed.

(** The entry at index [j] of the table of [s]. *)
Local Abbreviation entry_at s j := (nth_error (map_list (mappinglist s)) (Z.to_nat j)).

Lemma findFromFloorNo_loop_hit (code : string) (s : Storage) :
  forall (n : nat) (ctr r : Z) (m : Mapping),
    0 <= ctr <= r -> r < ctr + Z.of_nat n ->
    entry_at s r = Some m -> floorNo m = code ->
    (forall j, ctr <= j < r -> exists m', entry_at s j = Some m' /\ floorNo m' <> code) ->
    findFromFloorNo_loop n ctr code s = Done (r, s).
Proof.
  induction n as [| n IH]; intros ctr r m Hctr Hr Hm Hcode Hbefore; [lia |].
  cbn [findFromFloorNo_loop].
  destruct (Z.eq_dec ctr r) as [-> | Hne].
  - erewrite bind_done by (apply load_entry_at; exact Hm).
    rewrite strcmp_zero. rewrite (proj2 (String.eqb_eq _ _) Hcode). reflexivity.
  - destruct (Hbefore ctr ltac:(lia)) as (m' & Hm' & Hcode').
    erewrite bind_done by (apply load_entry_at; exact Hm').
    rewrite strcmp_zero. rewrite (proj2 (String.eqb_neq _ _) Hcode').
    apply (IH (ctr + 1) r m); try lia; try assumption.
    intros j Hj. apply Hbefore. lia.
Qed.

Lemma findFromFloorNo_hit (code : string) (s : Storage) (r : Z) (m : Mapping) :
  0 <= r < 32 ->
  entry_at s r = Some m -> floorNo m = code ->
  (forall j, 0 <= j < r -> exists m', entry_at s j = Some m' /\ floorNo m' <> code) ->
  findFromFloorNo code s = Done (r, s).
Proof.
  intros Hr Hm Hcode Hbefore. unfold findFromFloorNo.
  erewrite bind_done
    by (apply (findFromFloorNo_loop_hit code s 32 0 r m); try lia; assumption).
  destruct (r =? 32) eqn:E; [lia | reflexivity].
Qed.

(** The first index at which the table holds [code], if any. *)
Lemma first_floor_index (code : string) (l : list Mapping) :
  Forall (fun m => floorNo m <> code) l \/
  exists (k : nat) (m : Mapping),
    nth_error l k = Some m /\ floorNo m = code /\
    forall j, (j < k)%nat -> exists m', nth_error l j = Some m' /\ floorNo m' <> code.
Proof.
  induction l as [| a l IH].
  - left. constructor.
  - destruct (string_dec (floorNo a) code) as [Ha | Ha].
    + right. exists 0%nat, a. split; [reflexivity | split; [exact Ha |]]. intros j Hj. lia.
    + destruct IH as [IH | (k & m & Hk & Hm & Hbefore)].
      * left. constructor; assumption.
      * right. exists (S k), m. split; [exact Hk | split; [exact Hm |]].
        intros [| j] Hj.
        -- exists a. split; [reflexivity | exact Ha].
        -- apply Hbefore. lia.
Qed.

(** X1.  [findFromFloorNo] returns the index of the first entry whose
    [floorNo] is the code asked for, and -1 exactly when no entry of the
    32 has it; the state is not changed. *)
Theorem findFromFloorNo_returns_first_match (s : Storage) (code : string) :
  length (map_list (mappinglist s)) = 32%nat ->
  exists r,
    findFromFloorNo code s = Done (r, s) /\
    ((r = -1 /\ Forall (fun m => floorNo m <> code) (map_list (mappinglist s))) \/
     (0 <= r < 32 /\
      (exists m, nth_error (map_list (mappinglist s)) (Z.to_nat r) = Some m /\
                 floorNo m = code) /\
      forall j m', 0 <= j < r ->
                   nth_error (map_list (mappinglist s)) (Z.to_nat j) = Some m' ->
                   floorNo m' <> code)).
Proof.
  intros Hlen.
  destruct (first_floor_index code (map_list (mappinglist s)))
    as [Hnone | (k & m & Hk & Hm & Hbefore)].
  - exists (-1). split; [apply findFromFloorNo_miss; assumption |]. left. split; [reflexivity | exact Hnone].
  - assert (Hk32 : (k < 32)%nat).
    { rewrite <- Hlen. apply nth_error_Some. rewrite Hk. discriminate. }
    exists (Z.of_nat k). split.
    + apply (findFromFloorNo_hit code s (Z.of_nat k) m); try lia.
      * rewrite Nat2Z.id. exact Hk.
      * exact Hm.
      * intros j Hj. destruct (Hbefore (Z.to_nat j) ltac:(lia)) as (m' & H1 & H2).
        exists m'. split; assumption.
    + right. split; [lia |]. split.
      * exists m. rewrite Nat2Z.id. split; assumption.
      * intros j m' Hj Hm'. destruct (Hbefore (Z.to_nat j) ltac:(lia)) as (m'' & H1 & H2).
        rewrite H1 in Hm'. injection Hm' as <-. exact H2.
Qed.

Lemma findFromFloorNo_returns_first_match_witness :
  let s := set_mappinglist table_after_init (fresh_store ∅) in
  length (map_list (mappinglist s)) = 32%nat /\
  exists r,
    findFromFloorNo "7" s = Done (r, s) /\
    ((r = -1 /\ Forall (fun m => floorNo m <> "7"%string) (map_list (mappinglist s))) \/
     (0 <= r < 32 /\
      (exists m, nth_error (map_list (mappinglist s)) (Z.to_nat r) = Some m /\
                 floorNo m = "7"%string) /\
      forall j m', 0 <= j < r ->
                   nth_error (map_list (mappinglist s)) (Z.to_nat j) = Some m' ->
                   floorNo m' <> "7"%string)).
Proof.
  intros s.
  assert (Hlen : length (map_list (mappinglist s)) = 32%nat) by reflexivity.
  split; [exact Hlen |].
  exact (findFromFloorNo_returns_first_match s "7" Hlen).
Defined.

Lemma store_field_at (s : Storage) (i : Z) (cap : nat)
    (upd : string -> Mapping -> Mapping) (src : string) (m : Mapping) :
  nth_error (map_list (mappinglist s)) (Z.to_nat i) = Some m ->
  (String.length src < cap)%nat ->
  store_field i cap upd src s
  = Done (tt, set_mappinglist
                {| n_mapped_floors := n_mapped_floors (mappinglist s);
                   map_list := list_set (map_list (mappinglist s)) (Z.to_nat i) (upd src m) |}
                s).
Proof.
  intros Hm Hlen. unfold store_field, bind, get. rewrite Hm.
  unfold strcpy_into, lift, modify.
  destruct (String.length src <? cap)%nat eqn:E; [reflexivity |].
  apply Nat.ltb_ge in E. lia.
Qed.

Lemma store_field_too_long (s : Storage) (i : Z) (cap : nat)
    (upd : string -> Mapping -> Mapping) (src : string) (m : Mapping) :
  nth_error (map_list (mappinglist s)) (Z.to_nat i) = Some m ->
  (cap <= String.length src)%nat ->
  store_field i cap upd src s = Undefined (WritePastEnd (Z.of_nat cap)).
Proof.
  intros Hm Hlen. unfold store_field, bind, get. rewrite Hm.
  unfold strcpy_into, lift.
  destruct (String.length src <? cap)%nat eqn:E; [| reflexivity].
  apply Nat.ltb_lt in E. lia.
Qed.

(** The table after [setFloorMapping] has found the floor at index [r]. *)
Lemma setFloorMapping_at (s : Storage) (code name name2 : string) (r : Z) (m : Mapping) :
  0 <= r < 32 ->
  entry_at s r = Some m -> floorNo m = code ->
  (forall j, 0 <= j < r -> exists m', entry_at s j = Some m' /\ floorNo m' <> code) ->
  (String.length name < 20)%nat -> (String.length name2 < 20)%nat ->
  setFloorMapping code name name2 s
  = Done (0, set_mappinglist
               {| n_mapped_floors := n_mapped_floors (mappinglist s);
                  map_list := list_set (map_list (mappinglist s)) (Z.to_nat r)
                                {| floorNo := floorNo m; bitmapName := name;
                                   bitmapName2 := name2 |} |}
               s).
Proof.
  intros Hr Hm Hcode Hbefore Hn Hn2. unfold setFloorMapping.
  erewrite bind_done by (apply (findFromFloorNo_hit code s r m); assumption).
  rewrite (u32_small r) by lia.
  replace (r =? u32 (-1)) with false
    by (symmetry; apply Z.eqb_neq; vm_compute (u32 (-1)); lia).
  erewrite bind_done by (apply (store_field_at _ _ _ _ _ m); assumption).
  assert (Hlt : (Z.to_nat r < length (map_list (mappinglist s)))%nat).
  { apply nth_error_Some. rewrite Hm. discriminate. }
  erewrite bind_done.
  2:{ apply (store_field_at _ _ _ _ _ (with_bitmapName name m)); [| assumption].
      cbn [mappinglist set_mappinglist map_list].
      apply nth_error_list_set_eq. exact Hlt. }
  unfold ret. f_equal. f_equal.
  unfold set_mappinglist. cbn [mappinglist map_list n_mapped_floors sd sd_log file bitmap].
  f_equal. f_equal.
  clear -Hlt. revert Hlt. generalize (Z.to_nat r) as k. generalize (map_list (mappinglist s)) as l.
  induction l as [| a l IH]; intros [| k] H; cbn in *; try lia; try reflexivity.
  f_equal. apply IH. lia.
Qed.

(** An entry of the updated table has the [floorNo] of the entry it
    replaces. *)
Lemma list_set_same_floor (l : list Mapping) (k : nat) (m x : Mapping) :
  nth_error l k = Some m -> floorNo x = floorNo m ->
  map floorNo (list_set l k x) = map floorNo l.
Proof.
  revert k. induction l as [| a l IH]; intros [| k] Hk Hx; cbn in *; try discriminate.
  - injection Hk as ->. rewrite Hx. reflexivity.
  - f_equal. apply IH; assumption.
Qed.

Lemma nth_error_map_floorNo (l l' : list Mapping) (j : nat) (m : Mapping) :
  map floorNo l' = map floorNo l ->
  nth_error l j = Some m ->
  exists m', nth_error l' j = Some m' /\ floorNo m' = floorNo m.
Proof.
  intros Hmap Hj.
  assert (H : nth_error (map floorNo l') j = Some (floorNo m)).
  { rewrite Hmap. rewrite nth_error_map, Hj. reflexivity. }
  rewrite nth_error_map in H. destruct (nth_error l' j) as [m' |]; [| discriminate].
  injection H as H. exists m'. split; [reflexivity | exact H].
Qed.

(** [findFromFloorNo] looks at the [floorNo] fields only. *)
Lemma findFromFloorNo_same_floors (s t : Storage) (code : string) (r : Z) :
  length (map_list (mappinglist s)) = 32%nat ->
  map floorNo (map_list (mappinglist t)) = map floorNo (map_list (mappinglist s)) ->
  findFromFloorNo code s = Done (r, s) ->
  findFromFloorNo code t = Done (r, t).
Proof.
  intros Hlen Hmap Hs.
  assert (Hlen' : length (map_list (mappinglist t)) = 32%nat).
  { rewrite <- Hlen. rewrite <- (length_map floorNo), Hmap, length_map. reflexivity. }
  destruct (first_floor_index code (map_list (mappinglist s)))
    as [Hnone | (k & m & Hk & Hm & Hbefore)].
  - rewrite (findFromFloorNo_miss code s Hlen Hnone) in Hs. injection Hs as <-.
    apply findFromFloorNo_miss; [exact Hlen' |].
    apply List.Forall_forall. intros x Hx.
    apply (In_nth_error _ _) in Hx. destruct Hx as (j & Hj).
    destruct (nth_error_map_floorNo _ (map_list (mappinglist s)) j x (eq_sym Hmap) Hj)
      as (m' & Hm' & Hfl).
    rewrite <- Hfl. rewrite List.Forall_forall in Hnone. apply Hnone.
    apply nth_error_In with j. exact Hm'.
  - assert (Hk32 : (k < 32)%nat).
    { rewrite <- Hlen. apply nth_error_Some. rewrite Hk. discriminate. }
    assert (Hs' : findFromFloorNo code s = Done (Z.of_nat k, s)).
    { apply (findFromFloorNo_hit code s (Z.of_nat k) m); try lia.
      - rewrite Nat2Z.id. exact Hk.
      - exact Hm.
      - intros j Hj. apply Hbefore. lia. }
    rewrite Hs' in Hs. injection Hs as <-.
    destruct (nth_error_map_floorNo _ (map_list (mappinglist t)) k m Hmap Hk)
      as (m' & Hm' & Hfl).
    apply (findFromFloorNo_hit code t (Z.of_nat k) m'); try lia.
    + rewrite Nat2Z.id. exact Hm'.
    + congruence.
    + intros j Hj. destruct (Hbefore (Z.to_nat j) ltac:(lia)) as (m0 & H0 & Hne).
      destruct (nth_error_map_floorNo _ (map_list (mappinglist t)) _ m0 Hmap H0)
        as (m0' & H0' & Hfl0).
      exists m0'. split; [exact H0' | congruence].
Qed.

Lemma In_floorNo_first (code : string) (l : list Mapping) :
  In code (map floorNo l) ->
  exists (k : nat) (m : Mapping),
    nth_error l k = Some m /\ floorNo m = code /\
    forall j, (j < k)%nat -> exists m', nth_error l j = Some m' /\ floorNo m' <> code.
Proof.
  intros Hin. destruct (first_floor_index code l) as [Hnone | H]; [| exact H].
  exfalso. apply in_map_iff in Hin. destruct Hin as (m & Hm & Hin).
  rewrite List.Forall_forall in Hnone. exact (Hnone m Hin Hm).
Qed.

(** X2.  a mapping set with [setFloorMapping] is the one [getFloorMapping]
    returns.  For every table of 32 entries that holds the floor code and
    every two names that fit the 20-byte fields, [setFloorMapping]
    returns 0 and a following [getFloorMapping] of the same code returns
    0 with the two names. *)
Theorem setFloorMapping_then_getFloorMapping
    (s : Storage) (code name name2 : string) :
  length (map_list (mappinglist s)) = 32%nat ->
  In code (map floorNo (map_list (mappinglist s))) ->
  (String.length name < 20)%nat -> (String.length name2 < 20)%nat ->
  exists s',
    setFloorMapping code name name2 s = Done (0, s') /\
    getFloorMapping code s' = Done ((0, Some (name, name2)), s').
Proof.
  intros Hlen Hin Hn Hn2.
  destruct (In_floorNo_first code _ Hin) as (k & m & Hk & Hm & Hbefore).
  assert (Hk32 : (k < 32)%nat).
  { rewrite <- Hlen. apply nth_error_Some. rewrite Hk. discriminate. }
  assert (Hhit : findFromFloorNo code s = Done (Z.of_nat k, s)).
  { apply (findFromFloorNo_hit code s (Z.of_nat k) m); try lia.
    - rewrite Nat2Z.id. exact Hk.
    - exact Hm.
    - intros j Hj. apply Hbefore. lia. }
  eexists. split.
  - apply (setFloorMapping_at s code name name2 (Z.of_nat k) m); try lia; try assumption.
    + rewrite Nat2Z.id. exact Hk.
    + intros j Hj. apply Hbefore. lia.
  - rewrite Nat2Z.id.
    match goal with |- getFloorMapping _ ?t = _ => set (s' := t) end.
    unfold getFloorMapping.
    erewrite bind_done.
    2:{ apply (findFromFloorNo_same_floors s s' code (Z.of_nat k) Hlen); [| exact Hhit].
        subst s'. cbn [mappinglist set_mappinglist map_list].
        apply (list_set_same_floor _ _ m); [exact Hk | reflexivity]. }
    rewrite (u32_small (Z.of_nat k)) by lia.
    replace (Z.of_nat k =? u32 (-1)) with false
      by (symmetry; apply Z.eqb_neq; vm_compute (u32 (-1)); lia).
    erewrite bind_done.
    2:{ apply load_entry_at. subst s'. cbn [mappinglist set_mappinglist map_list].
        rewrite Nat2Z.id. apply nth_error_list_set_eq. lia. }
    reflexivity.
Qed.

Lemma setFloorMapping_then_getFloorMapping_witness :
  let s := set_mappinglist table_after_init (fresh_store ∅) in
  length (map_list (mappinglist s)) = 32%nat /\
  In "12"%string (map floorNo (map_list (mappinglist s))) /\
  (String.length "lobby.bmp" < 20)%nat /\ (String.length "exit.bmp" < 20)%nat /\
  exists s',
    setFloorMapping "12" "lobby.bmp" "exit.bmp" s = Done (0, s') /\
    getFloorMapping "12" s' = Done ((0, Some ("lobby.bmp"%string, "exit.bmp"%string)), s').
Proof.
  intros s.
  assert (Hlen : length (map_list (mappinglist s)) = 32%nat) by reflexivity.
  assert (Hin : In "12"%string (map floorNo (map_list (mappinglist s)))).
  { vm_compute. do 11 right. left. reflexivity. }
  assert (Hn : (String.length "lobby.bmp" < 20)%nat) by (vm_compute; lia).
  assert (Hn2 : (String.length "exit.bmp" < 20)%nat) by (vm_compute; lia).
  split; [exact Hlen | split; [exact Hin | split; [exact Hn | split; [exact Hn2 |]]]].
  exact (setFloorMapping_then_getFloorMapping s "12" "lobby.bmp" "exit.bmp" Hlen Hin Hn Hn2).
Defined.

Lemma getFloorMapping_hit (s : Storage) (code : string) (r : Z) (m : Mapping) :
  0 <= r < 32 ->
  findFromFloorNo code s = Done (r, s) ->
  entry_at s r = Some m ->
  getFloorMapping code s = Done ((0, Some (bitmapName m, bitmapName2 m)), s).
Proof.
  intros Hr Hfind Hm. unfold getFloorMapping.
  erewrite bind_done by exact Hfind.
  rewrite (u32_small r) by lia.
  replace (r =? u32 (-1)) with false
    by (symmetry; apply Z.eqb_neq; vm_compute (u32 (-1)); lia).
  erewrite bind_done by (apply load_entry_at; exact Hm).
  reflexivity.
Qed.

Lemma getFloorMapping_miss (s : Storage) (code : string) :
  findFromFloorNo code s = Done (-1, s) ->
  getFloorMapping code s = Done ((-1, None), s).
Proof.
  intros Hfind. unfold getFloorMapping.
  erewrite bind_done by exact Hfind. reflexivity.
Qed.

Lemma setFloorMapping_miss (s : Storage) (code name name2 : string) :
  findFromFloorNo code s = Done (-1, s) ->
  setFloorMapping code name name2 s = Done (-1, s).
Proof.
  intros Hfind. unfold setFloorMapping.
  erewrite bind_done by exact Hfind. reflexivity.
Qed.

(** When the floor is in the table and a name does not fit, the [strcpy]
    of [setFloorMapping] writes past the 20 bytes of the field. *)
Lemma setFloorMapping_too_long (s : Storage) (code name name2 : string) (r : Z)
    (m : Mapping) :
  0 <= r < 32 ->
  findFromFloorNo code s = Done (r, s) ->
  entry_at s r = Some m ->
  (20 <= String.length name)%nat \/ (20 <= String.length name2)%nat ->
  setFloorMapping code name name2 s = Undefined (WritePastEnd 20).
Proof.
  intros Hr Hfind Hm Hlong. unfold setFloorMapping.
  erewrite bind_done by exact Hfind.
  rewrite (u32_small r) by lia.
  replace (r =? u32 (-1)) with false
    by (symmetry; apply Z.eqb_neq; vm_compute (u32 (-1)); lia).
  destruct (le_lt_dec 20 (String.length name)) as [Hn | Hn].
  - unfold bind at 1. rewrite (store_field_too_long _ _ _ _ _ m Hm Hn). reflexivity.
  - destruct Hlong as [Hl | Hl]; [lia |].
    erewrite bind_done by (apply (store_field_at _ _ _ _ _ m); assumption).
    unfold bind at 1.
    rewrite (store_field_too_long _ _ _ _ _ (with_bitmapName name m)); [reflexivity | | exact Hl].
    cbn [mappinglist set_mappinglist map_list].
    apply nth_error_list_set_eq. apply nth_error_Some. rewrite Hm. discriminate.
Qed.

(** X3.  [setFloorMapping] changes the two names of one entry and nothing
    else.  Whenever it returns, the volume, its log, the open handle and
    the bitmap are as before, [n_mapped_floors] is not adjusted, every
    entry keeps its [floorNo], and [getFloorMapping] of any other floor
    code gives what it gave before the call. *)
Theorem setFloorMapping_leaves_the_rest
    (s s' : Storage) (code name name2 : string) (r : Z) :
  length (map_list (mappinglist s)) = 32%nat ->
  setFloorMapping code name name2 s = Done (r, s') ->
  sd s' = sd s /\ sd_log s' = sd_log s /\ file s' = file s /\ bitmap s' = bitmap s /\
  n_mapped_floors (mappinglist s') = n_mapped_floors (mappinglist s) /\
  map floorNo (map_list (mappinglist s')) = map floorNo (map_list (mappinglist s)) /\
  forall code' x,
    code' <> code ->
    getFloorMapping code' s = Done (x, s) -> getFloorMapping code' s' = Done (x, s').
Proof.
  intros Hlen Hset.
  destruct (first_floor_index code (map_list (mappinglist s)))
    as [Hnone | (k & m & Hk & Hm & Hbefore)].
  - rewrite (setFloorMapping_miss _ _ _ _ (findFromFloorNo_miss code s Hlen Hnone)) in Hset.
    injection Hset as <- <-. repeat (split; [reflexivity |]). intros code' x _ H. exact H.
  - assert (Hk32 : (k < 32)%nat).
    { rewrite <- Hlen. apply nth_error_Some. rewrite Hk. discriminate. }
    assert (Hk' : entry_at s (Z.of_nat k) = Some m) by (rewrite Nat2Z.id; exact Hk).
    assert (Hbefore' : forall j, 0 <= j < Z.of_nat k ->
                                 exists m', entry_at s j = Some m' /\ floorNo m' <> code).
    { intros j Hj. apply Hbefore. lia. }
    assert (Hfind : findFromFloorNo code s = Done (Z.of_nat k, s)).
    { apply (findFromFloorNo_hit code s (Z.of_nat k) m); try lia; assumption. }
    destruct (le_lt_dec 20 (String.length name)) as [Hn | Hn].
    { rewrite (setFloorMapping_too_long s code name name2 (Z.of_nat k) m) in Hset;
        [discriminate | lia | exact Hfind | exact Hk' | left; exact Hn]. }
    destruct (le_lt_dec 20 (String.length name2)) as [Hn2 | Hn2].
    { rewrite (setFloorMapping_too_long s code name name2 (Z.of_nat k) m) in Hset;
        [discriminate | lia | exact Hfind | exact Hk' | right; exact Hn2]. }
    rewrite (setFloorMapping_at s code name name2 (Z.of_nat k) m) in Hset;
      try lia; try assumption.
    injection Hset as <- <-. rewrite Nat2Z.id.
    cbn [sd sd_log file bitmap mappinglist set_mappinglist n_mapped_floors map_list].
    assert (Hfloors : map floorNo
                        (list_set (map_list (mappinglist s)) k
                           {| floorNo := floorNo m; bitmapName := name; bitmapName2 := name2 |})
                      = map floorNo (map_list (mappinglist s))).
    { apply (list_set_same_floor _ _ m); [exact Hk | reflexivity]. }
    repeat (split; [reflexivity |]). split; [exact Hfloors |].
    intros code' x Hne Hget.
    match goal with |- getFloorMapping _ ?t = _ => set (s' := t) end.
    assert (Hfl' : map floorNo (map_list (mappinglist s'))
                   = map floorNo (map_list (mappinglist s))) by exact Hfloors.
    destruct (first_floor_index code' (map_list (mappinglist s)))
      as [Hnone' | (k' & m' & Hk2 & Hm2 & Hbefore2)].
    + pose proof (findFromFloorNo_miss code' s Hlen Hnone') as Hf.
      rewrite (getFloorMapping_miss s code' Hf) in Hget. injection Hget as <-.
      apply getFloorMapping_miss.
      apply (findFromFloorNo_same_floors s s' code' (-1) Hlen Hfl' Hf).
    + assert (Hk232 : (k' < 32)%nat).
      { rewrite <- Hlen. apply nth_error_Some. rewrite Hk2. discriminate. }
      assert (Hf : findFromFloorNo code' s = Done (Z.of_nat k', s)).
      { apply (findFromFloorNo_hit code' s (Z.of_nat k') m'); try lia.
        - rewrite Nat2Z.id. exact Hk2.
        - exact Hm2.
        - intros j Hj. apply Hbefore2. lia. }
      rewrite (getFloorMapping_hit s code' (Z.of_nat k') m') in Hget;
        [| lia | exact Hf | rewrite Nat2Z.id; exact Hk2].
      injection Hget as <-.
      apply (getFloorMapping_hit s' code' (Z.of_nat k') m'); [lia | |].
      * apply (findFromFloorNo_same_floors s s' code' _ Hlen Hfl' Hf).
      * subst s'. cbn [mappinglist set_mappinglist map_list]. rewrite Nat2Z.id.
        rewrite nth_error_list_set_ne; [exact Hk2 |].
        intros ->. rewrite Hk in Hk2. injection Hk2 as ->. congruence.
Qed.

Lemma setFloorMapping_leaves_the_rest_witness :
  let s := set_mappinglist table_after_init (fresh_store ∅) in
  let s' := match setFloorMapping "3" "a.bmp" "b.bmp" s with
            | Done (_, t) => t
            | _ => s
            end in
  length (map_list (mappinglist s)) = 32%nat /\
  setFloorMapping "3" "a.bmp" "b.bmp" s = Done (0, s') /\
  sd s' = sd s /\ sd_log s' = sd_log s /\ file s' = file s /\ bitmap s' = bitmap s /\
  n_mapped_floors (mappinglist s') = n_mapped_floors (mappinglist s) /\
  map floorNo (map_list (mappinglist s')) = map floorNo (map_list (mappinglist s)) /\
  forall code' x,
    code' <> "3"%string ->
    getFloorMapping code' s = Done (x, s) -> getFloorMapping code' s' = Done (x, s').
Proof.
  intros s s'.
  assert (Hlen : length (map_list (mappinglist s)) = 32%nat) by reflexivity.
  assert (Hset : setFloorMapping "3" "a.bmp" "b.bmp" s = Done (0, s'))
    by (vm_compute; reflexivity).
  split; [exact Hlen | split; [exact Hset |]].
  exact (setFloorMapping_leaves_the_rest s s' "3" "a.bmp" "b.bmp" 0 Hlen Hset).
Defined.

(** X4.  [setFloorMapping] does not check the length of the names.  When
    the floor is in the table and one of the names has 20 characters or
    more, the [strcpy] into the 20-byte field writes past its end. *)
Theorem setFloorMapping_long_name_overruns_field
    (s : Storage) (code name name2 : string) :
  length (map_list (mappinglist s)) = 32%nat ->
  In code (map floorNo (map_list (mappinglist s))) ->
  (20 <= String.length name)%nat \/ (20 <= String.length name2)%nat ->
  setFloorMapping code name name2 s = Undefined (WritePastEnd 20).
Proof.
  intros Hlen Hin Hlong.
  destruct (In_floorNo_first code _ Hin) as (k & m & Hk & Hm & Hbefore).
  assert (Hk32 : (k < 32)%nat).
  { rewrite <- Hlen. apply nth_error_Some. rewrite Hk. discriminate. }
  apply (setFloorMapping_too_long s code name name2 (Z.of_nat k) m); try lia.
  - apply (findFromFloorNo_hit code s (Z.of_nat k) m); try lia.
    + rewrite Nat2Z.id. exact Hk.
    + exact Hm.
    + intros j Hj. apply Hbefore. lia.
  - rewrite Nat2Z.id. exact Hk.
Qed.

Lemma setFloorMapping_long_name_overruns_field_witness :
  let s := set_mappinglist table_after_init (fresh_store ∅) in
  length (map_list (mappinglist s)) = 32%nat /\
  In "2"%string (map floorNo (map_list (mappinglist s))) /\
  ((20 <= String.length "second_floor_map.bmp")%nat \/ (20 <= String.length "")%nat) /\
  setFloorMapping "2" "second_floor_map.bmp" "" s = Undefined (WritePastEnd 20).
Proof.
  intros s.
  assert (Hlen : length (map_list (mappinglist s)) = 32%nat) by reflexivity.
  assert (Hin : In "2"%string (map floorNo (map_list (mappinglist s)))).
  { vm_compute. right. left. reflexivity. }
  assert (Hlong : (20 <= String.length "second_floor_map.bmp")%nat \/ (20 <= String.length "")%nat).
  { left. vm_compute. lia. }
  split; [exact Hlen | split; [exact Hin | split; [exact Hlong |]]].
  exact (setFloorMapping_long_name_overruns_field s "2" "second_floor_map.bmp" "" Hlen Hin Hlong).
Defined.

(** X5.  [removeFloorMapping] blanks the two names of the floor and keeps
    the floor.  For every table of 32 entries that holds the code it
    returns 0, [getFloorMapping] of the code then returns 0 with two
    empty names, every entry keeps its [floorNo], and [n_mapped_floors]
    is what it was. *)
Theorem removeFloorMapping_blanks_the_names (s : Storage) (code : string) :
  length (map_list (mappinglist s)) = 32%nat ->
  In code (map floorNo (map_list (mappinglist s))) ->
  exists s',
    removeFloorMapping code s = Done (0, s') /\
    getFloorMapping code s' = Done ((0, Some (EmptyString, EmptyString)), s') /\
    map floorNo (map_list (mappinglist s')) = map floorNo (map_list (mappinglist s)) /\
    n_mapped_floors (mappinglist s') = n_mapped_floors (mappinglist s).
Proof.
  intros Hlen Hin.
  destruct (In_floorNo_first code _ Hin) as (k & m & Hk & Hm & Hbefore).
  assert (Hk32 : (k < 32)%nat).
  { rewrite <- Hlen. apply nth_error_Some. rewrite Hk. discriminate. }
  assert (Hk' : entry_at s (Z.of_nat k) = Some m) by (rewrite Nat2Z.id; exact Hk).
  assert (Hbefore' : forall j, 0 <= j < Z.of_nat k ->
                               exists m', entry_at s j = Some m' /\ floorNo m' <> code).
  { intros j Hj. apply Hbefore. lia. }
  assert (Hfind : findFromFloorNo code s = Done (Z.of_nat k, s)).
  { apply (findFromFloorNo_hit code s (Z.of_nat k) m); try lia; assumption. }
  change (removeFloorMapping code) with (setFloorMapping code "" "").
  rewrite (setFloorMapping_at s code "" "" (Z.of_nat k) m); try lia; try assumption;
    try (cbn; lia).
  rewrite Nat2Z.id. eexists. split; [reflexivity |].
  match goal with |- getFloorMapping _ ?t = _ /\ _ => set (s' := t) end.
  assert (Hfl' : map floorNo (map_list (mappinglist s'))
                 = map floorNo (map_list (mappinglist s))).
  { subst s'. cbn [mappinglist set_mappinglist map_list].
    apply (list_set_same_floor _ _ m); [exact Hk | reflexivity]. }
  split; [| split; [exact Hfl' | reflexivity]].
  apply (getFloorMapping_hit s' code (Z.of_nat k)
           {| floorNo := floorNo m; bitmapName := ""; bitmapName2 := "" |}); [lia | |].
  - apply (findFromFloorNo_same_floors s s' code _ Hlen Hfl' Hfind).
  - subst s'. cbn [mappinglist set_mappinglist map_list]. rewrite Nat2Z.id.
    apply nth_error_list_set_eq. lia.
Qed.

Lemma removeFloorMapping_blanks_the_names_witness :
  let s := set_mappinglist table_after_init (fresh_store ∅) in
  length (map_list (mappinglist s)) = 32%nat /\
  In "32"%string (map floorNo (map_list (mappinglist s))) /\
  exists s',
    removeFloorMapping "32" s = Done (0, s') /\
    getFloorMapping "32" s' = Done ((0, Some (EmptyString, EmptyString)), s') /\
    map floorNo (map_list (mappinglist s')) = map floorNo (map_list (mappinglist s)) /\
    n_mapped_floors (mappinglist s') = n_mapped_floors (mappinglist s).
Proof.
  intros s.
  assert (Hlen : length (map_list (mappinglist s)) = 32%nat) by reflexivity.
  assert (Hin : In "32"%string (map floorNo (map_list (mappinglist s)))).
  { vm_compute. do 31 right. left. reflexivity. }
  split; [exact Hlen | split; [exact Hin |]].
  exact (removeFloorMapping_blanks_the_names s "32" Hlen Hin).
Defined.

Lemma findFromBitmapName_loop_first (name name2 : string) (s : Storage) :
  forall (n : nat) (ctr : Z),
    0 <= ctr ->
    (Z.to_nat ctr + n <= length (map_list (mappinglist s)))%nat ->
    exists r,
      findFromBitmapName_loop n ctr name name2 s = Done (r, s) /\
      ctr <= r <= ctr + Z.of_nat n /\
      (forall j m, ctr <= j < r -> entry_at s j = Some m ->
                   ~ (bitmapName m = name /\ bitmapName2 m = name2)) /\
      (r < ctr + Z.of_nat n ->
       exists m, entry_at s r = Some m /\ bitmapName m = name /\ bitmapName2 m = name2).
Proof.
  induction n as [| n IH]; intros ctr Hctr Hlen.
  - exists ctr. cbn [findFromBitmapName_loop]. split; [reflexivity |].
    split; [lia |]. split; [intros; lia | intros; lia].
  - cbn [findFromBitmapName_loop].
    destruct (nth_error (map_list (mappinglist s)) (Z.to_nat ctr)) as [m |] eqn:Hm.
    2:{ apply nth_error_None in Hm. lia. }
    erewrite bind_done by (apply load_entry_at; exact Hm).
    rewrite !strcmp_zero.
    destruct (String.eqb (bitmapName m) name) eqn:E1;
      [destruct (String.eqb (bitmapName2 m) name2) eqn:E2 |]; cbn [andb].
    + exists ctr. split; [reflexivity |]. split; [lia |]. split; [intros; lia |].
      intros _. exists m. apply String.eqb_eq in E1, E2. auto.
    + destruct (IH (ctr + 1) ltac:(lia) ltac:(lia)) as (r & Hr & Hrange & Hbefore & Hat).
      exists r. split; [exact Hr |]. split; [lia |]. split.
      * intros j m' Hj Hm'. destruct (Z.eq_dec j ctr) as [-> | Hne].
        -- rewrite Hm in Hm'. injection Hm' as <-. intros [_ H2].
           apply String.eqb_neq in E2. contradiction.
        -- apply (Hbefore j m'); [lia | exact Hm'].
      * intros H. apply Hat. lia.
    + destruct (IH (ctr + 1) ltac:(lia) ltac:(lia)) as (r & Hr & Hrange & Hbefore & Hat).
      exists r. split; [exact Hr |]. split; [lia |]. split.
      * intros j m' Hj Hm'. destruct (Z.eq_dec j ctr) as [-> | Hne].
        -- rewrite Hm in Hm'. injection Hm' as <-. intros [H1 _].
           apply String.eqb_neq in E1. contradiction.
        -- apply (Hbefore j m'); [lia | exact Hm'].
      * intros H. apply Hat. lia.
Qed.

(** X6.  [findFromBitmapName] returns the index of the first entry that
    holds both names, and -1 when no entry of the 32 holds the pair; an
    entry that has only one of the two names is passed over.  The state
    is not changed. *)
Theorem findFromBitmapName_returns_first_pair (s : Storage) (name name2 : string) :
  length (map_list (mappinglist s)) = 32%nat ->
  exists r,
    findFromBitmapName name name2 s = Done (r, s) /\
    ((r = -1 /\
      Forall (fun m => ~ (bitmapName m = name /\ bitmapName2 m = name2))
             (map_list (mappinglist s))) \/
     (0 <= r < 32 /\
      (exists m, nth_error (map_list (mappinglist s)) (Z.to_nat r) = Some m /\
                 bitmapName m = name /\ bitmapName2 m = name2) /\
      forall j m', 0 <= j < r ->
                   nth_error (map_list (mappinglist s)) (Z.to_nat j) = Some m' ->
                   ~ (bitmapName m' = name /\ bitmapName2 m' = name2))).
Proof.
  intros Hlen.
  destruct (findFromBitmapName_loop_first name name2 s 32 0 ltac:(lia) ltac:(lia))
    as (r & Hr & Hrange & Hbefore & Hat).
  unfold findFromBitmapName. erewrite bind_done by exact Hr.
  destruct (r =? 32) eqn:E.
  - apply Z.eqb_eq in E. subst r. exists (-1). split; [reflexivity |]. left.
    split; [reflexivity |].
    apply List.Forall_forall. intros m Hin.
    apply In_nth_error in Hin. destruct Hin as (j & Hj).
    assert (Hj32 : (j < 32)%nat).
    { rewrite <- Hlen. apply nth_error_Some. rewrite Hj. discriminate. }
    apply (Hbefore (Z.of_nat j)); [lia |]. rewrite Nat2Z.id. exact Hj.
  - apply Z.eqb_neq in E. exists r. split; [reflexivity |]. right.
    split; [lia |]. split; [apply Hat; lia | exact Hbefore].
Qed.

Lemma findFromBitmapName_returns_first_pair_witness :
  let s := set_mappinglist table_after_init (fresh_store ∅) in
  length (map_list (mappinglist s)) = 32%nat /\
  exists r,
    findFromBitmapName "" CR s = Done (r, s) /\
    ((r = -1 /\
      Forall (fun m => ~ (bitmapName m = ""%string /\ bitmapName2 m = CR))
             (map_list (mappinglist s))) \/
     (0 <= r < 32 /\
      (exists m, nth_error (map_list (mappinglist s)) (Z.to_nat r) = Some m /\
                 bitmapName m = ""%string /\ bitmapName2 m = CR) /\
      forall j m', 0 <= j < r ->
                   nth_error (map_list (mappinglist s)) (Z.to_nat j) = Some m' ->
                   ~ (bitmapName m' = ""%string /\ bitmapName2 m' = CR))).
Proof.
  intros s.
  assert (Hlen : length (map_list (mappinglist s)) = 32%nat) by reflexivity.
  split; [exact Hlen |].
  exact (findFromBitmapName_returns_first_pair s "" CR Hlen).
Defined.

(** ** The session: opening, reading, closing *)

Ltac sunfold :=
  cbv beta iota delta
    [bind ret get modify lift fileOpenToWrite fileOpenToRead fileWriteData
     fileClose fileSize fileReadData fileWriteData_array file_read_buf
     SD_exists SD_remove SD_open SD_open_write file_close file_assign
     file_isOpen file_write file_seek file_read file_getName file_available
     file_size vol_exists handle_content].

Ltac sunfold_in H :=
  cbv beta iota delta
    [bind ret get modify lift fileOpenToWrite fileOpenToRead fileWriteData
     fileClose fileSize fileReadData fileWriteData_array file_read_buf
     SD_exists SD_remove SD_open SD_open_write file_close file_assign
     file_isOpen file_write file_seek file_read file_getName file_available
     file_size vol_exists handle_content] in H.

Lemma i32_small (x : Z) : 0 <= x < 2147483648 -> i32 x = x.
Proof. intros H. unfold i32. rewrite Z.mod_small by lia. lia. Qed.

(** The cases of [fileOpenToRead]: the path is the name of the open
    handle; it is not, and is on the volume; it is neither. *)
Lemma fileOpenToRead_cases (s : Storage) (p : string) :
  exists r s',
    fileOpenToRead p s = Done (r, s') /\
    sd s' = sd s /\ bitmap s' = bitmap s /\ mappinglist s' = mappinglist s /\
    (r = true <-> open_name s = p \/ vol_exists (sd s) p = true) /\
    (open_name s = p ->
     file s' = option_map (fun h => {| h_path := h_path h; h_pos := 0;
                                       h_write := h_write h |}) (file s)) /\
    (open_name s <> p -> vol_exists (sd s) p = true ->
     file s' = Some {| h_path := canon p; h_pos := 0; h_write := false |}) /\
    (r = false -> file s' = None).
Proof.
  unfold fileOpenToRead.
  erewrite bind_done by (change (file_getName 20 s) with (ret (open_name s) s); reflexivity).
  rewrite strcmp_zero.
  destruct (String.eqb (open_name s) p) eqn:E.
  - apply String.eqb_eq in E.
    sunfold. destruct (file s) as [h |] eqn:Hf; cbn [Z.eqb orb].
    + do 2 eexists. split; [reflexivity |]. sproj.
      repeat split; auto; try congruence.
    + do 2 eexists. split; [reflexivity |].
      repeat split; auto; try congruence.
  - apply String.eqb_neq in E.
    assert (Hclose : exists s1, file_close s = Done (tt, s1) /\ file s1 = None /\
                                sd s1 = sd s /\ mappinglist s1 = mappinglist s /\
                                bitmap s1 = bitmap s) by apply file_close_closes.
    destruct Hclose as (s1 & Hc & Hf1 & Hsd1 & Hm1 & Hb1).
    erewrite bind_done by exact Hc.
    sunfold. rewrite Hsd1.
    destruct (path_components p) as [| c0 cs] eqn:Hcomp.
    + sproj. do 2 eexists. split; [reflexivity |]. sproj.
      repeat split; auto; try congruence.
    + destruct (sd s !! canon p) as [e |] eqn:Hl; sproj.
      * do 2 eexists. split; [reflexivity |]. sproj.
        repeat split; auto; try congruence.
      * do 2 eexists. split; [reflexivity |]. sproj.
        repeat split; auto; try congruence.
        intros [H | H]; [contradiction | discriminate].
Qed.

(** X7.  what [fileOpenToRead] does, case by case.  When the path is the
    name the open handle reports, the handle is kept and rewound, whatever
    file it is on.  Otherwise the handle is closed first, and the call
    succeeds exactly when the path is on the volume, with a new handle at
    offset 0; so a failed call leaves no file open.  The volume, the
    bitmap and the table are never changed.  With no file open the empty
    path counts as the open name: the call reports success and nothing is
    open. *)
Theorem fileOpenToRead_outcome (s : Storage) (p : string) :
  file_getName 20 s = Done (open_name s, s) /\
  (file s = None -> fileOpenToRead "" s = Done (true, s)) /\
  exists r s',
    fileOpenToRead p s = Done (r, s') /\
    sd s' = sd s /\ bitmap s' = bitmap s /\ mappinglist s' = mappinglist s /\
    (r = true <-> open_name s = p \/ vol_exists (sd s) p = true) /\
    (open_name s = p ->
     file s' = option_map (fun h => {| h_path := h_path h; h_pos := 0;
                                       h_write := h_write h |}) (file s)) /\
    (open_name s <> p -> vol_exists (sd s) p = true ->
     file s' = Some {| h_path := canon p; h_pos := 0; h_write := false |}) /\
    (r = false -> file s' = None).
Proof.
  split; [reflexivity |]. split.
  { intros Hf. unfold fileOpenToRead.
    erewrite bind_done
      by (change (file_getName 20 s) with (ret (open_name s) s); reflexivity).
    unfold open_name. rewrite Hf, strcmp_zero. cbn [String.eqb].
    sunfold. rewrite Hf. reflexivity. }
  exact (fileOpenToRead_cases s p).
Qed.

Lemma fileClose_closes (s : Storage) :
  exists s',
    fileClose s = Done (match file s with Some _ => true | None => false end, s') /\
    file s' = None /\ sd s' = sd s /\
    bitmap s' = bitmap s /\ mappinglist s' = mappinglist s.
Proof.
  unfold fileClose, file_isOpen, file_close, bind, get, ret, modify.
  destruct (file s) eqn:Hf; cbn [negb]; rewrite ?Hf; eexists; (split; [reflexivity |]);
    repeat split; assumption.
Qed.

(** X8.  once [fileClose] has run, nothing is open and every data call
    says so.  [fileClose] returns whether a file was open and leaves the
    volume as it is; after it [fileSize] is 0, [fileWriteData] and
    [fileReadData] return -1 without touching the buffer or the state,
    and a second [fileClose] returns false. *)
Theorem after_fileClose_every_call_fails
    (s : Storage) (bytes : list Z) (data : heap_array) (amount : Z) :
  exists s',
    fileClose s = Done (match file s with Some _ => true | None => false end, s') /\
    sd s' = sd s /\
    fileSize s' = Done (0, s') /\
    fileWriteData bytes s' = Done (-1, s') /\
    fileReadData data amount s' = Done ((-1, data), s') /\
    fileClose s' = Done (false, s').
Proof.
  destruct (fileClose_closes s) as (s' & Hc & Hf & Hsd & _).
  exists s'. split; [exact Hc |]. split; [exact Hsd |].
  repeat split; sunfold; rewrite Hf; reflexivity.
Qed.

Lemma file_isOpen_some (s : Storage) (h : handle) :
  file s = Some h -> file_isOpen s = Done (true, s).
Proof. intros Hf. unfold file_isOpen, bind, get, ret. rewrite Hf. reflexivity. Qed.

Lemma file_isOpen_none (s : Storage) :
  file s = None -> file_isOpen s = Done (false, s).
Proof. intros Hf. unfold file_isOpen, bind, get, ret. rewrite Hf. reflexivity. Qed.

Lemma handle_content_open (s : Storage) (h : handle) (c : list Z) :
  open_on h c s -> handle_content s = Some c.
Proof. intros [Hf Hsd]. unfold handle_content. rewrite Hf, Hsd. reflexivity. Qed.

Lemma file_available_open (s : Storage) (h : handle) (c : list Z) :
  open_on h c s -> file_available s = Done (Z.of_nat (length c) - h_pos h, s).
Proof.
  intros Hopen. unfold file_available, bind, get, ret.
  rewrite (handle_content_open s h c Hopen). destruct Hopen as [Hf _]. rewrite Hf.
  reflexivity.
Qed.

Lemma file_read_buf_open (s : Storage) (h : handle) (c : list Z) (data : heap_array)
    (n : Z) :
  open_on h c s ->
  (length (firstn (Z.to_nat n) (skipn (Z.to_nat (h_pos h)) c)) <= length data)%nat ->
  file_read_buf data n s
  = Done ((Z.of_nat (length (firstn (Z.to_nat n) (skipn (Z.to_nat (h_pos h)) c))),
           map Some (firstn (Z.to_nat n) (skipn (Z.to_nat (h_pos h)) c))
           ++ skipn (length (firstn (Z.to_nat n) (skipn (Z.to_nat (h_pos h)) c))) data),
          at_pos h (h_pos h + Z.of_nat (length (firstn (Z.to_nat n)
                                                  (skipn (Z.to_nat (h_pos h)) c)))) s).
Proof.
  intros Hopen Hfit. unfold file_read_buf.
  unfold bind at 1. unfold get at 1.
  rewrite (handle_content_open s h c Hopen). destruct Hopen as [Hf _]. rewrite Hf.
  cbv zeta. unfold array_fill.
  destruct (length (firstn (Z.to_nat n) (skipn (Z.to_nat (h_pos h)) c)) <=? length data)%nat
    eqn:El; [| apply Nat.leb_gt in El; lia].
  reflexivity.
Qed.

(** [fileReadData] on an open file: the bytes from the cursor on, as many
    as asked for and no more than are left. *)
Lemma fileReadData_at (s : Storage) (h : handle) (c : list Z) (data : heap_array)
    (amount : Z) :
  open_on h c s ->
  0 <= h_pos h <= Z.of_nat (length c) ->
  Z.of_nat (length c) < 32768 ->
  0 <= amount < 65536 ->
  (length (firstn (Z.to_nat amount) (skipn (Z.to_nat (h_pos h)) c)) <= length data)%nat ->
  fileReadData data amount s
  = Done ((Z.of_nat (length (firstn (Z.to_nat amount) (skipn (Z.to_nat (h_pos h)) c))),
           map Some (firstn (Z.to_nat amount) (skipn (Z.to_nat (h_pos h)) c))
           ++ skipn (length (firstn (Z.to_nat amount) (skipn (Z.to_nat (h_pos h)) c))) data),
          at_pos h (h_pos h + Z.of_nat (length (firstn (Z.to_nat amount)
                                                  (skipn (Z.to_nat (h_pos h)) c)))) s).
Proof.
  intros Hopen Hpos Hsize Hamount Hfit.
  assert (Hrest : length (skipn (Z.to_nat (h_pos h)) c)
                  = Z.to_nat (Z.of_nat (length c) - h_pos h)).
  { rewrite length_skipn. lia. }
  unfold fileReadData.
  erewrite bind_done by (apply (file_isOpen_some s h); apply Hopen).
  cbn [negb].
  erewrite bind_done by (apply (file_available_open s h c); exact Hopen).
  cbv zeta.
  rewrite (u32_small (Z.of_nat (length c) - h_pos h)) by lia.
  destruct (amount >? Z.of_nat (length c) - h_pos h) eqn:E.
  - assert (Hgt : amount > Z.of_nat (length c) - h_pos h) by lia.
    assert (Hall : firstn (Z.to_nat amount) (skipn (Z.to_nat (h_pos h)) c)
                   = skipn (Z.to_nat (h_pos h)) c).
    { apply firstn_all2. lia. }
    assert (Hall' : firstn (Z.to_nat (Z.of_nat (length c) - h_pos h))
                      (skipn (Z.to_nat (h_pos h)) c)
                    = skipn (Z.to_nat (h_pos h)) c).
    { apply firstn_all2. lia. }
    rewrite Hall in *.
    erewrite bind_done by (apply (file_read_buf_open s h c); [exact Hopen | rewrite Hall'; exact Hfit]).
    rewrite Hall'. cbn [snd]. unfold ret. rewrite i32_small by lia.
    rewrite Hrest. rewrite Z2Nat.id by lia. reflexivity.
  - erewrite bind_done by (apply (file_read_buf_open s h c); [exact Hopen | exact Hfit]).
    cbn [snd]. unfold ret.
    assert (Hlen : Z.of_nat (length (firstn (Z.to_nat amount)
                                       (skipn (Z.to_nat (h_pos h)) c))) = amount).
    { rewrite length_firstn, Hrest. lia. }
    rewrite Hlen. reflexivity.
Qed.

(** X9.  [fileReadData] never reads past the end of the file.  On an open
    file of fewer than 32768 bytes it returns the smaller of the amount
    asked for and the number of bytes left after the cursor, puts that
    many bytes from the cursor into the first cells of the buffer, leaves
    the other cells alone and moves the cursor past what it read; at the
    end of the file it returns 0. *)
Theorem fileReadData_reads_what_is_left
    (s : Storage) (h : handle) (c : list Z) (data : heap_array) (amount : Z) :
  open_on h c s ->
  0 <= h_pos h <= Z.of_nat (length c) ->
  Z.of_nat (length c) < 32768 ->
  0 <= amount < 65536 ->
  amount <= Z.of_nat (length data) ->
  let n := Z.min amount (Z.of_nat (length c) - h_pos h) in
  let got := firstn (Z.to_nat n) (skipn (Z.to_nat (h_pos h)) c) in
  Z.of_nat (length got) = n /\
  fileReadData data amount s
  = Done ((n, map Some got ++ skipn (Z.to_nat n) data), at_pos h (h_pos h + n) s).
Proof.
  intros Hopen Hpos Hsize Hamount Hdata n got.
  assert (Hrest : length (skipn (Z.to_nat (h_pos h)) c)
                  = Z.to_nat (Z.of_nat (length c) - h_pos h)).
  { rewrite length_skipn. lia. }
  assert (Hgot : got = firstn (Z.to_nat amount) (skipn (Z.to_nat (h_pos h)) c)).
  { subst got n. destruct (Z.le_ge_cases amount (Z.of_nat (length c) - h_pos h)) as [Hle | Hge].
    - rewrite Z.min_l by lia. reflexivity.
    - rewrite Z.min_r by lia. rewrite !firstn_all2 by lia. reflexivity. }
  assert (Hlen : Z.of_nat (length got) = n).
  { subst got n. rewrite length_firstn, Hrest. lia. }
  split; [exact Hlen |].
  rewrite (fileReadData_at s h c data amount Hopen Hpos Hsize Hamount).
  - rewrite <- Hgot. replace (Z.to_nat n) with (length got) by lia.
    rewrite Hlen. reflexivity.
  - rewrite <- Hgot. lia.
Qed.

Lemma fileReadData_reads_what_is_left_witness :
  let h := {| h_path := "a.txt"; h_pos := 2; h_write := false |} in
  let c := [10; 20; 30; 40; 50] in
  let s := set_file (Some h) (fresh_store {[ "a.txt"%string := EFile c ]}) in
  let data := new_array 8 in
  open_on h c s /\
  0 <= h_pos h <= Z.of_nat (length c) /\
  Z.of_nat (length c) < 32768 /\
  0 <= 8 < 65536 /\
  8 <= Z.of_nat (length data) /\
  Z.of_nat (length [30; 40; 50]) = 3 /\
  fileReadData data 8 s
  = Done ((3, [Some 30; Some 40; Some 50; None; None; None; None; None]), at_pos h 5 s).
Proof.
  intros h c s data.
  assert (Hopen : open_on h c s) by (split; reflexivity).
  assert (Hpos : 0 <= h_pos h <= Z.of_nat (length c)) by (cbn; lia).
  assert (Hsize : Z.of_nat (length c) < 32768) by (cbn; lia).
  assert (Hamount : 0 <= 8 < 65536) by lia.
  assert (Hdata : 8 <= Z.of_nat (length data)) by (vm_compute; discriminate).
  split; [exact Hopen | split; [exact Hpos | split; [exact Hsize |
    split; [exact Hamount | split; [exact Hdata |]]]]].
  exact (fileReadData_reads_what_is_left s h c data 8 Hopen Hpos Hsize Hamount Hdata).
Defined.

(** Opening with [overwrite] on a path that is not a directory and whose
    directory exists: whatever was there is gone, the file is empty. *)
Lemma fileOpenToWrite_overwrite_at (s : Storage) (p : string) :
  path_components p <> [] ->
  sd s !! canon p <> Some EDir ->
  parent_is_dir (delete (canon p) (sd s)) p = true ->
  exists s', fileOpenToWrite p true s = Done (true, s') /\
             writing (canon p) (delete (canon p) (sd s)) [] s' /\
             mappinglist s' = mappinglist s /\ bitmap s' = bitmap s.
Proof.
  intros Hcs Hnodir Hpar.
  munfold. destruct (path_components p) as [| c0 cs] eqn:Hcomp; [congruence |].
  destruct (sd s !! canon p) as [[c |] |] eqn:Hl; [| congruence |].
  - sproj. rewrite Hl. sproj.
    destruct (file s) as [h0 |] eqn:Hf; sproj; rewrite ?Hf; sproj;
      rewrite lookup_delete_eq, Hpar; sproj;
      (eexists; split; [reflexivity |]);
      (split; [split; [reflexivity | sproj; rewrite insert_delete_eq; reflexivity]
              | split; reflexivity]).
  - sproj. rewrite (delete_id (sd s)) in Hpar by exact Hl.
    destruct (file s) as [h0 |] eqn:Hf; sproj; rewrite ?Hf; sproj;
      rewrite Hl, Hpar; sproj;
      (eexists; split; [reflexivity |]);
      (split; [split; [reflexivity
                      | sproj; rewrite (delete_id (sd s)) by exact Hl; reflexivity]
              | split; reflexivity]).
Qed.

(** Reading back what the handle has just written: whether the handle is
    reused or a new one is opened, it stands at offset 0 of the file. *)
Lemma fileOpenToRead_after_writing (s : Storage) (p : string)
    (V : gmap string entry) (c : list Z) :
  path_components p <> [] ->
  writing (canon p) V c s ->
  exists s' w,
    fileOpenToRead p s = Done (true, s') /\
    file s' = Some {| h_path := canon p; h_pos := 0; h_write := w |} /\
    sd s' = sd s /\ bitmap s' = bitmap s /\ mappinglist s' = mappinglist s.
Proof.
  intros Hcs [Hf Hsd].
  destruct (fileOpenToRead_cases s p)
    as (r & s' & Hrun & Hsd' & Hb & Hm & Hiff & Hreuse & Hnew & _).
  assert (Hex : vol_exists (sd s) p = true).
  { unfold vol_exists. destruct (path_components p); [reflexivity |].
    rewrite Hsd, lookup_insert_eq. reflexivity. }
  assert (Hr : r = true) by (apply Hiff; right; exact Hex). subst r.
  destruct (string_dec (open_name s) p) as [He | Hne].
  - exists s', true. split; [exact Hrun |]. split; [| auto].
    rewrite (Hreuse He), Hf. reflexivity.
  - exists s', false. split; [exact Hrun |]. split; [| auto].
    apply Hnew; assumption.
Qed.

Lemma fileSize_open (s : Storage) (h : handle) (c : list Z) :
  open_on h c s -> Z.of_nat (length c) < 4294967296 ->
  fileSize s = Done (Z.of_nat (length c), s).
Proof.
  intros Hopen Hlen. unfold fileSize.
  erewrite bind_done by (apply (file_isOpen_some s h); apply Hopen).
  cbn [negb]. unfold file_size, bind, get, ret.
  rewrite (handle_content_open s h c Hopen). rewrite u32_small by lia. reflexivity.
Qed.

(** X10.  what is written through the session is what is read back.  After
    [fileOpenToWrite] with [overwrite] has succeeded on a path, writing
    fewer than 32768 bytes with [fileWriteData], opening the same path
    with [fileOpenToRead] and asking [fileReadData] for as many bytes
    gives exactly the bytes written, and [fileSize] is their number. *)
Theorem written_bytes_are_read_back
    (s s1 : Storage) (p : string) (bytes : list Z) :
  fileOpenToWrite p true s = Done (true, s1) ->
  Z.of_nat (length bytes) < 32768 ->
  exists s2 s3 s4,
    fileWriteData bytes s1 = Done (Z.of_nat (length bytes), s2) /\
    fileOpenToRead p s2 = Done (true, s3) /\
    fileSize s3 = Done (Z.of_nat (length bytes), s3) /\
    fileReadData (new_array (Z.of_nat (length bytes))) (Z.of_nat (length bytes)) s3
    = Done ((Z.of_nat (length bytes), map Some bytes), s4).
Proof.
  intros Hopen Hlen.
  destruct (fileOpenToWrite_overwrite_creates _ _ _ Hopen) as (V & (Hcs & _ & _) & Hw).
  destruct (file_write_appends _ _ _ bytes _ Hw) as (s2 & Hwrite & Hw2 & _).
  cbn [app] in Hw2.
  assert (Hwd : fileWriteData bytes s1 = Done (Z.of_nat (length bytes), s2)).
  { unfold fileWriteData.
    erewrite bind_done by (eapply file_isOpen_some; apply Hw).
    exact Hwrite. }
  destruct (fileOpenToRead_after_writing s2 p V bytes Hcs Hw2)
    as (s3 & w & Hread & Hf3 & Hsd3 & _).
  assert (Hopen3 : open_on {| h_path := canon p; h_pos := 0; h_write := w |} bytes s3).
  { split; [exact Hf3 |]. cbn [h_path]. rewrite Hsd3.
    destruct Hw2 as [_ ->]. apply lookup_insert_eq. }
  exists s2, s3. eexists. split; [exact Hwd |]. split; [exact Hread |].
  split; [apply (fileSize_open s3 _ bytes Hopen3); lia |].
  rewrite (fileReadData_at s3 _ bytes _ _ Hopen3); cbn [h_pos].
  - change (Z.to_nat 0) with 0%nat. rewrite !skipn_O.
    rewrite Nat2Z.id, firstn_all. unfold new_array. rewrite Nat2Z.id.
    rewrite skipn_all2 by (rewrite repeat_length; lia).
    rewrite app_nil_r. reflexivity.
  - lia.
  - lia.
  - lia.
  - change (Z.to_nat 0) with 0%nat. rewrite !skipn_O.
    rewrite Nat2Z.id, firstn_all. unfold new_array. rewrite Nat2Z.id, repeat_length. lia.
Qed.

Lemma written_bytes_are_read_back_witness :
  let s := fresh_store ∅ in
  let s1 := match fileOpenToWrite "note.txt" true s with
            | Done (_, t) => t
            | _ => s
            end in
  fileOpenToWrite "note.txt" true s = Done (true, s1) /\
  Z.of_nat (length [104; 105; 33]) < 32768 /\
  exists s2 s3 s4,
    fileWriteData [104; 105; 33] s1 = Done (Z.of_nat (length [104; 105; 33]), s2) /\
    fileOpenToRead "note.txt" s2 = Done (true, s3) /\
    fileSize s3 = Done (Z.of_nat (length [104; 105; 33]), s3) /\
    fileReadData (new_array (Z.of_nat (length [104; 105; 33])))
      (Z.of_nat (length [104; 105; 33])) s3
    = Done ((Z.of_nat (length [104; 105; 33]), map Some [104; 105; 33]), s4).
Proof.
  intros s s1.
  assert (Hopen : fileOpenToWrite "note.txt" true s = Done (true, s1))
    by (vm_compute; reflexivity).
  assert (Hlen : Z.of_nat (length [104; 105; 33]) < 32768) by (cbn; lia).
  split; [exact Hopen | split; [exact Hlen |]].
  exact (written_bytes_are_read_back s s1 "note.txt" [104; 105; 33] Hopen Hlen).
Defined.

(** ** The display colour *)

Lemma bytes_of_u16_value (v : Z) :
  0 <= v < 65536 -> u8 v + 256 * u8 (Z.shiftr v 8) = v.
Proof.
  intros H. unfold u8. rewrite Z.shiftr_div_pow2 by lia.
  change (2 ^ 8) with 256.
  pose proof (Z.div_mod v 256 ltac:(lia)) as Hdm.
  pose proof (Z.mod_pos_bound v 256 ltac:(lia)) as Hm.
  assert (Hq : 0 <= v / 256 < 256).
  { split; [apply Z.div_pos; lia | apply Z.div_lt_upper_bound; lia]. }
  rewrite (Z.mod_small (v / 256)) by lia. lia.
Qed.

Lemma fileClose_open (s : Storage) (h : handle) :
  file s = Some h ->
  fileClose s = Done (true, log_event (EvClose (h_path h)) (set_file None s)).
Proof.
  intros Hf. unfold fileClose.
  erewrite bind_done by (apply (file_isOpen_some s h Hf)).
  cbn [negb]. unfold file_close, bind, get, modify, ret. rewrite Hf. reflexivity.
Qed.

(** With no file open, a path that is not on the volume cannot be opened
    and the state stays as it is. *)
Lemma fileOpenToRead_missing (s : Storage) (p : string) :
  file s = None -> p <> EmptyString -> vol_exists (sd s) p = false ->
  fileOpenToRead p s = Done (false, s).
Proof.
  intros Hf Hp Hvol. destruct s as [v lg f b ml]. cbn [file sd] in Hf, Hvol. subst f.
  unfold fileOpenToRead.
  erewrite bind_done by reflexivity.
  rewrite strcmp_zero.
  assert (Hq : String.eqb "" p = false) by (apply String.eqb_neq; congruence).
  cbn [file]. rewrite Hq.
  erewrite bind_done by reflexivity.
  erewrite bind_done.
  2:{ unfold SD_open. erewrite bind_done by reflexivity. cbn [sd]. rewrite Hvol. reflexivity. }
  erewrite bind_done by reflexivity.
  erewrite bind_done by reflexivity.
  reflexivity.
Qed.

(** [fileSaveMonoColor] when "monocolor" is not a directory of the root. *)
Lemma fileSaveMonoColor_saves (s : Storage) (v : Z) :
  sd s !! "monocolor"%string <> Some EDir ->
  exists s',
    fileSaveMonoColor v s = Done (tt, s') /\
    file s' = None /\
    sd s' = <["monocolor"%string := EFile (bytes_of_u16 v)]> (sd s) /\
    bitmap s' = bitmap s /\ mappinglist s' = mappinglist s.
Proof.
  intros Hnodir.
  destruct (fileOpenToWrite_overwrite_at s "monocolor") as (s1 & Hopen & Hw & Hm1 & Hb1).
  { vm_compute. discriminate. }
  { exact Hnodir. }
  { reflexivity. }
  change (canon "monocolor") with "monocolor"%string in Hw.
  destruct (file_write_appends _ _ _ (bytes_of_u16 v) _ Hw) as (s2 & Hwrite & Hw2 & Hm2 & Hb2).
  cbn [app] in Hw2.
  unfold fileSaveMonoColor.
  erewrite bind_done by exact Hopen.
  cbv iota.
  erewrite bind_done.
  2:{ unfold fileWriteData.
      erewrite bind_done by (eapply file_isOpen_some; apply Hw).
      exact Hwrite. }
  change (Z.of_nat (length (bytes_of_u16 v)) =? 2) with true. cbv iota.
  destruct Hw2 as [Hf2 Hsd2].
  erewrite bind_done by (apply (fileClose_open s2 _ Hf2)).
  eexists. split; [reflexivity |]. sproj.
  split; [reflexivity |]. split.
  - rewrite Hsd2. apply insert_delete_eq.
  - split; congruence.
Qed.

(** [fileGetMonoColor] when "monocolor" is a file: its first two bytes,
    the low one first, a missing byte keeping that of 0xF800. *)
Lemma fileGetMonoColor_reads (s : Storage) (c : list Z) :
  file s = None ->
  sd s !! "monocolor"%string = Some (EFile c) ->
  Z.of_nat (length c) < 32768 ->
  exists s',
    fileGetMonoColor s = Done (nth 0 c 0 + 256 * nth 1 c 248, s') /\
    file s' = None /\ sd s' = sd s /\
    bitmap s' = bitmap s /\ mappinglist s' = mappinglist s.
Proof.
  intros Hf Hl Hlen.
  destruct (fileOpenToRead_on_file s "monocolor" (EFile c) 0)
    as (s1 & Hopen & Hf1 & Hsd1 & Hm1 & Hb1).
  { vm_compute. discriminate. }
  { exact Hl. }
  { left. exact Hf. }
  change (canon "monocolor") with "monocolor"%string in Hf1.
  assert (Hopen1 : open_on {| h_path := "monocolor"; h_pos := 0; h_write := false |} c s1).
  { split; [exact Hf1 |]. cbn [h_path]. rewrite Hsd1. exact Hl. }
  unfold fileGetMonoColor.
  erewrite bind_done by exact Hopen.
  cbv iota.
  erewrite bind_done.
  2:{ apply (fileReadData_at s1 _ c _ 2 Hopen1); cbn [h_pos]; try lia.
      change (Z.to_nat 0) with 0%nat. rewrite skipn_O.
      rewrite length_firstn. cbn. lia. }
  cbn [h_pos snd]. change (Z.to_nat 0) with 0%nat. rewrite skipn_O.
  match goal with
  | |- context [at_pos ?h ?k s1] => set (s2 := at_pos h k s1)
  end.
  assert (Hf2 : exists h2, file s2 = Some h2 /\ h_path h2 = "monocolor"%string).
  { eexists. split; [reflexivity | reflexivity]. }
  destruct Hf2 as (h2 & Hf2 & Hp2).
  erewrite bind_done by (apply (fileClose_open s2 h2 Hf2)).
  assert (Hval : u16_of_array
                   (map Some (firstn (Z.to_nat 2) c)
                    ++ skipn (length (firstn (Z.to_nat 2) c)) (map Some (bytes_of_u16 63488)))
                 = Done (nth 0 c 0 + 256 * nth 1 c 248)).
  { destruct c as [| b0 [| b1 c']]; reflexivity. }
  rewrite Hval. eexists. split; [reflexivity |]. sproj.
  subst s2. unfold at_pos. sproj. repeat split; assumption.
Qed.

(** X11.  the colour saved is the colour loaded.  For every 16-bit colour,
    on every volume where "monocolor" is not a directory,
    [fileSaveMonoColor] puts the two bytes of the colour, the low one
    first, into the file "monocolor", changes no other path and closes
    the file: no handle is open when it returns.  [fileGetMonoColor]
    then returns the colour, leaves the volume as it is and leaves no
    file open. *)
Theorem saved_mono_color_is_loaded (s : Storage) (v : Z) :
  0 <= v < 65536 ->
  sd s !! "monocolor"%string <> Some EDir ->
  exists s1 s2,
    fileSaveMonoColor v s = Done (tt, s1) /\
    sd s1 = <["monocolor"%string := EFile [v mod 256; v / 256]]> (sd s) /\
    sd s1 !! "monocolor"%string = Some (EFile [v mod 256; v / 256]) /\
    file s1 = None /\
    fileGetMonoColor s1 = Done (v, s2) /\
    sd s2 = sd s1 /\ file s2 = None.
Proof.
  intros Hv Hnodir.
  destruct (fileSaveMonoColor_saves s v Hnodir) as (s1 & Hsave & Hf1 & Hsd1 & _).
  assert (Hl : sd s1 !! "monocolor"%string = Some (EFile (bytes_of_u16 v))).
  { rewrite Hsd1. apply lookup_insert_eq. }
  assert (Hbytes : bytes_of_u16 v = [v mod 256; v / 256]).
  { unfold bytes_of_u16, u8. rewrite Z.shiftr_div_pow2 by lia.
    change (2 ^ 8) with 256.
    rewrite (Z.mod_small (v / 256)); [reflexivity |].
    split; [apply Z.div_pos; lia | apply Z.div_lt_upper_bound; lia]. }
  destruct (fileGetMonoColor_reads s1 (bytes_of_u16 v) Hf1 Hl ltac:(cbn; lia))
    as (s2 & Hget & Hf2 & Hsd2 & _).
  exists s1, s2. split; [exact Hsave |].
  split; [rewrite Hsd1, Hbytes; reflexivity |].
  split; [rewrite Hl, Hbytes; reflexivity |].
  split; [exact Hf1 |].
  split; [| split; assumption].
  rewrite Hget. cbn [bytes_of_u16 nth]. rewrite bytes_of_u16_value by exact Hv.
  reflexivity.
Qed.

Lemma saved_mono_color_is_loaded_witness :
  0 <= 2016 < 65536 /\
  sd (fresh_store ∅) !! "monocolor"%string <> Some EDir /\
  exists s1 s2,
    fileSaveMonoColor 2016 (fresh_store ∅) = Done (tt, s1) /\
    sd s1 = <["monocolor"%string := EFile [2016 mod 256; 2016 / 256]]> (sd (fresh_store ∅)) /\
    sd s1 !! "monocolor"%string = Some (EFile [2016 mod 256; 2016 / 256]) /\
    file s1 = None /\
    fileGetMonoColor s1 = Done (2016, s2) /\
    sd s2 = sd s1 /\ file s2 = None.
Proof.
  assert (Hv : 0 <= 2016 < 65536) by lia.
  assert (Hnodir : sd (fresh_store ∅) !! "monocolor"%string <> Some EDir)
    by (vm_compute; discriminate).
  split; [exact Hv | split; [exact Hnodir |]].
  exact (saved_mono_color_is_loaded (fresh_store ∅) 2016 Hv Hnodir).
Defined.

(** X12.  what [fileGetMonoColor] returns when the colour was never saved
    or the file is too short.  With no file open: if "monocolor" is not
    on the volume the result is the default 0xF800 and nothing changes;
    if it is a file of fewer than 32768 bytes the result is made of its
    first two bytes, the low one first, and a byte the file does not have
    keeps the value it has in 0xF800 (0 for the low byte, 0xF8 for the
    high one). *)
Theorem fileGetMonoColor_default_and_short_file (s : Storage) :
  file s = None ->
  (sd s !! "monocolor"%string = None -> fileGetMonoColor s = Done (63488, s)) /\
  (forall c, sd s !! "monocolor"%string = Some (EFile c) ->
             Z.of_nat (length c) < 32768 ->
             exists s',
               fileGetMonoColor s = Done (nth 0 c 0 + 256 * nth 1 c 248, s') /\
               sd s' = sd s /\ file s' = None).
Proof.
  intros Hf. split.
  - intros Hl. unfold fileGetMonoColor.
    erewrite bind_done.
    2:{ apply fileOpenToRead_missing; [exact Hf | discriminate |].
        unfold vol_exists. change (path_components "monocolor") with ["monocolor"%string].
        change (canon "monocolor") with "monocolor"%string. rewrite Hl. reflexivity. }
    reflexivity.
  - intros c Hl Hlen.
    destruct (fileGetMonoColor_reads s c Hf Hl Hlen) as (s' & Hget & Hf' & Hsd' & _).
    exists s'. auto.
Qed.

Lemma fileGetMonoColor_default_and_short_file_witness :
  let s := fresh_store {[ "monocolor"%string := EFile [31] ]} in
  file s = None /\
  (sd s !! "monocolor"%string = None -> fileGetMonoColor s = Done (63488, s)) /\
  (forall c, sd s !! "monocolor"%string = Some (EFile c) ->
             Z.of_nat (length c) < 32768 ->
             exists s',
               fileGetMonoColor s = Done (nth 0 c 0 + 256 * nth 1 c 248, s') /\
               sd s' = sd s /\ file s' = None).
Proof.
  intros s.
  assert (Hf : file s = None) by reflexivity.
  split; [exact Hf |].
  exact (fileGetMonoColor_default_and_short_file s Hf).
Defined.

(** ** Copying a file *)




Lemma array_take_from_filled (l : list Z) :
  forall (pre rest : heap_array),
    array_take_from (pre ++ map Some l ++ rest) (Z.of_nat (length pre)) (length l) = Done l.
Proof.
  induction l as [| b l IH]; intros pre rest; [reflexivity |].
  cbn [length array_take_from map].
  unfold array_get.
  destruct (Z.of_nat (length pre) <? 0) eqn:E; [apply Z.ltb_lt in E; lia |].
  rewrite Nat2Z.id.
  rewrite nth_error_app2 by lia. rewrite Nat.sub_diag. cbn [app nth_error obind].
  specialize (IH (pre ++ [Some b]) rest).
  rewrite length_app in IH. cbn [length] in IH.
  replace (Z.of_nat (length pre + 1)) with (Z.of_nat (length pre) + 1) in IH by lia.
  rewrite <- app_assoc in IH. cbn [app] in IH. rewrite IH. reflexivity.
Qed.

Lemma array_take_filled (l : list Z) (rest : heap_array) :
  array_take (map Some l ++ rest) (Z.of_nat (length l)) = Done l.
Proof.
  unfold array_take. rewrite Nat2Z.id.
  exact (array_take_from_filled l [] rest).
Qed.


Section CopyLoop.

Variables (source dest : string) (c : list Z) (V0 : gmap string entry).

Hypothesis Hsrc_cs : path_components source <> [].
Hypothesis Hdst_cs : path_components dest <> [].
Hypothesis Hsrc : V0 !! canon source = Some (EFile c).
Hypothesis Hdst : V0 !! canon dest = None.
Hypothesis Hpar : parent_is_dir V0 dest = true.
Hypothesis Hname : String.substring 0 19 (base_name (canon dest)) <> source.
Hypothesis Hsize : Z.of_nat (length c) < 32768.






End CopyLoop.

Lemma SD_exists_at (s : Storage) (p : string) :
  SD_exists p s = Done (vol_exists (sd s) p, s).
Proof. reflexivity. Qed.

Lemma SD_remove_file (s : Storage) (p : string) (c : list Z) :
  sd s !! canon p = Some (EFile c) ->
  SD_remove p s
  = Done (true, log_event (EvRemove (canon p)) (set_sd (delete (canon p) (sd s)) s)).
Proof.
  intros Hl. unfold SD_remove. unfold bind at 1. unfold get at 1. rewrite Hl. reflexivity.
Qed.




(** X14.  [fileCopy] and a destination that exists.  Without [overwrite]
    the call returns false and changes nothing, whatever the source is
    and whatever file is open.  With [overwrite] a destination that is a
    file is removed before the source is looked at: when the open handle
    does not report the name of the source and the source is not on the
    volume once the destination is removed (it is missing, or it is the
    destination itself), the call returns false, the destination is gone
    and no file is open. *)
Theorem fileCopy_removes_destination_first
    (fuel : nat) (s : Storage) (source dest : string) :
  vol_exists (sd s) dest = true ->
  fileCopy fuel source dest false s = Done (false, s) /\
  forall c,
    sd s !! canon dest = Some (EFile c) ->
    open_name s <> source ->
    vol_exists (delete (canon dest) (sd s)) source = false ->
    exists s',
      fileCopy fuel source dest true s = Done (false, s') /\
      sd s' = delete (canon dest) (sd s) /\ file s' = None.
Proof.
  intros Hex. split.
  - unfold fileCopy. erewrite bind_done.
    2:{ unfold fileCopy_statements.
        rewrite (bind_done _ _ _ _ _ (SD_exists_at s dest)). rewrite Hex. reflexivity. }
    reflexivity.
  - intros c Hl Hname Hgone.
    set (t := log_event (EvRemove (canon dest)) (set_sd (delete (canon dest) (sd s)) s)).
    destruct (fileOpenToRead_cases t source)
      as (r & s' & Hopen & Hsd & _ & _ & Hr & _ & _ & Hclosed).
    assert (Hfalse : r = false).
    { destruct r; [| reflexivity].
      destruct (proj1 Hr eq_refl) as [E | E].
      - exfalso. apply Hname. exact E.
      - cbn [t sd log_event set_sd] in E. congruence. }
    subst r. exists s'. split; [| split; [exact Hsd | apply Hclosed; reflexivity]].
    unfold fileCopy. erewrite bind_done.
    2:{ unfold fileCopy_statements.
        rewrite (bind_done _ _ _ _ _ (SD_exists_at s dest)). rewrite Hex.
        erewrite bind_done by (apply (SD_remove_file s dest c Hl)).
        unfold fileCopy_from_source. fold t.
        erewrite bind_done by exact Hopen.
        reflexivity. }
    reflexivity.
Qed.

Lemma fileCopy_removes_destination_first_witness :
  let s := fresh_store {[ "a.txt"%string := EFile [1; 2; 3];
                          "b.txt"%string := EFile [9] ]} in
  vol_exists (sd s) "b.txt" = true /\
  fileCopy 8 "a.txt" "b.txt" false s = Done (false, s) /\
  sd s !! canon "b.txt" = Some (EFile [9]) /\
  open_name s <> "c.txt"%string /\
  vol_exists (delete (canon "b.txt") (sd s)) "c.txt" = false /\
  exists s',
    fileCopy 8 "c.txt" "b.txt" true s = Done (false, s') /\
    sd s' = delete (canon "b.txt") (sd s) /\ file s' = None.
Proof.
  intros s.
  assert (H1 : vol_exists (sd s) "b.txt" = true) by (vm_compute; reflexivity).
  assert (H2 : sd s !! canon "b.txt" = Some (EFile [9])) by (vm_compute; reflexivity).
  assert (H3 : open_name s <> "c.txt"%string) by discriminate.
  assert (H4 : vol_exists (delete (canon "b.txt") (sd s)) "c.txt" = false)
    by (vm_compute; reflexivity).
  split; [exact H1 |].
  split; [exact (proj1 (fileCopy_removes_destination_first 8 s "a.txt" "b.txt" H1)) |].
  split; [exact H2 |]. split; [exact H3 |]. split; [exact H4 |].
  exact (proj2 (fileCopy_removes_destination_first 8 s "c.txt" "b.txt" H1) [9] H2 H3 H4).
Defined.

(** ** Bitmaps: the signature, the record, and the ways [getBitmap] ends *)

Lemma file_read_eof (s : Storage) (h : handle) (c : list Z) (j : Z) :
  open_on h c s -> Z.of_nat (length c) <= j ->
  file_read (at_pos h j s) = Done (-1, at_pos h j s).
Proof.
  intros [Hf Hl] Hj.
  cbv beta iota delta [file_read bind get ret modify handle_content at_pos].
  sproj. rewrite Hl.
  destruct (nth_error c (Z.to_nat j)) eqn:E; [| reflexivity].
  exfalso. assert (Hn : nth_error c (Z.to_nat j) = None) by (apply nth_error_None; lia).
  congruence.
Qed.

Lemma file_seek_closed (s : Storage) (k : Z) :
  file s = None -> file_seek k s = Done (false, s).
Proof. intros Hf. unfold file_seek, bind, get, ret. rewrite Hf. reflexivity. Qed.

Lemma file_read_closed (s : Storage) :
  file s = None -> file_read s = Done (-1, s).
Proof. intros Hf. unfold file_read, bind, get, ret. rewrite Hf. reflexivity. Qed.

Lemma isBitmap_at (s : Storage) (h : handle) (c : list Z) (j : Z) :
  open_on h c s ->
  exists k,
    _isBitmap (at_pos h j s)
    = Done (match c with
            | b0 :: b1 :: _ => (b0 =? 66) && (b1 =? 77)
            | _ => false
            end, at_pos h k s).
Proof.
  intros Hopen. unfold _isBitmap.
  erewrite bind_done by (apply (file_seek_at h c s Hopen); lia).
  destruct c as [| b0 [| b1 c']].
  - erewrite bind_done by (apply (file_read_eof s h [] 0 Hopen); cbn; lia).
    eexists. reflexivity.
  - erewrite bind_done by (apply (file_read_at h _ s Hopen 0 1); [cbn; lia | reflexivity]).
    change (byte_at [b0] 0) with b0.
    destruct (b0 =? 66); [| eexists; reflexivity].
    erewrite bind_done by (apply (file_read_eof s h _ 1 Hopen); cbn; lia).
    eexists. reflexivity.
  - erewrite bind_done by (apply (file_read_at h _ s Hopen 0 1); [cbn; lia | reflexivity]).
    change (byte_at (b0 :: b1 :: c') 0) with b0.
    destruct (b0 =? 66); [| eexists; reflexivity].
    erewrite bind_done by (apply (file_read_at h _ s Hopen 1 2); [cbn; lia | reflexivity]).
    eexists. reflexivity.
Qed.

(** X15.  [_isBitmap] says yes exactly for a file that begins with the two
    bytes 'B' 'M'.  Wherever the cursor of the handle stands, the answer
    is taken from the first two bytes of the file; a file of fewer than
    two bytes is not a bitmap, and a closed handle is not one either.
    Nothing but the cursor changes. *)
Theorem isBitmap_checks_the_first_two_bytes (s : Storage) :
  (file s = None -> _isBitmap s = Done (false, s)) /\
  (forall h c,
      open_on h c s ->
      exists k,
        _isBitmap s
        = Done (match c with
                | b0 :: b1 :: _ => (b0 =? 66) && (b1 =? 77)
                | _ => false
                end, at_pos h k s)).
Proof.
  split.
  - intros Hf. unfold _isBitmap.
    erewrite bind_done by (apply file_seek_closed; exact Hf).
    erewrite bind_done by (apply file_read_closed; exact Hf).
    reflexivity.
  - intros h c Hopen.
    destruct (isBitmap_at s h c (h_pos h) Hopen) as (k & Hk).
    rewrite <- (at_pos_current h c s Hopen) in Hk. exists k. exact Hk.
Qed.




(** X17.  [getBitmap] on a path that cannot be opened.  When the path is
    neither the name of the open handle nor on the volume, [getBitmap]
    returns the bitmap with width -1, height -1 and type [file_error];
    the pixel buffer of the last bitmap is still attached to it, the
    volume and the table are untouched and no file is left open. *)
Theorem getBitmap_of_a_missing_file
    (fuel : nat) (s : Storage) (p : string) (row amount : Z) :
  open_name s <> p ->
  vol_exists (sd s) p = false ->
  exists s',
    getBitmap fuel p row amount s = Done (bitmap s', s') /\
    width (bitmap s') = -1 /\ height (bitmap s') = -1 /\
    type (bitmap s') = file_error /\
    data (bitmap s') = data (bitmap s) /\
    sd s' = sd s /\ file s' = None /\ mappinglist s' = mappinglist s.
Proof.
  intros Hname Hvol.
  destruct (fileOpenToRead_cases s p)
    as (r & s1 & Hrun & Hsd1 & Hb1 & Hm1 & Hiff & _ & _ & Hclosed).
  assert (Hr : r = false).
  { destruct r; [| reflexivity]. destruct (proj1 Hiff eq_refl); congruence. }
  subst r. specialize (Hclosed eq_refl).
  unfold getBitmap. erewrite bind_done by exact Hrun. cbn [negb].
  eexists. split; [reflexivity |].
  unfold set_file_error. sproj. cbn [width height type data].
  rewrite Hb1. repeat split; assumption.
Qed.

Lemma getBitmap_of_a_missing_file_witness :
  let s := fresh_store {[ "a.bmp"%string := EFile [66; 77] ]} in
  open_name s <> "b.bmp"%string /\
  vol_exists (sd s) "b.bmp" = false /\
  exists s',
    getBitmap 16 "b.bmp" 0 0 s = Done (bitmap s', s') /\
    width (bitmap s') = -1 /\ height (bitmap s') = -1 /\
    type (bitmap s') = file_error /\
    data (bitmap s') = data (bitmap s) /\
    sd s' = sd s /\ file s' = None /\ mappinglist s' = mappinglist s.
Proof.
  intros s.
  assert (H1 : open_name s <> "b.bmp"%string) by (vm_compute; discriminate).
  assert (H2 : vol_exists (sd s) "b.bmp" = false) by (vm_compute; reflexivity).
  split; [exact H1 | split; [exact H2 |]].
  exact (getBitmap_of_a_missing_file 16 s "b.bmp" 0 0 H1 H2).
Defined.

(** X18.  [getBitmap] on a file whose header is not the 40-byte info header.
    When the file opens, has more than 30 bytes and the two bytes at
    offset 14 do not spell 40, [_readWidth] and [_readHeight] return -1
    and [_readBitsPerPixel] reaches its closing brace without a [return]:
    the call has no defined result, whatever the rest of the file is. *)
Theorem getBitmap_without_info_header
    (fuel : nat) (s s1 : Storage) (p : string) (h : handle) (c : list Z)
    (row amount : Z) :
  fileOpenToRead p s = Done (true, s1) ->
  open_on h c s1 ->
  30 < Z.of_nat (length c) ->
  0 <= byte_at c 14 < 256 -> 0 <= byte_at c 15 < 256 ->
  byte_at c 14 + 256 * byte_at c 15 <> 40 ->
  (exists s2, _readWidth s1 = Done (-1, s2)) /\
  (exists s2, _readHeight s1 = Done (-1, s2)) /\
  getBitmap fuel p row amount s = Undefined NoReturnValue.
Proof.
  intros Hopen Hon Hlen Hb14 Hb15 Hdib.
  assert (Hval : u16 (Z.shiftl (u16 (byte_at c 14)) 0 + Z.shiftl (u16 (byte_at c 15)) 8)
                 = byte_at c 14 + 256 * byte_at c 15).
  { rewrite (u16_small (byte_at c 14)) by lia. rewrite (u16_small (byte_at c 15)) by lia.
    rewrite Z.shiftl_0_r, Z.shiftl_mul_pow2 by lia. change (2 ^ 8) with 256.
    rewrite u16_small by lia. lia. }
  assert (Hd : forall j, _readDIB (at_pos h j s1)
                         = Done (byte_at c 14 + 256 * byte_at c 15, at_pos h 16 s1)).
  { intros j. rewrite (readDIB_at h c s1 Hon Hlen j), Hval. reflexivity. }
  assert (Hne : (byte_at c 14 + 256 * byte_at c 15 =? 40) = false)
    by (apply Z.eqb_neq; exact Hdib).
  assert (Hw : forall j, _readWidth (at_pos h j s1) = Done (-1, at_pos h 16 s1)).
  { intros j. unfold _readWidth. rewrite (bind_done _ _ _ _ _ (Hd j)), Hne. reflexivity. }
  assert (Hh : forall j, _readHeight (at_pos h j s1) = Done (-1, at_pos h 16 s1)).
  { intros j. unfold _readHeight. rewrite (bind_done _ _ _ _ _ (Hd j)), Hne. reflexivity. }
  pose proof (Hw (h_pos h)) as Hw0. pose proof (Hh (h_pos h)) as Hh0.
  rewrite <- (at_pos_current h c s1 Hon) in Hw0, Hh0.
  split; [eexists; exact Hw0 |]. split; [eexists; exact Hh0 |].
  unfold getBitmap. rewrite (bind_done _ _ _ _ _ Hopen). cbn [negb].
  unfold bind at 1. unfold readBitmap.
  rewrite (bind_done _ _ _ _ _ Hw0), (bind_done _ _ _ _ _ (Hh 16)).
  unfold bind at 1. unfold _readBitsPerPixel.
  rewrite (bind_done _ _ _ _ _ (Hd 16)), Hne. reflexivity.
Qed.

Lemma getBitmap_without_info_header_witness :
  let c := [66; 77] ++ repeat 0 12 ++ [108; 0; 0; 0] ++ repeat 0 104 in
  let s := fresh_store {[ "v4.bmp"%string := EFile c ]} in
  let h := {| h_path := "v4.bmp"; h_pos := 0; h_write := false |} in
  let s1 := set_file (Some h) (log_event (EvOpen "v4.bmp") s) in
  fileOpenToRead "v4.bmp" s = Done (true, s1) /\
  open_on h c s1 /\
  30 < Z.of_nat (length c) /\
  0 <= byte_at c 14 < 256 /\ 0 <= byte_at c 15 < 256 /\
  byte_at c 14 + 256 * byte_at c 15 <> 40 /\
  (exists s2, _readWidth s1 = Done (-1, s2)) /\
  (exists s2, _readHeight s1 = Done (-1, s2)) /\
  getBitmap 16 "v4.bmp" 0 0 s = Undefined NoReturnValue.
Proof.
  intros c s h s1.
  assert (H1 : fileOpenToRead "v4.bmp" s = Done (true, s1)) by (vm_compute; reflexivity).
  assert (H2 : open_on h c s1) by (split; vm_compute; reflexivity).
  assert (H3 : 30 < Z.of_nat (length c)) by (vm_compute; reflexivity).
  assert (H4 : 0 <= byte_at c 14 < 256) by (vm_compute; split; [discriminate | reflexivity]).
  assert (H5 : 0 <= byte_at c 15 < 256) by (vm_compute; split; [discriminate | reflexivity]).
  assert (H6 : byte_at c 14 + 256 * byte_at c 15 <> 40) by (vm_compute; discriminate).
  split; [exact H1 |]. split; [exact H2 |]. split; [exact H3 |]. split; [exact H4 |].
  split; [exact H5 |]. split; [exact H6 |].
  exact (getBitmap_without_info_header 16 s s1 "v4.bmp" h c 0 0 H1 H2 H3 H4 H5 H6).
Defined.









(** ** What [getBitmap] leaves alone

    An invariant that the setters of the volume, the log, the handle and
    the pixel buffer and dimensions keep is kept by every function
    [getBitmap] runs. *)

Create HintDb frm discriminated.

Section FrameInvariant.

Variable P : Storage -> Prop.

Hypothesis P_sd : forall v s, P s -> P (set_sd v s).
Hypothesis P_log : forall e s, P s -> P (log_event e s).
Hypothesis P_file : forall f s, P s -> P (set_file f s).
Hypothesis P_data : forall d s, P s -> P (set_data d s).
Hypothesis P_dim : forall w h s, P s -> P (set_dimensions w h s).
Hypothesis P_err : forall s, P s -> P (set_file_error s).

Ltac fpres :=
  repeat first
    [ solve [auto 1 with frm nocore]
    | apply preserves_ret | apply preserves_lift
    | match goal with
      | |- preserves _ (bind get _) => apply preserves_bind_get; intros ? _
      | |- preserves _ (bind _ _) => apply preserves_bind; [| intros ?]
      | |- preserves _ (modify _) =>
          apply preserves_modify; intros ? ?;
          repeat first [ assumption | apply P_sd | apply P_log | apply P_file
                       | apply P_data | apply P_dim | apply P_err ]
      | |- preserves _ (if ?b then _ else _) => destruct b
      | |- preserves _ (match ?o with Some _ => _ | None => _ end) => destruct o
      | |- preserves _ (match ?e with EFile _ => _ | EDir => _ end) => destruct e
      | |- preserves _ (match ?l with [] => _ | _ :: _ => _ end) => destruct l
      end ].

Lemma frm_file_isOpen : preserves P file_isOpen.
Proof. unfold file_isOpen. fpres. Qed.
#[local] Hint Resolve frm_file_isOpen : frm.

Lemma frm_file_close : preserves P file_close.
Proof. unfold file_close. fpres. Qed.
#[local] Hint Resolve frm_file_close : frm.

Lemma frm_file_assign (f : option handle) : preserves P (file_assign f).
Proof. unfold file_assign. fpres. Qed.
#[local] Hint Resolve frm_file_assign : frm.

Lemma frm_file_seek (pos : Z) : preserves P (file_seek pos).
Proof. unfold file_seek. fpres. Qed.
#[local] Hint Resolve frm_file_seek : frm.

Lemma frm_file_read : preserves P file_read.
Proof.
  unfold file_read. apply preserves_bind_get. intros s0 _.
  destruct (file s0); [| fpres]. destruct (handle_content s0); fpres.
Qed.
#[local] Hint Resolve frm_file_read : frm.

Lemma frm_file_position : preserves P file_position.
Proof. unfold file_position. fpres. Qed.
#[local] Hint Resolve frm_file_position : frm.

Lemma frm_file_available : preserves P file_available.
Proof. unfold file_available. fpres. Qed.
#[local] Hint Resolve frm_file_available : frm.

Lemma frm_file_getName (n : nat) : preserves P (file_getName n).
Proof. unfold file_getName. fpres. Qed.
#[local] Hint Resolve frm_file_getName : frm.

Lemma frm_SD_exists (p : string) : preserves P (SD_exists p).
Proof. unfold SD_exists. fpres. Qed.
#[local] Hint Resolve frm_SD_exists : frm.

Lemma frm_SD_open (p : string) : preserves P (SD_open p).
Proof. unfold SD_open. fpres. Qed.
#[local] Hint Resolve frm_SD_open : frm.

Lemma frm_SD_mkdir (p : string) : preserves P (SD_mkdir p).
Proof. unfold SD_mkdir. fpres. Qed.
#[local] Hint Resolve frm_SD_mkdir : frm.

Lemma frm_SD_remove (p : string) : preserves P (SD_remove p).
Proof. unfold SD_remove. fpres. Qed.
#[local] Hint Resolve frm_SD_remove : frm.

Lemma frm_SD_open_write (p : string) : preserves P (SD_open_write p).
Proof. unfold SD_open_write. fpres. Qed.
#[local] Hint Resolve frm_SD_open_write : frm.

Lemma frm_file_write (bytes : list Z) : preserves P (file_write bytes).
Proof.
  unfold file_write. apply preserves_bind_get. intros s0 _.
  destruct (file s0); [| fpres]. destruct (handle_content s0); fpres.
Qed.
#[local] Hint Resolve frm_file_write : frm.

Lemma frm_fileOpenToRead (p : string) : preserves P (fileOpenToRead p).
Proof. unfold fileOpenToRead. fpres. Qed.
#[local] Hint Resolve frm_fileOpenToRead : frm.

Lemma frm_fileOpenToWrite (p : string) (overwrite : bool) :
  preserves P (fileOpenToWrite p overwrite).
Proof. unfold fileOpenToWrite. fpres. Qed.
#[local] Hint Resolve frm_fileOpenToWrite : frm.

Lemma frm_fileWriteData (bytes : list Z) : preserves P (fileWriteData bytes).
Proof. unfold fileWriteData. fpres. Qed.
#[local] Hint Resolve frm_fileWriteData : frm.

Lemma frm_writeCompressedBlock (q : string) (row start end_ : Z) :
  preserves P (writeCompressedBlock q row start end_).
Proof. unfold writeCompressedBlock. fpres. Qed.
#[local] Hint Resolve frm_writeCompressedBlock : frm.

Lemma frm_readDIB : preserves P _readDIB.
Proof. unfold _readDIB. fpres. Qed.
#[local] Hint Resolve frm_readDIB : frm.

Lemma frm_read_int32_le : preserves P read_int32_le.
Proof. unfold read_int32_le. fpres. Qed.
#[local] Hint Resolve frm_read_int32_le : frm.

Lemma frm_readOffset : preserves P _readOffset.
Proof. unfold _readOffset. fpres. Qed.
#[local] Hint Resolve frm_readOffset : frm.

Lemma frm_readWidth : preserves P _readWidth.
Proof. unfold _readWidth. fpres. Qed.
#[local] Hint Resolve frm_readWidth : frm.

Lemma frm_readHeight : preserves P _readHeight.
Proof. unfold _readHeight. fpres. Qed.
#[local] Hint Resolve frm_readHeight : frm.

Lemma frm_readBitsPerPixel : preserves P _readBitsPerPixel.
Proof. unfold _readBitsPerPixel. fpres. Qed.
#[local] Hint Resolve frm_readBitsPerPixel : frm.

Lemma frm_readCompressionMethod : preserves P _readCompressionMethod.
Proof. unfold _readCompressionMethod. fpres. Qed.
#[local] Hint Resolve frm_readCompressionMethod : frm.

Section FrameEncoder.

Variable fuel : nat.

Lemma frm_findPixel (st : bool) (i : Z) : preserves P (findPixel fuel st i).
Proof. unfold findPixel. fpres. Qed.
#[local] Hint Resolve frm_findPixel : frm.

Lemma frm_store_next_byte (counter : Z) : preserves P (store_next_byte counter).
Proof. unfold store_next_byte. fpres. Qed.
#[local] Hint Resolve frm_store_next_byte : frm.

Lemma frm_read_whole_bytes (n : nat) :
  forall width counter bytes_read,
    preserves P (read_whole_bytes n width counter bytes_read).
Proof.
  induction n as [| n IH]; intros width counter bytes_read; cbn [read_whole_bytes]; fpres.
Qed.
#[local] Hint Resolve frm_read_whole_bytes : frm.

Lemma frm_readMono40_lines (n : nat) :
  forall width amount counter,
    preserves P (readMono40_lines fuel n width amount counter).
Proof.
  induction n as [| n IH]; intros width amount counter; cbn [readMono40_lines]; fpres.
Qed.
#[local] Hint Resolve frm_readMono40_lines : frm.

Lemma frm_readMono40 (row amount : Z) : preserves P (readMono40 fuel row amount).
Proof. unfold readMono40. fpres. Qed.
#[local] Hint Resolve frm_readMono40 : frm.

Lemma frm_findScanline (row index : Z) : preserves P (findScanline fuel row index).
Proof. unfold findScanline. fpres. Qed.
#[local] Hint Resolve frm_findScanline : frm.

Lemma frm_encode_row (n : nat) (orig enc : string) :
  forall row start end_ offset,
    preserves P (encode_row fuel n orig enc row start end_ offset).
Proof.
  induction n as [| n IH]; intros row start end_ offset; cbn [encode_row]; fpres.
Qed.
#[local] Hint Resolve frm_encode_row : frm.

Lemma frm_encode_rows (n : nat) (orig enc : string) :
  forall row, preserves P (encode_rows fuel n orig enc row).
Proof.
  induction n as [| n IH]; intros row; cbn [encode_rows]; fpres.
Qed.
#[local] Hint Resolve frm_encode_rows : frm.

Lemma frm_readBitmap (row amount : Z) : preserves P (readBitmap fuel row amount).
Proof. unfold readBitmap, encodeBitmap. fpres. Qed.
#[local] Hint Resolve frm_readBitmap : frm.

Lemma frm_getBitmap (p : string) (row amount : Z) :
  preserves P (getBitmap fuel p row amount).
Proof. unfold getBitmap. fpres. Qed.

End FrameEncoder.

End FrameInvariant.

Lemma getBitmap_returns_the_member (fuel : nat) (s s' : Storage) (p : string)
    (row amount : Z) (b : Bitmap) :
  getBitmap fuel p row amount s = Done (b, s') -> b = bitmap s'.
Proof.
  unfold getBitmap. intros H. unfold bind at 1 in H.
  destruct (fileOpenToRead p s) as [[ok s1] | |]; try discriminate.
  destruct ok; cbn [negb] in H.
  - unfold bind at 1 in H. destruct (readBitmap fuel row amount s1) as [[[] s2] | |];
      try discriminate.
    injection H as <- <-. reflexivity.
  - injection H as <- <-. reflexivity.
Qed.

(** X20.  [getBitmap] never sets the type of the bitmap to anything but
    [file_error], and never touches the floor table.  Whenever a call
    returns, with a bitmap loaded or not, the type it reports is the one
    the member had before or [file_error]; since the member starts as
    [file_error], a successful call reports [file_error] too.  The table
    and [n_mapped_floors] are as before. *)
Theorem getBitmap_never_sets_a_type
    (fuel : nat) (s s' : Storage) (p : string) (row amount : Z) (b : Bitmap) :
  getBitmap fuel p row amount s = Done (b, s') ->
  b = bitmap s' /\
  (type b = type (bitmap s) \/ type b = file_error) /\
  (type (bitmap s) = file_error -> type b = file_error) /\
  mappinglist s' = mappinglist s.
Proof.
  intros H.
  pose proof (getBitmap_returns_the_member _ _ _ _ _ _ _ H) as ->.
  assert (Ht : type (bitmap s') = type (bitmap s) \/ type (bitmap s') = file_error).
  { refine (frm_getBitmap
              (fun t => type (bitmap t) = type (bitmap s) \/ type (bitmap t) = file_error)
              _ _ _ _ _ _ fuel p row amount s (bitmap s') s' _ H);
      try (intros; assumption).
    - intros. right. reflexivity.
    - left. reflexivity. }
  split; [reflexivity |]. split; [exact Ht |]. split.
  - intros Hs. destruct Ht as [Ht | Ht]; congruence.
  - refine (frm_getBitmap (fun t => mappinglist t = mappinglist s)
              _ _ _ _ _ _ fuel p row amount s (bitmap s') s' _ H);
      try (intros; assumption).
    reflexivity.
Qed.

Lemma getBitmap_never_sets_a_type_witness :
  let s := fresh_store {[ "a.bmp"%string := EFile (bmp_mono 5 1 [162; 0; 0; 0]) ]} in
  let s' := match getBitmap 16 "a.bmp" 0 0 s with
            | Done (_, t) => t
            | _ => s
            end in
  getBitmap 16 "a.bmp" 0 0 s = Done (bitmap s', s') /\
  bitmap s' = bitmap s' /\
  (type (bitmap s') = type (bitmap s) \/ type (bitmap s') = file_error) /\
  (type (bitmap s) = file_error -> type (bitmap s') = file_error) /\
  mappinglist s' = mappinglist s.
Proof.
  intros s s'.
  assert (H : getBitmap 16 "a.bmp" 0 0 s = Done (bitmap s', s')) by (vm_compute; reflexivity).
  split; [exact H |].
  exact (getBitmap_never_sets_a_type 16 s s' "a.bmp" 0 0 (bitmap s') H).
Defined.

(** ** Pixels and colours *)

Lemma land_pow2_testbit (b n : Z) :
  0 <= n -> negb (Z.land b (Z.shiftl 1 n) =? 0) = Z.testbit b n.
Proof.
  intros Hn. rewrite Z.shiftl_1_l.
  destruct (Z.testbit b n) eqn:E.
  - assert (H : Z.testbit (Z.land b (2 ^ n)) n = true).
    { rewrite Z.land_spec, E, Z.pow2_bits_true by lia. reflexivity. }
    destruct (Z.land b (2 ^ n) =? 0) eqn:E0; [| reflexivity].
    apply Z.eqb_eq in E0. rewrite E0, Z.bits_0 in H. discriminate.
  - assert (H : Z.land b (2 ^ n) = 0).
    { apply Z.bits_inj'. intros m Hm. rewrite Z.land_spec, Z.bits_0.
      destruct (Z.eq_dec m n) as [-> | Hne].
      - rewrite E. reflexivity.
      - rewrite Z.pow2_bits_false by lia. apply andb_false_r. }
    rewrite H. reflexivity.
Qed.

(** Pixel [j] of the buffer is bit [7 - j mod 8] of byte [j / 8]: the
    leftmost pixel of a byte is its highest bit. *)
Lemma bitset_translate_pixel (data : heap_array) (j b : Z) :
  0 <= j < 32768 ->
  nth_error data (Z.to_nat (j / 8)) = Some (Some b) ->
  _bitset data (u16 (_translate (u32 j))) = Done (Z.testbit b (7 - j mod 8)).
Proof.
  intros Hj Hb.
  rewrite (u32_small j) by lia.
  destruct (translate_same_byte j Hj) as [Hq Hr].
  assert (Hrange : 0 <= _translate j < 32768).
  { rewrite translate_small by exact Hj.
    pose proof (Z.mod_pos_bound j 8 ltac:(lia)).
    pose proof (Z.div_mod j 8 ltac:(lia)). lia. }
  rewrite u16_small by lia.
  unfold _bitset. rewrite Hq, Hr. unfold array_get.
  assert (H0 : 0 <= j / 8) by (apply Z.div_pos; lia).
  destruct (j / 8 <? 0) eqn:E; [apply Z.ltb_lt in E; lia |].
  rewrite Hb. cbn [obind].
  rewrite land_pow2_testbit; [reflexivity |].
  pose proof (Z.mod_pos_bound j 8 ltac:(lia)). lia.
Qed.

(** X21.  [findPixel] returns the first index at or after the start whose
    pixel has the state asked for, when there is one in the buffer.
    Pixel [j] is bit [7 - j mod 8] of byte [j / 8].  If the pixels from
    [i] to [i + k - 1] have the other state and pixel [i + k] has the
    state asked for, all of them inside the written part of the buffer,
    then [findPixel] returns [i + k] and changes nothing. *)
Theorem findPixel_returns_the_first_match
    (fuel : nat) (s : Storage) (st : bool) (i : Z) (k : nat) :
  (k < fuel)%nat -> 0 <= i -> i + Z.of_nat k < 32768 ->
  (forall j, i <= j <= i + Z.of_nat k ->
             exists b,
               nth_error (data (bitmap s)) (Z.to_nat (j / 8)) = Some (Some b) /\
               Z.testbit b (7 - j mod 8) = if j =? i + Z.of_nat k then st else negb st) ->
  findPixel fuel st i s = Done (i + Z.of_nat k, s).
Proof.
  intros Hfuel Hi Hik Hpix.
  unfold findPixel, bind, get, lift, ret.
  rewrite (findPixel_loop_finds_first (data (bitmap s)) st k fuel i Hfuel Hi Hik).
  - rewrite u16_small by lia. reflexivity.
  - intros m Hm. destruct (Hpix (i + m) ltac:(lia)) as (b & Hb & Hbit).
    rewrite (bitset_translate_pixel _ _ b) by (lia || exact Hb).
    replace (i + m =? i + Z.of_nat k) with false in Hbit
      by (symmetry; apply Z.eqb_neq; lia).
    rewrite Hbit. reflexivity.
  - destruct (Hpix (i + Z.of_nat k) ltac:(lia)) as (b & Hb & Hbit).
    rewrite (bitset_translate_pixel _ _ b) by (lia || exact Hb).
    rewrite Z.eqb_refl in Hbit. rewrite Hbit. reflexivity.
Qed.

Lemma findPixel_returns_the_first_match_witness :
  let s := set_bitmap {| width := 16; height := 1; type := file_error;
                         data := [Some 0; Some 28; None] |} (fresh_store ∅) in
  (11 < 16)%nat /\ 0 <= 0 /\ 0 + Z.of_nat 11 < 32768 /\
  (forall j, 0 <= j <= 0 + Z.of_nat 11 ->
             exists b,
               nth_error (data (bitmap s)) (Z.to_nat (j / 8)) = Some (Some b) /\
               Z.testbit b (7 - j mod 8) = if j =? 0 + Z.of_nat 11 then true else negb true) /\
  findPixel 16 true 0 s = Done (0 + Z.of_nat 11, s).
Proof.
  intros s.
  assert (H1 : (11 < 16)%nat) by lia.
  assert (H2 : 0 <= 0) by lia.
  assert (H3 : 0 + Z.of_nat 11 < 32768) by (cbn; lia).
  assert (H4 : forall j, 0 <= j <= 0 + Z.of_nat 11 ->
             exists b,
               nth_error (data (bitmap s)) (Z.to_nat (j / 8)) = Some (Some b) /\
               Z.testbit b (7 - j mod 8) = if j =? 0 + Z.of_nat 11 then true else negb true).
  { intros j Hj. change (0 + Z.of_nat 11) with 11 in *.
    assert (Hcases : j = 0 \/ j = 1 \/ j = 2 \/ j = 3 \/ j = 4 \/ j = 5 \/ j = 6 \/ j = 7
                     \/ j = 8 \/ j = 9 \/ j = 10 \/ j = 11) by lia.
    repeat (destruct Hcases as [-> | Hcases]; [eexists; split; reflexivity |]).
    subst j. eexists. split; reflexivity. }
  split; [exact H1 |]. split; [exact H2 |]. split; [exact H3 |]. split; [exact H4 |].
  exact (findPixel_returns_the_first_match 16 s true 0 11 H1 H2 H3 H4).
Defined.

Lemma land_248 (x : Z) : 0 <= x < 256 -> Z.land x 248 = 8 * (x / 8).
Proof.
  intros H.
  assert (Hall : forallb (fun x => Z.land x 248 =? 8 * (x / 8)) (map Z.of_nat (seq 0 256)) = true)
    by (vm_compute; reflexivity).
  rewrite forallb_forall in Hall.
  apply Z.eqb_eq. apply Hall. apply in_map_iff. exists (Z.to_nat x).
  split; [lia |]. apply in_seq. lia.
Qed.

Lemma land_252 (x : Z) : 0 <= x < 256 -> Z.land x 252 = 4 * (x / 4).
Proof.
  intros H.
  assert (Hall : forallb (fun x => Z.land x 252 =? 4 * (x / 4)) (map Z.of_nat (seq 0 256)) = true)
    by (vm_compute; reflexivity).
  rewrite forallb_forall in Hall.
  apply Z.eqb_eq. apply Hall. apply in_map_iff. exists (Z.to_nat x).
  split; [lia |]. apply in_seq. lia.
Qed.

Lemma lor_disjoint_sum (a b n : Z) :
  0 <= n -> 0 <= b < 2 ^ n -> 0 <= a ->
  Z.lor (a * 2 ^ n) b = a * 2 ^ n + b.
Proof.
  intros Hn Hb Ha.
  rewrite <- Z.lxor_lor, <- Z.add_nocarry_lxor; try reflexivity.
  - apply Z.bits_inj'. intros m Hm. rewrite Z.land_spec, Z.bits_0.
    destruct (Z_lt_le_dec m n) as [Hlt | Hge].
    + rewrite Z.mul_pow2_bits_low by lia. reflexivity.
    + destruct (Z.eq_dec b 0) as [-> | Hb0]; [rewrite Z.bits_0; apply andb_false_r |].
      rewrite (Z.bits_above_log2 b m); [apply andb_false_r | lia |].
      apply Z.lt_le_trans with n; [| exact Hge].
      apply Z.log2_lt_pow2; lia.
  - apply Z.bits_inj'. intros m Hm. rewrite Z.land_spec, Z.bits_0.
    destruct (Z_lt_le_dec m n) as [Hlt | Hge].
    + rewrite Z.mul_pow2_bits_low by lia. reflexivity.
    + destruct (Z.eq_dec b 0) as [-> | Hb0]; [rewrite Z.bits_0; apply andb_false_r |].
      rewrite (Z.bits_above_log2 b m); [apply andb_false_r | lia |].
      apply Z.lt_le_trans with n; [| exact Hge].
      apply Z.log2_lt_pow2; lia.
Qed.

Lemma RGB565_value (red green blue : Z) :
  0 <= red < 256 -> 0 <= green < 256 -> 0 <= blue < 256 ->
  _RGB888ToRGB565 red green blue = 2048 * (red / 8) + 32 * (green / 4) + blue / 8.
Proof.
  intros Hr Hg Hb. unfold _RGB888ToRGB565.
  rewrite (land_248 red Hr), (land_252 green Hg), (land_248 blue Hb).
  rewrite !Z.shiftl_mul_pow2 by lia. rewrite Z.shiftr_div_pow2 by lia.
  assert (H5r : 0 <= red / 8 < 32)
    by (split; [apply Z.div_pos; lia | apply Z.div_lt_upper_bound; lia]).
  assert (H6g : 0 <= green / 4 < 64)
    by (split; [apply Z.div_pos; lia | apply Z.div_lt_upper_bound; lia]).
  assert (H5b : 0 <= blue / 8 < 32)
    by (split; [apply Z.div_pos; lia | apply Z.div_lt_upper_bound; lia]).
  replace (8 * (blue / 8) / 2 ^ 3) with (blue / 8)
    by (change (2 ^ 3) with 8; rewrite Z.mul_comm, Z.div_mul by lia; reflexivity).
  replace (8 * (red / 8) * 2 ^ 8) with ((red / 8 * 64) * 2 ^ 5) by (cbn; lia).
  replace (4 * (green / 4) * 2 ^ 3) with ((green / 4) * 2 ^ 5) by (cbn; lia).
  replace (Z.lor (red / 8 * 64 * 2 ^ 5) (green / 4 * 2 ^ 5))
    with ((red / 8 * 64 + green / 4) * 2 ^ 5).
  2:{ replace (red / 8 * 64 * 2 ^ 5) with ((red / 8 * 2 ^ 5) * 2 ^ 6) by (cbn; lia).
      replace (green / 4 * 2 ^ 5) with (Z.shiftl (green / 4) 5)
        by (rewrite Z.shiftl_mul_pow2 by lia; reflexivity).
      replace (red / 8 * 2 ^ 5 * 2 ^ 6) with (Z.shiftl (red / 8 * 2 ^ 6) 5)
        by (rewrite Z.shiftl_mul_pow2 by lia; cbn; lia).
      rewrite <- Z.shiftl_lor. rewrite Z.shiftl_mul_pow2 by lia.
      rewrite lor_disjoint_sum by (cbn; lia). cbn. lia. }
  rewrite lor_disjoint_sum by (cbn; lia).
  rewrite u16_small by (cbn; lia). cbn. lia.
Qed.

(** X22.  [_RGB888ToRGB565] packs the five high bits of red, the six high
    bits of green and the five high bits of blue, in that order from bit
    15 down.  For three byte values the result is
    [2048 * (red / 8) + 32 * (green / 4) + blue / 8], so each field can
    be read back from it, and two colours give the same result exactly
    when they agree on those high bits. *)
Theorem RGB888ToRGB565_packs_the_high_bits (red green blue : Z) :
  0 <= red < 256 -> 0 <= green < 256 -> 0 <= blue < 256 ->
  let v := _RGB888ToRGB565 red green blue in
  0 <= v < 65536 /\
  v = 2048 * (red / 8) + 32 * (green / 4) + blue / 8 /\
  v / 2048 = red / 8 /\ (v / 32) mod 64 = green / 4 /\ v mod 32 = blue / 8 /\
  forall red' green' blue',
    0 <= red' < 256 -> 0 <= green' < 256 -> 0 <= blue' < 256 ->
    (_RGB888ToRGB565 red' green' blue' = v <->
     red' / 8 = red / 8 /\ green' / 4 = green / 4 /\ blue' / 8 = blue / 8).
Proof.
  intros Hr Hg Hb v.
  assert (Hv : v = 2048 * (red / 8) + 32 * (green / 4) + blue / 8)
    by (apply RGB565_value; assumption).
  assert (H5r : 0 <= red / 8 < 32)
    by (split; [apply Z.div_pos; lia | apply Z.div_lt_upper_bound; lia]).
  assert (H6g : 0 <= green / 4 < 64)
    by (split; [apply Z.div_pos; lia | apply Z.div_lt_upper_bound; lia]).
  assert (H5b : 0 <= blue / 8 < 32)
    by (split; [apply Z.div_pos; lia | apply Z.div_lt_upper_bound; lia]).
  split; [lia |]. split; [exact Hv |].
  assert (Hf1 : v / 2048 = red / 8).
  { rewrite Hv. symmetry. apply (Z.div_unique _ 2048 _ (32 * (green / 4) + blue / 8)); lia. }
  assert (Hf3 : v mod 32 = blue / 8).
  { rewrite Hv. symmetry.
    apply (Z.mod_unique _ 32 (64 * (red / 8) + green / 4)); lia. }
  assert (Hf2 : (v / 32) mod 64 = green / 4).
  { assert (Hq : v / 32 = 64 * (red / 8) + green / 4).
    { rewrite Hv. symmetry. apply (Z.div_unique _ 32 _ (blue / 8)); lia. }
    rewrite Hq. symmetry. apply (Z.mod_unique _ 64 (red / 8)); lia. }
  split; [exact Hf1 |]. split; [exact Hf2 |]. split; [exact Hf3 |].
  intros red' green' blue' Hr' Hg' Hb'.
  rewrite (RGB565_value red' green' blue' Hr' Hg' Hb'), Hv.
  assert (H5r' : 0 <= red' / 8 < 32)
    by (split; [apply Z.div_pos; lia | apply Z.div_lt_upper_bound; lia]).
  assert (H6g' : 0 <= green' / 4 < 64)
    by (split; [apply Z.div_pos; lia | apply Z.div_lt_upper_bound; lia]).
  assert (H5b' : 0 <= blue' / 8 < 32)
    by (split; [apply Z.div_pos; lia | apply Z.div_lt_upper_bound; lia]).
  split; [lia | intros (-> & -> & ->); reflexivity].
Qed.

Lemma RGB888ToRGB565_packs_the_high_bits_witness :
  0 <= 255 < 256 /\ 0 <= 0 < 256 /\ 0 <= 0 < 256 /\
  0 <= _RGB888ToRGB565 255 0 0 < 65536 /\
  _RGB888ToRGB565 255 0 0 = 2048 * (255 / 8) + 32 * (0 / 4) + 0 / 8 /\
  _RGB888ToRGB565 255 0 0 / 2048 = 255 / 8 /\
  (_RGB888ToRGB565 255 0 0 / 32) mod 64 = 0 / 4 /\
  _RGB888ToRGB565 255 0 0 mod 32 = 0 / 8 /\
  forall red' green' blue',
    0 <= red' < 256 -> 0 <= green' < 256 -> 0 <= blue' < 256 ->
    (_RGB888ToRGB565 red' green' blue' = _RGB888ToRGB565 255 0 0 <->
     red' / 8 = 255 / 8 /\ green' / 4 = 0 / 4 /\ blue' / 8 = 0 / 8).
Proof.
  assert (H1 : 0 <= 255 < 256) by lia.
  assert (H2 : 0 <= 0 < 256) by lia.
  split; [exact H1 |]. split; [exact H2 |]. split; [exact H2 |].
  exact (RGB888ToRGB565_packs_the_high_bits 255 0 0 H1 H2 H2).
Defined.

(** ** The mapping file: what the parser needs, and the round trip *)

(** The handle of [s] is on a file that holds [c], with the cursor at
    [pos]. *)
Local Abbreviation reading c pos s :=
  (exists h, file s = Some h /\ h_pos h = pos /\ sd s !! h_path h = Some (EFile c)).

Lemma ascii_of_byte_eqb (b : Z) (n : N) :
  0 <= b < 256 -> (n < 256)%N -> b <> Z.of_N n ->
  Ascii.eqb (ascii_of_byte b) (ascii_of_N n) = false.
Proof.
  intros Hb Hn Hne. apply Ascii.eqb_neq. intros E.
  apply (f_equal N_of_ascii) in E. unfold ascii_of_byte in E.
  rewrite !N_ascii_embedding in E.
  - apply Hne. unfold u8 in E. rewrite Z.mod_small in E by lia. lia.
  - exact Hn.
  - unfold u8. rewrite Z.mod_small by lia. lia.
Qed.

Lemma file_read_reading (s : Storage) (c : list Z) (pos : Z) :
  reading c pos s -> 0 <= pos ->
  exists b s1,
    file_read s = Done (b, s1) /\
    mappinglist s1 = mappinglist s /\
    ((pos < Z.of_nat (length c) /\ In b c /\ reading c (pos + 1) s1) \/
     (Z.of_nat (length c) <= pos /\ b = -1 /\ s1 = s)).
Proof.
  intros (h & Hf & Hp & Hl) Hpos.
  unfold file_read. unfold bind at 1. unfold get at 1.
  unfold handle_content. rewrite Hf, Hl.
  destruct (nth_error c (Z.to_nat (h_pos h))) as [b |] eqn:E.
  - exists b. eexists. split; [reflexivity |]. split; [reflexivity |]. left.
    assert (Hlt : (Z.to_nat (h_pos h) < length c)%nat)
      by (apply nth_error_Some; rewrite E; discriminate).
    split; [lia |]. split; [apply nth_error_In with (Z.to_nat (h_pos h)); exact E |].
    eexists. split; [reflexivity |]. cbn [h_pos h_path]. split; [lia | exact Hl].
  - exists (-1), s. split; [reflexivity |]. split; [reflexivity |]. right.
    apply nth_error_None in E. split; [lia |]. split; reflexivity.
Qed.

Lemma store_field_frame (i : Z) (cap : nat) (upd : string -> Mapping -> Mapping)
    (src : string) (s s1 : Storage) (u : unit) :
  store_field i cap upd src s = Done (u, s1) -> sd s1 = sd s /\ file s1 = file s.
Proof.
  unfold store_field. unfold bind at 1. unfold get at 1.
  destruct (nth_error (map_list (mappinglist s)) (Z.to_nat i)); [| discriminate].
  unfold bind, lift, modify. destruct (strcpy_into cap src); try discriminate.
  intros H. injection H as _ <-. split; reflexivity.
Qed.

Lemma parse_separator_frame (ch : ascii) (l l1 : parse_locals) (s s1 : Storage) :
  parse_separator ch l s = Done (l1, s1) -> sd s1 = sd s /\ file s1 = file s.
Proof.
  unfold parse_separator.
  destruct (Ascii.eqb ch "," && negb (comma1_reached l) && negb (comma2_reached l));
    [| destruct (Ascii.eqb ch "," && comma1_reached l && negb (comma2_reached l));
       [| destruct (Ascii.eqb ch "010")]].
  - unfold bind at 1. unfold lift at 1. destruct (char_set _ _ _); try discriminate.
    unfold bind at 1. unfold lift at 1. destruct (c_str _); try discriminate.
    unfold bind at 1. destruct (store_field _ _ _ _ s) as [[u s2] | |] eqn:E; try discriminate.
    intros H. injection H as _ <-. exact (store_field_frame _ _ _ _ _ _ _ E).
  - unfold bind at 1. unfold lift at 1. destruct (char_set _ _ _); try discriminate.
    unfold bind at 1. unfold lift at 1. destruct (c_str _); try discriminate.
    unfold bind at 1. destruct (store_field _ _ _ _ s) as [[u s2] | |] eqn:E; try discriminate.
    intros H. injection H as _ <-. exact (store_field_frame _ _ _ _ _ _ _ E).
  - unfold bind at 1. unfold lift at 1. destruct (char_set _ _ _); try discriminate.
    unfold bind at 1. unfold lift at 1. destruct (c_str _); try discriminate.
    unfold bind at 1. destruct (store_field _ _ _ _ s) as [[u s2] | |] eqn:E; try discriminate.
    unfold bind at 1. unfold lift at 1. destruct (c_str _); try discriminate.
    intros H. injection H as _ <-. exact (store_field_frame _ _ _ _ _ _ _ E).
  - intros H. injection H as _ <-. split; reflexivity.
Qed.

Lemma parse_store_frame (ch : ascii) (l l1 : parse_locals) (s s1 : Storage) :
  parse_store ch l s = Done (l1, s1) -> s1 = s.
Proof.
  unfold parse_store.
  destruct (negb (comma1_reached l) && negb (comma2_reached l) && negb (Ascii.eqb ch "010"));
    [| destruct (comma1_reached l && negb (comma2_reached l) && negb (Ascii.eqb ch ","));
       [| destruct (comma1_reached l && comma2_reached l && negb (Ascii.eqb ch ","))]];
    unfold bind, lift, ret; try (destruct (char_set _ _ _); try discriminate);
    intros H; injection H as _ <-; reflexivity.
Qed.

Lemma reading_frame (c : list Z) (pos : Z) (s s1 : Storage) :
  sd s1 = sd s -> file s1 = file s -> reading c pos s -> reading c pos s1.
Proof.
  intros Hsd Hf (h & H1 & H2 & H3). exists h. rewrite Hsd, Hf. auto.
Qed.

(** Without the terminator among the bytes of the file the loop of the
    parser is never left. *)
Lemma parse_loop_never_returns (c : list Z) :
  Forall (fun b => 0 <= b < 256 /\ b <> 36) c ->
  forall (n : nat) (l : parse_locals) (s : Storage) (pos : Z) r,
    reading c pos s -> 0 <= pos -> parse_loop n l s <> Done r.
Proof.
  intros Hc. induction n as [| n IH]; intros l s pos r Hr Hpos; [discriminate |].
  cbn [parse_loop].
  destruct (file_read_reading s c pos Hr Hpos) as (b & s1 & Hread & _ & Hcase).
  erewrite bind_done by exact Hread. cbv zeta.
  assert (Hb : Ascii.eqb (ascii_of_byte b) "$" = false /\ exists pos', reading c pos' s1 /\ 0 <= pos').
  { destruct Hcase as [(_ & Hin & Hr1) | (_ & -> & ->)].
    - rewrite List.Forall_forall in Hc. destruct (Hc b Hin) as [Hrange Hne].
      split; [apply (ascii_of_byte_eqb b 36); [exact Hrange | reflexivity | exact Hne] |].
      exists (pos + 1). split; [exact Hr1 | lia].
    - split; [reflexivity |]. exists pos. split; [exact Hr | exact Hpos]. }
  destruct Hb as (Hno & pos' & Hr1 & Hpos'). rewrite Hno.
  unfold bind at 1.
  destruct (parse_separator (ascii_of_byte b) l s1) as [[l1 s2] | |] eqn:Hsep; try discriminate.
  destruct (parse_separator_frame _ _ _ _ _ Hsep) as [Hsd2 Hf2].
  unfold bind at 1.
  destruct (parse_store (ascii_of_byte b) l1 s2) as [[l2 s3] | |] eqn:Hst; try discriminate.
  pose proof (parse_store_frame _ _ _ _ _ Hst) as ->.
  apply (IH l2 s2 pos' r); [| exact Hpos'].
  apply (reading_frame c pos' s1 s2 Hsd2 Hf2 Hr1).
Qed.

(** What the loop keeps of its locals: the second comma is not seen
    before the first, the index is not negative, and the three arrays
    have their declared lengths. *)
Local Abbreviation locals_ok l :=
  ((comma2_reached l = true -> comma1_reached l = true) /\ 0 <= ctr l /\
   length (floor_no l) = 3%nat /\ length (bmp_name l) = 20%nat /\
   length (bmp_name2 l) = 20%nat).

Lemma char_set_length (a a' : list ascii) (i : Z) (ch : ascii) :
  char_set a i ch = Done a' -> length a' = length a /\ 0 <= i < Z.of_nat (length a).
Proof.
  unfold char_set.
  destruct ((0 <=? i) && (i <? Z.of_nat (length a))) eqn:E; [| discriminate].
  intros H. injection H as <-. rewrite list_set_length. split; [reflexivity | lia].
Qed.

Lemma parse_separator_ok (ch : ascii) (l l1 : parse_locals) (s s1 : Storage) :
  locals_ok l -> parse_separator ch l s = Done (l1, s1) -> locals_ok l1.
Proof.
  intros (Hfl & Hctr & H3 & H20 & H20') H. unfold parse_separator in H.
  destruct (Ascii.eqb ch "," && negb (comma1_reached l) && negb (comma2_reached l)) eqn:E1;
    [| destruct (Ascii.eqb ch "," && comma1_reached l && negb (comma2_reached l)) eqn:E2;
       [| destruct (Ascii.eqb ch "010") eqn:E3]].
  - unfold bind at 1 in H. unfold lift at 1 in H.
    destruct (char_set _ _ _) as [a | |] eqn:Ea; try discriminate.
    unfold bind at 1 in H. unfold lift at 1 in H. destruct (c_str _); try discriminate.
    unfold bind at 1 in H. destruct (store_field _ _ _ _ s) as [[u s2] | |]; try discriminate.
    injection H as <- _. cbn [comma1_reached comma2_reached ctr floor_no bmp_name bmp_name2].
    destruct (char_set_length _ _ _ _ Ea) as [Hl _].
    repeat split; try lia; try assumption; auto.
  - unfold bind at 1 in H. unfold lift at 1 in H.
    destruct (char_set _ _ _) as [a | |] eqn:Ea; try discriminate.
    unfold bind at 1 in H. unfold lift at 1 in H. destruct (c_str _); try discriminate.
    unfold bind at 1 in H. destruct (store_field _ _ _ _ s) as [[u s2] | |]; try discriminate.
    injection H as <- _. cbn [comma1_reached comma2_reached ctr floor_no bmp_name bmp_name2].
    destruct (char_set_length _ _ _ _ Ea) as [Hl _].
    apply andb_true_iff in E2. destruct E2 as [E2 _].
    apply andb_true_iff in E2. destruct E2 as [_ E2].
    repeat split; try lia; try assumption; auto.
  - unfold bind at 1 in H. unfold lift at 1 in H.
    destruct (char_set _ _ _) as [a | |] eqn:Ea; try discriminate.
    unfold bind at 1 in H. unfold lift at 1 in H. destruct (c_str _); try discriminate.
    unfold bind at 1 in H. destruct (store_field _ _ _ _ s) as [[u s2] | |]; try discriminate.
    unfold bind at 1 in H. unfold lift at 1 in H. destruct (c_str _); try discriminate.
    injection H as <- _. cbn [comma1_reached comma2_reached ctr floor_no bmp_name bmp_name2].
    destruct (char_set_length _ _ _ _ Ea) as [Hl _].
    repeat split; try lia; try assumption; try discriminate.
  - injection H as <- _. repeat split; assumption.
Qed.

Lemma parse_store_ok (ch : ascii) (l l1 : parse_locals) (s s1 : Storage) :
  locals_ok l -> parse_store ch l s = Done (l1, s1) ->
  locals_ok l1 /\ comma1_reached l1 = comma1_reached l /\
  comma2_reached l1 = comma2_reached l /\ ctr l <= ctr l1.
Proof.
  intros (Hfl & Hctr & H3 & H20 & H20') H. unfold parse_store in H.
  destruct (negb (comma1_reached l) && negb (comma2_reached l) && negb (Ascii.eqb ch "010"));
    [| destruct (comma1_reached l && negb (comma2_reached l) && negb (Ascii.eqb ch ","));
       [| destruct (comma1_reached l && comma2_reached l && negb (Ascii.eqb ch ","))]];
    unfold bind, lift, ret in H;
    try (destruct (char_set _ _ _) as [a | |] eqn:Ea; try discriminate;
         destruct (char_set_length _ _ _ _ Ea) as [Hl Hi]);
    injection H as <- _;
    cbn [comma1_reached comma2_reached ctr floor_no bmp_name bmp_name2];
    try rewrite (u32_small (ctr l + 1)) by lia;
    repeat split; try lia; try assumption.
Qed.

Lemma parse_separator_has_no_loop (ch : ascii) (l : parse_locals) (s : Storage) :
  parse_separator ch l s <> OutOfFuel.
Proof.
  unfold parse_separator, store_field.
  destruct (Ascii.eqb ch "," && negb (comma1_reached l) && negb (comma2_reached l));
    [| destruct (Ascii.eqb ch "," && comma1_reached l && negb (comma2_reached l));
       [| destruct (Ascii.eqb ch "010")]];
    unfold bind, lift, ret, get, modify, char_set, strcpy_into;
    repeat match goal with
           | |- context [if ?b then _ else _] => destruct b
           | |- context [match c_str ?a with _ => _ end] =>
               let E := fresh in
               destruct (c_str a) eqn:E;
               [| | exfalso; clear -E;
                    match type of E with c_str ?x = _ => induction x as [| ? ? IH] end;
                    [discriminate |
                     cbn in E; destruct (Ascii.eqb _ NUL); [discriminate |];
                     destruct (c_str _); try discriminate; apply IH; reflexivity]]
           | |- context [match nth_error ?t ?k with _ => _ end] => destruct (nth_error t k)
           end;
    discriminate.
Qed.

Lemma parse_store_has_no_loop (ch : ascii) (l : parse_locals) (s : Storage) :
  parse_store ch l s <> OutOfFuel.
Proof.
  unfold parse_store.
  destruct (negb (comma1_reached l) && negb (comma2_reached l) && negb (Ascii.eqb ch "010"));
    [| destruct (comma1_reached l && negb (comma2_reached l) && negb (Ascii.eqb ch ","));
       [| destruct (comma1_reached l && comma2_reached l && negb (Ascii.eqb ch ","))]];
    unfold bind, lift, ret, char_set;
    repeat match goal with
           | |- context [if ?b then _ else _] => destruct b
           end;
    discriminate.
Qed.

(** A character array that holds a NUL reads as a string. *)
Lemma c_str_with_nul (a : list ascii) :
  forall k, nth_error a k = Some NUL -> exists r, c_str a = Done r.
Proof.
  induction a as [| ch a IH]; intros [| k] H; cbn in H; try discriminate.
  - injection H as ->. exists EmptyString. reflexivity.
  - cbn [c_str]. destruct (Ascii.eqb ch NUL); [eexists; reflexivity |].
    destruct (IH k H) as [r Hr]. rewrite Hr. eexists. reflexivity.
Qed.

Lemma c_str_after_char_set (a a' : list ascii) (i : Z) :
  char_set a i NUL = Done a' -> exists r, c_str a' = Done r.
Proof.
  unfold char_set.
  destruct ((0 <=? i) && (i <? Z.of_nat (length a))) eqn:E; [| discriminate].
  intros H. injection H as <-. apply andb_true_iff in E. destruct E as [E0 E1].
  apply Z.leb_le in E0. apply Z.ltb_lt in E1.
  apply (c_str_with_nul _ (Z.to_nat i)). apply nth_error_list_set_eq. lia.
Qed.

Lemma char_set_fault (a : list ascii) (i : Z) (ch : ascii) (f : fault) :
  char_set a i ch = Undefined f -> f = WritePastEnd i.
Proof.
  unfold char_set. destruct ((0 <=? i) && (i <? Z.of_nat (length a))); [discriminate |].
  intros H. injection H as <-. reflexivity.
Qed.

Lemma store_field_fault (i : Z) (cap : nat) (upd : string -> Mapping -> Mapping)
    (src : string) (s : Storage) (f : fault) :
  store_field i cap upd src s = Undefined f -> exists j, f = WritePastEnd j.
Proof.
  unfold store_field. unfold bind at 1. unfold get at 1.
  destruct (nth_error (map_list (mappinglist s)) (Z.to_nat i)).
  - unfold bind, lift, modify, strcpy_into.
    destruct (String.length src <? cap)%nat; [discriminate |].
    intros H. injection H as <-. eexists. reflexivity.
  - unfold lift. intros H. injection H as <-. eexists. reflexivity.
Qed.

(** The last cell of [bmp_name] holds the NUL of its initialiser until
    the first bitmap name fills the array. *)
Local Abbreviation nul_kept l :=
  (nth_error (bmp_name l) 19 = Some NUL \/
   (comma1_reached l = true /\ comma2_reached l = false /\ ctr l = 20)).

Lemma parse_separator_keeps_nul (ch : ascii) (l l1 : parse_locals) (s s1 : Storage) :
  locals_ok l -> nul_kept l -> parse_separator ch l s = Done (l1, s1) -> nul_kept l1.
Proof.
  intros (Hfl & Hctr & H3 & H20 & H20') Hk H. unfold parse_separator in H.
  destruct (Ascii.eqb ch "," && negb (comma1_reached l) && negb (comma2_reached l)) eqn:E1;
    [| destruct (Ascii.eqb ch "," && comma1_reached l && negb (comma2_reached l)) eqn:E2;
       [| destruct (Ascii.eqb ch "010") eqn:E3]].
  - unfold bind at 1 in H. unfold lift at 1 in H.
    destruct (char_set _ _ _) as [a | |] eqn:Ea; try discriminate.
    unfold bind at 1 in H. unfold lift at 1 in H. destruct (c_str _); try discriminate.
    unfold bind at 1 in H. destruct (store_field _ _ _ _ s) as [[u s2] | |]; try discriminate.
    injection H as <- _. cbn [comma1_reached comma2_reached ctr bmp_name].
    left. destruct Hk as [Hk | (Hc1 & _)]; [exact Hk |].
    rewrite Hc1 in E1. rewrite andb_false_r in E1. discriminate.
  - unfold bind at 1 in H. unfold lift at 1 in H.
    destruct (char_set _ _ _) as [a | |] eqn:Ea; try discriminate.
    unfold bind at 1 in H. unfold lift at 1 in H. destruct (c_str _); try discriminate.
    unfold bind at 1 in H. destruct (store_field _ _ _ _ s) as [[u s2] | |]; try discriminate.
    injection H as <- _. cbn [comma1_reached comma2_reached ctr bmp_name].
    left. destruct (char_set_length _ _ _ _ Ea) as [_ Hi].
    destruct Hk as [Hk | (_ & _ & Hc)]; [| lia].
    unfold char_set in Ea.
    destruct ((0 <=? ctr l) && (ctr l <? Z.of_nat (length (bmp_name l)))); [| discriminate].
    injection Ea as <-.
    destruct (Nat.eq_dec (Z.to_nat (ctr l)) 19%nat) as [E | E].
    + rewrite E. apply nth_error_list_set_eq. lia.
    + rewrite nth_error_list_set_ne by exact E. exact Hk.
  - unfold bind at 1 in H. unfold lift at 1 in H.
    destruct (char_set _ _ _) as [a | |] eqn:Ea; try discriminate.
    unfold bind at 1 in H. unfold lift at 1 in H. destruct (c_str _); try discriminate.
    unfold bind at 1 in H. destruct (store_field _ _ _ _ s) as [[u s2] | |]; try discriminate.
    unfold bind at 1 in H. unfold lift at 1 in H. destruct (c_str _); try discriminate.
    injection H as <- _. cbn [comma1_reached comma2_reached ctr bmp_name].
    left. destruct (char_set_length _ _ _ _ Ea) as [_ Hi].
    destruct Hk as [Hk | (_ & _ & Hc)]; [exact Hk | lia].
  - injection H as <- _. exact Hk.
Qed.

Lemma parse_store_keeps_nul (ch : ascii) (l l1 : parse_locals) (s s1 : Storage) :
  locals_ok l -> nul_kept l -> parse_store ch l s = Done (l1, s1) -> nul_kept l1.
Proof.
  intros (Hfl & Hctr & H3 & H20 & H20') Hk H. unfold parse_store in H.
  destruct (negb (comma1_reached l) && negb (comma2_reached l) && negb (Ascii.eqb ch "010"))
    eqn:E1;
    [| destruct (comma1_reached l && negb (comma2_reached l) && negb (Ascii.eqb ch ","))
         eqn:E2;
       [| destruct (comma1_reached l && comma2_reached l && negb (Ascii.eqb ch ","))
            eqn:E3]].
  - unfold bind, lift, ret in H.
    destruct (char_set _ _ _) as [a | |] eqn:Ea; try discriminate.
    injection H as <- _. cbn [comma1_reached comma2_reached ctr bmp_name].
    left. destruct Hk as [Hk | (Hc1 & _)]; [exact Hk |].
    rewrite Hc1 in E1. discriminate.
  - unfold bind, lift, ret in H.
    destruct (char_set _ _ _) as [a | |] eqn:Ea; try discriminate.
    injection H as <- _. cbn [comma1_reached comma2_reached ctr bmp_name].
    destruct (char_set_length _ _ _ _ Ea) as [_ Hi].
    apply andb_true_iff in E2. destruct E2 as [E2 _].
    apply andb_true_iff in E2. destruct E2 as [Ec1 Ec2].
    apply negb_true_iff in Ec2.
    rewrite u32_small by lia.
    destruct (Z.eq_dec (ctr l) 19) as [E | E].
    + right. split; [exact Ec1 |]. split; [exact Ec2 | lia].
    + left. destruct Hk as [Hk | (_ & _ & Hc)]; [| lia].
      unfold char_set in Ea.
      destruct ((0 <=? ctr l) && (ctr l <? Z.of_nat (length (bmp_name l)))); [| discriminate].
      injection Ea as <-.
      rewrite nth_error_list_set_ne by lia. exact Hk.
  - unfold bind, lift, ret in H.
    destruct (char_set _ _ _) as [a | |] eqn:Ea; try discriminate.
    injection H as <- _. cbn [comma1_reached comma2_reached ctr bmp_name].
    left. destruct Hk as [Hk | (_ & Hc2 & _)]; [exact Hk |].
    rewrite Hc2 in E3. rewrite andb_false_r in E3. discriminate.
  - injection H as <- _. exact Hk.
Qed.

(** Every fault of the loop body is a write outside an array: one of
    the three character arrays, the table, or a field of an entry. *)
Lemma parse_separator_fault (ch : ascii) (l : parse_locals) (s : Storage) (f : fault) :
  locals_ok l -> nul_kept l ->
  parse_separator ch l s = Undefined f -> exists i, f = WritePastEnd i.
Proof.
  intros (Hfl & Hctr & H3 & H20 & H20') Hk H. unfold parse_separator in H.
  destruct (Ascii.eqb ch "," && negb (comma1_reached l) && negb (comma2_reached l)) eqn:E1;
    [| destruct (Ascii.eqb ch "," && comma1_reached l && negb (comma2_reached l)) eqn:E2;
       [| destruct (Ascii.eqb ch "010") eqn:E3]].
  - unfold bind at 1 in H. unfold lift at 1 in H.
    destruct (char_set _ _ _) as [a | f0 |] eqn:Ea; try discriminate.
    + destruct (c_str_after_char_set _ _ _ Ea) as [r Hr].
      unfold bind at 1 in H. unfold lift at 1 in H. rewrite Hr in H.
      unfold bind at 1 in H.
      destruct (store_field _ _ _ _ s) as [[u s2] | f0 |] eqn:Es; try discriminate.
      injection H as <-. exact (store_field_fault _ _ _ _ _ _ Es).
    + injection H as <-. eexists. exact (char_set_fault _ _ _ _ Ea).
  - unfold bind at 1 in H. unfold lift at 1 in H.
    destruct (char_set _ _ _) as [a | f0 |] eqn:Ea; try discriminate.
    + destruct (c_str_after_char_set _ _ _ Ea) as [r Hr].
      unfold bind at 1 in H. unfold lift at 1 in H. rewrite Hr in H.
      unfold bind at 1 in H.
      destruct (store_field _ _ _ _ s) as [[u s2] | f0 |] eqn:Es; try discriminate.
      injection H as <-. exact (store_field_fault _ _ _ _ _ _ Es).
    + injection H as <-. eexists. exact (char_set_fault _ _ _ _ Ea).
  - unfold bind at 1 in H. unfold lift at 1 in H.
    destruct (char_set _ _ _) as [a | f0 |] eqn:Ea; try discriminate.
    + destruct (c_str_after_char_set _ _ _ Ea) as [r Hr].
      unfold bind at 1 in H. unfold lift at 1 in H. rewrite Hr in H.
      unfold bind at 1 in H.
      destruct (store_field _ _ _ _ s) as [[u s2] | f0 |] eqn:Es; try discriminate.
      * exfalso. destruct (char_set_length _ _ _ _ Ea) as [_ Hi].
        destruct Hk as [Hk | (_ & _ & Hc)]; [| lia].
        destruct (c_str_with_nul _ _ Hk) as [r1 Hr1].
        unfold bind at 1 in H. unfold lift at 1 in H. rewrite Hr1 in H. discriminate.
      * injection H as <-. exact (store_field_fault _ _ _ _ _ _ Es).
    + injection H as <-. eexists. exact (char_set_fault _ _ _ _ Ea).
  - discriminate.
Qed.

Lemma parse_store_fault (ch : ascii) (l : parse_locals) (s : Storage) (f : fault) :
  parse_store ch l s = Undefined f -> exists i, f = WritePastEnd i.
Proof.
  unfold parse_store.
  destruct (negb (comma1_reached l) && negb (comma2_reached l) && negb (Ascii.eqb ch "010"));
    [| destruct (comma1_reached l && negb (comma2_reached l) && negb (Ascii.eqb ch ","));
       [| destruct (comma1_reached l && comma2_reached l && negb (Ascii.eqb ch ","))]];
    unfold bind, lift, ret;
    try (destruct (char_set _ _ _) as [a | f0 |] eqn:Ea; try discriminate;
         intros H; injection H as <-; eexists; exact (char_set_fault _ _ _ _ Ea));
    discriminate.
Qed.

(** One turn of the loop on a character that is not the terminator: the
    turn ends the run with a write outside an array, or the loop goes on
    with locals that are still in order. *)
Lemma parse_loop_turn (n : nat) (l : parse_locals) (s s1 : Storage) (b : Z) :
  locals_ok l -> nul_kept l ->
  file_read s = Done (b, s1) ->
  Ascii.eqb (ascii_of_byte b) "$" = false ->
  (exists i, parse_loop (S n) l s = Undefined (WritePastEnd i)) \/
  (exists l1 l2 s2,
      parse_separator (ascii_of_byte b) l s1 = Done (l1, s2) /\
      parse_store (ascii_of_byte b) l1 s2 = Done (l2, s2) /\
      locals_ok l1 /\ (locals_ok l2 /\ nul_kept l2) /\
      sd s2 = sd s1 /\ file s2 = file s1 /\
      parse_loop (S n) l s = parse_loop n l2 s2).
Proof.
  intros Hok Hnul Hread Hno.
  cbn [parse_loop]. erewrite bind_done by exact Hread. cbv zeta. rewrite Hno.
  unfold bind at 1.
  destruct (parse_separator (ascii_of_byte b) l s1) as [[l1 s2] | f |] eqn:Hsep.
  - unfold bind at 1.
    destruct (parse_store (ascii_of_byte b) l1 s2) as [[l2 s3] | f |] eqn:Hst.
    + right. pose proof (parse_store_frame _ _ _ _ _ Hst) as ->.
      destruct (parse_separator_frame _ _ _ _ _ Hsep) as [Hsd Hf].
      pose proof (parse_separator_ok _ _ _ _ _ Hok Hsep) as Hok1.
      destruct (parse_store_ok _ _ _ _ _ Hok1 Hst) as [Hok2 _].
      pose proof (parse_separator_keeps_nul _ _ _ _ _ Hok Hnul Hsep) as Hnul1.
      pose proof (parse_store_keeps_nul _ _ _ _ _ Hok1 Hnul1 Hst) as Hnul2.
      exists l1, l2, s2.
      split; [reflexivity |]. split; [exact Hst |]. split; [exact Hok1 |].
      split; [split; [exact Hok2 | exact Hnul2] |].
      split; [exact Hsd |]. split; [exact Hf |].
      unfold bind. rewrite Hsep, Hst. reflexivity.
    + left. destruct (parse_store_fault _ _ _ _ Hst) as [i ->]. exists i. reflexivity.
    + exfalso. exact (parse_store_has_no_loop _ _ _ Hst).
  - left. destruct (parse_separator_fault _ _ _ _ Hok Hnul Hsep) as [i ->].
    exists i. reflexivity.
  - exfalso. exact (parse_separator_has_no_loop _ _ _ Hsep).
Qed.

(** Past the end of the file every read gives -1, which is stored as a
    character of the field being read until the array is full. *)
Lemma parse_loop_past_the_end (c : list Z) (s : Storage) (pos : Z) :
  reading c pos s -> Z.of_nat (length c) <= pos ->
  forall (d : nat) (n : nat) (l : parse_locals),
    locals_ok l -> nul_kept l -> 21 - ctr l <= Z.of_nat d -> (d < n)%nat ->
    exists i, parse_loop n l s = Undefined (WritePastEnd i).
Proof.
  intros Hr Heof. induction d as [| d IH]; intros n l Hok Hnul Hd Hn.
  - destruct n as [| n]; [lia |].
    assert (Hread : file_read s = Done (-1, s)).
    { destruct (file_read_reading s c pos Hr ltac:(lia)) as (b & s1 & Hread & _ & Hcase).
      destruct Hcase as [(Hlt & _) | (_ & -> & ->)]; [lia | exact Hread]. }
    destruct (parse_loop_turn n l s s (-1) Hok Hnul Hread eq_refl)
      as [Hund | (l1 & l2 & s2 & Hsep & Hst & Hok1 & (Hok2 & Hnul2) & _ & _ & _)];
      [exact Hund |].
    exfalso.
    assert (Hl1 : l1 = l).
    { unfold parse_separator in Hsep.
      change (Ascii.eqb (ascii_of_byte (-1)) ",") with false in Hsep.
      change (Ascii.eqb (ascii_of_byte (-1)) "010") with false in Hsep.
      cbn [andb] in Hsep. injection Hsep as <- _. reflexivity. }
    subst l1. unfold parse_store in Hst.
    change (Ascii.eqb (ascii_of_byte (-1)) ",") with false in Hst.
    change (Ascii.eqb (ascii_of_byte (-1)) "010") with false in Hst.
    destruct Hok as (Hfl & Hctr & H3 & H20 & H20').
    destruct (comma1_reached l) eqn:E1; destruct (comma2_reached l) eqn:E2;
      cbn [negb andb] in Hst; unfold bind, lift, ret, char_set in Hst;
      try (specialize (Hfl eq_refl); discriminate);
      match type of Hst with
      | context [if ?b then _ else _] =>
          destruct b eqn:Eb; [apply andb_true_iff in Eb; lia | discriminate]
      end.
  - destruct n as [| n]; [lia |].
    assert (Hread : file_read s = Done (-1, s)).
    { destruct (file_read_reading s c pos Hr ltac:(lia)) as (b & s1 & Hread & _ & Hcase).
      destruct Hcase as [(Hlt & _) | (_ & -> & ->)]; [lia | exact Hread]. }
    destruct (parse_loop_turn n l s s (-1) Hok Hnul Hread eq_refl)
      as [Hund | (l1 & l2 & s2 & Hsep & Hst & Hok1 & (Hok2 & Hnul2) & _ & _ & Hgo)];
      [exact Hund |].
    assert (Hl1 : l1 = l).
    { unfold parse_separator in Hsep.
      change (Ascii.eqb (ascii_of_byte (-1)) ",") with false in Hsep.
      change (Ascii.eqb (ascii_of_byte (-1)) "010") with false in Hsep.
      cbn [andb] in Hsep. injection Hsep as <- _. reflexivity. }
    subst l1.
    assert (Hs2 : s2 = s).
    { unfold parse_separator in Hsep.
      change (Ascii.eqb (ascii_of_byte (-1)) ",") with false in Hsep.
      change (Ascii.eqb (ascii_of_byte (-1)) "010") with false in Hsep.
      cbn [andb] in Hsep. injection Hsep as <-. reflexivity. }
    subst s2. rewrite Hgo.
    apply IH; [exact Hok2 | exact Hnul2 | | lia].
    enough (ctr l + 1 <= ctr l2) by lia.
    unfold parse_store in Hst.
    change (Ascii.eqb (ascii_of_byte (-1)) ",") with false in Hst.
    change (Ascii.eqb (ascii_of_byte (-1)) "010") with false in Hst.
    destruct Hok as (Hfl & Hctr & H3 & H20 & H20').
    destruct (comma1_reached l) eqn:E1; destruct (comma2_reached l) eqn:E2;
      cbn [negb andb] in Hst; unfold bind, lift, ret, char_set in Hst;
      try (specialize (Hfl eq_refl); discriminate);
      match type of Hst with
      | context [if ?b then _ else _] =>
          destruct b eqn:Eb; [| discriminate];
          apply andb_true_iff in Eb; injection Hst as <-; cbn [ctr];
          rewrite u32_small by lia; lia
      end.
Qed.

(** With a bound that covers the file and the longest array, the run of
    the loop on a file without terminator ends with a write outside an
    array. *)
Lemma parse_loop_overruns (c : list Z) :
  Forall (fun b => 0 <= b < 256 /\ b <> 36) c ->
  forall (r : nat) (n : nat) (l : parse_locals) (s : Storage) (pos : Z),
    reading c pos s -> 0 <= pos -> locals_ok l -> nul_kept l ->
    Z.of_nat (length c) - pos <= Z.of_nat r -> (r + 21 < n)%nat ->
    exists i, parse_loop n l s = Undefined (WritePastEnd i).
Proof.
  intros Hc. induction r as [| r IH]; intros n l s pos Hr Hpos Hok Hnul Hrem Hn.
  - apply (parse_loop_past_the_end c s pos Hr ltac:(lia) 21 n l Hok Hnul); [| lia].
    destruct Hok as (_ & Hctr & _). lia.
  - destruct (Z_le_gt_dec (Z.of_nat (length c)) pos) as [Heof | Hmore].
    { apply (parse_loop_past_the_end c s pos Hr Heof 21 n l Hok Hnul); [| lia].
      destruct Hok as (_ & Hctr & _). lia. }
    destruct n as [| n]; [lia |].
    destruct (file_read_reading s c pos Hr Hpos) as (b & s1 & Hread & _ & Hcase).
    destruct Hcase as [(_ & Hin & Hr1) | (Hge & _)]; [| lia].
    rewrite List.Forall_forall in Hc. destruct (Hc b Hin) as [Hrange Hne].
    assert (Hno : Ascii.eqb (ascii_of_byte b) "$" = false)
      by (apply (ascii_of_byte_eqb b 36); [exact Hrange | reflexivity | exact Hne]).
    destruct (parse_loop_turn n l s s1 b Hok Hnul Hread Hno)
      as [Hund | (l1 & l2 & s2 & _ & _ & _ & (Hok2 & Hnul2) & Hsd & Hf & Hgo)];
      [exact Hund |].
    rewrite Hgo.
    apply (IH n l2 s2 (pos + 1)); try lia; try assumption.
    apply (reading_frame c (pos + 1) s1 s2 Hsd Hf Hr1).
Qed.

(** X23.  [getMappingList] depends on the '$' that ends the file.  Take a
    mapping file whose bytes do not contain '$' (a truncated or empty
    file, say), and a session with no file open or with the mapping file
    itself open for reading.  Then no loop bound lets [getMappingList]
    return, and once the bound covers the file and the longest field the
    run ends with a write outside an array: a character array of the
    parser, the 32-entry table or a field of one of its entries. *)
Theorem getMappingList_needs_the_terminator (s : Storage) (p : string) (c : list Z) :
  file s = None \/
  (exists k, file s = Some {| h_path := canon p; h_pos := k; h_write := false |}) ->
  path_components p <> [] ->
  sd s !! canon p = Some (EFile c) ->
  Forall (fun b => 0 <= b < 256 /\ b <> 36) c ->
  (forall fuel r, getMappingList fuel p s <> Done r) /\
  (forall fuel, (length c + 22 <= fuel)%nat ->
                exists i, getMappingList fuel p s = Undefined (WritePastEnd i)).
Proof.
  intros Hf Hcs Hl Hc.
  assert (Hf0 : exists k, file s = None \/
                          file s = Some {| h_path := canon p; h_pos := k; h_write := false |}).
  { destruct Hf as [Hf | [k Hf]]; [exists 0; left; exact Hf | exists k; right; exact Hf]. }
  destruct Hf0 as [k Hf0].
  destruct (fileOpenToRead_on_file s p (EFile c) k Hcs Hl Hf0)
    as (s1 & Hopen1 & Hf1 & Hsd1 & _).
  destruct (fileOpenToRead_on_file s1 p (EFile c) 0 Hcs ltac:(rewrite Hsd1; exact Hl)
              (or_intror Hf1))
    as (s2 & Hopen2 & Hf2 & Hsd2 & _).
  assert (Hr2 : reading c 0 s2).
  { eexists. split; [exact Hf2 |]. cbn [h_pos h_path]. split; [reflexivity |].
    rewrite Hsd2, Hsd1. exact Hl. }
  assert (Hstart : locals_ok parse_start).
  { cbn. repeat split; try lia; try reflexivity. }
  assert (Hnul : nul_kept parse_start) by (left; reflexivity).
  split.
  - intros fuel r H. unfold getMappingList in H.
    rewrite (bind_done _ _ _ _ _ Hopen1) in H. cbn [negb] in H.
    rewrite (bind_done _ _ _ _ _ Hopen2) in H.
    unfold bind at 1 in H.
    destruct (parse_loop fuel parse_start s2) as [[l s3] | |] eqn:Hloop; try discriminate.
    exact (parse_loop_never_returns c Hc fuel parse_start s2 0 (l, s3) Hr2 ltac:(lia) Hloop).
  - intros fuel Hfuel.
    destruct (parse_loop_overruns c Hc (length c) fuel parse_start s2 0 Hr2 ltac:(lia) Hstart
                Hnul ltac:(lia) ltac:(lia)) as (i & Hloop).
    exists i. unfold getMappingList.
    rewrite (bind_done _ _ _ _ _ Hopen1). cbn [negb].
    rewrite (bind_done _ _ _ _ _ Hopen2).
    unfold bind at 1. rewrite Hloop. reflexivity.
Qed.

Lemma getMappingList_needs_the_terminator_witness :
  let c := bytes_of_string "1,a.bmp,b.bmp" in
  let s := fresh_store {[ "mapping.ini"%string := EFile c ]} in
  (file s = None \/
   (exists k, file s = Some {| h_path := canon "mapping.ini"; h_pos := k;
                               h_write := false |})) /\
  path_components "mapping.ini" <> [] /\
  sd s !! canon "mapping.ini" = Some (EFile c) /\
  Forall (fun b => 0 <= b < 256 /\ b <> 36) c /\
  (forall fuel r, getMappingList fuel "mapping.ini" s <> Done r) /\
  (forall fuel, (length c + 22 <= fuel)%nat ->
                exists i, getMappingList fuel "mapping.ini" s = Undefined (WritePastEnd i)).
Proof.
  intros c s.
  assert (H1 : file s = None \/
               (exists k, file s = Some {| h_path := canon "mapping.ini"; h_pos := k;
                                           h_write := false |}))
    by (left; reflexivity).
  assert (H2 : path_components "mapping.ini" <> []) by (vm_compute; discriminate).
  assert (H3 : sd s !! canon "mapping.ini" = Some (EFile c)) by (vm_compute; reflexivity).
  assert (H4 : Forall (fun b => 0 <= b < 256 /\ b <> 36) c).
  { vm_compute. repeat constructor; discriminate. }
  split; [exact H1 |]. split; [exact H2 |]. split; [exact H3 |]. split; [exact H4 |].
  exact (getMappingList_needs_the_terminator s "mapping.ini" c H1 H2 H3 H4).
Defined.

(** X24.  [getMappingList] reports no failure.  When the path is neither
    the name of the open handle nor on the volume, the call returns the
    table held in memory as it is, [n_mapped_floors] included (-1 until a
    file has been loaded), closes whatever file was open and leaves the
    volume alone. *)
Theorem getMappingList_of_a_missing_file (fuel : nat) (s : Storage) (p : string) :
  open_name s <> p -> vol_exists (sd s) p = false ->
  exists s',
    getMappingList fuel p s = Done (mappinglist s, s') /\
    mappinglist s' = mappinglist s /\ file s' = None /\
    sd s' = sd s /\ bitmap s' = bitmap s.
Proof.
  intros Hname Hvol.
  destruct (fileOpenToRead_cases s p)
    as (r & s' & Hopen & Hsd & Hb & Hm & Hr & _ & _ & Hclosed).
  destruct r.
  - destruct (proj1 Hr eq_refl) as [E | E]; [contradiction | congruence].
  - exists s'. unfold getMappingList. rewrite (bind_done _ _ _ _ _ Hopen). cbn [negb].
    unfold bind, get, ret. rewrite Hm.
    split; [reflexivity |]. split; [reflexivity |]. split; [apply Hclosed; reflexivity |].
    split; [exact Hsd | exact Hb].
Qed.

Lemma getMappingList_of_a_missing_file_witness :
  let s := fresh_store ∅ in
  open_name s <> "mapping.ini"%string /\ vol_exists (sd s) "mapping.ini" = false /\
  exists s',
    getMappingList 8 "mapping.ini" s = Done (mappinglist s, s') /\
    mappinglist s' = mappinglist s /\ file s' = None /\
    sd s' = sd s /\ bitmap s' = bitmap s.
Proof.
  intros s.
  assert (Hname : open_name s <> "mapping.ini"%string) by discriminate.
  assert (Hvol : vol_exists (sd s) "mapping.ini" = false) by reflexivity.
  split; [exact Hname |]. split; [exact Hvol |].
  exact (getMappingList_of_a_missing_file 8 s "mapping.ini" Hname Hvol).
Defined.

(** *** Reading back what [commitMappingList] wrote *)

Lemma ascii_of_byte_of_ascii (ch : ascii) : ascii_of_byte (byte_of_ascii ch) = ch.
Proof.
  unfold ascii_of_byte, byte_of_ascii, u8.
  pose proof (N_ascii_bounded ch) as Hb.
  rewrite Z.mod_small by lia. rewrite N2Z.id. apply ascii_N_embedding.
Qed.

Lemma list_ascii_of_string_app (a b : string) :
  list_ascii_of_string (a ++ b) = list_ascii_of_string a ++ list_ascii_of_string b.
Proof.
  induction a as [| ch a IH]; [reflexivity |].
  rewrite string_app_cons. cbn [list_ascii_of_string app]. rewrite IH. reflexivity.
Qed.

Lemma file_read_reader (c : list Z) (ml : MappingList) (pre post : list Z) (b : Z) :
  c = pre ++ b :: post ->
  file_read (reader_at c ml (Z.of_nat (length pre)))
  = Done (b, reader_at c ml (Z.of_nat (length pre) + 1)).
Proof.
  intros ->. unfold file_read, bind, get, handle_content, modify, ret.
  cbn [file sd reader_at h_path h_pos h_write].
  rewrite lookup_singleton_eq. rewrite Nat2Z.id.
  rewrite nth_error_app2 by lia. rewrite Nat.sub_diag. reflexivity.
Qed.

Lemma list_set_split {A} (a : list A) (k : nat) (x : A) :
  (k < length a)%nat -> list_set a k x = firstn k a ++ x :: skipn (S k) a.
Proof.
  revert k. induction a as [| y a IH]; intros [| k] H; cbn in *; try lia; try reflexivity.
  rewrite IH by lia. reflexivity.
Qed.

Lemma char_set_at (a : list ascii) (k : nat) (ch : ascii) :
  (k < length a)%nat ->
  char_set a (Z.of_nat k) ch = Done (firstn k a ++ ch :: skipn (S k) a).
Proof.
  intros H. unfold char_set.
  replace ((0 <=? Z.of_nat k) && (Z.of_nat k <? Z.of_nat (length a))) with true
    by (symmetry; apply andb_true_iff; split; [apply Z.leb_le | apply Z.ltb_lt]; lia).
  rewrite Nat2Z.id, list_set_split by exact H. reflexivity.
Qed.

Lemma c_str_terminated (w rest : list ascii) :
  forallb field_char w = true ->
  c_str (w ++ NUL :: rest) = Done (string_of_list_ascii w).
Proof.
  induction w as [| ch w IH]; intros Hw; cbn [app c_str string_of_list_ascii].
  - reflexivity.
  - cbn [forallb] in Hw. apply andb_true_iff in Hw. destruct Hw as [Hch Hw].
    unfold field_char in Hch. apply andb_true_iff in Hch. destruct Hch as [_ Hnul].
    apply negb_true_iff in Hnul. rewrite Hnul, (IH Hw). reflexivity.
Qed.

Lemma field_char_facts (ch : ascii) :
  field_char ch = true ->
  Ascii.eqb ch "," = false /\ Ascii.eqb ch "010" = false /\ Ascii.eqb ch "$" = false.
Proof.
  unfold field_char. intros H.
  apply andb_true_iff in H. destruct H as [H _].
  apply andb_true_iff in H. destruct H as [H H3].
  apply andb_true_iff in H. destruct H as [H1 H2].
  apply negb_true_iff in H1, H2, H3. auto.
Qed.

(** Storing into the table the value an entry already has leaves the
    state as it is. *)
Lemma store_field_same (c : list Z) (n0 : Z) (tbl : list Mapping) (j i : Z) (cap : nat)
    (upd : string -> Mapping -> Mapping) (v : string) (m : Mapping) :
  nth_error tbl (Z.to_nat i) = Some m ->
  (String.length v < cap)%nat ->
  upd v m = m ->
  store_field i cap upd v (reader_at c {| n_mapped_floors := n0; map_list := tbl |} j)
  = Done (tt, reader_at c {| n_mapped_floors := n0; map_list := tbl |} j).
Proof.
  intros Hm Hlen Hupd.
  rewrite (store_field_at _ _ _ _ _ m) by assumption.
  cbn [mappinglist reader_at map_list n_mapped_floors]. rewrite Hupd.
  assert (Hsame : list_set tbl (Z.to_nat i) m = tbl).
  { revert Hm. generalize (Z.to_nat i) as k. clear.
    induction tbl as [| x tbl IH]; intros [| k] H; cbn in *; try discriminate.
    - injection H as ->. reflexivity.
    - rewrite IH by exact H. reflexivity. }
  rewrite Hsame. reflexivity.
Qed.

Lemma firstn_write {A} (a w : list A) (k : nat) (x : A) :
  (k < length a)%nat ->
  firstn (S k) (firstn k a ++ x :: skipn (S k) a) ++ w
  ++ skipn (S k + length w) (firstn k a ++ x :: skipn (S k) a)
  = firstn k a ++ (x :: w) ++ skipn (k + length (x :: w)) a.
Proof.
  intros Hk.
  assert (Hl : length (firstn k a) = k) by (rewrite length_firstn; lia).
  replace (firstn k a ++ x :: skipn (S k) a) with ((firstn k a ++ [x]) ++ skipn (S k) a)
    by (rewrite <- app_assoc; reflexivity).
  assert (Hl1 : length (firstn k a ++ [x]) = S k) by (rewrite length_app, Hl; cbn; lia).
  rewrite firstn_app, firstn_all2 by lia.
  rewrite Hl1, Nat.sub_diag. cbn [firstn]. rewrite app_nil_r.
  rewrite skipn_app, (skipn_all2 (firstn k a ++ [x])) by lia.
  rewrite Hl1. replace (S k + length w - S k)%nat with (length w) by lia.
  rewrite skipn_skipn. cbn [app length].
  rewrite <- !app_assoc. cbn [app].
  replace (length w + S k)%nat with (k + S (length w))%nat by lia. reflexivity.
Qed.

(** The characters of one field are stored one by one into the array the
    flags select.  [active] and [put] read and replace that array and
    the index. *)
Section FieldChars.

Variables (c : list Z) (ml : MappingList).
Variable active : parse_locals -> list ascii.
Variable put : list ascii -> Z -> parse_locals -> parse_locals.
Variable in_phase : parse_locals -> Prop.

Hypothesis active_put : forall a k l, active (put a k l) = a.
Hypothesis ctr_put : forall a k l, ctr (put a k l) = k.
Hypothesis put_put : forall a k a' k' l, put a' k' (put a k l) = put a' k' l.
Hypothesis put_id : forall l, put (active l) (ctr l) l = l.
Hypothesis in_phase_put : forall a k l, in_phase l -> in_phase (put a k l).
Hypothesis phase_step :
  forall ch l s a,
    in_phase l -> field_char ch = true -> 0 <= ctr l < 20 ->
    char_set (active l) (ctr l) ch = Done a ->
    parse_separator ch l s = Done (l, s) /\
    parse_store ch l s = Done (put a (ctr l + 1) l, s).

Lemma read_field_chars :
  forall (w : list ascii) (k : nat) (l : parse_locals) (pre post : list Z) (n : nat),
    in_phase l -> forallb field_char w = true ->
    ctr l = Z.of_nat k -> (k + length w < length (active l))%nat ->
    (length (active l) <= 20)%nat ->
    c = pre ++ map byte_of_ascii w ++ post ->
    parse_loop (length w + n) l (reader_at c ml (Z.of_nat (length pre)))
    = parse_loop n
        (put (firstn k (active l) ++ w ++ skipn (k + length w) (active l))
             (Z.of_nat (k + length w)) l)
        (reader_at c ml (Z.of_nat (length pre) + Z.of_nat (length w))).
Proof.
  induction w as [| ch w IH]; intros k l pre post n Hph Hw Hctr Hfit Hcap Hc.
  - cbn [length Nat.add app]. rewrite Nat.add_0_r, Z.add_0_r.
    rewrite firstn_skipn. rewrite <- Hctr, put_id. reflexivity.
  - cbn [forallb] in Hw. apply andb_true_iff in Hw. destruct Hw as [Hch Hw].
    destruct (field_char_facts ch Hch) as (_ & _ & Hdollar).
    cbn [length Nat.add parse_loop]. cbn [map app] in Hc.
    erewrite bind_done by (apply (file_read_reader c ml pre _ _ Hc)).
    cbv zeta. rewrite ascii_of_byte_of_ascii, Hdollar.
    cbn [length] in Hfit.
    destruct (phase_step ch l (reader_at c ml (Z.of_nat (length pre) + 1))
                (firstn k (active l) ++ ch :: skipn (S k) (active l)) Hph Hch)
      as [Hsep Hst].
    { lia. }
    { rewrite Hctr. apply char_set_at. lia. }
    erewrite bind_done by exact Hsep.
    erewrite bind_done by exact Hst.
    replace (Z.of_nat (length pre) + 1) with (Z.of_nat (length (pre ++ [byte_of_ascii ch])))
      by (rewrite length_app; cbn [length]; lia).
    rewrite (IH (S k) _ (pre ++ [byte_of_ascii ch]) post n).
    + rewrite active_put, put_put.
      rewrite firstn_write by lia.
      rewrite length_app. cbn [length].
      f_equal; [f_equal; lia | f_equal; lia].
    + apply in_phase_put. exact Hph.
    + exact Hw.
    + rewrite ctr_put, Hctr. lia.
    + rewrite active_put, length_app, length_firstn. cbn [length]. rewrite length_skipn. lia.
    + rewrite active_put, length_app, length_firstn. cbn [length]. rewrite length_skipn. lia.
    + rewrite Hc, <- app_assoc. reflexivity.
Qed.

End FieldChars.

Lemma char_set_middle (w r : list ascii) (x ch : ascii) :
  char_set (w ++ x :: r) (Z.of_nat (length w)) ch = Done (w ++ ch :: r).
Proof.
  rewrite char_set_at by (rewrite length_app; cbn [length]; lia).
  rewrite firstn_app, Nat.sub_diag, firstn_all. cbn [firstn]. rewrite app_nil_r.
  rewrite skipn_app, skipn_all2 by lia.
  replace (S (length w) - length w)%nat with 1%nat by lia. reflexivity.
Qed.

Lemma skipn_nonempty {A} (a : list A) (k : nat) :
  (k < length a)%nat ->
  exists x r, skipn k a = x :: r /\ length r = (length a - S k)%nat.
Proof.
  intros H. destruct (skipn k a) as [| x r] eqn:E.
  - apply (f_equal (@length A)) in E. rewrite length_skipn in E. cbn in E. lia.
  - exists x, r. split; [reflexivity |].
    apply (f_equal (@length A)) in E. rewrite length_skipn in E. cbn [length] in E. lia.
Qed.

Local Abbreviation put_floor_no :=
  (fun (a : list ascii) (k : Z) (l : parse_locals) =>
     {| floor_no := a; bmp_name := bmp_name l; bmp_name2 := bmp_name2 l;
        comma1_reached := comma1_reached l; comma2_reached := comma2_reached l;
        ctr := k; list_itr := list_itr l;
        mapped_floor_count := mapped_floor_count l |}).

Local Abbreviation put_bmp_name :=
  (fun (a : list ascii) (k : Z) (l : parse_locals) =>
     {| floor_no := floor_no l; bmp_name := a; bmp_name2 := bmp_name2 l;
        comma1_reached := comma1_reached l; comma2_reached := comma2_reached l;
        ctr := k; list_itr := list_itr l;
        mapped_floor_count := mapped_floor_count l |}).

Local Abbreviation put_bmp_name2 :=
  (fun (a : list ascii) (k : Z) (l : parse_locals) =>
     {| floor_no := floor_no l; bmp_name := bmp_name l; bmp_name2 := a;
        comma1_reached := comma1_reached l; comma2_reached := comma2_reached l;
        ctr := k; list_itr := list_itr l;
        mapped_floor_count := mapped_floor_count l |}).

Local Abbreviation in_field c1 c2 :=
  (fun l : parse_locals => comma1_reached l = c1 /\ comma2_reached l = c2).

Ltac phase_step_tac :=
  let Hcomma := fresh in let Hnl := fresh in
  intros ch [? ? ? ? ? ? ? ?] s a Hph Hch Hk Hset;
  cbn [comma1_reached comma2_reached ctr floor_no bmp_name bmp_name2] in Hph, Hk, Hset;
  destruct Hph as [-> ->];
  destruct (field_char_facts ch Hch) as (Hcomma & Hnl & _);
  unfold parse_separator, parse_store;
  cbn [comma1_reached comma2_reached ctr floor_no bmp_name bmp_name2 list_itr
       mapped_floor_count];
  rewrite Hcomma, Hnl; cbn [andb negb];
  split; [reflexivity |];
  unfold bind, lift; rewrite Hset; unfold ret;
  rewrite u32_small by lia; reflexivity.

Section ThreeFields.

Variables (c : list Z) (ml : MappingList).
Variables (fa ba b2a : list ascii) (it cnt : Z).

Lemma read_floor_no (w : list ascii) (pre post : list Z) (n : nat) :
  forallb field_char w = true ->
  (length w < length fa)%nat -> (length fa <= 20)%nat ->
  c = pre ++ map byte_of_ascii w ++ post ->
  parse_loop (length w + n)
    {| floor_no := fa; bmp_name := ba; bmp_name2 := b2a;
       comma1_reached := false; comma2_reached := false;
       ctr := 0; list_itr := it; mapped_floor_count := cnt |}
    (reader_at c ml (Z.of_nat (length pre)))
  = parse_loop n
      {| floor_no := w ++ skipn (length w) fa; bmp_name := ba; bmp_name2 := b2a;
         comma1_reached := false; comma2_reached := false;
         ctr := Z.of_nat (length w); list_itr := it; mapped_floor_count := cnt |}
      (reader_at c ml (Z.of_nat (length (pre ++ map byte_of_ascii w)))).
Proof.
  intros Hw Hfit Hcap Hc.
  rewrite length_app, length_map, Nat2Z.inj_add.
  refine (read_field_chars c ml floor_no put_floor_no (in_field false false)
            _ _ _ _ _ _ w 0 _ pre post n _ Hw _ _ _ Hc);
    try reflexivity; try (cbn; lia).
  - intros [? ? ? ? ? ? ? ?]. reflexivity.
  - intros a k l H. exact H.
  - phase_step_tac.
Qed.

Lemma read_bmp_name (w : list ascii) (pre post : list Z) (n : nat) :
  forallb field_char w = true ->
  (length w < length ba)%nat -> (length ba <= 20)%nat ->
  c = pre ++ map byte_of_ascii w ++ post ->
  parse_loop (length w + n)
    {| floor_no := fa; bmp_name := ba; bmp_name2 := b2a;
       comma1_reached := true; comma2_reached := false;
       ctr := 0; list_itr := it; mapped_floor_count := cnt |}
    (reader_at c ml (Z.of_nat (length pre)))
  = parse_loop n
      {| floor_no := fa; bmp_name := w ++ skipn (length w) ba; bmp_name2 := b2a;
         comma1_reached := true; comma2_reached := false;
         ctr := Z.of_nat (length w); list_itr := it; mapped_floor_count := cnt |}
      (reader_at c ml (Z.of_nat (length (pre ++ map byte_of_ascii w)))).
Proof.
  intros Hw Hfit Hcap Hc.
  rewrite length_app, length_map, Nat2Z.inj_add.
  refine (read_field_chars c ml bmp_name put_bmp_name (in_field true false)
            _ _ _ _ _ _ w 0 _ pre post n _ Hw _ _ _ Hc);
    try reflexivity; try (cbn; lia).
  - intros [? ? ? ? ? ? ? ?]. reflexivity.
  - intros a k l H. exact H.
  - phase_step_tac.
Qed.

Lemma read_bmp_name2 (w : list ascii) (pre post : list Z) (n : nat) :
  forallb field_char w = true ->
  (length w < length b2a)%nat -> (length b2a <= 20)%nat ->
  c = pre ++ map byte_of_ascii w ++ post ->
  parse_loop (length w + n)
    {| floor_no := fa; bmp_name := ba; bmp_name2 := b2a;
       comma1_reached := true; comma2_reached := true;
       ctr := 0; list_itr := it; mapped_floor_count := cnt |}
    (reader_at c ml (Z.of_nat (length pre)))
  = parse_loop n
      {| floor_no := fa; bmp_name := ba; bmp_name2 := w ++ skipn (length w) b2a;
         comma1_reached := true; comma2_reached := true;
         ctr := Z.of_nat (length w); list_itr := it; mapped_floor_count := cnt |}
      (reader_at c ml (Z.of_nat (length (pre ++ map byte_of_ascii w)))).
Proof.
  intros Hw Hfit Hcap Hc.
  rewrite length_app, length_map, Nat2Z.inj_add.
  refine (read_field_chars c ml bmp_name2 put_bmp_name2 (in_field true true)
            _ _ _ _ _ _ w 0 _ pre post n _ Hw _ _ _ Hc);
    try reflexivity; try (cbn; lia).
  - intros [? ? ? ? ? ? ? ?]. reflexivity.
  - intros a k l H. exact H.
  - phase_step_tac.
Qed.

End ThreeFields.

Lemma length_string_of_list_ascii (w : list ascii) :
  String.length (string_of_list_ascii w) = length w.
Proof. induction w as [| ch w IH]; cbn; [reflexivity | rewrite IH; reflexivity]. Qed.

Lemma length_list_ascii_of_string (str : string) :
  length (list_ascii_of_string str) = String.length str.
Proof. induction str as [| ch str IH]; cbn; [reflexivity | rewrite IH; reflexivity]. Qed.

(** The separators: each closes its field with a NUL and copies the C
    string into the entry [list_itr] points at.  When the entry already
    holds that string the table is what it was. *)
Section Separators.

Variables (c : list Z) (n0 : Z) (tbl : list Mapping).
Variables (it cnt : Z) (m : Mapping).

Local Abbreviation ml := {| n_mapped_floors := n0; map_list := tbl |}.

Hypothesis entry_there : nth_error tbl (Z.to_nat it) = Some m.

Lemma separator_first_comma (w r : list ascii) (x : ascii) (ba b2a : list ascii) (j : Z) :
  forallb field_char w = true -> (length w < 3)%nat ->
  floorNo m = string_of_list_ascii w ->
  parse_separator ","
    {| floor_no := w ++ x :: r; bmp_name := ba; bmp_name2 := b2a;
       comma1_reached := false; comma2_reached := false;
       ctr := Z.of_nat (length w); list_itr := it; mapped_floor_count := cnt |}
    (reader_at c ml j)
  = Done ({| floor_no := w ++ NUL :: r; bmp_name := ba; bmp_name2 := b2a;
             comma1_reached := true; comma2_reached := false;
             ctr := 0; list_itr := it; mapped_floor_count := cnt |},
          reader_at c ml j).
Proof.
  intros Hw Hlen Hm. unfold parse_separator.
  cbn [comma1_reached comma2_reached ctr floor_no bmp_name bmp_name2 list_itr
       mapped_floor_count].
  change (Ascii.eqb "," ",") with true. cbn [andb negb].
  erewrite bind_done by (unfold lift; rewrite char_set_middle; reflexivity).
  erewrite bind_done by (unfold lift; rewrite (c_str_terminated w r Hw); reflexivity).
  erewrite bind_done.
  2:{ apply (store_field_same c n0 tbl j it 3 with_floorNo _ m entry_there).
      - rewrite length_string_of_list_ascii. exact Hlen.
      - rewrite <- Hm. destruct m. reflexivity. }
  reflexivity.
Qed.

Lemma separator_second_comma (w r : list ascii) (x : ascii) (fa b2a : list ascii) (j : Z) :
  forallb field_char w = true -> (length w < 20)%nat ->
  bitmapName m = string_of_list_ascii w ->
  parse_separator ","
    {| floor_no := fa; bmp_name := w ++ x :: r; bmp_name2 := b2a;
       comma1_reached := true; comma2_reached := false;
       ctr := Z.of_nat (length w); list_itr := it; mapped_floor_count := cnt |}
    (reader_at c ml j)
  = Done ({| floor_no := fa; bmp_name := w ++ NUL :: r; bmp_name2 := b2a;
             comma1_reached := true; comma2_reached := true;
             ctr := 0; list_itr := it; mapped_floor_count := cnt |},
          reader_at c ml j).
Proof.
  intros Hw Hlen Hm. unfold parse_separator.
  cbn [comma1_reached comma2_reached ctr floor_no bmp_name bmp_name2 list_itr
       mapped_floor_count].
  change (Ascii.eqb "," ",") with true. cbn [andb negb].
  erewrite bind_done by (unfold lift; rewrite char_set_middle; reflexivity).
  erewrite bind_done by (unfold lift; rewrite (c_str_terminated w r Hw); reflexivity).
  erewrite bind_done.
  2:{ apply (store_field_same c n0 tbl j it 20 with_bitmapName _ m entry_there).
      - rewrite length_string_of_list_ascii. exact Hlen.
      - rewrite <- Hm. destruct m. reflexivity. }
  reflexivity.
Qed.

(** At the end of the line the entry is counted when one of the two
    names, read back from the arrays, is not empty. *)
Lemma separator_newline (w r : list ascii) (x : ascii) (w1 r1 fa : list ascii) (j : Z) :
  forallb field_char w = true -> (length w < 20)%nat ->
  forallb field_char w1 = true ->
  bitmapName m = string_of_list_ascii w1 ->
  bitmapName2 m = string_of_list_ascii w ->
  0 <= it < 32 -> 0 <= cnt <= it ->
  parse_separator "010"
    {| floor_no := fa; bmp_name := w1 ++ NUL :: r1; bmp_name2 := w ++ x :: r;
       comma1_reached := true; comma2_reached := true;
       ctr := Z.of_nat (length w); list_itr := it; mapped_floor_count := cnt |}
    (reader_at c ml j)
  = Done ({| floor_no := fa; bmp_name := w1 ++ NUL :: r1; bmp_name2 := w ++ NUL :: r;
             comma1_reached := false; comma2_reached := false;
             ctr := 0; list_itr := it + 1;
             mapped_floor_count := count_mapped [m] + cnt |},
          reader_at c ml j).
Proof.
  intros Hw Hlen Hw1 Hm1 Hm Hit Hcnt. unfold parse_separator.
  cbn [comma1_reached comma2_reached ctr floor_no bmp_name bmp_name2 list_itr
       mapped_floor_count].
  change (Ascii.eqb "010" ",") with false. change (Ascii.eqb "010" "010") with true.
  cbn [andb negb]. cbv iota.
  erewrite bind_done by (unfold lift; rewrite char_set_middle; reflexivity).
  erewrite bind_done by (unfold lift; rewrite (c_str_terminated w r Hw); reflexivity).
  erewrite bind_done.
  2:{ apply (store_field_same c n0 tbl j it 20 with_bitmapName2 _ m entry_there).
      - rewrite length_string_of_list_ascii. exact Hlen.
      - rewrite <- Hm. destruct m. reflexivity. }
  erewrite bind_done by (unfold lift; rewrite (c_str_terminated w1 r1 Hw1); reflexivity).
  cbv zeta. unfold ret. rewrite <- Hm1, <- Hm.
  rewrite (u32_small (it + 1)) by lia.
  unfold count_mapped, is_mapped, strcmp. cbn [List.filter].
  destruct (String.eqb (bitmapName m) ""), (String.eqb (bitmapName2 m) "");
    cbn [Z.eqb negb orb length]; rewrite ?u32_small by lia;
    rewrite ?(Z.add_comm cnt 1); reflexivity.
Qed.

(** A separator is not stored. *)
Lemma store_after_comma (l : parse_locals) (s : Storage) :
  comma1_reached l = true ->
  parse_store "," l s = Done (l, s).
Proof.
  intros H. unfold parse_store. rewrite H.
  change (Ascii.eqb "," ",") with true.
  cbn [negb andb]. rewrite !andb_false_r. reflexivity.
Qed.

Lemma store_after_newline (l : parse_locals) (s : Storage) :
  comma1_reached l = false ->
  parse_store "010" l s = Done (l, s).
Proof.
  intros H. unfold parse_store. rewrite H.
  change (Ascii.eqb "010" "010") with true.
  cbn [negb andb]. rewrite !andb_false_r. reflexivity.
Qed.

End Separators.

Lemma commit_line_bytes (f b b2 : string) :
  bytes_of_string (f ++ "," ++ b ++ "," ++ b2 ++ String "010" EmptyString)
  = map byte_of_ascii (list_ascii_of_string f) ++ [44]
    ++ map byte_of_ascii (list_ascii_of_string b) ++ [44]
    ++ map byte_of_ascii (list_ascii_of_string b2) ++ [10].
Proof.
  unfold bytes_of_string.
  rewrite !list_ascii_of_string_app, !map_app. reflexivity.
Qed.

Section Lines.

Variables (c : list Z) (n0 : Z) (tbl : list Mapping).

Local Abbreviation ml := {| n_mapped_floors := n0; map_list := tbl |}.

Lemma parse_loop_separator (ch : ascii) (b : Z) (l l1 : parse_locals)
    (pre post : list Z) (n : nat) :
  c = pre ++ [b] ++ post ->
  ascii_of_byte b = ch -> Ascii.eqb ch "$" = false ->
  (forall j, parse_separator ch l (reader_at c ml j) = Done (l1, reader_at c ml j)) ->
  (forall s, parse_store ch l1 s = Done (l1, s)) ->
  parse_loop (S n) l (reader_at c ml (Z.of_nat (length pre)))
  = parse_loop n l1 (reader_at c ml (Z.of_nat (length (pre ++ [b])))).
Proof.
  intros Hc Hch Hno Hsep Hst. cbn [parse_loop].
  erewrite bind_done by (apply (file_read_reader c ml pre post b Hc)).
  cbv zeta. rewrite Hch, Hno.
  erewrite bind_done by apply Hsep.
  erewrite bind_done by apply Hst.
  rewrite length_app, Nat2Z.inj_add. reflexivity.
Qed.

Lemma parse_line (fa ba b2a : list ascii) (it cnt : Z) (m : Mapping)
    (pre post : list Z) (n : nat) :
  length fa = 3%nat -> length ba = 20%nat -> length b2a = 20%nat ->
  0 <= it < 32 -> 0 <= cnt <= it ->
  nth_error tbl (Z.to_nat it) = Some m -> storable m ->
  c = pre ++ commit_line ml it ++ post ->
  exists fa' ba' b2a',
    length fa' = 3%nat /\ length ba' = 20%nat /\ length b2a' = 20%nat /\
    parse_loop (length (commit_line ml it) + n)
      {| floor_no := fa; bmp_name := ba; bmp_name2 := b2a;
         comma1_reached := false; comma2_reached := false;
         ctr := 0; list_itr := it; mapped_floor_count := cnt |}
      (reader_at c ml (Z.of_nat (length pre)))
    = parse_loop n
        {| floor_no := fa'; bmp_name := ba'; bmp_name2 := b2a';
           comma1_reached := false; comma2_reached := false;
           ctr := 0; list_itr := it + 1;
           mapped_floor_count := count_mapped [m] + cnt |}
        (reader_at c ml (Z.of_nat (length (pre ++ commit_line ml it)))).
Proof.
  intros Hfa Hba Hb2a Hit Hcnt Hm ((Hl1 & Hw1) & (Hl2 & Hw2) & (Hl3 & Hw3)) Hc.
  unfold commit_line in *. cbn [map_list] in *.
  rewrite (nth_error_nth _ _ blank_mapping Hm) in *. cbv zeta in *.
  rewrite commit_line_bytes in *.
  set (w1 := list_ascii_of_string (floorNo m)) in *.
  set (w2 := list_ascii_of_string (bitmapName m)) in *.
  set (w3 := list_ascii_of_string (bitmapName2 m)) in *.
  assert (Hn1 : (length w1 < 3)%nat)
    by (unfold w1; rewrite length_list_ascii_of_string; exact Hl1).
  assert (Hn2 : (length w2 < 20)%nat)
    by (unfold w2; rewrite length_list_ascii_of_string; exact Hl2).
  assert (Hn3 : (length w3 < 20)%nat)
    by (unfold w3; rewrite length_list_ascii_of_string; exact Hl3).
  assert (Hs1 : floorNo m = string_of_list_ascii w1)
    by (unfold w1; rewrite string_of_list_ascii_of_string; reflexivity).
  assert (Hs2 : bitmapName m = string_of_list_ascii w2)
    by (unfold w2; rewrite string_of_list_ascii_of_string; reflexivity).
  assert (Hs3 : bitmapName2 m = string_of_list_ascii w3)
    by (unfold w3; rewrite string_of_list_ascii_of_string; reflexivity).
  destruct (skipn_nonempty fa (length w1)) as (x1 & r1 & Hk1 & Hr1); [lia |].
  destruct (skipn_nonempty ba (length w2)) as (x2 & r2 & Hk2 & Hr2); [lia |].
  destruct (skipn_nonempty b2a (length w3)) as (x3 & r3 & Hk3 & Hr3); [lia |].
  exists (w1 ++ NUL :: r1), (w2 ++ NUL :: r2), (w3 ++ NUL :: r3).
  split; [rewrite length_app; cbn [length]; lia |].
  split; [rewrite length_app; cbn [length]; lia |].
  split; [rewrite length_app; cbn [length]; lia |].
  replace (length (map byte_of_ascii w1 ++ [44%Z] ++ map byte_of_ascii w2 ++ [44%Z]
                   ++ map byte_of_ascii w3 ++ [10%Z]) + n)%nat
    with (length w1 + S (length w2 + S (length w3 + S n)))%nat
    by (rewrite !length_app, !length_map; cbn [length]; lia).
  set (W1 := map byte_of_ascii w1) in *.
  set (W2 := map byte_of_ascii w2) in *.
  set (W3 := map byte_of_ascii w3) in *.
  assert (Hc1 : c = pre ++ W1 ++ ([44] ++ W2 ++ [44] ++ W3 ++ [10] ++ post))
    by (rewrite Hc, <- !app_assoc; reflexivity).
  assert (Hc2 : c = (pre ++ W1) ++ [44] ++ (W2 ++ [44] ++ W3 ++ [10] ++ post))
    by (rewrite Hc, <- !app_assoc; reflexivity).
  assert (Hc3 : c = ((pre ++ W1) ++ [44]) ++ W2 ++ ([44] ++ W3 ++ [10] ++ post))
    by (rewrite Hc, <- !app_assoc; reflexivity).
  assert (Hc4 : c = (((pre ++ W1) ++ [44]) ++ W2) ++ [44] ++ (W3 ++ [10] ++ post))
    by (rewrite Hc, <- !app_assoc; reflexivity).
  assert (Hc5 : c = ((((pre ++ W1) ++ [44]) ++ W2) ++ [44]) ++ W3 ++ ([10] ++ post))
    by (rewrite Hc, <- !app_assoc; reflexivity).
  assert (Hc6 : c = (((((pre ++ W1) ++ [44]) ++ W2) ++ [44]) ++ W3) ++ [10] ++ post)
    by (rewrite Hc, <- !app_assoc; reflexivity).
  rewrite (read_floor_no c ml fa ba b2a it cnt w1 pre _ _ Hw1 ltac:(lia) ltac:(lia) Hc1).
  rewrite Hk1. fold W1.
  erewrite (parse_loop_separator "," 44 _ _ _ _ _ Hc2 eq_refl eq_refl
             (fun j => separator_first_comma c n0 tbl it cnt m Hm w1 r1 x1 ba b2a j
                         Hw1 Hn1 Hs1))
    by (intros; apply store_after_comma; reflexivity).
  rewrite (read_bmp_name c ml _ ba b2a it cnt w2 _ _ _ Hw2 ltac:(lia) ltac:(lia) Hc3).
  rewrite Hk2. fold W2.
  erewrite (parse_loop_separator "," 44 _ _ _ _ _ Hc4 eq_refl eq_refl
             (fun j => separator_second_comma c n0 tbl it cnt m Hm w2 r2 x2 _ b2a j
                         Hw2 Hn2 Hs2))
    by (intros; apply store_after_comma; reflexivity).
  rewrite (read_bmp_name2 c ml _ _ b2a it cnt w3 _ _ _ Hw3 ltac:(lia) ltac:(lia) Hc5).
  rewrite Hk3. fold W3.
  erewrite (parse_loop_separator "010" 10 _ _ _ _ _ Hc6 eq_refl eq_refl
             (fun j => separator_newline c n0 tbl it cnt m Hm w3 r3 x3 w2 r2 _ j
                         Hw3 Hn3 Hw2 Hs2 Hs3 Hit Hcnt))
    by (intros; apply store_after_newline; reflexivity).
  rewrite <- !app_assoc. reflexivity.
Qed.

End Lines.

Lemma firstn_succ_nth {A} (l : list A) (k : nat) (x : A) :
  nth_error l k = Some x -> firstn (S k) l = firstn k l ++ [x].
Proof.
  revert k. induction l as [| y l IH]; intros [| k] H; cbn in H; try discriminate.
  - injection H as ->. reflexivity.
  - cbn [firstn app]. rewrite <- (IH k H). reflexivity.
Qed.

Lemma count_mapped_succ (tbl : list Mapping) (k : nat) (m : Mapping) :
  nth_error tbl k = Some m ->
  count_mapped (firstn (S k) tbl) = count_mapped [m] + count_mapped (firstn k tbl).
Proof.
  intros H. rewrite (firstn_succ_nth tbl k m H). unfold count_mapped.
  rewrite List.filter_app, length_app. lia.
Qed.

Lemma count_mapped_bound (tbl : list Mapping) (k : nat) :
  0 <= count_mapped (firstn k tbl) <= Z.of_nat k.
Proof.
  unfold count_mapped. split; [lia |].
  pose proof (List.filter_length_le is_mapped (firstn k tbl)) as H1.
  pose proof (length_firstn k tbl) as H2. lia.
Qed.

(** The length of a line of the mapping file written from a storable
    entry. *)
Lemma commit_line_length (ml : MappingList) (k : nat) (m : Mapping) :
  nth_error (map_list ml) k = Some m -> storable m ->
  (length (commit_line ml (Z.of_nat k)) <= 43)%nat.
Proof.
  intros Hm ((H1 & _) & (H2 & _) & (H3 & _)). unfold commit_line.
  rewrite Nat2Z.id, (nth_error_nth _ _ blank_mapping Hm). cbv zeta.
  rewrite commit_line_bytes, !length_app, !length_map, !length_list_ascii_of_string.
  cbn [length]. lia.
Qed.

Lemma commit_lines_length (ml : MappingList) :
  Forall storable (map_list ml) ->
  forall (k ctr : nat),
    (ctr + k <= length (map_list ml))%nat ->
    (length (lines_from (commit_line ml) k (Z.of_nat ctr)) <= 43 * k)%nat.
Proof.
  intros Hall. induction k as [| k IH]; intros ctr Hr; cbn [lines_from length]; [lia |].
  destruct (nth_error (map_list ml) ctr) as [m |] eqn:Hm.
  2:{ apply nth_error_None in Hm. lia. }
  assert (Hst : storable m).
  { rewrite List.Forall_forall in Hall. apply Hall. eapply nth_error_In. exact Hm. }
  rewrite length_app.
  pose proof (commit_line_length ml ctr m Hm Hst) as H1.
  replace (Z.of_nat ctr + 1) with (Z.of_nat (S ctr)) by lia.
  pose proof (IH (S ctr) ltac:(lia)) as H2. lia.
Qed.

Section AllLines.

Variables (c : list Z) (n0 : Z) (tbl : list Mapping).

Local Abbreviation ml := {| n_mapped_floors := n0; map_list := tbl |}.

Hypothesis tbl_32 : length tbl = 32%nat.
Hypothesis tbl_storable : Forall storable tbl.

Lemma parse_lines :
  forall (k ctr : nat) (fa ba b2a : list ascii) (pre post : list Z) (n : nat),
    length fa = 3%nat -> length ba = 20%nat -> length b2a = 20%nat ->
    (ctr + k <= 32)%nat ->
    c = pre ++ lines_from (commit_line ml) k (Z.of_nat ctr) ++ post ->
    exists fa' ba' b2a',
      length fa' = 3%nat /\ length ba' = 20%nat /\ length b2a' = 20%nat /\
      parse_loop (length (lines_from (commit_line ml) k (Z.of_nat ctr)) + n)
        {| floor_no := fa; bmp_name := ba; bmp_name2 := b2a;
           comma1_reached := false; comma2_reached := false;
           ctr := 0; list_itr := Z.of_nat ctr;
           mapped_floor_count := count_mapped (firstn ctr tbl) |}
        (reader_at c ml (Z.of_nat (length pre)))
      = parse_loop n
          {| floor_no := fa'; bmp_name := ba'; bmp_name2 := b2a';
             comma1_reached := false; comma2_reached := false;
             ctr := 0; list_itr := Z.of_nat (ctr + k);
             mapped_floor_count := count_mapped (firstn (ctr + k) tbl) |}
          (reader_at c ml
             (Z.of_nat (length (pre ++ lines_from (commit_line ml) k (Z.of_nat ctr))))).
Proof.
  induction k as [| k IH]; intros ctr fa ba b2a pre post n Hfa Hba Hb2a Hr Hc.
  - exists fa, ba, b2a. cbn [lines_from length Nat.add]. rewrite app_nil_r, Nat.add_0_r.
    repeat split; assumption.
  - cbn [lines_from] in Hc |- *.
    replace (Z.of_nat ctr + 1) with (Z.of_nat (S ctr)) in Hc |- * by lia.
    destruct (nth_error tbl ctr) as [m |] eqn:Hm.
    2:{ apply nth_error_None in Hm. lia. }
    assert (Hst : storable m).
    { rewrite List.Forall_forall in tbl_storable. apply tbl_storable.
      eapply nth_error_In. exact Hm. }
    rewrite <- app_assoc in Hc.
    destruct (parse_line c n0 tbl fa ba b2a (Z.of_nat ctr) (count_mapped (firstn ctr tbl))
                m pre _ (length (lines_from (commit_line ml) k (Z.of_nat (S ctr))) + n)
                Hfa Hba Hb2a ltac:(lia) (count_mapped_bound tbl ctr)
                ltac:(rewrite Nat2Z.id; exact Hm) Hst Hc)
      as (fa1 & ba1 & b2a1 & Hfa1 & Hba1 & Hb2a1 & Hline).
    rewrite app_assoc in Hc.
    destruct (IH (S ctr) fa1 ba1 b2a1 (pre ++ commit_line ml (Z.of_nat ctr)) post n
                Hfa1 Hba1 Hb2a1 ltac:(lia) Hc)
      as (fa2 & ba2 & b2a2 & Hfa2 & Hba2 & Hb2a2 & Hrest).
    exists fa2, ba2, b2a2.
    split; [exact Hfa2 |]. split; [exact Hba2 |]. split; [exact Hb2a2 |].
    rewrite length_app, <- Nat.add_assoc, Hline.
    rewrite <- (count_mapped_succ tbl ctr m Hm).
    replace (Z.of_nat ctr + 1) with (Z.of_nat (S ctr)) by lia.
    rewrite Hrest.
    replace (ctr + S k)%nat with (S ctr + k)%nat by lia.
    rewrite <- app_assoc. reflexivity.
Qed.

(** The whole file: 32 lines, then the terminator stops the loop. *)
Lemma parse_commit_file (fuel : nat) :
  c = commit_file ml -> (1377 <= fuel)%nat ->
  exists l j,
    parse_loop fuel parse_start (reader_state c ml) = Done (l, reader_at c ml j) /\
    mapped_floor_count l = count_mapped tbl.
Proof.
  intros Hc Hfuel. unfold commit_file in Hc.
  destruct (parse_lines 32 0 (char_array 3 "$") (char_array 20 "$") (char_array 20 "$")
              [] _ 1 eq_refl eq_refl eq_refl ltac:(lia) Hc)
    as (fa & ba & b2a & _ & _ & _ & Hlines).
  cbn [app length Nat.add] in Hlines.
  pose proof (commit_lines_length ml tbl_storable 32 0 ltac:(cbn [map_list]; lia)) as Hlen.
  change (Z.of_nat 0) with 0 in Hlines, Hlen.
  eexists. eexists. split.
  - apply (parse_loop_more_fuel (length (lines_from (commit_line ml) 32 0) + 1));
      [| lia].
    change (reader_state c ml) with (reader_at c ml 0).
    change (parse_loop (length (lines_from (commit_line ml) 32 0) + 1) parse_start)
      with (parse_loop (length (lines_from (commit_line ml) 32 0) + 1)
              {| floor_no := char_array 3 "$"; bmp_name := char_array 20 "$";
                 bmp_name2 := char_array 20 "$";
                 comma1_reached := false; comma2_reached := false;
                 ctr := 0; list_itr := 0;
                 mapped_floor_count := count_mapped (firstn 0 tbl) |}).
    rewrite Hlines.
    cbn [parse_loop].
    erewrite bind_done.
    2:{ apply (file_read_reader c ml (lines_from (commit_line ml) 32 0) [10] 36).
        exact Hc. }
    cbv zeta. change (Ascii.eqb (ascii_of_byte 36) "$") with true. cbv iota.
    reflexivity.
  - cbn [mapped_floor_count]. rewrite <- tbl_32, firstn_all. reflexivity.
Qed.

End AllLines.

Lemma commitMappingList_done (s s1 : Storage) (p : string) :
  length (map_list (mappinglist s)) = 32%nat ->
  commitMappingList p s = Done (0, s1) ->
  exists V, creatable V p /\
            sd s1 = <[canon p := EFile (commit_file (mappinglist s))]> V /\
            file s1 = None /\ mappinglist s1 = mappinglist s.
Proof.
  intros Hlen H. unfold commitMappingList in H. unfold bind at 1 in H.
  destruct (fileOpenToWrite p true s) as [[r sa]| |] eqn:Hopen; try discriminate.
  destruct r; cbn [negb] in H; [| discriminate].
  destruct (fileOpenToWrite_overwrite_creates _ _ _ Hopen) as (V & Hcr & Hw).
  destruct (fileOpenToWrite_frame _ _ _ _ _ Hopen) as [Hm Hb].
  exists V. split; [exact Hcr |].
  destruct (for_ctr_appends (canon p) V (mappinglist s)
              (fun ctr => bind (load_entry ctr) (fun m =>
                          bind (file_print (floorNo m ++ "," ++ bitmapName m ++ ","
                                            ++ bitmapName2 m ++ String "010" EmptyString))
                               (fun _ => ret tt)))
              (commit_line (mappinglist s)) 0 32) with (n := 32%nat) (ctr := 0) (c := @nil Z) (s := sa)
    as (sb & Hloop & Hwb & Hmb & Hbb); try lia; try assumption.
  { intros ctr c1 s2 Hr Hw1 Hm1.
    unfold bind at 1. rewrite load_entry_in_range by (rewrite Hm1, Hlen; lia).
    rewrite Hm1.
    destruct (file_write_appends (canon p) V c1 (commit_line (mappinglist s) ctr) s2 Hw1)
      as (s3 & H3 & Hw3 & Hm3 & Hb3).
    exists s3. unfold file_print. unfold commit_line in H3 at 1.
    rewrite (bind_done _ _ _ _ _ H3).
    unfold ret. split; [reflexivity | split; [exact Hw3 | split; congruence]]. }
  destruct (file_write_appends (canon p) V _
              (bytes_of_string (String "$" (String "010" EmptyString))) sb Hwb)
    as (sc & Hc & Hwc & Hmc & Hbc).
  rewrite (bind_done _ _ _ _ _ Hloop) in H. unfold file_print in H.
  rewrite (bind_done _ _ _ _ _ Hc) in H.
  rewrite (bind_done _ _ _ _ _ (file_close_after_writing _ _ _ _ Hwc)) in H.
  unfold ret in H. injection H as <-. sproj.
  destruct Hwc as [_ Hsd]. split; [| split; [reflexivity | congruence]].
  rewrite Hsd. reflexivity.
Qed.

(** X25.  [commitMappingList] and [getMappingList] are inverse on tables the
    file format can hold.  When every entry of the 32 is storable (a
    floor code of at most 2 characters and names of at most 19, none
    holding a comma, a line feed, '$' or NUL) and [commitMappingList] has
    returned 0, [getMappingList] of the same file returns the table as it
    was committed, with [n_mapped_floors] set to the number of entries
    that have a name; the volume is not changed and no file is left
    open. *)
Theorem committed_table_is_loaded_back (fuel : nat) (s s1 : Storage) (p : string) :
  length (map_list (mappinglist s)) = 32%nat ->
  Forall storable (map_list (mappinglist s)) ->
  commitMappingList p s = Done (0, s1) ->
  (1377 <= fuel)%nat ->
  exists s2,
    getMappingList fuel p s1
    = Done ({| n_mapped_floors := count_mapped (map_list (mappinglist s));
               map_list := map_list (mappinglist s) |}, s2) /\
    mappinglist s2 = {| n_mapped_floors := count_mapped (map_list (mappinglist s));
                        map_list := map_list (mappinglist s) |} /\
    file s2 = None /\ sd s2 = sd s1.
Proof.
  intros Hlen Hall Hcommit Hfuel.
  destruct (commitMappingList_done s s1 p Hlen Hcommit) as (V & Hcr & Hsd1 & Hf1 & Hm1).
  pose proof Hcr as (Hcs & _ & _).
  assert (Hl1 : sd s1 !! canon p = Some (EFile (commit_file (mappinglist s))))
    by (rewrite Hsd1; apply lookup_insert_eq).
  destruct (mappinglist s) as [n0 tbl] eqn:Hml. cbn [map_list] in *.
  destruct (parse_commit_file (commit_file {| n_mapped_floors := n0; map_list := tbl |})
              n0 tbl Hlen Hall fuel eq_refl Hfuel) as (l & j & Hparse & Hcount).
  rewrite <- Hm1 in Hparse at 2.
  destruct (getMappingList_reads fuel s1 _ p _ l Hcs Hl1 Hf1 Hparse)
    as (s2 & Hload & Hm2 & Hf2 & Hsd2).
  cbn [mappinglist reader_at map_list] in Hload, Hm2.
  rewrite Hcount in Hload, Hm2.
  assert (Hi : i32 (count_mapped tbl) = count_mapped tbl).
  { pose proof (count_mapped_bound tbl 32) as Hb.
    rewrite <- Hlen, firstn_all in Hb. rewrite Hlen in Hb.
    apply i32_small. lia. }
  rewrite Hi in Hload, Hm2.
  exists s2. split; [exact Hload |]. split; [exact Hm2 |]. split; [exact Hf2 | exact Hsd2].
Qed.

Lemma committed_table_is_loaded_back_witness :
  let tbl := {| floorNo := "1"; bitmapName := "a.bmp"; bitmapName2 := "b.bmp" |}
             :: {| floorNo := "2"; bitmapName := ""; bitmapName2 := "" |}
             :: repeat blank_mapping 30 in
  let s := set_mappinglist {| n_mapped_floors := -1; map_list := tbl |} (fresh_store ∅) in
  let s1 := match commitMappingList "mapping.ini" s with
            | Done (_, t) => t
            | _ => s
            end in
  length (map_list (mappinglist s)) = 32%nat /\
  Forall storable (map_list (mappinglist s)) /\
  commitMappingList "mapping.ini" s = Done (0, s1) /\
  (1377 <= 1377)%nat /\
  exists s2,
    getMappingList 1377 "mapping.ini" s1
    = Done ({| n_mapped_floors := count_mapped tbl; map_list := tbl |}, s2) /\
    mappinglist s2 = {| n_mapped_floors := count_mapped tbl; map_list := tbl |} /\
    file s2 = None /\ sd s2 = sd s1.
Proof.
  intros tbl s s1.
  assert (Hlen : length (map_list (mappinglist s)) = 32%nat) by reflexivity.
  assert (Hblank : storable blank_mapping).
  { repeat split; cbn; lia. }
  assert (Hall : Forall storable (map_list (mappinglist s))).
  { cbn [map_list mappinglist s set_mappinglist]. unfold tbl.
    constructor; [repeat split; cbn; lia |].
    constructor; [repeat split; cbn; lia |].
    apply List.Forall_forall. intros x Hx. apply repeat_spec in Hx. subst x. exact Hblank. }
  assert (Hcommit : commitMappingList "mapping.ini" s = Done (0, s1))
    by (vm_compute; reflexivity).
  split; [exact Hlen |]. split; [exact Hall |]. split; [exact Hcommit |].
  split; [lia |].
  exact (committed_table_is_loaded_back 1377 s s1 "mapping.ini" Hlen Hall Hcommit
           (le_n 1377)).
Defined.

(** ** Loading a pixel row *)

Lemma u8_small (z : Z) : 0 <= z < 256 -> u8 z = z.
Proof. intros H. unfold u8. apply Z.mod_small. exact H. Qed.

Lemma byte_at_in_range (c : list Z) (k : Z) :
  Forall (fun b => 0 <= b < 256) c -> 0 <= byte_at c k < 256.
Proof.
  intros H. unfold byte_at.
  destruct (nth_in_or_default (Z.to_nat k) c 0) as [Hin | ->]; [| lia].
  rewrite List.Forall_forall in H. apply H. exact Hin.
Qed.

Lemma firstn_skipn_cons (c : list Z) :
  forall (k j : nat),
    (k < length c)%nat ->
    firstn (S j) (skipn k c) = nth k c 0 :: firstn j (skipn (S k) c).
Proof.
  induction c as [| a c IH]; intros k j H; cbn [length] in H; [lia |].
  destruct k as [| k].
  - reflexivity.
  - cbn [skipn nth]. apply IH. lia.
Qed.

Lemma store_after_prefix {A} (X d : list A) (x : A) (j : nat) :
  length X = j -> (j < length d)%nat ->
  firstn j (X ++ skipn j d) ++ x :: skipn (S j) (X ++ skipn j d)
  = (X ++ [x]) ++ skipn (S j) d.
Proof.
  intros <- H. rewrite firstn_app, Nat.sub_diag, firstn_all.
  cbn [firstn]. rewrite app_nil_r.
  rewrite skipn_app, skipn_all2 by lia.
  replace (S (length X) - length X)%nat with 1%nat by lia.
  rewrite skipn_skipn. cbn [app]. rewrite <- app_assoc.
  replace (1 + length X)%nat with (S (length X)) by lia. reflexivity.
Qed.

Lemma row_bytes_cases (W : Z) :
  0 <= W ->
  (W mod 8 = 0 /\ row_bytes W = W / 8) \/ (0 < W mod 8 /\ row_bytes W = W / 8 + 1).
Proof.
  intros HW. unfold row_bytes.
  pose proof (Z.mod_pos_bound W 8 ltac:(lia)) as Hm.
  pose proof (Z.div_mod W 8 ltac:(lia)) as Hd.
  destruct (Z.eq_dec (W mod 8) 0) as [E | E]; [left | right]; (split; [lia |]).
  - replace (W + 7) with (7 + (W / 8) * 8) by lia.
    rewrite Z.div_add by lia. reflexivity.
  - replace (W + 7) with ((W mod 8 - 1) + (W / 8 + 1) * 8) by lia.
    rewrite Z.div_add by lia. rewrite Z.div_small by lia. lia.
Qed.

Lemma row_padded_cases (W : Z) :
  0 <= W ->
  (row_bytes W mod 4 = 0 /\ row_padded W = row_bytes W) \/
  (0 < row_bytes W mod 4 /\ row_padded W = row_bytes W + 4 - row_bytes W mod 4).
Proof.
  intros HW. unfold row_padded.
  assert (Hb : 0 <= row_bytes W) by (unfold row_bytes; apply Z.div_pos; lia).
  generalize dependent (row_bytes W). intros b Hb.
  pose proof (Z.mod_pos_bound b 4 ltac:(lia)) as Hm.
  pose proof (Z.div_mod b 4 ltac:(lia)) as Hd.
  destruct (Z.eq_dec (b mod 4) 0) as [E | E]; [left | right]; (split; [lia |]).
  - replace (b + 3) with (3 + (b / 4) * 4) by lia.
    rewrite Z.div_add by lia. rewrite Z.div_small by lia. lia.
  - replace (b + 3) with ((b mod 4 - 1) + (b / 4 + 1) * 4) by lia.
    rewrite Z.div_add by lia. rewrite Z.div_small by lia. lia.
Qed.

Section RowReader.

Variables (V : gmap string entry) (lg : list sd_event) (q : string) (wr : bool).
Variables (c : list Z) (bw bh : Z) (bt : BitmapType) (ml : MappingList).

Hypothesis file_there : V !! q = Some (EFile c).
Hypothesis bytes_in_range : Forall (fun b => 0 <= b < 256) c.
Hypothesis file_size_fits : Z.of_nat (length c) < 4294967296.

(** The state while the row is read: the cursor at [k], the buffer [d]. *)
Local Abbreviation St k d :=
  {| sd := V; sd_log := lg;
     file := Some {| h_path := q; h_pos := k; h_write := wr |};
     bitmap := {| width := bw; height := bh; type := bt; data := d |};
     mappinglist := ml |}.

Lemma St_file_read (k : Z) (d : heap_array) :
  0 <= k < Z.of_nat (length c) ->
  file_read (St k d) = Done (byte_at c k, St (k + 1) d).
Proof.
  intros Hk. unfold file_read, bind, get, handle_content, modify, ret.
  cbn [file sd h_path h_pos h_write]. rewrite file_there. unfold byte_at.
  destruct (nth_error c (Z.to_nat k)) as [b |] eqn:E.
  - rewrite (nth_error_nth _ _ 0 E). reflexivity.
  - apply nth_error_None in E. lia.
Qed.

Lemma St_file_read_any (k : Z) (d : heap_array) :
  0 <= k ->
  exists b k', file_read (St k d) = Done (b, St k' d) /\ 0 <= k'.
Proof.
  intros Hk. unfold file_read, bind, get, handle_content, modify, ret.
  cbn [file sd h_path h_pos h_write]. rewrite file_there.
  destruct (nth_error c (Z.to_nat k)) as [b |].
  - exists b, (k + 1). split; [reflexivity | lia].
  - exists (-1), k. split; [reflexivity | lia].
Qed.

Lemma St_file_seek (k t : Z) (d : heap_array) :
  0 <= t <= Z.of_nat (length c) ->
  file_seek t (St k d) = Done (true, St t d).
Proof.
  intros Ht. unfold file_seek, bind, get, handle_content, modify, ret.
  cbn [file sd h_path h_pos h_write]. rewrite file_there.
  replace (t <=? Z.of_nat (length c)) with true by (symmetry; apply Z.leb_le; lia).
  rewrite orb_true_r. reflexivity.
Qed.

Lemma St_file_available (k : Z) (d : heap_array) :
  file_available (St k d) = Done (Z.of_nat (length c) - k, St k d).
Proof.
  unfold file_available, bind, get, handle_content, ret.
  cbn [file sd h_path h_pos h_write]. rewrite file_there. reflexivity.
Qed.

Lemma St_store_next_byte (k : Z) (d : heap_array) (counter : nat) :
  0 <= k < Z.of_nat (length c) ->
  (counter < length d)%nat -> Z.of_nat counter < 65535 ->
  store_next_byte (Z.of_nat counter) (St k d)
  = Done (Z.of_nat (S counter),
          St (k + 1) (firstn counter d ++ Some (byte_at c k) :: skipn (S counter) d)).
Proof.
  intros Hk Hc H16. unfold store_next_byte.
  erewrite bind_done by (apply St_file_read; exact Hk).
  unfold bind, get, lift, modify, ret. cbn [bitmap data].
  unfold array_set.
  replace ((0 <=? Z.of_nat counter) && (Z.of_nat counter <? Z.of_nat (length d))) with true
    by (symmetry; apply andb_true_iff; split; [apply Z.leb_le | apply Z.ltb_lt]; lia).
  rewrite Nat2Z.id, list_set_split by exact Hc.
  rewrite (u8_small (byte_at c k)) by (apply byte_at_in_range; exact bytes_in_range).
  rewrite u16_small by lia.
  unfold set_data, set_bitmap. cbn [sd sd_log file bitmap mappinglist width height type].
  replace (Z.of_nat counter + 1) with (Z.of_nat (S counter)) by lia. reflexivity.
Qed.

(** Past the end of the buffer the store is an access outside the
    array, whatever the file has left. *)
Lemma St_store_overflow (k : Z) (d : heap_array) :
  0 <= k ->
  store_next_byte (Z.of_nat (length d)) (St k d)
  = Undefined (WritePastEnd (Z.of_nat (length d))).
Proof.
  intros Hk. unfold store_next_byte.
  destruct (St_file_read_any k d Hk) as (b & k' & Hread & _).
  erewrite bind_done by exact Hread.
  unfold bind, get, lift. cbn [bitmap data]. unfold array_set.
  rewrite Z.ltb_irrefl, andb_false_r. reflexivity.
Qed.

Lemma St_store_any (k : Z) (d : heap_array) (counter : nat) :
  0 <= k -> (counter < length d)%nat -> Z.of_nat counter < 65535 ->
  exists k' d',
    store_next_byte (Z.of_nat counter) (St k d) = Done (Z.of_nat (S counter), St k' d') /\
    0 <= k' /\ length d' = length d.
Proof.
  intros Hk Hc H16. unfold store_next_byte.
  destruct (St_file_read_any k d Hk) as (b & k' & Hread & Hk').
  erewrite bind_done by exact Hread.
  unfold bind, get, lift, modify, ret. cbn [bitmap data].
  unfold array_set.
  replace ((0 <=? Z.of_nat counter) && (Z.of_nat counter <? Z.of_nat (length d))) with true
    by (symmetry; apply andb_true_iff; split; [apply Z.leb_le | apply Z.ltb_lt]; lia).
  rewrite u16_small by lia.
  exists k', (list_set d (Z.to_nat (Z.of_nat counter)) (Some (u8 b))).
  split; [| split; [exact Hk' | apply list_set_length]].
  unfold set_data, set_bitmap. cbn [sd sd_log file bitmap mappinglist width height type].
  replace (Z.of_nat counter + 1) with (Z.of_nat (S counter)) by lia. reflexivity.
Qed.

(** The inner loop stores the whole bytes of the row one after the
    other. *)
Lemma read_whole_bytes_reads (W : Z) :
  forall (j n : nat) (k : Z) (d : heap_array) (counter br : nat),
    (j < n)%nat -> 0 <= k -> k + Z.of_nat j <= Z.of_nat (length c) ->
    (counter + j <= length d)%nat -> Z.of_nat (counter + j) < 65536 ->
    Z.of_nat (br + j) = W / 8 -> W / 8 < 65536 ->
    read_whole_bytes n W (Z.of_nat counter) (Z.of_nat br) (St k d)
    = Done ((Z.of_nat (counter + j), W / 8),
            St (k + Z.of_nat j)
               (firstn counter d ++ map Some (firstn j (skipn (Z.to_nat k) c))
                ++ skipn (counter + j) d)).
Proof.
  induction j as [| j IH]; intros n k d counter br Hn Hk Hfile Hfit H16 Hbr Hw.
  - destruct n as [| n]; [lia |]. cbn [read_whole_bytes].
    replace (Z.of_nat br <? W / 8) with false by (symmetry; apply Z.ltb_ge; lia).
    rewrite !Nat.add_0_r, Z.add_0_r in *. cbn [firstn map app].
    rewrite firstn_skipn, <- Hbr. reflexivity.
  - destruct n as [| n]; [lia |]. cbn [read_whole_bytes].
    replace (Z.of_nat br <? W / 8) with true by (symmetry; apply Z.ltb_lt; lia).
    erewrite bind_done by (apply St_store_next_byte; lia).
    rewrite (u16_small (Z.of_nat br + 1)) by lia.
    replace (Z.of_nat br + 1) with (Z.of_nat (S br)) by lia.
    rewrite (IH n (k + 1) _ (S counter) (S br)); try lia.
    2:{ rewrite length_app, length_firstn. cbn [length]. rewrite length_skipn. lia. }
    replace (S counter + j)%nat with (counter + S j)%nat by lia.
    replace (k + 1 + Z.of_nat j) with (k + Z.of_nat (S j)) by lia.
    do 3 f_equal.
    rewrite (firstn_skipn_cons c (Z.to_nat k) j) by lia.
    replace (Z.to_nat (k + 1)) with (S (Z.to_nat k)) by lia.
    pose proof (firstn_write d (map Some (firstn j (skipn (S (Z.to_nat k)) c))) counter
                  (Some (byte_at c k)) ltac:(lia)) as E.
    rewrite length_map, length_firstn, length_skipn in E.
    replace (Init.Nat.min j (length c - S (Z.to_nat k)))%nat with j in E by lia.
    cbn [length] in E. rewrite length_map, length_firstn, length_skipn in E.
    replace (Init.Nat.min j (length c - S (Z.to_nat k)))%nat with j in E by lia.
    replace (S counter + j)%nat with (counter + S j)%nat in E by lia.
    cbn [map]. unfold byte_at in E |- *. rewrite E. reflexivity.
Qed.

(** When the index has reached the end of the buffer and the row is not
    finished, the inner loop stores into the cell after the last. *)
Lemma read_whole_bytes_overflow (W : Z) :
  forall (j n : nat) (k : Z) (d : heap_array) (counter br : nat),
    (j < n)%nat -> 0 <= k ->
    (counter + j = length d)%nat -> Z.of_nat (length d) < 65535 ->
    Z.of_nat (br + j) < W / 8 -> W / 8 < 65536 ->
    read_whole_bytes n W (Z.of_nat counter) (Z.of_nat br) (St k d)
    = Undefined (WritePastEnd (Z.of_nat (length d))).
Proof.
  induction j as [| j IH]; intros n k d counter br Hn Hk Hfit H16 Hbr Hw;
    (destruct n as [| n]; [lia |]); cbn [read_whole_bytes];
    (replace (Z.of_nat br <? W / 8) with true by (symmetry; apply Z.ltb_lt; lia)).
  - rewrite Nat.add_0_r in Hfit. subst counter.
    unfold bind. rewrite St_store_overflow by exact Hk. reflexivity.
  - destruct (St_store_any k d counter Hk ltac:(lia) ltac:(lia)) as (k' & d' & Hst & Hk' & Hd').
    erewrite bind_done by exact Hst.
    rewrite (u16_small (Z.of_nat br + 1)) by lia.
    replace (Z.of_nat br + 1) with (Z.of_nat (S br)) by lia.
    rewrite <- Hd'. apply IH; try lia.
Qed.

Lemma St_file_position (k : Z) (d : heap_array) :
  file_position (St k d) = Done (k, St k d).
Proof. reflexivity. Qed.

(** One turn of the outer loop on a fresh buffer: the bytes of the row go
    to the start of the buffer and the cursor moves to the next row. *)
Lemma readMono40_first_line (fuel n : nat) (W k : Z) (d : heap_array) :
  1 <= W < 65536 -> 0 <= k ->
  k + row_padded W <= Z.of_nat (length c) ->
  length d = Z.to_nat (W / 8 + 1) ->
  (Z.to_nat (W / 8) < fuel)%nat ->
  readMono40_lines fuel (S n) W 1 0 (St k d)
  = readMono40_lines fuel n W 1 (row_bytes W)
      (St (k + row_padded W)
          (map Some (firstn (Z.to_nat (row_bytes W)) (skipn (Z.to_nat k) c))
           ++ skipn (Z.to_nat (row_bytes W)) d)).
Proof.
  intros HW Hk Hfile Hd Hfuel.
  assert (Hdiv : 0 <= W / 8 < 8192).
  { split; [apply Z.div_pos; lia | apply Z.div_lt_upper_bound; lia]. }
  pose proof (Z.mod_pos_bound W 8 ltac:(lia)) as Hmod.
  pose proof (row_bytes_cases W ltac:(lia)) as Hrb.
  pose proof (row_padded_cases W ltac:(lia)) as Hrp.
  pose proof (Z.mod_pos_bound (row_bytes W) 4 ltac:(lia)) as Hmod4.
  assert (Hbl : 1 <= row_bytes W).
  { destruct Hrb as [[E Hb] | [E Hb]]; rewrite Hb; [| lia].
    pose proof (Z.div_mod W 8 ltac:(lia)). lia. }
  cbn [readMono40_lines].
  erewrite bind_done by apply St_file_available.
  replace (negb (Z.of_nat (length c) - k =? 0) && (0 <? u32 (1 * W))) with true.
  2:{ symmetry. apply andb_true_iff. split.
      - apply negb_true_iff. apply Z.eqb_neq. lia.
      - apply Z.ltb_lt. unfold u32. rewrite Z.mod_small by lia. lia. }
  set (jw := Z.to_nat (W / 8)).
  assert (HA : (if W >=? 8 then read_whole_bytes fuel W 0 0 else ret (0, 0)) (St k d)
               = Done ((W / 8, W / 8),
                       St (k + W / 8)
                          (map Some (firstn jw (skipn (Z.to_nat k) c)) ++ skipn jw d))).
  { destruct (W >=? 8) eqn:E8.
    - change (read_whole_bytes fuel W 0 0)
        with (read_whole_bytes fuel W (Z.of_nat 0) (Z.of_nat 0)).
      rewrite (read_whole_bytes_reads W jw fuel k d 0 0); unfold jw; try lia.
      cbn [firstn app Nat.add]. rewrite Z2Nat.id by lia. reflexivity.
    - assert (W / 8 = 0) by (apply Z.div_small; lia).
      unfold ret, jw. rewrite H. cbn [Z.to_nat firstn map app skipn].
      rewrite Z.add_0_r. reflexivity. }
  erewrite bind_done by exact HA. cbv zeta. cbn [fst snd].
  rewrite (u8_small (W mod 8)) by lia.
  assert (HlenA : length (map Some (firstn jw (skipn (Z.to_nat k) c))) = jw).
  { rewrite length_map, length_firstn, length_skipn. unfold jw. lia. }
  assert (HB : (if W mod 8 >? 0
                then bind (store_next_byte (W / 8))
                          (fun counter' => ret (counter', u16 (W / 8 + 1)))
                else ret (W / 8, W / 8))
                 (St (k + W / 8)
                    (map Some (firstn jw (skipn (Z.to_nat k) c)) ++ skipn jw d))
               = Done ((row_bytes W, row_bytes W),
                       St (k + row_bytes W)
                          (map Some (firstn (Z.to_nat (row_bytes W)) (skipn (Z.to_nat k) c))
                           ++ skipn (Z.to_nat (row_bytes W)) d))).
  { destruct Hrb as [[E Hb] | [E Hb]]; rewrite Hb.
    - replace (W mod 8 >? 0) with false by (symmetry; rewrite Z.gtb_ltb; apply Z.ltb_ge; lia).
      reflexivity.
    - replace (W mod 8 >? 0) with true by (symmetry; rewrite Z.gtb_ltb; apply Z.ltb_lt; lia).
      replace (W / 8) with (Z.of_nat jw) at 1 by (unfold jw; lia).
      erewrite bind_done.
      2:{ apply St_store_next_byte.
          - lia.
          - rewrite length_app, HlenA, length_skipn. unfold jw. lia.
          - unfold jw. lia. }
      unfold ret. rewrite u16_small by lia.
      replace (Z.of_nat (S jw)) with (W / 8 + 1) by (unfold jw; lia).
      replace (k + W / 8 + 1) with (k + (W / 8 + 1)) by lia.
      do 3 f_equal.
      replace (Z.to_nat (W / 8 + 1)) with (S jw) by (unfold jw; lia).
      rewrite (store_after_prefix _ d _ jw HlenA) by (unfold jw; lia).
      rewrite (firstn_succ_nth (skipn (Z.to_nat k) c) jw (byte_at c (k + W / 8))).
      2:{ rewrite nth_error_skipn. unfold byte_at.
          replace (Z.to_nat (k + W / 8)) with (Z.to_nat k + jw)%nat by (unfold jw; lia).
          apply nth_error_nth'. unfold jw. lia. }
      rewrite map_app. reflexivity. }
  erewrite bind_done by exact HB. cbn [fst snd].
  destruct Hrp as [[E4 Hp] | [E4 Hp]]; rewrite Hp.
  - replace (row_bytes W mod 4 >? 0) with false by (symmetry; rewrite Z.gtb_ltb; apply Z.ltb_ge; lia).
    unfold ret at 1. unfold bind at 1. reflexivity.
  - replace (row_bytes W mod 4 >? 0) with true by (symmetry; rewrite Z.gtb_ltb; apply Z.ltb_lt; lia).
    erewrite bind_done.
    2:{ erewrite bind_done by apply St_file_position.
        erewrite bind_done.
        2:{ apply St_file_seek. unfold u32. rewrite Z.mod_small by lia. lia. }
        reflexivity. }
    unfold u32. rewrite Z.mod_small by lia.
    replace (k + row_bytes W + 4 - row_bytes W mod 4)
      with (k + (row_bytes W + 4 - row_bytes W mod 4)) by lia.
    reflexivity.
Qed.

Lemma St_file_read_to (k k' : Z) (d : heap_array) :
  0 <= k < Z.of_nat (length c) -> k' = k + 1 ->
  file_read (St k d) = Done (byte_at c k, St k' d).
Proof. intros Hk ->. apply St_file_read. exact Hk. Qed.

Ltac row_header_step :=
  erewrite bind_done
    by first [ apply St_file_seek; lia
             | apply St_file_read_to; [lia | vm_compute; reflexivity] ].

Lemma le_value_small (k W : Z) :
  le_value c k = W -> 0 <= W < 65536 ->
  byte_at c k + 256 * byte_at c (k + 1) = W /\
  byte_at c (k + 2) = 0 /\ byte_at c (k + 3) = 0.
Proof.
  unfold le_value. intros H HW.
  pose proof (byte_at_in_range c k bytes_in_range).
  pose proof (byte_at_in_range c (k + 1) bytes_in_range).
  pose proof (byte_at_in_range c (k + 2) bytes_in_range).
  pose proof (byte_at_in_range c (k + 3) bytes_in_range).
  lia.
Qed.

Section Header.

Variable W : Z.

Hypothesis file_long : 30 < Z.of_nat (length c).
Hypothesis dib_low : byte_at c 14 = 40.
Hypothesis dib_high : byte_at c 15 = 0.
Hypothesis width_field : le_value c 18 = W.
Hypothesis width_small : 0 <= W < 65536.

Lemma St_readDIB (k : Z) (d : heap_array) :
  _readDIB (St k d) = Done (40, St 16 d).
Proof.
  unfold _readDIB. repeat row_header_step. rewrite dib_low, dib_high. reflexivity.
Qed.

Lemma St_read_int32_le (k v : Z) (d : heap_array) :
  0 <= k -> k + 3 < Z.of_nat (length c) ->
  le_value c k = v -> 0 <= v < 65536 ->
  read_int32_le (St k d) = Done (v, St (k + 4) d).
Proof.
  intros Hk Hk3 Hv Hsmall. unfold read_int32_le.
  erewrite bind_done by (apply St_file_read; lia).
  erewrite bind_done by (apply St_file_read; lia).
  erewrite bind_done by (apply St_file_read; lia).
  erewrite bind_done by (apply St_file_read; lia).
  replace (k + 1 + 1) with (k + 2) by lia. replace (k + 2 + 1) with (k + 3) by lia.
  replace (k + 3 + 1) with (k + 4) by lia.
  destruct (le_value_small k v Hv Hsmall) as (Hlow & H2 & H3).
  rewrite H2, H3.
  pose proof (byte_at_in_range c k bytes_in_range).
  pose proof (byte_at_in_range c (k + 1) bytes_in_range).
  rewrite Z.shiftl_mul_pow2 by lia.
  change (Z.shiftl 0 16) with 0. change (Z.shiftl 0 24) with 0.
  change (i32 0) with 0. change (2 ^ 8) with 256.
  rewrite (i32_small (byte_at c (k + 1) * 256)) by lia.
  rewrite !Z.add_0_r. rewrite i32_small by lia.
  unfold ret. do 2 f_equal. lia.
Qed.

Lemma St_readWidth (k : Z) (d : heap_array) :
  _readWidth (St k d) = Done (W, St 22 d).
Proof.
  unfold _readWidth. erewrite bind_done by apply St_readDIB.
  cbn [Z.eqb Pos.eqb]. row_header_step.
  apply (St_read_int32_le 18 W d); [lia | lia | exact width_field | exact width_small].
Qed.

Lemma St_readOffset (k : Z) (d : heap_array) :
  _readOffset (St k d) = Done (le_value c 10, St 14 d).
Proof.
  unfold _readOffset. repeat row_header_step.
  pose proof (byte_at_in_range c 10 bytes_in_range).
  pose proof (byte_at_in_range c 11 bytes_in_range).
  pose proof (byte_at_in_range c 12 bytes_in_range).
  pose proof (byte_at_in_range c 13 bytes_in_range).
  rewrite !(u32_small (byte_at c _)) by lia.
  rewrite !Z.shiftl_mul_pow2 by lia.
  change (2 ^ 8) with 256. change (2 ^ 16) with 65536. change (2 ^ 24) with 16777216.
  rewrite !(u32_small (byte_at c _ * _)) by lia.
  rewrite u32_small by lia.
  unfold ret, le_value. do 2 f_equal.
  change (10 + 1) with 11. change (10 + 2) with 12. change (10 + 3) with 13. lia.
Qed.

Lemma St_readHeight (H k : Z) (d : heap_array) :
  le_value c 22 = H -> 0 <= H < 65536 ->
  _readHeight (St k d) = Done (H, St 26 d).
Proof.
  intros HH Hsmall.
  unfold _readHeight. erewrite bind_done by apply St_readDIB.
  cbn [Z.eqb Pos.eqb]. row_header_step.
  erewrite bind_done by (apply (St_read_int32_le 22 H d); [lia | lia | exact HH | exact Hsmall]).
  replace (H <? 0) with false by (symmetry; apply Z.ltb_ge; lia).
  reflexivity.
Qed.

Lemma St_readBitsPerPixel (k : Z) (d : heap_array) :
  _readBitsPerPixel (St k d) = Done (u8 (byte_at c 28), St 29 d).
Proof.
  unfold _readBitsPerPixel. erewrite bind_done by apply St_readDIB.
  cbn [Z.eqb Pos.eqb]. repeat row_header_step. reflexivity.
Qed.

Lemma St_readCompressionMethod (k : Z) (d : heap_array) :
  _readCompressionMethod (St k d) = Done (u8 (byte_at c 30), St 31 d).
Proof.
  unfold _readCompressionMethod. erewrite bind_done by apply St_readDIB.
  cbn [Z.eqb Pos.eqb]. repeat row_header_step. reflexivity.
Qed.

(** [readMono40] up to its loop: the buffer is replaced by a fresh one of
    [W / 8 + 1] bytes and the cursor is put where the row is taken to
    start. *)
Lemma readMono40_to_the_loop (fuel : nat) (row k : Z) (d : heap_array) :
  0 <= row -> row_start c W row <= Z.of_nat (length c) ->
  readMono40 fuel row 1 (St k d)
  = readMono40_lines fuel fuel W 1 0 (St (row_start c W row) (new_array (W / 8 + 1))).
Proof.
  intros Hrow Hstart.
  assert (Hdiv : 0 <= W / 8 < 8192).
  { split; [apply Z.div_pos; lia | apply Z.div_lt_upper_bound; lia]. }
  assert (Hdiv32 : 0 <= W / 32) by (apply Z.div_pos; lia).
  assert (Hu8 : 0 <= u8 (le_value c 10) < 256) by (apply Z.mod_pos_bound; lia).
  assert (H0 : 0 <= row_start c W row) by (unfold row_start; nia).
  unfold readMono40.
  erewrite bind_done by apply St_readWidth.
  cbv zeta. rewrite (u32_small W) by lia.
  erewrite bind_done by apply St_readOffset.
  rewrite (u32_small (W / 8 + 1)) by lia.
  unfold modify at 1. unfold bind at 1.
  unfold set_data, set_bitmap. cbn [sd sd_log file bitmap mappinglist width height type].
  fold (row_start c W row). rewrite (u32_small (row_start c W row)) by lia.
  erewrite bind_done by (apply St_file_seek; lia).
  reflexivity.
Qed.

Lemma length_first_line_data (k : Z) (d : heap_array) :
  1 <= W -> 0 <= k -> k + row_bytes W <= Z.of_nat (length c) ->
  length d = Z.to_nat (W / 8 + 1) ->
  length (map Some (firstn (Z.to_nat (row_bytes W)) (skipn (Z.to_nat k) c))
          ++ skipn (Z.to_nat (row_bytes W)) d)
  = Z.to_nat (W / 8 + 1).
Proof.
  intros HW Hk Hfile Hd.
  assert (Hdiv : 0 <= W / 8) by (apply Z.div_pos; lia).
  pose proof (row_bytes_cases W ltac:(lia)) as Hrb.
  rewrite length_app, length_map, length_firstn, !length_skipn, Hd. lia.
Qed.

Lemma St_readMono40_last_row (fuel : nat) (row k : Z) (d : heap_array) :
  1 <= W -> 0 <= row ->
  row_start c W row + row_padded W = Z.of_nat (length c) ->
  (Z.to_nat (W / 8) + 2 <= fuel)%nat ->
  readMono40 fuel row 1 (St k d)
  = Done (tt, St (Z.of_nat (length c))
                 (map Some (firstn (Z.to_nat (row_bytes W))
                                   (skipn (Z.to_nat (row_start c W row)) c))
                  ++ skipn (Z.to_nat (row_bytes W)) (new_array (W / 8 + 1)))).
Proof.
  intros HW Hrow Hlast Hfuel.
  assert (Hdiv : 0 <= W / 8) by (apply Z.div_pos; lia).
  assert (Hdiv32 : 0 <= W / 32) by (apply Z.div_pos; lia).
  assert (Hu8 : 0 <= u8 (le_value c 10) < 256) by (apply Z.mod_pos_bound; lia).
  assert (H0 : 0 <= row_start c W row) by (unfold row_start; nia).
  assert (Hpad : 0 <= row_padded W).
  { unfold row_padded, row_bytes.
    assert (0 <= (W + 7) / 8) by (apply Z.div_pos; lia).
    assert (0 <= ((W + 7) / 8 + 3) / 4) by (apply Z.div_pos; lia). lia. }
  rewrite readMono40_to_the_loop by lia.
  destruct fuel as [| [| n]]; try lia.
  rewrite readMono40_first_line; try lia.
  2:{ unfold new_array. rewrite repeat_length. reflexivity. }
  cbn [readMono40_lines].
  erewrite bind_done by apply St_file_available.
  rewrite Hlast, Z.sub_diag. reflexivity.
Qed.

Lemma St_readMono40_overrun (fuel : nat) (row k : Z) (d : heap_array) :
  9 <= W -> 0 <= row ->
  row_start c W row + row_padded W < Z.of_nat (length c) ->
  (Z.to_nat (W / 8) + 2 <= fuel)%nat ->
  readMono40 fuel row 1 (St k d) = Undefined (WritePastEnd (W / 8 + 1)).
Proof.
  intros HW Hrow Hnext Hfuel.
  assert (Hdiv : 1 <= W / 8 < 8192).
  { split; [apply Z.div_le_lower_bound; lia | apply Z.div_lt_upper_bound; lia]. }
  assert (Hdiv32 : 0 <= W / 32) by (apply Z.div_pos; lia).
  assert (Hu8 : 0 <= u8 (le_value c 10) < 256) by (apply Z.mod_pos_bound; lia).
  assert (H0 : 0 <= row_start c W row) by (unfold row_start; nia).
  pose proof (row_bytes_cases W ltac:(lia)) as Hrb.
  pose proof (row_padded_cases W ltac:(lia)) as Hrp.
  pose proof (Z.mod_pos_bound (row_bytes W) 4 ltac:(lia)) as Hmod4.
  pose proof (Z.mod_pos_bound W 8 ltac:(lia)) as Hmod8.
  pose proof (Z.div_mod W 8 ltac:(lia)) as Hdm.
  rewrite readMono40_to_the_loop by lia.
  destruct fuel as [| [| n]]; try lia.
  rewrite readMono40_first_line; try lia.
  2:{ unfold new_array. rewrite repeat_length. reflexivity. }
  cbn [readMono40_lines].
  erewrite bind_done by apply St_file_available.
  replace (negb (Z.of_nat (length c) - (row_start c W row + row_padded W) =? 0)
           && (row_bytes W <? u32 (1 * W))) with true.
  2:{ symmetry. apply andb_true_iff. split.
      - apply negb_true_iff. apply Z.eqb_neq. lia.
      - apply Z.ltb_lt. rewrite u32_small by lia. lia. }
  replace (W >=? 8) with true by (symmetry; rewrite Z.geb_leb; apply Z.leb_le; lia).
  set (d2 := map Some _ ++ skipn _ _).
  assert (Hd2 : length d2 = Z.to_nat (W / 8 + 1)).
  { apply length_first_line_data; try lia.
    unfold new_array. rewrite repeat_length. reflexivity. }
  pose proof (read_whole_bytes_overflow W (length d2 - Z.to_nat (row_bytes W))
                (S (S n)) (row_start c W row + row_padded W) d2
                (Z.to_nat (row_bytes W)) 0
                ltac:(lia) ltac:(lia) ltac:(lia) ltac:(lia) ltac:(lia) ltac:(lia)) as Hov.
  rewrite Z2Nat.id in Hov by lia. change (Z.of_nat 0) with 0 in Hov.
  unfold bind at 1. rewrite Hov, Hd2, Z2Nat.id by lia. reflexivity.
Qed.

End Header.

End RowReader.

Lemma skipn_repeat_none {A} (x : A) (n m : nat) :
  skipn n (repeat x m) = repeat x (m - n).
Proof.
  revert m. induction n as [| n IH]; intros m.
  - rewrite Nat.sub_0_r. reflexivity.
  - destruct m as [| m]; [reflexivity |]. cbn [repeat skipn]. apply IH.
Qed.

Lemma spare_cell (W : Z) :
  0 <= W ->
  skipn (Z.to_nat (row_bytes W)) (new_array (W / 8 + 1))
  = if W mod 8 =? 0 then [None] else [].
Proof.
  intros HW. assert (Hdiv : 0 <= W / 8) by (apply Z.div_pos; lia).
  unfold new_array. rewrite skipn_repeat_none.
  destruct (row_bytes_cases W HW) as [[E Hb] | [E Hb]]; rewrite Hb.
  - rewrite E. cbn [Z.eqb].
    replace (Z.to_nat (W / 8 + 1) - Z.to_nat (W / 8))%nat with 1%nat by lia. reflexivity.
  - replace (W mod 8 =? 0) with false by (symmetry; apply Z.eqb_neq; lia).
    replace (Z.to_nat (W / 8 + 1) - Z.to_nat (W / 8 + 1))%nat with 0%nat by lia. reflexivity.
Qed.

(** X26.  [readMono40] on the last row of the file.  For a 1-bit bitmap
    with the 40-byte info header and a width [W] below 65536, when the
    place the row is looked for, [offset + row * 4 * (1 + W / 32)], is
    one padded row before the end of the file, [readMono40 (row, 1)]
    returns with a fresh buffer of [W / 8 + 1] bytes that holds the
    [(W + 7) / 8] bytes of the row; when [W] is a multiple of 8 the last
    cell is allocated and never written.  Nothing else of the state
    changes but the cursor. *)
Theorem readMono40_loads_the_last_row
    (fuel : nat) (s : Storage) (h : handle) (c : list Z) (W row : Z) :
  open_on h c s -> mono_header c W ->
  1 <= W < 65536 -> 0 <= row ->
  row_start c W row + row_padded W = Z.of_nat (length c) ->
  (Z.to_nat (W / 8) + 2 <= fuel)%nat ->
  exists s',
    readMono40 fuel row 1 s = Done (tt, s') /\
    data (bitmap s')
    = map Some (firstn (Z.to_nat (row_bytes W)) (skipn (Z.to_nat (row_start c W row)) c))
      ++ (if W mod 8 =? 0 then [None] else []) /\
    width (bitmap s') = width (bitmap s) /\ height (bitmap s') = height (bitmap s) /\
    type (bitmap s') = type (bitmap s) /\
    sd s' = sd s /\ sd_log s' = sd_log s /\ mappinglist s' = mappinglist s.
Proof.
  intros [Hf Hl] (Hb & [Hl30 Hl32] & H14 & H15 & HWf) HW Hrow Hlast Hfuel.
  destruct s as [V lg f [bw bh bt d] ml]. cbn [file sd] in Hf, Hl. subst f.
  destruct h as [q k wr]. cbn [h_path] in Hl.
  eexists. split.
  - apply (St_readMono40_last_row V lg q wr c bw bh bt ml Hl Hb Hl32 W Hl30 H14 H15 HWf
             ltac:(lia) fuel row k d ltac:(lia) Hrow Hlast Hfuel).
  - cbn [bitmap data width height type sd sd_log mappinglist].
    rewrite spare_cell by lia. repeat split; reflexivity.
Qed.

Lemma readMono40_loads_the_last_row_witness :
  let c := bmp_mono 16 2 [1; 2; 0; 0; 3; 4; 0; 0] in
  let h := {| h_path := "a.bmp"; h_pos := 0; h_write := false |} in
  let s := set_file (Some h) (fresh_store {[ "a.bmp"%string := EFile c ]}) in
  open_on h c s /\ mono_header c 16 /\ 1 <= 16 < 65536 /\ 0 <= 1 /\
  row_start c 16 1 + row_padded 16 = Z.of_nat (length c) /\
  (Z.to_nat (16 / 8) + 2 <= 8)%nat /\
  exists s',
    readMono40 8 1 1 s = Done (tt, s') /\
    data (bitmap s')
    = map Some (firstn (Z.to_nat (row_bytes 16)) (skipn (Z.to_nat (row_start c 16 1)) c))
      ++ (if 16 mod 8 =? 0 then [None] else []) /\
    width (bitmap s') = width (bitmap s) /\ height (bitmap s') = height (bitmap s) /\
    type (bitmap s') = type (bitmap s) /\
    sd s' = sd s /\ sd_log s' = sd_log s /\ mappinglist s' = mappinglist s.
Proof.
  intros c h s.
  assert (Hopen : open_on h c s) by (split; reflexivity).
  assert (Hhdr : mono_header c 16).
  { split; [| split; [| split; [| split]]].
    - apply List.Forall_forall. intros b Hin. vm_compute in Hin.
      repeat (destruct Hin as [<- | Hin]; [lia |]). destruct Hin.
    - vm_compute. split; reflexivity.
    - reflexivity.
    - reflexivity.
    - reflexivity. }
  assert (HW : 1 <= 16 < 65536) by lia.
  assert (Hrow : 0 <= 1) by lia.
  assert (Hlast : row_start c 16 1 + row_padded 16 = Z.of_nat (length c)) by reflexivity.
  assert (Hfuel : (Z.to_nat (16 / 8) + 2 <= 8)%nat) by (vm_compute; lia).
  split; [exact Hopen |]. split; [exact Hhdr |]. split; [exact HW |].
  split; [exact Hrow |]. split; [exact Hlast |]. split; [exact Hfuel |].
  exact (readMono40_loads_the_last_row 8 s h c 16 1 Hopen Hhdr HW Hrow Hlast Hfuel).
Defined.

(** X27.  [readMono40] does not stop after the row it was asked for.  Its
    loop runs while [counter < amount * width] with [counter] counting
    bytes, so with [amount] 1 it goes on to the next row of the file;
    the buffer has [W / 8 + 1] bytes.  For a width from 9 to 65535,
    when the file goes on after the padded row, the call stores into
    [data[W / 8 + 1]], the cell after the end of the buffer. *)
Theorem readMono40_runs_into_the_next_row
    (fuel : nat) (s : Storage) (h : handle) (c : list Z) (W row : Z) :
  open_on h c s -> mono_header c W ->
  9 <= W < 65536 -> 0 <= row ->
  row_start c W row + row_padded W < Z.of_nat (length c) ->
  (Z.to_nat (W / 8) + 2 <= fuel)%nat ->
  readMono40 fuel row 1 s = Undefined (WritePastEnd (W / 8 + 1)).
Proof.
  intros [Hf Hl] (Hb & [Hl30 Hl32] & H14 & H15 & HWf) HW Hrow Hnext Hfuel.
  destruct s as [V lg f [bw bh bt d] ml]. cbn [file sd] in Hf, Hl. subst f.
  destruct h as [q k wr]. cbn [h_path] in Hl.
  apply (St_readMono40_overrun V lg q wr c bw bh bt ml Hl Hb Hl32 W Hl30 H14 H15 HWf
           ltac:(lia) fuel row k d ltac:(lia) Hrow Hnext Hfuel).
Qed.

Lemma readMono40_runs_into_the_next_row_witness :
  let c := bmp_mono 16 2 [1; 2; 0; 0; 3; 4; 0; 0] in
  let h := {| h_path := "a.bmp"; h_pos := 0; h_write := false |} in
  let s := set_file (Some h) (fresh_store {[ "a.bmp"%string := EFile c ]}) in
  open_on h c s /\ mono_header c 16 /\ 9 <= 16 < 65536 /\ 0 <= 0 /\
  row_start c 16 0 + row_padded 16 < Z.of_nat (length c) /\
  (Z.to_nat (16 / 8) + 2 <= 8)%nat /\
  readMono40 8 0 1 s = Undefined (WritePastEnd (16 / 8 + 1)).
Proof.
  intros c h s.
  assert (Hopen : open_on h c s) by (split; reflexivity).
  assert (Hhdr : mono_header c 16).
  { split; [| split; [| split; [| split]]].
    - apply List.Forall_forall. intros b Hin. vm_compute in Hin.
      repeat (destruct Hin as [<- | Hin]; [lia |]). destruct Hin.
    - vm_compute. split; reflexivity.
    - reflexivity.
    - reflexivity.
    - reflexivity. }
  assert (HW : 9 <= 16 < 65536) by lia.
  assert (Hrow : 0 <= 0) by lia.
  assert (Hnext : row_start c 16 0 + row_padded 16 < Z.of_nat (length c)) by reflexivity.
  assert (Hfuel : (Z.to_nat (16 / 8) + 2 <= 8)%nat) by (vm_compute; lia).
  split; [exact Hopen |]. split; [exact Hhdr |]. split; [exact HW |].
  split; [exact Hrow |]. split; [exact Hnext |]. split; [exact Hfuel |].
  exact (readMono40_runs_into_the_next_row 8 s h c 16 0 Hopen Hhdr HW Hrow Hnext Hfuel).
Defined.


(** ** The encoder on a bitmap of several rows *)

(** The encoder starts with row 0. *)
Lemma encodeBitmap_starts_with_row_0 (fuel : nat) (a b : string) (s : Storage) (f : fault) :
  (1 <= fuel)%nat ->
  0 < width (bitmap s) -> 0 < height (bitmap s) ->
  readMono40 fuel 0 1 s = Undefined f ->
  encodeBitmap fuel a b s = Undefined f.
Proof.
  intros Hfuel Hw Hh Hrow. unfold encodeBitmap.
  destruct fuel as [| n]; [lia |].
  cbn [encode_rows]. unfold bind at 1. unfold get at 1.
  replace (0 <? height (bitmap s)) with true by (symmetry; apply Z.ltb_lt; exact Hh).
  unfold bind at 1. cbn [encode_row]. unfold bind at 1. unfold get at 1.
  replace (0 <? width (bitmap s)) with true by (symmetry; apply Z.ltb_lt; exact Hw).
  unfold bind at 1. unfold findScanline. change (u16 (i16 0)) with 0.
  unfold bind at 1. rewrite Hrow. reflexivity.
Qed.

(** The directory of the companions is made when it is missing; what is
    on the volume stays there. *)
Lemma enc_directory_step {A} (k : M A) (s : Storage) :
  exists V' lg',
    (enc <- SD_exists "/enc" ;;
     (if negb enc then (SD_mkdir "enc" ;;; ret tt) else ret tt) ;;;
     k) s
    = k {| sd := V'; sd_log := lg'; file := file s; bitmap := bitmap s;
           mappinglist := mappinglist s |} /\
    forall q e, sd s !! q = Some e -> V' !! q = Some e.
Proof.
  cbv beta iota delta [SD_exists SD_mkdir bind get ret modify].
  destruct (vol_exists (sd s) "/enc") eqn:Henc; cbn [negb].
  - exists (sd s), (sd_log s). split; [destruct s; reflexivity | auto].
  - change (vol_exists (sd s) "enc") with (vol_exists (sd s) "/enc"). rewrite Henc.
    destruct (parent_is_dir (sd s) "enc").
    + exists (<[canon "enc" := EDir]> (sd s)), (EvMkdir (canon "enc") :: sd_log s).
      split; [reflexivity |].
      intros q e Hq. rewrite lookup_insert_ne; [exact Hq |].
      intros E. unfold vol_exists in Henc.
      change (path_components "/enc") with ["enc"%string] in Henc.
      change (canon "/enc") with (canon "enc") in Henc.
      rewrite E, Hq in Henc. discriminate.
    + exists (sd s), (sd_log s). split; [destruct s; reflexivity | auto].
Qed.

(** X28.  a bitmap of more than one row cannot be loaded.  For a 1-bit
    uncompressed bitmap of a width from 9 to 65535 and at least one row
    that has no companion file yet, [getBitmap] starts the encoder,
    which asks [readMono40] for row 0; when the file goes on after that
    row, as it does when the bitmap has a second row, the call stores
    past the end of the row buffer. *)
Theorem getBitmap_encoding_overruns_the_row_buffer
    (fuel : nat) (s s1 : Storage) (p : string) (h : handle) (c : list Z)
    (W H row amount : Z) :
  fileOpenToRead p s = Done (true, s1) ->
  open_on h c s1 ->
  mono_header c W -> 9 <= W < 65536 ->
  le_value c 22 = H -> 1 <= H < 65536 ->
  byte_at c 28 = 1 -> byte_at c 30 = 0 ->
  (String.length (strtok_dot (String.substring 0 29 (base_name (h_path h)))) + 4 < 30)%nat ->
  vol_exists (sd s1)
    ("/enc/" ++ strtok_dot (String.substring 0 29 (base_name (h_path h))) ++ ".cbm") = false ->
  row_start c W 0 + row_padded W < Z.of_nat (length c) ->
  (Z.to_nat (W / 8) + 2 <= fuel)%nat ->
  getBitmap fuel p row amount s = Undefined (WritePastEnd (W / 8 + 1)).
Proof.
  intros Hopen [Hf Hl] Hhdr HW HH HHs H28 H30 Hstem Hcomp Hnext Hfuel.
  pose proof Hhdr as (Hb & [Hl30 Hl32] & H14 & H15 & HWf).
  destruct s1 as [V lg f [bw bh bt d] ml]. cbn [file sd] in Hf, Hl, Hcomp. subst f.
  destruct h as [q k wr]. cbn [h_path] in Hl, Hstem, Hcomp.
  unfold getBitmap. rewrite (bind_done _ _ _ _ _ Hopen). cbn [negb].
  unfold bind at 1. unfold readBitmap.
  erewrite bind_done
    by (apply (St_readWidth V lg q wr c bw bh bt ml Hl Hb W Hl30 H14 H15 HWf ltac:(lia))).
  erewrite bind_done
    by (apply (St_readHeight V lg q wr c bw bh bt ml Hl Hb Hl30 H14 H15 H 22 d HH ltac:(lia))).
  erewrite bind_done
    by (apply (St_readBitsPerPixel V lg q wr c bw bh bt ml Hl Hl30 H14 H15)).
  erewrite bind_done
    by (apply (St_readCompressionMethod V lg q wr c bw bh bt ml Hl Hl30 H14 H15)).
  erewrite bind_done
    by (apply (St_readOffset V lg q wr c bw bh bt ml Hl Hb Hl30)).
  rewrite H28, H30. change ((u8 1 =? 1) && (u8 0 =? 0)) with true. cbv iota.
  rewrite (u32_small W), (u32_small H), (i32_small W), (i32_small H) by lia.
  set (stem := strtok_dot (String.substring 0 29 (base_name q))) in *.
  assert (Hcap1 : strcat_into 30 stem ".cbm" = Done (stem ++ ".cbm")%string).
  { unfold strcat_into, strcpy_into. rewrite string_length_app. cbn [String.length].
    destruct (Nat.ltb_spec (String.length stem + 4) 30); [reflexivity | lia]. }
  assert (Hcap2 : strcat_into 50 "/enc/" (stem ++ ".cbm")
                  = Done ("/enc/" ++ stem ++ ".cbm")%string).
  { unfold strcat_into, strcpy_into. rewrite !string_length_app. cbn [String.length].
    match goal with |- context [(?a <? 50)%nat] =>
      destruct (Nat.ltb_spec a 50); [reflexivity | lia] end. }
  unfold modify at 1. unfold bind at 1.
  unfold set_dimensions, set_bitmap. cbn [sd sd_log file bitmap mappinglist type data].
  unfold file_getName at 1. unfold bind at 1. unfold get at 1. unfold bind at 1.
  unfold ret at 1. cbn [file h_path]. change (30 - 1)%nat with 29%nat. fold stem.
  unfold bind at 1. unfold lift at 1. rewrite Hcap1.
  unfold bind at 1. unfold lift at 1. rewrite Hcap2.
  unfold bind at 1. unfold SD_exists at 1. unfold bind at 1. unfold get at 1.
  unfold ret at 1. cbn [sd]. rewrite Hcomp.
  assert (Hrow0 : forall V' lg',
             V' !! q = Some (EFile c) ->
             encodeBitmap fuel (String.substring 0 29 (base_name q))
               ("/enc/" ++ stem ++ ".cbm")
               {| sd := V'; sd_log := lg';
                  file := Some {| h_path := q; h_pos := 14; h_write := wr |};
                  bitmap := {| width := W; height := H; type := bt; data := d |};
                  mappinglist := ml |}
             = Undefined (WritePastEnd (W / 8 + 1))).
  { intros V' lg' Hl'. apply encodeBitmap_starts_with_row_0.
    - lia.
    - cbn [bitmap width]. lia.
    - cbn [bitmap height]. lia.
    - apply (St_readMono40_overrun V' lg' q wr c W H bt ml Hl' Hb Hl32 W Hl30 H14 H15 HWf
               ltac:(lia) fuel 0 14 d ltac:(lia) ltac:(lia) Hnext Hfuel). }
  match goal with
  | |- context [bind (SD_exists "/enc") ?k ?st] =>
      destruct (enc_directory_step
                  (encodeBitmap fuel (String.substring 0 29 (base_name q))
                     ("/enc/" ++ stem ++ ".cbm")) st) as (V' & lg' & Hstep & Hkeep)
  end.
  rewrite Hstep. cbn [sd file bitmap mappinglist].
  rewrite (Hrow0 V' lg' (Hkeep q _ Hl)). reflexivity.
Qed.

Lemma getBitmap_encoding_overruns_the_row_buffer_witness :
  let c := bmp_mono 16 2 [1; 2; 0; 0; 3; 4; 0; 0] in
  let h := {| h_path := "a.bmp"; h_pos := 0; h_write := false |} in
  let s := fresh_store {[ "a.bmp"%string := EFile c ]} in
  let s1 := set_file (Some h) (log_event (EvOpen "a.bmp") s) in
  fileOpenToRead "a.bmp" s = Done (true, s1) /\
  open_on h c s1 /\ mono_header c 16 /\ 9 <= 16 < 65536 /\
  le_value c 22 = 2 /\ 1 <= 2 < 65536 /\
  byte_at c 28 = 1 /\ byte_at c 30 = 0 /\
  (String.length (strtok_dot (String.substring 0 29 (base_name (h_path h)))) + 4 < 30)%nat /\
  vol_exists (sd s1)
    ("/enc/" ++ strtok_dot (String.substring 0 29 (base_name (h_path h))) ++ ".cbm") = false /\
  row_start c 16 0 + row_padded 16 < Z.of_nat (length c) /\
  (Z.to_nat (16 / 8) + 2 <= 8)%nat /\
  getBitmap 8 "a.bmp" 0 0 s = Undefined (WritePastEnd (16 / 8 + 1)).
Proof.
  intros c h s s1.
  assert (Hopen : fileOpenToRead "a.bmp" s = Done (true, s1)) by (vm_compute; reflexivity).
  assert (Hon : open_on h c s1) by (split; reflexivity).
  assert (Hhdr : mono_header c 16).
  { split; [| split; [| split; [| split]]].
    - apply List.Forall_forall. intros b Hin. vm_compute in Hin.
      repeat (destruct Hin as [<- | Hin]; [lia |]). destruct Hin.
    - vm_compute. split; reflexivity.
    - reflexivity.
    - reflexivity.
    - reflexivity. }
  assert (HW : 9 <= 16 < 65536) by lia.
  assert (HH : le_value c 22 = 2) by reflexivity.
  assert (HHs : 1 <= 2 < 65536) by lia.
  assert (H28 : byte_at c 28 = 1) by reflexivity.
  assert (H30 : byte_at c 30 = 0) by reflexivity.
  assert (Hstem : (String.length (strtok_dot (String.substring 0 29 (base_name (h_path h))))
                   + 4 < 30)%nat) by (vm_compute; lia).
  assert (Hcomp : vol_exists (sd s1)
                    ("/enc/" ++ strtok_dot (String.substring 0 29 (base_name (h_path h)))
                     ++ ".cbm") = false) by (vm_compute; reflexivity).
  assert (Hnext : row_start c 16 0 + row_padded 16 < Z.of_nat (length c)) by reflexivity.
  assert (Hfuel : (Z.to_nat (16 / 8) + 2 <= 8)%nat) by (vm_compute; lia).
  repeat (split; [assumption |]).
  exact (getBitmap_encoding_overruns_the_row_buffer 8 s s1 "a.bmp" h c 16 2 0 0
           Hopen Hon Hhdr HW HH HHs H28 H30 Hstem Hcomp Hnext Hfuel).
Defined.

(** ** A scanline of the loaded row *)

Lemma findPixel_in_row (fuel : nat) (s : Storage) (r : list Z) (spare : heap_array)
    (st : bool) (i : Z) (k : nat) :
  data (bitmap s) = map Some r ++ spare ->
  (k < fuel)%nat -> 0 <= i -> i + Z.of_nat k < 32768 ->
  i + Z.of_nat k < 8 * Z.of_nat (length r) ->
  (forall j, i <= j < i + Z.of_nat k -> pixel r j = negb st) ->
  pixel r (i + Z.of_nat k) = st ->
  findPixel fuel st i s = Done (i + Z.of_nat k, s).
Proof.
  intros Hd Hfuel Hi H16 Hin Hbefore Hat.
  assert (Hcell : forall j, 0 <= j <= i + Z.of_nat k ->
            nth_error (data (bitmap s)) (Z.to_nat (j / 8))
            = Some (Some (nth (Z.to_nat (j / 8)) r 0))).
  { intros j Hj. rewrite Hd.
    assert (0 <= j / 8) by (apply Z.div_pos; lia).
    assert (j / 8 < Z.of_nat (length r)) by (apply Z.div_lt_upper_bound; lia).
    rewrite nth_error_app1 by (rewrite length_map; lia).
    rewrite nth_error_map.
    rewrite (nth_error_nth' r 0) by lia. reflexivity. }
  unfold findPixel, bind, get, lift, ret.
  rewrite (findPixel_loop_finds_first (data (bitmap s)) st k fuel i Hfuel Hi H16).
  - rewrite u16_small by lia. reflexivity.
  - intros m Hm.
    rewrite (bitset_translate_pixel (data (bitmap s)) (i + m) _ ltac:(lia)
               (Hcell (i + m) ltac:(lia))).
    f_equal. apply (Hbefore (i + m)). lia.
  - rewrite (bitset_translate_pixel (data (bitmap s)) (i + Z.of_nat k) _ ltac:(lia)
               (Hcell (i + Z.of_nat k) ltac:(lia))).
    f_equal. exact Hat.
Qed.

(** X29.  [findScanline] on the last row of the file returns the first run
    of set pixels.  When, from [index] on, the pixels of the row are clear
    up to [a], set from [a] up to [b] and clear at [b], with [b] inside
    the bytes of the row, the call returns [start = a] and [end = b],
    the buffer holding the row. *)
Theorem findScanline_returns_the_first_run
    (fuel : nat) (s : Storage) (h : handle) (c : list Z) (W row index a b : Z) :
  open_on h c s -> mono_header c W ->
  1 <= W < 65536 -> 0 <= row < 32768 ->
  row_start c W row + row_padded W = Z.of_nat (length c) ->
  0 <= index <= a -> a < b -> b < 8 * row_bytes W -> b < 32768 ->
  (forall j, index <= j < a -> pixel (row_of c W row) j = false) ->
  (forall j, a <= j < b -> pixel (row_of c W row) j = true) ->
  pixel (row_of c W row) b = false ->
  (Z.to_nat (W / 8) + 2 <= fuel)%nat -> (Z.to_nat (b - index) < fuel)%nat ->
  exists s',
    findScanline fuel row index s = Done ((a, b), s') /\
    data (bitmap s')
    = map Some (row_of c W row) ++ (if W mod 8 =? 0 then [None] else []) /\
    sd s' = sd s /\ sd_log s' = sd_log s /\ mappinglist s' = mappinglist s.
Proof.
  intros [Hf Hl] (Hb & [Hl30 Hl32] & H14 & H15 & HWf) HW Hrow Hlast
         Hia Hab Hbin Hb16 Hclear Hset Hend Hfuel Hfuel2.
  destruct s as [V lg f [bw bh bt d] ml]. cbn [file sd] in Hf, Hl. subst f.
  destruct h as [q k wr]. cbn [h_path] in Hl.
  assert (Hdiv : 0 <= W / 8) by (apply Z.div_pos; lia).
  assert (Hdiv32 : 0 <= W / 32) by (apply Z.div_pos; lia).
  assert (Hu8 : 0 <= u8 (le_value c 10) < 256) by (apply Z.mod_pos_bound; lia).
  assert (H0 : 0 <= row_start c W row) by (unfold row_start; nia).
  pose proof (row_bytes_cases W ltac:(lia)) as Hrb.
  pose proof (row_padded_cases W ltac:(lia)) as Hrp.
  pose proof (Z.mod_pos_bound (row_bytes W) 4 ltac:(lia)) as Hmod4.
  assert (Hlenr : Z.of_nat (length (row_of c W row)) = row_bytes W).
  { unfold row_of. rewrite length_firstn, length_skipn. lia. }
  assert (Hp1 : forall s1 spare,
             data (bitmap s1) = map Some (row_of c W row) ++ spare ->
             findPixel fuel true index s1 = Done (a, s1)).
  { intros s1 spare Hd.
    replace a with (index + Z.of_nat (Z.to_nat (a - index))) at 1 by lia.
    apply (findPixel_in_row fuel s1 (row_of c W row) spare true index
             (Z.to_nat (a - index)) Hd); try lia.
    - intros j Hj. apply Hclear. lia.
    - replace (index + Z.of_nat (Z.to_nat (a - index))) with a by lia.
      apply Hset. lia. }
  assert (Hp2 : forall s1 spare,
             data (bitmap s1) = map Some (row_of c W row) ++ spare ->
             findPixel fuel false (a + 1) s1 = Done (b, s1)).
  { intros s1 spare Hd.
    replace b with (a + 1 + Z.of_nat (Z.to_nat (b - (a + 1)))) at 1 by lia.
    apply (findPixel_in_row fuel s1 (row_of c W row) spare false (a + 1)
             (Z.to_nat (b - (a + 1))) Hd); try lia.
    - intros j Hj. apply Hset. lia.
    - replace (a + 1 + Z.of_nat (Z.to_nat (b - (a + 1)))) with b by lia.
      exact Hend. }
  eexists. split.
  - unfold findScanline. rewrite (u16_small row) by lia.
    erewrite bind_done
      by (apply (St_readMono40_last_row V lg q wr c bw bh bt ml Hl Hb Hl32 W Hl30 H14 H15 HWf
                   ltac:(lia) fuel row k d ltac:(lia) ltac:(lia) Hlast Hfuel)).
    fold (row_of c W row).
    erewrite bind_done by (eapply Hp1; reflexivity).
    cbv zeta. rewrite (i16_small a) by lia. rewrite (i16_small (a + 1)) by lia.
    erewrite bind_done by (eapply Hp2; reflexivity).
    rewrite (i16_small b) by lia. reflexivity.
  - cbn [bitmap data sd sd_log mappinglist].
    rewrite spare_cell by lia. repeat split; reflexivity.
Qed.

Lemma findScanline_returns_the_first_run_witness :
  let c := bmp_mono 16 2 [1; 2; 0; 0; 3; 4; 0; 0] in
  let h := {| h_path := "a.bmp"; h_pos := 0; h_write := false |} in
  let s := set_file (Some h) (fresh_store {[ "a.bmp"%string := EFile c ]}) in
  open_on h c s /\ mono_header c 16 /\ 1 <= 16 < 65536 /\ 0 <= 1 < 32768 /\
  row_start c 16 1 + row_padded 16 = Z.of_nat (length c) /\
  0 <= 0 <= 6 /\ 6 < 8 /\ 8 < 8 * row_bytes 16 /\ 8 < 32768 /\
  (forall j, 0 <= j < 6 -> pixel (row_of c 16 1) j = false) /\
  (forall j, 6 <= j < 8 -> pixel (row_of c 16 1) j = true) /\
  pixel (row_of c 16 1) 8 = false /\
  (Z.to_nat (16 / 8) + 2 <= 16)%nat /\ (Z.to_nat (8 - 0) < 16)%nat /\
  exists s',
    findScanline 16 1 0 s = Done ((6, 8), s') /\
    data (bitmap s')
    = map Some (row_of c 16 1) ++ (if 16 mod 8 =? 0 then [None] else []) /\
    sd s' = sd s /\ sd_log s' = sd_log s /\ mappinglist s' = mappinglist s.
Proof.
  intros c h s.
  assert (Hopen : open_on h c s) by (split; reflexivity).
  assert (Hhdr : mono_header c 16).
  { split; [| split; [| split; [| split]]].
    - apply List.Forall_forall. intros b Hin. vm_compute in Hin.
      repeat (destruct Hin as [<- | Hin]; [lia |]). destruct Hin.
    - vm_compute. split; reflexivity.
    - reflexivity.
    - reflexivity.
    - reflexivity. }
  assert (HW : 1 <= 16 < 65536) by lia.
  assert (Hrow : 0 <= 1 < 32768) by lia.
  assert (Hlast : row_start c 16 1 + row_padded 16 = Z.of_nat (length c)) by reflexivity.
  assert (Hia : 0 <= 0 <= 6) by lia.
  assert (Hab : 6 < 8) by lia.
  assert (Hbin : 8 < 8 * row_bytes 16) by (vm_compute; reflexivity).
  assert (Hb16 : 8 < 32768) by lia.
  assert (Hclear : forall j, 0 <= j < 6 -> pixel (row_of c 16 1) j = false).
  { intros j Hj.
    assert (E : j = 0 \/ j = 1 \/ j = 2 \/ j = 3 \/ j = 4 \/ j = 5) by lia.
    destruct E as [-> | [-> | [-> | [-> | [-> | ->]]]]]; reflexivity. }
  assert (Hset : forall j, 6 <= j < 8 -> pixel (row_of c 16 1) j = true).
  { intros j Hj. assert (E : j = 6 \/ j = 7) by lia.
    destruct E as [-> | ->]; reflexivity. }
  assert (Hend : pixel (row_of c 16 1) 8 = false) by reflexivity.
  assert (Hfuel : (Z.to_nat (16 / 8) + 2 <= 16)%nat) by (vm_compute; lia).
  assert (Hfuel2 : (Z.to_nat (8 - 0) < 16)%nat) by (vm_compute; lia).
  split; [exact Hopen |]. split; [exact Hhdr |]. split; [exact HW |].
  split; [exact Hrow |]. split; [exact Hlast |]. split; [exact Hia |].
  split; [exact Hab |]. split; [exact Hbin |]. split; [exact Hb16 |].
  split; [exact Hclear |]. split; [exact Hset |]. split; [exact Hend |].
  split; [exact Hfuel |]. split; [exact Hfuel2 |].
  exact (findScanline_returns_the_first_run 16 s h c 16 1 0 6 8 Hopen Hhdr HW Hrow Hlast
           Hia Hab Hbin Hb16 Hclear Hset Hend Hfuel Hfuel2).
Defined.

(** ** Receiving a file over [Serial1] *)

Lemma received_succ (input : nat -> Z) (from n : nat) :
  received input from (S n) = u8 (input from) :: received input (S from) n.
Proof.
  unfold received. cbn [seq map]. rewrite Nat.add_0_r. f_equal.
  rewrite <- seq_shift, map_map. apply map_ext. intros j. f_equal. f_equal. lia.
Qed.

Lemma received_length (input : nat -> Z) (from n : nat) :
  length (received input from n) = n.
Proof. unfold received. rewrite length_map, length_seq. reflexivity. Qed.

Lemma received_split (input : nat -> Z) (from a b : nat) :
  received input from (a + b) = received input from a ++ received input (from + a) b.
Proof.
  revert from. induction a as [| a IH]; intros from.
  - cbn [Nat.add app received seq map]. rewrite Nat.add_0_r. reflexivity.
  - cbn [Nat.add]. rewrite !received_succ, IH. cbn [app].
    replace (S from + a)%nat with (from + S a)%nat by lia. reflexivity.
Qed.

Section Receiving.

Variables (avail input : nat -> Z).

(** The wait ends at the first poll that is answered with a positive
    number; it reads and sends nothing. *)
Lemma Serial1_wait_answered :
  forall (n fuel : nat) (k : Link),
    (n < fuel)%nat -> 0 < avail (polls k + n)%nat ->
    exists k', Serial1_wait avail fuel k = Done k' /\
               reads k' = reads k /\ sent k' = sent k.
Proof.
  induction n as [| n IH]; intros fuel k Hfuel Hans;
    (destruct fuel as [| fuel]; [lia |]); cbn [Serial1_wait].
  - rewrite Nat.add_0_r in Hans.
    replace (avail (polls k) <=? 0) with false by (symmetry; apply Z.leb_gt; exact Hans).
    eexists. split; [reflexivity |]. split; reflexivity.
  - destruct (avail (polls k) <=? 0).
    + destruct (IH fuel {| polls := S (polls k); reads := reads k; sent := sent k |})
        as (k' & Hw & Hr & Hs).
      * lia.
      * cbn [polls]. replace (S (polls k) + n)%nat with (polls k + S n)%nat by lia. exact Hans.
      * exists k'. split; [exact Hw |]. split; [exact Hr | exact Hs].
    + eexists. split; [reflexivity |]. split; reflexivity.
Qed.

(** The block loop stores what the reads return, one cell after the
    other. *)
Lemma read_block_fills :
  forall (n z : nat) (buffer : heap_array) (k : Link),
    (z + n <= length buffer)%nat ->
    read_block input n (Z.of_nat z) buffer k
    = Done (firstn z buffer ++ map Some (received input (reads k) n)
            ++ skipn (z + n) buffer,
            {| polls := polls k; reads := reads k + n; sent := sent k |}).
Proof.
  induction n as [| n IH]; intros z buffer k Hfit.
  - cbn [read_block received seq map app]. rewrite !Nat.add_0_r, firstn_skipn.
    destruct k. reflexivity.
  - cbn [read_block Serial1_read fst snd]. unfold array_set.
    replace ((0 <=? Z.of_nat z) && (Z.of_nat z <? Z.of_nat (length buffer))) with true
      by (symmetry; apply andb_true_iff; split; [apply Z.leb_le | apply Z.ltb_lt]; lia).
    cbn [obind]. rewrite Nat2Z.id, list_set_split by lia.
    replace (Z.of_nat z + 1) with (Z.of_nat (S z)) by lia.
    rewrite IH.
    2:{ rewrite length_app, length_firstn. cbn [length]. rewrite length_skipn. lia. }
    cbn [reads polls sent]. rewrite received_succ. cbn [map].
    pose proof (firstn_write buffer (map Some (received input (S (reads k)) n)) z
                  (Some (u8 (input (reads k)))) ltac:(lia)) as E.
    rewrite length_map, received_length in E. cbn [length] in E.
    rewrite length_map, received_length in E.
    rewrite E. do 2 f_equal. f_equal. lia.
Qed.

Lemma read_block_200 (buffer : heap_array) (k : Link) :
  length buffer = 200%nat ->
  read_block input 200 0 buffer k
  = Done (map Some (received input (reads k) 200),
          {| polls := polls k; reads := reads k + 200; sent := sent k |}).
Proof.
  intros Hlen. change 0 with (Z.of_nat 0).
  rewrite read_block_fills by lia.
  cbn [firstn app Nat.add]. rewrite skipn_all2 by lia. rewrite app_nil_r. reflexivity.
Qed.

(** Writing the first [d] cells of a block that the reads have filled. *)
Lemma fileWriteData_array_block (q : string) (V : gmap string entry) (content : list Z)
    (s : Storage) (from d : nat) (amount : Z) :
  writing q V content s -> (d <= 200)%nat -> amount = Z.of_nat d ->
  exists s',
    fileWriteData_array (map Some (received input from 200)) amount s
    = Done (Z.of_nat d, s') /\
    writing q V (content ++ received input from d) s'.
Proof.
  intros Hw Hd ->.
  destruct (file_write_appends q V content (received input from d) s Hw)
    as (s' & Hwrite & Hw' & _).
  rewrite received_length in Hwrite.
  exists s'. split; [| exact Hw'].
  unfold fileWriteData_array.
  erewrite bind_done by (eapply file_isOpen_some; apply Hw).
  erewrite bind_done.
  2:{ unfold lift.
      replace 200%nat with (d + (200 - d))%nat by lia.
      rewrite received_split, map_app.
      pose proof (array_take_filled (received input from d)
                    (map Some (received input (from + d) (200 - d)))) as E.
      rewrite received_length in E. rewrite E. reflexivity. }
  unfold fileWriteData.
  erewrite bind_done by (eapply file_isOpen_some; apply Hw).
  exact Hwrite.
Qed.

End Receiving.

Section DownloadLoop.

Variables (fuel gap : nat) (avail input : nat -> Z).
Variables (q : string) (V : gmap string entry) (size : Z).

Hypothesis answered : forall m, exists n, (n < gap)%nat /\ 0 < avail (m + n)%nat.
Hypothesis gap_fuel : (gap <= fuel)%nat.
Hypothesis size_range : 0 <= size < 4294967296 - 200.

Lemma chunks_succ (d : Z) :
  1 <= d ->
  Z.to_nat ((d + 199) / 200) = S (Z.to_nat ((d - 200 + 199) / 200)).
Proof.
  intros Hd. replace (d + 199) with (d - 200 + 199 + 1 * 200) by lia.
  rewrite Z.div_add by lia.
  assert (0 <= (d - 200 + 199) / 200) by (apply Z.div_pos; lia). lia.
Qed.

(** The loop from a chunk boundary [i] on: every chunk costs one READY,
    one wait and 200 reads, and the file receives the bytes read up to
    the announced size. *)
Lemma download_loop_runs :
  forall (m n : nat) (i : Z) (content : list Z) (s : Storage) (k : Link)
         (buffer : heap_array),
    writing q V content s -> length buffer = 200%nat ->
    0 <= i -> size - i <= 200 * Z.of_nat m -> i < size + 200 -> (m < n)%nat ->
    exists k' s',
      download_loop fuel avail input n size i buffer k s = Done (k', s') /\
      writing q V (content ++ received input (reads k) (Z.to_nat (size - i))) s' /\
      reads k' = (reads k + 200 * Z.to_nat ((size - i + 199) / 200))%nat /\
      sent k' = sent k ++ repeat 7 (Z.to_nat ((size - i + 199) / 200)).
Proof.
  induction m as [| m IH]; intros n i content s k buffer Hw Hbuf Hi Hleft Hnear Hn;
    (destruct n as [| n]; [lia |]); cbn [download_loop];
    destruct (i <? size) eqn:Hlt;
    try (apply Z.ltb_lt in Hlt; lia).
  - apply Z.ltb_ge in Hlt.
    replace (Z.to_nat (size - i)) with 0%nat by lia.
    rewrite (Z.div_small (size - i + 199) 200) by lia.
    exists k, s. cbn [received seq map repeat Z.to_nat]. rewrite !app_nil_r, Nat.mul_0_r, Nat.add_0_r.
    split; [reflexivity |]. split; [exact Hw |]. split; reflexivity.
  - apply Z.ltb_lt in Hlt.
    destruct (answered (polls (Serial1_write 7 k))) as (n0 & Hn0 & Hans).
    destruct (Serial1_wait_answered avail n0 fuel (Serial1_write 7 k) ltac:(lia) Hans)
      as (k2 & Hwait & Hr2 & Hs2).
    cbn [Serial1_write reads sent] in Hr2, Hs2.
    erewrite bind_done by (unfold lift; rewrite Hwait; reflexivity).
    erewrite bind_done by (unfold lift; rewrite (read_block_200 input buffer k2 Hbuf); reflexivity).
    cbn [fst snd]. rewrite Hr2.
    rewrite (u32_small (size - i)) by lia. rewrite (u32_small (i + 200)) by lia.
    set (d := Z.to_nat (Z.min (size - i) 200)).
    assert (Hstore : exists s1,
               (if size - i <? 200
                then fileWriteData_array (map Some (received input (reads k) 200))
                       (u16 (size - i))
                else fileWriteData_array (map Some (received input (reads k) 200)) 200) s
               = Done (Z.of_nat d, s1) /\
               writing q V (content ++ received input (reads k) d) s1).
    { destruct (size - i <? 200) eqn:Hd.
      - apply Z.ltb_lt in Hd. rewrite u16_small by lia.
        apply (fileWriteData_array_block input q V content s (reads k) d _ Hw);
          unfold d; lia.
      - apply Z.ltb_ge in Hd.
        apply (fileWriteData_array_block input q V content s (reads k) d _ Hw);
          unfold d; lia. }
    destruct Hstore as (s1 & Hst & Hw1).
    erewrite bind_done by exact Hst.
    destruct (IH n (i + 200) _ s1
                {| polls := polls k2; reads := reads k + 200; sent := sent k2 |}
                (map Some (received input (reads k) 200)) Hw1)
      as (k' & s' & Hloop & Hw' & Hr' & Hs'); try lia.
    { rewrite length_map, received_length. reflexivity. }
    exists k', s'. split; [exact Hloop |].
    cbn [reads sent] in Hw', Hr', Hs'.
    replace (size - (i + 200)) with (size - i - 200) in Hw', Hr', Hs' by lia.
    rewrite (chunks_succ (size - i)) by lia.
    split; [| split].
    + rewrite <- app_assoc in Hw'.
      replace (received input (reads k) d
               ++ received input (reads k + 200) (Z.to_nat (size - i - 200)))
        with (received input (reads k) (Z.to_nat (size - i))) in Hw'; [exact Hw' |].
      destruct (Z.lt_ge_cases (size - i) 200) as [Hd | Hd].
      * replace (Z.to_nat (size - i - 200)) with 0%nat by lia.
        cbn [received seq map]. rewrite app_nil_r. f_equal. unfold d. lia.
      * replace d with 200%nat by (unfold d; lia).
        rewrite <- received_split. f_equal. lia.
    + rewrite Hr'. lia.
    + rewrite Hs', Hs2. rewrite <- app_assoc. reflexivity.
  - apply Z.ltb_ge in Hlt.
    replace (Z.to_nat (size - i)) with 0%nat by lia.
    rewrite (Z.div_small (size - i + 199) 200) by lia.
    exists k, s. cbn [received seq map repeat Z.to_nat]. rewrite !app_nil_r, Nat.mul_0_r, Nat.add_0_r.
    split; [reflexivity |]. split; [exact Hw |]. split; reflexivity.
Qed.

End DownloadLoop.

(** X30.  what [downloadFile] leaves in the file.  In a run in which every
    wait is answered within [gap] polls and the file can be opened, the
    size is the one value the first [read()] returns, converted to
    [uint32_t]; READY is sent once before it and once per chunk of 200;
    every chunk takes 200 reads whatever is left to receive; and the file
    ends up holding, in order, the low bytes of the first [size] values
    read after the size: a read that found nothing is stored as 255.
    The handle is closed at the end. *)
Theorem downloadFile_stores_the_bytes_read
    (fuel gap : nat) (avail input : nat -> Z) (p : string) (push : bool)
    (k : Link) (s s1 : Storage) :
  (forall m, exists n, (n < gap)%nat /\ 0 < avail (m + n)%nat) ->
  (gap <= fuel)%nat ->
  u32 (input (reads k)) < 4294967296 - 200 ->
  (Z.to_nat ((u32 (input (reads k)) + 199) / 200) < fuel)%nat ->
  fileOpenToWrite p true s = Done (true, s1) ->
  exists V k' s',
    creatable V p /\
    downloadFile fuel avail input p push k s = Done (k', s') /\
    sd s' = <[canon p := EFile (received input (S (reads k))
                                  (Z.to_nat (u32 (input (reads k)))))]> V /\
    file s' = None /\
    reads k' = (S (reads k) + 200 * Z.to_nat ((u32 (input (reads k)) + 199) / 200))%nat /\
    sent k' = sent k ++ (if push then [] else 2 :: bytes_of_string p)
              ++ repeat 7 (S (Z.to_nat ((u32 (input (reads k)) + 199) / 200))).
Proof.
  intros Hans Hgap Hsize Hfuel Hopen.
  set (size := u32 (input (reads k))) in *.
  assert (Hsize0 : 0 <= size) by (apply Z.mod_pos_bound; lia).
  destruct (fileOpenToWrite_overwrite_creates _ _ _ Hopen) as (V & Hcr & Hw).
  exists V.
  set (k0 := if negb push then Serial1_print p (Serial1_write 2 k) else k).
  assert (Hk0 : reads k0 = reads k /\
                sent k0 = sent k ++ (if push then [] else 2 :: bytes_of_string p)).
  { unfold k0. destruct push; cbn [negb Serial1_print Serial1_write reads sent].
    - rewrite app_nil_r. split; reflexivity.
    - rewrite <- app_assoc. split; reflexivity. }
  destruct Hk0 as [Hr0 Hs0].
  destruct (Hans (polls (Serial1_write 7 k0))) as (n0 & Hn0 & Hpos).
  destruct (Serial1_wait_answered avail n0 fuel (Serial1_write 7 k0) ltac:(lia) Hpos)
    as (k1 & Hwait & Hr1 & Hs1).
  cbn [Serial1_write reads sent] in Hr1, Hs1.
  assert (Hm : size - 0 <= 200 * Z.of_nat (Z.to_nat ((size + 199) / 200))).
  { pose proof (Z.div_mod (size + 199) 200 ltac:(lia)) as Hdm.
    pose proof (Z.mod_pos_bound (size + 199) 200 ltac:(lia)) as Hmb.
    assert (0 <= (size + 199) / 200) by (apply Z.div_pos; lia). lia. }
  destruct (download_loop_runs fuel gap avail input (canon p) V size Hans Hgap
              ltac:(lia) (Z.to_nat ((size + 199) / 200)) fuel 0 [] s1
              {| polls := polls k1; reads := S (reads k1); sent := sent k1 |}
              (new_array 200) Hw)
    as (k' & s2 & Hloop & Hw2 & Hr' & Hs'); try lia.
  { unfold new_array. rewrite repeat_length. reflexivity. }
  rewrite Z.sub_0_r in Hw2, Hr', Hs'. cbn [app reads sent] in Hw2, Hr', Hs'.
  destruct Hw2 as [Hf2 Hsd2].
  exists k'. eexists. split; [exact Hcr |]. split; [| split; [| split; [| split]]].
  - unfold downloadFile. fold k0.
    erewrite bind_done by (unfold lift; rewrite Hwait; reflexivity).
    cbv zeta. cbn [Serial1_read fst snd]. rewrite Hr1, Hr0 in *. fold size.
    rewrite (bind_done _ _ _ _ _ Hopen). cbn [negb].
    erewrite bind_done by exact Hloop.
    erewrite bind_done by (apply (fileClose_open _ _ Hf2)).
    reflexivity.
  - cbn [sd log_event set_file]. rewrite Hsd2, Hr1, Hr0. reflexivity.
  - reflexivity.
  - rewrite Hr', Hr1, Hr0. reflexivity.
  - rewrite Hs', Hs1, Hs0. rewrite <- !app_assoc. reflexivity.
Qed.

Lemma downloadFile_stores_the_bytes_read_witness :
  let avail := fun _ : nat => 1 in
  let input := fun n : nat =>
                 match n with
                 | 0%nat => 3 | 1%nat => 104 | 2%nat => 105 | 3%nat => 33 | _ => -1
                 end in
  let k := {| polls := 0; reads := 0; sent := [] |} in
  let s := fresh_store ∅ in
  let s1 := match fileOpenToWrite "note.txt" true s with
            | Done (_, t) => t
            | _ => s
            end in
  (forall m, exists n, (n < 1)%nat /\ 0 < avail (m + n)%nat) /\
  (1 <= 4)%nat /\
  u32 (input (reads k)) < 4294967296 - 200 /\
  (Z.to_nat ((u32 (input (reads k)) + 199) / 200) < 4)%nat /\
  fileOpenToWrite "note.txt" true s = Done (true, s1) /\
  exists V k' s',
    creatable V "note.txt" /\
    downloadFile 4 avail input "note.txt" false k s = Done (k', s') /\
    sd s' = <[canon "note.txt" := EFile (received input (S (reads k))
                                           (Z.to_nat (u32 (input (reads k)))))]> V /\
    file s' = None /\
    reads k' = (S (reads k) + 200 * Z.to_nat ((u32 (input (reads k)) + 199) / 200))%nat /\
    sent k' = sent k ++ (if false then [] else 2 :: bytes_of_string "note.txt")
              ++ repeat 7 (S (Z.to_nat ((u32 (input (reads k)) + 199) / 200))).
Proof.
  intros avail input k s s1.
  assert (Hans : forall m, exists n, (n < 1)%nat /\ 0 < avail (m + n)%nat).
  { intros m. exists 0%nat. split; [lia | reflexivity]. }
  assert (Hgap : (1 <= 4)%nat) by lia.
  assert (Hsize : u32 (input (reads k)) < 4294967296 - 200) by reflexivity.
  assert (Hfuel : (Z.to_nat ((u32 (input (reads k)) + 199) / 200) < 4)%nat)
    by (vm_compute; lia).
  assert (Hopen : fileOpenToWrite "note.txt" true s = Done (true, s1))
    by (vm_compute; reflexivity).
  split; [exact Hans |]. split; [exact Hgap |]. split; [exact Hsize |].
  split; [exact Hfuel |]. split; [exact Hopen |].
  exact (downloadFile_stores_the_bytes_read 4 1 avail input "note.txt" false k s s1
           Hans Hgap Hsize Hfuel Hopen).
Defined.
